(* ===== verification/_CoqProject ===== *)
-Q . S2P
Prelude.v
Json.v
Store.v
StateData.v
DataStore.v
ControlMap.v
ControlMapPool.v
Client.v
States.v
World.v
Controller.v
Handlers.v
Mender.v
Scenario.v
Triples.v
Recovery.v
Restart.v
WrapUp.v
Aborted.v
Depends.v
Commit.v
Boot.v
Names.v
Text.v
Os.v
Devices.v
BootEnv.v
FileBootEnv.v
FileEnvLaws.v
FileEnvVars.v
DualRootfs.v
DualRootfsSpec.v
BootProtocol.v
BootScenario.v
UBootEnv.v
Manifest.v
Standalone.v
History.v
StandaloneStore.v
StandaloneSpec.v
StandaloneUndo.v
StandaloneScenario.v
StateScripts.v
StateScriptsSpec.v
StateScriptsSelect.v
StateScriptsScenario.v
Resumer.v
ResumerSpec.v
ModuleDownload.v
ModuleDownloadSpec.v
ModuleDownloadCalls.v
Modules.v
ModulesSpec.v
ModulesScenario.v
BlockDevice.v
BlockDeviceSpec.v
StoreUpdateSpec.v
Installer.v
InstallerSpec.v
ReauthClient.v
ReauthClientSpec.v
DirStore.v
Keystore.v
KeystoreSpec.v
Auth.v
AuthSpec.v
AuthManager.v
AuthManagerSpec.v
KeyVal.v
DeploymentLog.v
Decode.v
ServerApi.v
ServerApiSpec.v
FetchUpdate.v
DeploymentLogSpec.v
Supervisor.v
Tunnel.v
Pty.v
Tls.v
Configuration.v
