(* ===== verification/Prelude.v ===== *)
(** * The OTA-Pulse update agent: a model and its correctness

    The agent under [src/soc-ota-agent] (Go, derived from the Mender client)
    installs updates on a device: it polls a server for a deployment, downloads
    the artifact, hands the payloads to installers, reboots, commits or rolls
    back, and reports.  Because the device may lose power at any time, what it
    does next is always derived from a small database.  This development models
    the agent's core - the database and what is kept in it, the control maps that
    pause or fail an update, the state machine and its loop - and proves what
    makes it correct, for any behaviour of the outside.

    ** The parts and the files

    - [Prelude]: Go's errors ([error], [IsNotExist], [Cause]), results, 64-bit
      integers with their wrap-around ([int64]), tactics and generic lemmas.
    - [Json]: JSON texts as encoding/json writes and reads them, with the round
      trip [unmarshal_marshal_text].
    - [Store] (store/store.go, mem_store.go, dbstore.go): the interfaces
      [Transaction] and [Store] as classes, what they promise as classes of laws
      ([TransactionLaws], [StoreLaws]), [MemStore] and [DBStore] as instances.
      LMDB, which is not in the sources, is the class [Lmdb] with its documented
      laws.  [ReliableStore] adds that nothing fails; [MapStore] is a map that
      satisfies everything and on which the examples run.
    - [StateData] (datastore/statedata.go, dbkeys.go): the persisted structures
      and their JSON codec.
    - [DataStore] (datastore/datastore.go): storing and loading state data with
      the loop counter and the schema migration, loading provides, and what is
      written when an artifact is committed.
    - [ControlMap] (app/updatecontrolmap) and [ControlMapPool]
      (app/updatemanager.go): update control maps and the pool that answers what
      to do in a state.
    - [Client] (client/client.go, client_status.go, client_log.go): the
      exponential backoff and the meaning of the server's answers.
    - [States] (app/transition.go, app/error.go, the data of app/state.go): the
      states as an inductive type with what each carries, their identifiers and
      transitions.  A state's mutable fields are arguments of its constructor; a
      handler that changes them stores the changed state back as the current one.
    - [World]: the calls to the outside ([Call], [answer]) answered by an
      environment ([Env]), and the world of a handler: database, environment,
      context (StateContext), pool, installers, current state.  Handlers are
      programs of a state monad.  A history of calls and database contents is
      kept for the statements; a process that is killed leaves one of the
      recorded contents behind.
    - [Controller] (app/mender.go, device/device.go, utils/compare.go): the
      methods the states call.
    - [Handlers] (app/state.go): [Handle] and [HandleError] of every state.
    - [Mender] (app/mender.go, app/daemon.go): [transitionState], the start-up
      ([HandleBootstrapArtifact]) and the loop of the daemon ([turn], [loop]).
    - [Scenario]: concrete environments and a run of a whole update.
    - [Triples]: the program logic [wp] and its rules.
    - [Recovery], [Restart], [WrapUp], [Commit], [Names], [Aborted], [Boot],
      [Depends]: the theorems about the state machine.
    - [Text]: the functions of strings and strconv that the files below call,
      on [string], and lines as bufio.Scanner splits them, with its limit.
    - [Os]: the operating system as a class [Os] with laws [OsLaws], programs
      that may fail ([IO]) and the rules [steps] and [writes_only] about what a
      program may change; [SimOs] is a file system in a map.
    - [Devices] (installer/partitions.go): partition numbers, mount points,
      links and device files.
    - [BootEnv] (installer/bootenv.go): the interface of a boot environment as a
      class, what it promises ([BootEnvLaws]), and when the variables of a boot
      environment agree with each other ([coherent]).
    - [FileBootEnv], [FileEnvLaws], [FileEnvVars] (installer/file_bootenv.go):
      the boot environment in files, the order of its writes, and the instance
      of [BootEnvLaws].
    - [UBootEnv] (installer/bootenv.go): the boot environment
      behind the U-Boot tools fw_printenv and fw_setenv, the instance of
      [BootEnvLaws], and a concrete pair of tools.
    - [DualRootfs], [DualRootfsSpec] (installer/partitions.go,
      dual_rootfs_device.go): the installer with two root partitions, on any
      [BootEnvReadWriter].
    - [BootProtocol], [BootScenario]: the abstract protocol between installer,
      boot loader and variables, and the refinement theorem; a concrete device.
    - [Manifest] (app/standalone.go, device/device.go): the manifest data and
      the verification keys the device answers with.
    - [Standalone] (app/standalone.go, datastore/standalone_data.go): the
      commands install, commit and rollback of a user, without the daemon, with
      the database and the codec of the data kept between two commands.
    - [History]: the judgement [hwp] about what a command has done, over a
      history of the operations on installers and scripts.  [StandaloneSpec],
      [StandaloneUndo], [StandaloneStore]: the theorems about the commands;
      [StandaloneScenario]: concrete devices.
    - [StateScripts] (statescript/executor.go, store.go): choosing, running,
      retrying and storing state scripts, on a class [ScriptOs] of directories,
      processes and a clock.  [StateScriptsSpec], [StateScriptsSelect],
      [StateScriptsScenario]: theorems and examples.
    - [Resumer], [ResumerSpec] (client/update_resumer.go):
      the reader that resumes a broken download, on a class [Http].
    - [ModuleDownload], [ModuleDownloadSpec], [ModuleDownloadCalls]
      (installer/modules.go): the loop that streams payloads to an update module.  The Go code is four goroutines and a child
      process around channels and pipes; it is a step function over their states,
      one event at a time, driven by any schedule.
    - [Modules], [ModulesSpec], [ModulesScenario] (installer/modules.go): the
      installer of one update module, its working tree, the queries and the
      operations, and the factory, on [Os].
    - [BlockDevice], [BlockDeviceSpec] (installer/block_device.go,
      utils/limited_writer.go): opening, writing in chunks, closing a block
      device, on a class [BlockOs].  [StoreUpdateSpec]: the storing of an image
      by the installer with two root partitions, down to the bytes.

    - [Installer], [InstallerSpec] (installer/installer.go,
      stub_installer.go): reading the headers of an artifact, with the check of
      its signature and of the device it is for, choosing and making the
      installers, storing the payloads.
    - [ReauthClient], [ReauthClientSpec] (client/client.go, soc_client.go): the
      clients that send requests with a token, or with a key that is read again
      when it is refused.
    - [DirStore], [Keystore], [KeystoreSpec] (store/dirstore.go, keystore.go): the
      store in a directory, and the device's key in it.
    - [Auth], [AuthSpec] (app/auth.go, app/client_closures.go, client/auth.go,
      client_auth.go): the request for a token, and the servers that are asked.
      [AuthManager], [AuthManagerSpec] (app/auth.go): the main loop, the worker and the callers of [Authorize], as a step function
      over their program counters and the channels between them.
    - [KeyVal] (utils/kvparser.go, device/identity_data.go,
      inventory/inventory_data.go, client/inventory.go): identity and inventory
      from what helper programs print, on a class [Tools].
    - [Decode]: JSON decoding that says what a failed decoding leaves behind,
      and that it agrees with the decoders of [StateData].
    - [ServerApi], [ServerApiSpec] (client/client_update.go,
      client_inventory.go): the update check, the control map of a deployment and
      the report of the inventory, on the interface [ApiRequester], of which the
      client of [ReauthClient] is an instance.
    - [FetchUpdate] (client/client_update.go, network_quality.go): the start of a
      download, which hands the body of the answer to [Resumer].
    - [DeploymentLog], [DeploymentLogSpec]
      (app/deployment_logger.go, deployment_log_hook.go): the numbered log files,
      on a class [LogFs] with laws.
    - [Supervisor] (tunnel/supervisor.go): the supervisor of the tunnel's child
      process, as a step function over supervisor, child and clock; the writer
      that cuts the output of the child into lines.
    - [Tunnel] (tunnel/config.go, creds.go, cmd/soc-ota-tunneld/main.go): the
      configuration of the tunnel's daemon, the text rendered for the child, the
      private files, and the daemon up to the supervisor, on a class [TunnelFs]
      with laws.
    - [Pty] (tunnel/pty.go): the user that the shell of a remote terminal runs as,
      and the session as a step function over session, shell and clock.
    - [Tls] (client/client.go): the TLS context of a configuration, the connection
      to a server, direct or through a proxy, and the clients; OpenSSL, the files
      of certificates and the network are classes.
    - [Configuration] (conf/config.go, paths.go): the two configuration files,
      their validation, what [Tls] gets of them, and saving one.

    The interfaces are classes: everything above [Store] is proved for any store
    with the laws, everything about handlers for any environment, everything
    about the dual root file system for any boot environment with its laws, of
    which there are two instances, and everything about the server's API for
    anything that sends requests.  The state machine calls the boot environment,
    the installers, the logs and the server through [World], whose environment
    may answer anything; the files below model what such a call does.

    ** What the theorems show

    - Crash safety ([Recovery], [Restart]): each operation of an installer, each
      write of payloads and each reboot happens while the database names the
      update and a state it belongs to ([actions_are_recorded]), and a process
      started on that database resumes as the operation requires
      ([crash_recovery]): an interrupted installation or first commit is rolled
      back or flagged, never repeated.
    - Commit ([Commit], [Names], [DataStore]): the new artifact's name and
      provides are written in one transaction with the state, after the first
      payload is committed, or not at all; nothing else writes the name except
      to flag it.
    - Termination ([WrapUp], [DataStore], [Boot]): from the first commit on the
      loop is idle after at most 49 turns without a rollback; the store counter
      breaks loops within one boot, and, depending on its parity, loops of
      reboots.
    - Aborted deployments ([Aborted]): nothing is done to the device once the
      server has aborted.
    - Persistence ([StateData], [DataStore], [Store]): round trips, migration,
      transactions that happen as a whole or not at all.
    - Control maps ([ControlMapPool]): which action the pool answers, that the
      answer depends neither on the sort nor on a restart, and the pool's
      invariant.
    - Server ([ServerApiSpec], [ReauthClientSpec], [FetchUpdate]): which endpoints
      an update check asks and in which order; what an update that is taken has
      been checked for; that what the server offers is what the controller gets;
      which part of a broken answer is used; how often a request is sent again,
      and the key read again; how a download starts.
    - Authorisation ([AuthSpec], [AuthManagerSpec], [KeystoreSpec]): the token is
      the first that a server of the configuration gave for a signed request;
      every call of [Authorize] ends, with an answer that was broadcast after the
      call began, unless D-Bus asks without end or the process panics on a short
      token; a key that was saved is the key that is loaded, and a save that fails
      or is killed leaves the old one.
    - Inventory ([KeyVal]): the inventory has the values that the programs
      printed, in order.
    - Logs ([DeploymentLogSpec]): the log files implement a queue of the last five
      deployments; what was logged is what is read.
    - Decisions ([Depends], [Client]): the dependency check and the backoff
      against their meaning.
    - Boot environment ([FileEnvLaws], [FileEnvVars], [UBootEnv]): a variable
      that was written is read back and no other variable changes; a file that
      says an update is pending is written after the boot partition, so that
      power lost at any write leaves the old system or the whole switch.  The
      partition that the boot loader reads is synchronised in between, if there is
      one ([synced]).
    - Two partitions ([BootProtocol]): the update goes to the partition that is
      not running; a rollback boots the old one again, before or after the
      reboot; commit clears the flag; the operations implement an abstract
      machine of four states ([installer_refines_protocol]).  The script of a board
      that switches the slot may write the flag and the slot's partition itself, and
      nothing else of what the installer reads ([SwitchScript]).
    - Standalone commands ([StandaloneSpec], [StandaloneUndo],
      [StandaloneStore]): the database names an artifact, by the name in its
      headers or in the data it waited with, only if its payloads are committed; a failed installation is rolled back and ended as failed;
      what one command stores the next one restores.
    - State scripts ([StateScriptsSpec], [StateScriptsSelect]): the scripts of a
      transition, and no others, run in order, the first that fails ends it, and
      retries end, but for a script whose standard error is kept open; which scripts belong to it; a stored script stays in its directory.
    - Downloads ([ResumerSpec]): whatever breaks, what is read is a prefix of
      the artifact, the whole of it if a regular end is reported, and the
      requests are bounded.
    - Update modules ([ModuleDownloadSpec], [ModuleDownloadCalls],
      [ModulesSpec]): a download that ends without an error has given the module
      every stream in order and in full, or left the rest in its directory; a
      call of the download always ends, apart from one crossing of messages in
      which the client waits for ever; an installer writes in its own working
      tree only.
    - Installation ([InstallerSpec]): without a signature by one of the keys, or
      for another device, nothing is stored and no installer made; the installers
      that are made after a restart are those the artifact was read with.
    - Images ([BlockDeviceSpec], [StoreUpdateSpec]): an image that was stored
      without an error is on the other partition byte by byte, followed by what
      was there, and no other device has changed.
    - Tunnel ([Supervisor], [Tunnel]): there is never more than one child, starts
      are spaced by the backoff, and a supervisor that is told to stop does so
      within three steps of its own, or four when it was about to start the
      program, which it then does; a daemon that starts has a valid
      configuration and has written it, complete and private, for the child, and
      no value adds a line to it.
    - Remote terminal ([Pty]): the shell is root's only if the caller named root; a
      session that is closed ends within three steps, with its shell reaped.
    - Connections ([Tls], [Configuration]): unless the configuration says so, an
      agent gets no connection over https whose certificate OpenSSL did not verify
      (a URL with http is not refused, and goes without TLS); the
      certificates of the client are those of its file, in order; no key of the
      configuration is lost, although two files with a key are refused; a
      configuration that is saved is read back as it was.

    ** Bounds and fuel

    Go's [int] is a 64-bit integer: additions that can overflow go through
    [int64].  Fuel is used by the JSON reader (the length of the text, enough
    because each step consumes a character) and by the backoff's loop (enough by
    [GetExponentialBackoffTime_spec], which gives the result).  The loop of the
    daemon is a function of a list of ticks, one per turn.  [FormatInt] has 64
    digits of fuel, more than a 64-bit number has in any base.  A script is retried
    until its time is over: [StateScriptsSpec] computes how many attempts are
    enough from the interval and the time.  The backoff gives up after at most 84
    requests, so that fuel 86 is enough for the loops of [Resumer]; the theorem
    says that the result is there, the same for all greater fuel.  A call of the download to an
    update module ends after at most 25 events, and one more for each writer an
    earlier call abandoned ([ModuleDownloadCalls]); the loop that doubles the
    chunk size of a block device up to one mebibyte has fuel 64, enough for any
    positive sector size ([chunk_loop_ends]).  The attempts to
    write a file of the boot environment are the loop's own bound, 15.

    A request of the client that fetches tokens takes at most two passes
    ([Reauth_Do_spec]: fuel 2 is enough).  A call of [Authorize] is answered after
    at most 7 * 1024 + 22 steps of program, main loop and worker, and seven more for
    each request from D-Bus between them ([Authorize_ends]).  The scanner's limit is that of the
    library, 64 KiB.  Log files are renamed up to the number 9999, with which the
    order of their names is that of their numbers.  The backoff of the supervisor is
    computed with exact fractions, where the program has float64, and a time is
    rounded down.  The loop that cuts lines has the length of the text as fuel;
    each round takes a character.

    ** What is not modelled

    Input and output are outside: the transport of HTTP with TLS and proxies,
    files, child processes, OpenSSL, D-Bus and ioctl are classes or answers of the
    environment, and so are the cryptographic operations.  What the program
    writes to its own log is left out, but not the hook that keeps it for a
    deployment.  Goroutines are modelled where the program's own protocol needs
    them (the download to an update module, the authorisation manager); elsewhere
    their results are answers.  A panic ends the handler with the cancelled flag,
    is an outcome of its own in [ServerApi] and ends everything in [AuthManager].  Of the dual root file system:
    rebooting, UBI volumes' ioctl, and the delays between attempts.  Of the
    standalone commands: fetching the artifact and its headers.  Of the state
    scripts: their output, but for the wait for its end, which may not come.  In a
    download to an update module, waiting for a pipe in [cancel] is one step, as
    often as the pipe is opened, and the bytes of an artifact are there to be
    copied.  Of the authorisation: cleaning old tokens
    at the start, starting after a stop, and the reader of the monitoring key's
    file.  The state machine calls the scripts, the installers, the logs and the
    server through the environment of [World], not through the files that model
    them.  Numbers in JSON texts are integers.  Which characters outside ASCII can
    be printed, for the verb %q, is an argument.  Left out for good: proxy, D-Bus
    bindings, command line and set-up. *)

From stdpp Require Export base gmap strings list sorting.
From Stdlib Require Export ZArith Lia.

(** ** Go errors *)

(** An [error] value of the program.  The sentinel errors the code compares
    with [==], [errors.Is], [errors.Cause] or [os.IsNotExist] are constructors;
    every other error is known only by its text.  [EWrap] is
    [errors.Wrap]/[Wrapf], [EMender] a [*MenderError] used as a plain error. *)
Inductive error : Type :=
  | ErrNotExist                          (* os.ErrNotExist *)
  | MaximumStateDataStoreCountExceeded   (* datastore *)
  | ErrNoDeploymentAvailable             (* client *)
  | ErrDeploymentAborted                 (* client *)
  | ErrNotAuthorized                     (* client *)
  | MaxRetriesExceededError              (* client *)
  | errNoArtifactName                    (* app *)
  | NoUpdateMapsErr                      (* app *)
  | NoTransactionSupport                 (* store *)
  | EText (msg : string)
  | EWrap (msg : string) (cause : error)
  | EMender (fatal : bool) (cause : error).

#[export] Instance error_eq_dec : EqDecision error.
Proof. solve_decision. Defined.

(** [errors.Cause] / the [Unwrap] chain: the innermost error. *)
Fixpoint Cause (e : error) : error :=
  match e with
  | EWrap _ c => Cause c
  | EMender _ c => Cause c
  | e => e
  end.

(** [errors.Is e target] for a sentinel target. *)
Fixpoint error_Is (e target : error) : bool :=
  bool_decide (e = target) ||
  match e with
  | EWrap _ c => error_Is c target
  | EMender _ c => error_Is c target
  | _ => false
  end.

(** [os.IsNotExist] does not look through [errors.Wrap]. *)
Definition IsNotExist (e : error) : bool := bool_decide (e = ErrNotExist).

(** [io.EOF], which readers return as it is. *)
Definition EOF : error := EText "EOF".

(** ** Fallible results *)

Inductive result (A : Type) : Type :=
  | Ok (a : A)
  | Err (e : error).
Arguments Ok {A} a.
Arguments Err {A} e.

#[export] Instance result_ret : MRet result := fun A a => Ok a.
#[export] Instance result_bind : MBind result := fun A B f m =>
  match m with Ok a => f a | Err e => Err e end.
#[export] Instance result_fmap : FMap result := fun A B f m =>
  match m with Ok a => Ok (f a) | Err e => Err e end.

Definition is_ok {A} (r : result A) : bool :=
  match r with Ok _ => true | Err _ => false end.

(** The error half of a [(value, error)] pair. *)
Definition err_of {A} (r : result A) : option error :=
  match r with Ok _ => None | Err e => Some e end.

(** ** 64-bit machine integers *)

Open Scope Z_scope.

Definition int64_min : Z := - 2 ^ 63.
Definition int64_max : Z := 2 ^ 63 - 1.

(** Two's complement wrap-around of Go's [int], [int64], [time.Duration]. *)
Definition int64 (z : Z) : Z := (z + 2 ^ 63) mod 2 ^ 64 - 2 ^ 63.

(** [uint64]. *)
Definition uint64 (z : Z) : Z := z mod 2 ^ 64.

Lemma int64_id z : int64_min <= z <= int64_max -> int64 z = z.
Proof.
  unfold int64, int64_min, int64_max. intros H.
  rewrite Z.mod_small; lia.
Qed.

Lemma int64_range z : int64_min <= int64 z <= int64_max.
Proof.
  unfold int64, int64_min, int64_max.
  pose proof (Z.mod_pos_bound (z + 2 ^ 63) (2 ^ 64) ltac:(lia)). lia.
Qed.

(** ** Lists *)

(** The index loop [for n, x := range xs]. *)
Definition enumerate {A} (l : list A) : list (nat * A) := zip (seq 0 (length l)) l.

(** Key lookup in an association list, the last binding winning (the way a
    decoder that overwrites a field behaves). *)
Fixpoint assoc_last {A} (p : string -> bool) (l : list (string * A)) : option A :=
  match l with
  | [] => None
  | (k, v) :: l' =>
      match assoc_last p l' with
      | Some r => Some r
      | None => if p k then Some v else None
      end
  end.

(** ** Tactics *)

(** Destructs one [match] or [if] scrutinee of the goal or a hypothesis. *)
Ltac case_one :=
  match goal with
  | |- context [match ?x with _ => _ end] =>
      lazymatch x with
      | context [match _ with _ => _ end] => fail
      | _ => let E := fresh "E" in destruct x eqn:E
      end
  | H : context [match ?x with _ => _ end] |- _ =>
      lazymatch x with
      | context [match _ with _ => _ end] => fail
      | _ => let E := fresh "E" in destruct x eqn:E
      end
  end.

Ltac case_all := repeat (case_one; simplify_eq/=).

(** Turns boolean comparisons into propositions. *)
Ltac b2p :=
  repeat match goal with
  | H : (_ && _) = true |- _ => apply andb_true_iff in H; destruct H
  | H : (_ || _) = false |- _ => apply orb_false_iff in H; destruct H
  | H : negb _ = true |- _ => apply negb_true_iff in H
  | H : negb _ = false |- _ => apply negb_false_iff in H
  | H : bool_decide _ = true |- _ => apply bool_decide_eq_true_1 in H
  | H : bool_decide _ = false |- _ => apply bool_decide_eq_false_1 in H
  | H : (_ <? _) = true |- _ => apply Z.ltb_lt in H
  | H : (_ <? _) = false |- _ => apply Z.ltb_ge in H
  | H : (_ <=? _) = true |- _ => apply Z.leb_le in H
  | H : (_ <=? _) = false |- _ => apply Z.leb_gt in H
  | H : (_ =? _) = true |- _ => apply Z.eqb_eq in H
  | H : (_ =? _) = false |- _ => apply Z.eqb_neq in H
  end.

Create HintDb ota.
