(* ===== verification/Json.v ===== *)
(** * Json: the fragment of Go's [encoding/json] the client relies on

    Everything the client keeps in its database across reboots is JSON text
    ([json.Marshal] / [json.Unmarshal] in datastore/datastore.go,
    app/updatemanager.go, app/standalone.go).  This file models the text level:
    a document type, the compact printer of [json.Marshal] and a parser, and
    proves that the parser inverts the printer on every document.

    Fragment: numbers are the integers in canonical decimal notation (no field
    of the stored structures is a float); strings are byte strings, bytes from
    128 up are copied in both directions (valid UTF-8 without U+2028/U+2029),
    and the only backslash-u escapes are the ones the printer itself emits (code points
    below 128). *)

From S2P Require Import Prelude.
From Stdlib Require Import Ascii DecimalString DecimalZ.

Open Scope Z_scope.

Inductive json : Type :=
  | JNull
  | JBool (b : bool)
  | JNum (z : Z)
  | JStr (s : string)
  | JArr (l : list json)
  | JObj (l : list (string * json)).

(** Induction that goes through the nested lists. *)
Section json_induction.
Variable P : json -> Prop.
Hypothesis Hnull : P JNull.
Hypothesis Hbool : forall b, P (JBool b).
Hypothesis Hnum : forall z, P (JNum z).
Hypothesis Hstr : forall s, P (JStr s).
Hypothesis Harr : forall l, Forall P l -> P (JArr l).
Hypothesis Hobj : forall l, Forall (fun kv => P kv.2) l -> P (JObj l).

Fixpoint json_nested_ind (j : json) : P j :=
  match j with
  | JNull => Hnull
  | JBool b => Hbool b
  | JNum z => Hnum z
  | JStr s => Hstr s
  | JArr l =>
      Harr l ((fix go l : Forall P l :=
                 match l with
                 | [] => Forall_nil_2 _
                 | x :: l => Forall_cons_2 _ _ _ (json_nested_ind x) (go l)
                 end) l)
  | JObj l =>
      Hobj l ((fix go l : Forall (fun kv => P kv.2) l :=
                 match l with
                 | [] => Forall_nil_2 _
                 | (k, x) :: l =>
                     Forall_cons_2 _ (k, x) _ (json_nested_ind x) (go l)
                 end) l)
  end.
End json_induction.

(** ** Printing

    Every printer takes the text that follows, so that no concatenation has to
    be reassociated. *)

Definition num_text (z : Z) : string := NilZero.string_of_int (Z.to_int z).

Definition hex_digit (n : nat) : ascii :=
  ascii_of_nat (if (n <? 10)%nat then 48 + n else 87 + n).

(** The escapes of [json.Marshal]: quote, backslash, control characters, and
    the HTML-sensitive characters. *)
Definition escape (c : ascii) (rest : string) : string :=
  if bool_decide (c = "034"%char) then String "\" (String "034" rest)
  else if bool_decide (c = "\"%char) then String "\" (String "\" rest)
  else if bool_decide (c = "010"%char) then String "\" (String "n" rest)
  else if bool_decide (c = "013"%char) then String "\" (String "r" rest)
  else if bool_decide (c = "009"%char) then String "\" (String "t" rest)
  else if (nat_of_ascii c <? 32)%nat || bool_decide (c = "<"%char)
          || bool_decide (c = ">"%char) || bool_decide (c = "&"%char) then
    String "\" (String "u" (String "0" (String "0"
      (String (hex_digit (nat_of_ascii c / 16))
        (String (hex_digit (nat_of_ascii c mod 16)) rest)))))
  else String c rest.

Fixpoint print_chars (s rest : string) : string :=
  match s with
  | EmptyString => rest
  | String c s => escape c (print_chars s rest)
  end.

Definition print_string (s rest : string) : string :=
  String "034" (print_chars s (String "034" rest)).

Fixpoint print (j : json) (rest : string) : string :=
  match j with
  | JNull => "null" +:+ rest
  | JBool true => "true" +:+ rest
  | JBool false => "false" +:+ rest
  | JNum z => num_text z +:+ rest
  | JStr s => print_string s rest
  | JArr [] => "[]" +:+ rest
  | JArr l =>
      String "[" ((fix go l :=
        match l with
        | [] => String "]" rest
        | x :: l' => print x (match l' with [] => go l' | _ => String "," (go l') end)
        end) l)
  | JObj [] => "{}" +:+ rest
  | JObj l =>
      String "{" ((fix go l :=
        match l with
        | [] => String "}" rest
        | (k, x) :: l' =>
            print_string k (String ":"
              (print x (match l' with [] => go l' | _ => String "," (go l') end)))
        end) l)
  end.

(** [json.Marshal] of a document. *)
Definition marshal_text (j : json) : string := print j EmptyString.

(** ** Parsing *)

Definition is_ws (c : ascii) : bool :=
  bool_decide (c = " "%char) || bool_decide (c = "009"%char)
  || bool_decide (c = "010"%char) || bool_decide (c = "013"%char).

Fixpoint skip_ws (s : string) : string :=
  match s with
  | String c s' => if is_ws c then skip_ws s' else s
  | EmptyString => s
  end.

Definition is_num_char (c : ascii) : bool :=
  bool_decide (c = "-"%char) || ((48 <=? nat_of_ascii c) && (nat_of_ascii c <=? 57))%nat.

Fixpoint take_num (s : string) : string * string :=
  match s with
  | String c s' =>
      if is_num_char c then let '(d, r) := take_num s' in (String c d, r)
      else (EmptyString, s)
  | EmptyString => (EmptyString, EmptyString)
  end.

(** Only canonical decimals: the text must print back to itself. *)
Definition parse_num (s : string) : option (Z * string) :=
  let '(d, r) := take_num s in
  match NilZero.int_of_string d with
  | Some i =>
      let z := Z.of_int i in
      if bool_decide (num_text z = d) then Some (z, r) else None
  | None => None
  end.

Definition hex_val (c : ascii) : option nat :=
  let n := nat_of_ascii c in
  if ((48 <=? n) && (n <=? 57))%nat then Some (n - 48)%nat
  else if ((97 <=? n) && (n <=? 102))%nat then Some (n - 87)%nat
  else if ((65 <=? n) && (n <=? 70))%nat then Some (n - 55)%nat
  else None.

Fixpoint parse_chars (s : string) : option (string * string) :=
  match s with
  | EmptyString => None
  | String c s' =>
      if bool_decide (c = "034"%char) then Some (EmptyString, s')
      else if bool_decide (c = "\"%char) then
        match s' with
        | String e s'' =>
            let plain c := match parse_chars s'' with
                           | Some (t, r) => Some (String c t, r)
                           | None => None
                           end in
            if bool_decide (e = "034"%char) then plain "034"%char
            else if bool_decide (e = "\"%char) then plain "\"%char
            else if bool_decide (e = "/"%char) then plain "/"%char
            else if bool_decide (e = "b"%char) then plain "008"%char
            else if bool_decide (e = "f"%char) then plain "012"%char
            else if bool_decide (e = "n"%char) then plain "010"%char
            else if bool_decide (e = "r"%char) then plain "013"%char
            else if bool_decide (e = "t"%char) then plain "009"%char
            else if bool_decide (e = "u"%char) then
              match s'' with
              | String "0" (String "0" (String a (String b r))) =>
                  match hex_val a, hex_val b with
                  | Some x, Some y =>
                      if (x <? 8)%nat then
                        match parse_chars r with
                        | Some (t, r) => Some (String (ascii_of_nat (16 * x + y)) t, r)
                        | None => None
                        end
                      else None
                  | _, _ => None
                  end
              | _ => None
              end
            else None
        | EmptyString => None
        end
      else if (nat_of_ascii c <? 32)%nat then None
      else match parse_chars s' with
           | Some (t, r) => Some (String c t, r)
           | None => None
           end
  end.

Fixpoint strip (p s : string) : option string :=
  match p, s with
  | EmptyString, _ => Some s
  | String a p, String b s => if bool_decide (a = b) then strip p s else None
  | _, _ => None
  end.

Definition parse_key (s : string) : option (string * string) :=
  match skip_ws s with
  | String c s => if bool_decide (c = "034"%char) then parse_chars s else None
  | EmptyString => None
  end.

(** Fuel bounds the nesting of values and the number of elements. *)
Fixpoint parse_value (n : nat) (s : string) : option (json * string) :=
  match n with
  | O => None
  | S n =>
      match skip_ws s with
      | EmptyString => None
      | String c s' as s0 =>
          if bool_decide (c = "034"%char) then
            match parse_chars s' with Some (t, r) => Some (JStr t, r) | None => None end
          else if bool_decide (c = "["%char) then
            match strip "]" (skip_ws s') with
            | Some r => Some (JArr [], r)
            | None => match parse_elems n s' with
                      | Some (l, r) => Some (JArr l, r) | None => None end
            end
          else if bool_decide (c = "{"%char) then
            match strip "}" (skip_ws s') with
            | Some r => Some (JObj [], r)
            | None => match parse_members n s' with
                      | Some (l, r) => Some (JObj l, r) | None => None end
            end
          else if bool_decide (c = "n"%char) then
            match strip "null" s0 with Some r => Some (JNull, r) | None => None end
          else if bool_decide (c = "t"%char) then
            match strip "true" s0 with Some r => Some (JBool true, r) | None => None end
          else if bool_decide (c = "f"%char) then
            match strip "false" s0 with Some r => Some (JBool false, r) | None => None end
          else match parse_num s0 with Some (z, r) => Some (JNum z, r) | None => None end
      end
  end
with parse_elems (n : nat) (s : string) : option (list json * string) :=
  match n with
  | O => None
  | S n =>
      match parse_value n s with
      | None => None
      | Some (x, r) =>
          match skip_ws r with
          | String c r' =>
              if bool_decide (c = "]"%char) then Some ([x], r')
              else if bool_decide (c = ","%char) then
                match parse_elems n r' with
                | Some (l, r) => Some (x :: l, r)
                | None => None
                end
              else None
          | EmptyString => None
          end
      end
  end
with parse_members (n : nat) (s : string) : option (list (string * json) * string) :=
  match n with
  | O => None
  | S n =>
      match parse_key s with
      | None => None
      | Some (k, r) =>
          match strip ":" (skip_ws r) with
          | None => None
          | Some r =>
              match parse_value n r with
              | None => None
              | Some (x, r) =>
                  match skip_ws r with
                  | String c r' =>
                      if bool_decide (c = "}"%char) then Some ([(k, x)], r')
                      else if bool_decide (c = ","%char) then
                        match parse_members n r' with
                        | Some (l, r) => Some ((k, x) :: l, r)
                        | None => None
                        end
                      else None
                  | EmptyString => None
                  end
              end
          end
      end
  end.

(** [json.Unmarshal] of a text to a document: one value, then only white space.
    The text bounds its own nesting, hence the fuel. *)
Definition unmarshal_text (s : string) : option json :=
  match parse_value (S (String.length s)) s with
  | Some (j, r) => match skip_ws r with EmptyString => Some j | _ => None end
  | None => None
  end.

(** ** The parser inverts the printer *)

(** What may follow a number without extending it. *)
Definition stops_num (s : string) : Prop :=
  match s with String c _ => is_num_char c = false | EmptyString => True end.

Lemma string_app_cons c s r : String c s +:+ r = String c (s +:+ r).
Proof. reflexivity. Qed.

Fixpoint all_num (s : string) : bool :=
  match s with String c s => is_num_char c && all_num s | EmptyString => true end.

Lemma take_num_all d r : all_num d = true -> stops_num r -> take_num (d +:+ r) = (d, r).
Proof.
  intros Hd Hr. induction d as [|c d IH].
  - destruct r as [|c r]; [done|]. cbn [stops_num] in Hr. change (take_num (String c r) =
      (EmptyString, String c r)). cbn [take_num]. by rewrite Hr.
  - cbn [all_num] in Hd. apply andb_true_iff in Hd as [H1 H2].
    rewrite string_app_cons. cbn [take_num]. by rewrite H1, IH.
Qed.

Lemma all_num_uint d : all_num (NilEmpty.string_of_uint d) = true.
Proof. induction d; cbn; done. Qed.

Lemma all_num_text z : all_num (num_text z) = true.
Proof.
  unfold num_text. destruct (Z.to_int z) as [u|u]; cbn;
    destruct u; try reflexivity; apply (all_num_uint (_ u)).
Qed.

Lemma parse_num_text z r : stops_num r -> parse_num (num_text z +:+ r) = Some (z, r).
Proof.
  intros Hr. unfold parse_num. rewrite (take_num_all _ _ (all_num_text z) Hr).
  assert (NilZero.int_of_string (num_text z) = Some (Z.to_int z)) as ->.
  { unfold num_text. apply NilZero.isi; destruct z; cbn; try done;
      unfold Pos.to_uint; intros [=]; by eapply DecimalPos.Unsigned.to_uint_nonnil. }
  rewrite of_to. by rewrite bool_decide_true.
Qed.

Lemma num_text_head z : exists c s, num_text z = String c s /\ is_num_char c = true.
Proof.
  pose proof (all_num_text z) as H. destruct (num_text z) as [|c s] eqn:E.
  - exfalso. revert E. unfold num_text. destruct (Z.to_int z) as [u|u]; destruct u; done.
  - cbn [all_num] in H. apply andb_true_iff in H as [H _]. eauto.
Qed.

Lemma parse_chars_plain c s t r :
  c <> "034"%char -> c <> "\"%char -> (32 <= nat_of_ascii c)%nat ->
  parse_chars s = Some (t, r) -> parse_chars (String c s) = Some (String c t, r).
Proof.
  intros H1 H2 H3 H. cbn [parse_chars].
  rewrite !bool_decide_false by done.
  replace (nat_of_ascii c <? 32)%nat with false by (symmetry; apply Nat.ltb_ge; lia).
  by rewrite H.
Qed.

Lemma hex_round c : (nat_of_ascii c < 128)%nat ->
  hex_val (hex_digit (nat_of_ascii c / 16)) = Some (nat_of_ascii c / 16)%nat /\
  hex_val (hex_digit (nat_of_ascii c mod 16)) = Some (nat_of_ascii c mod 16)%nat /\
  ascii_of_nat (16 * (nat_of_ascii c / 16) + nat_of_ascii c mod 16) = c.
Proof.
  intros H. repeat split; [..|by rewrite <- Nat.div_mod_eq, ascii_nat_embedding].
  all: destruct c as [[] [] [] [] [] [] [] []]; try reflexivity; exfalso; vm_compute in H; lia.
Qed.

Lemma parse_chars_hex c s t r : (nat_of_ascii c < 128)%nat ->
  parse_chars s = Some (t, r) ->
  parse_chars (String "\" (String "u" (String "0" (String "0"
    (String (hex_digit (nat_of_ascii c / 16))
      (String (hex_digit (nat_of_ascii c mod 16)) s)))))) = Some (String c t, r).
Proof.
  intros Hc H. destruct (hex_round c Hc) as (E1 & E2 & E3).
  remember (hex_digit (nat_of_ascii c / 16)) as a.
  remember (hex_digit (nat_of_ascii c mod 16)) as b.
  assert (nat_of_ascii c / 16 < 8)%nat as H8 by (apply Nat.Div0.div_lt_upper_bound; lia).
  apply Nat.ltb_lt in H8.
  cbn [parse_chars]. rewrite E1, E2, H, E3, H8. reflexivity.
Qed.

Lemma parse_escape c s t r :
  parse_chars s = Some (t, r) -> parse_chars (escape c s) = Some (String c t, r).
Proof.
  intros H. unfold escape.
  do 5 (case_bool_decide; [subst c; cbn [parse_chars]; rewrite H; reflexivity|]).
  destruct (_ || _) eqn:E.
  - apply parse_chars_hex; [|done].
    destruct (Nat.ltb_spec (nat_of_ascii c) 32); [lia|].
    rewrite !orb_true_iff, !bool_decide_eq_true in E.
    destruct E as [[[?| ->]| ->]| ->]; [done|vm_compute; lia..].
  - rewrite !orb_false_iff in E. apply parse_chars_plain; try done.
    apply Nat.ltb_ge. tauto.
Qed.

Lemma parse_print_chars s r : parse_chars (print_chars s (String "034" r)) = Some (s, r).
Proof. induction s as [|c s IH]; [done|]. by apply parse_escape. Qed.

(** *** Documents *)

(** Fuel the parser needs for a document. *)
Fixpoint need (j : json) : nat :=
  match j with
  | JArr l => S ((fix go l := match l with [] => O | x :: l => S (Nat.max (need x) (go l)) end) l)
  | JObj l =>
      S ((fix go l := match l with [] => O | (_, x) :: l => S (Nat.max (need x) (go l)) end) l)
  | _ => 1%nat
  end.

Definition need_elems : list json -> nat :=
  fix go l := match l with [] => O | x :: l => S (Nat.max (need x) (go l)) end.
Definition need_members : list (string * json) -> nat :=
  fix go l := match l with [] => O | (_, x) :: l => S (Nat.max (need x) (go l)) end.

Definition print_elems (rest : string) : list json -> string :=
  fix go l :=
    match l with
    | [] => String "]" rest
    | x :: l' => print x (match l' with [] => go l' | _ => String "," (go l') end)
    end.
Definition print_members (rest : string) : list (string * json) -> string :=
  fix go l :=
    match l with
    | [] => String "}" rest
    | (k, x) :: l' =>
        print_string k (String ":"
          (print x (match l' with [] => go l' | _ => String "," (go l') end)))
    end.

Lemma print_arr x l rest : print (JArr (x :: l)) rest = String "[" (print_elems rest (x :: l)).
Proof. reflexivity. Qed.
Lemma print_obj kv l rest : print (JObj (kv :: l)) rest = String "{" (print_members rest (kv :: l)).
Proof. destruct kv. reflexivity. Qed.

(** A printed value starts with a character that is neither white space nor a
    closing bracket. *)
Definition value_head (c : ascii) : bool :=
  negb (is_ws c) && negb (bool_decide (c = "]"%char)) && negb (bool_decide (c = "}"%char)).

Lemma num_head_value c : is_num_char c = true -> value_head c = true.
Proof. destruct c as [[] [] [] [] [] [] [] []]; vm_compute; congruence. Qed.

Lemma print_head j rest : exists c s, print j rest = String c s /\ value_head c = true.
Proof.
  destruct j as [|[]|z|s|[|x l]|[|[k x] l]]; try (do 2 eexists; split; reflexivity).
  destruct (num_text_head z) as (c & s & E & Hc). cbn [print]. rewrite E.
  exists c, (s +:+ rest). split; [done|]. by apply num_head_value.
Qed.

Lemma skip_ws_head c s : value_head c = true -> skip_ws (String c s) = String c s.
Proof.
  unfold value_head. intros H. rewrite !andb_true_iff, !negb_true_iff in H.
  cbn [skip_ws]. destruct H as [[-> _] _]. done.
Qed.

Lemma skip_ws_print j rest : skip_ws (print j rest) = print j rest.
Proof. destruct (print_head j rest) as (c & s & -> & Hc). by apply skip_ws_head. Qed.

Lemma strip_close_print p j rest : p = "]" \/ p = "}" ->
  strip p (skip_ws (print j rest)) = None.
Proof.
  rewrite skip_ws_print. destruct (print_head j rest) as (c & s & -> & Hc).
  unfold value_head in Hc. rewrite !andb_true_iff, !negb_true_iff, !bool_decide_eq_false in Hc.
  intros [-> | ->]; cbn [strip]; rewrite bool_decide_false; try done; intros <-; tauto.
Qed.

Lemma parse_value_arr n s : strip "]" (skip_ws s) = None ->
  parse_value (S n) (String "[" s) =
  match parse_elems n s with Some (l, r) => Some (JArr l, r) | None => None end.
Proof.
  intros H. transitivity (match strip "]" (skip_ws s) with
    | Some r => Some (JArr [], r)
    | None => match parse_elems n s with Some (l, r) => Some (JArr l, r) | None => None end
    end); [reflexivity | by rewrite H].
Qed.

Lemma parse_value_obj n s : strip "}" (skip_ws s) = None ->
  parse_value (S n) (String "{" s) =
  match parse_members n s with Some (l, r) => Some (JObj l, r) | None => None end.
Proof.
  intros H. transitivity (match strip "}" (skip_ws s) with
    | Some r => Some (JObj [], r)
    | None => match parse_members n s with Some (l, r) => Some (JObj l, r) | None => None end
    end); [reflexivity | by rewrite H].
Qed.

Lemma parse_value_str n s rest :
  parse_value (S n) (print_string s rest) = Some (JStr s, rest).
Proof.
  transitivity (match parse_chars (print_chars s (String "034" rest)) with
    | Some (t, r) => Some (JStr t, r) | None => None end); [reflexivity|].
  by rewrite parse_print_chars.
Qed.

Lemma parse_value_num n z rest : stops_num rest ->
  parse_value (S n) (num_text z +:+ rest) = Some (JNum z, rest).
Proof.
  intros Hr. pose proof (parse_num_text z rest Hr) as Hp.
  destruct (num_text_head z) as (c & s & E & Hc). rewrite E, string_app_cons in Hp |- *.
  cbn [parse_value]. rewrite (skip_ws_head _ _ (num_head_value c Hc)).
  assert (forall d, is_num_char d = false -> bool_decide (c = d) = false) as Hd
    by (intros d Hd; apply bool_decide_false; congruence).
  by rewrite !Hd, Hp by reflexivity.
Qed.

Lemma parse_elems_S n s : parse_elems (S n) s =
  match parse_value n s with
  | None => None
  | Some (x, r) =>
      match skip_ws r with
      | String c r' =>
          if bool_decide (c = "]"%char) then Some ([x], r')
          else if bool_decide (c = ","%char) then
            match parse_elems n r' with
            | Some (l, r) => Some (x :: l, r)
            | None => None
            end
          else None
      | EmptyString => None
      end
  end.
Proof. reflexivity. Qed.

Lemma parse_members_S n s : parse_members (S n) s =
  match parse_key s with
  | None => None
  | Some (k, r) =>
      match strip ":" (skip_ws r) with
      | None => None
      | Some r =>
          match parse_value n r with
          | None => None
          | Some (x, r) =>
              match skip_ws r with
              | String c r' =>
                  if bool_decide (c = "}"%char) then Some ([(k, x)], r')
                  else if bool_decide (c = ","%char) then
                    match parse_members n r' with
                    | Some (l, r) => Some ((k, x) :: l, r)
                    | None => None
                    end
                  else None
              | EmptyString => None
              end
          end
      end
  end.
Proof. reflexivity. Qed.

Lemma parse_elems_one n s x r : parse_value n s = Some (x, String "]" r) ->
  parse_elems (S n) s = Some ([x], r).
Proof. intros H. by rewrite parse_elems_S, H. Qed.

Lemma parse_elems_more n s x r l r' :
  parse_value n s = Some (x, String "," r) -> parse_elems n r = Some (l, r') ->
  parse_elems (S n) s = Some (x :: l, r').
Proof. intros H H'. 
  rewrite parse_elems_S, H, (skip_ws_head _ _ (eq_refl : value_head "," = true)).
  rewrite bool_decide_false, bool_decide_true by done. by rewrite H'.
Qed.

Lemma parse_key_print k r : parse_key (print_string k r) = Some (k, r).
Proof.
  unfold parse_key, print_string. cbn [skip_ws]. cbn -[parse_chars].
  apply parse_print_chars.
Qed.

Lemma parse_members_one n k s x r :
  parse_value n s = Some (x, String "}" r) ->
  parse_members (S n) (print_string k (String ":" s)) = Some ([(k, x)], r).
Proof.
  intros H. rewrite parse_members_S, parse_key_print.
  rewrite (skip_ws_head _ _ (eq_refl : value_head ":" = true)).
  change (strip ":" (String ":" s)) with (Some s). cbv iota. by rewrite H.
Qed.

Lemma parse_members_more n k s x r l r' :
  parse_value n s = Some (x, String "," r) -> parse_members n r = Some (l, r') ->
  parse_members (S n) (print_string k (String ":" s)) = Some ((k, x) :: l, r').
Proof.
  intros H H'. rewrite parse_members_S, parse_key_print.
  rewrite (skip_ws_head _ _ (eq_refl : value_head ":" = true)).
  change (strip ":" (String ":" s)) with (Some s). cbv iota.
  rewrite H, (skip_ws_head _ _ (eq_refl : value_head "," = true)).
  rewrite bool_decide_false, bool_decide_true by done. by rewrite H'.
Qed.

Definition parse_prints (j : json) : Prop := forall n rest,
  (need j <= n)%nat -> stops_num rest -> parse_value n (print j rest) = Some (j, rest).

Lemma parse_elems_print l rest n : l <> [] -> Forall parse_prints l ->
  (need_elems l <= n)%nat -> parse_elems n (print_elems rest l) = Some (l, rest).
Proof.
  revert n. induction l as [|x l IH]; intros n Hl HP Hn; [done|].
  apply Forall_cons in HP as [Hx HP]. cbn in Hn. destruct n as [|n]; [lia|].
  destruct l as [|y l].
  - apply parse_elems_one. cbn [print_elems]. apply Hx; [lia|done].
  - eapply parse_elems_more with (r := print_elems rest (y :: l)).
    + cbn [print_elems]. apply Hx; [lia|done].
    + apply IH; [done..|]. fold need_elems in Hn. lia.
Qed.

Lemma parse_members_print l rest n : l <> [] -> Forall (fun kv => parse_prints kv.2) l ->
  (need_members l <= n)%nat -> parse_members n (print_members rest l) = Some (l, rest).
Proof.
  revert n. induction l as [|[k x] l IH]; intros n Hl HP Hn; [done|].
  apply Forall_cons in HP as [Hx HP]. cbn in Hn, Hx. destruct n as [|n]; [lia|].
  destruct l as [|y l].
  - apply parse_members_one. cbn [print_members]. apply Hx; [lia|done].
  - eapply parse_members_more with (r := print_members rest (y :: l)).
    + apply Hx; [lia|done].
    + apply IH; [done..|]. fold need_members in Hn. lia.
Qed.

Lemma parse_print j : parse_prints j.
Proof.
  induction j as [|b|z|s|l HP|l HP] using json_nested_ind; intros n rest Hn Hr;
    (destruct n as [|n]; [cbn in Hn; lia|]).
  - done.
  - by destruct b.
  - by apply parse_value_num.
  - by apply parse_value_str.
  - destruct l as [|x l]; [done|]. rewrite print_arr, parse_value_arr.
    + rewrite parse_elems_print; [done..|]. change (need (JArr (x :: l))) with
        (S (need_elems (x :: l))) in Hn. lia.
    + apply strip_close_print. by left.
  - destruct l as [|[k x] l]; [done|]. rewrite print_obj, parse_value_obj; [|done].
    rewrite parse_members_print; [done..|]. change (need (JObj ((k, x) :: l))) with
      (S (need_members ((k, x) :: l))) in Hn. lia.
Qed.

(** The length of the text bounds the fuel. *)
Lemma escape_length c s : (S (String.length s) <= String.length (escape c s))%nat.
Proof. unfold escape. do 5 (case_bool_decide; [cbn; lia|]). destruct (_ || _); cbn; lia. Qed.

Lemma print_chars_length s r : (String.length r <= String.length (print_chars s r))%nat.
Proof.
  induction s as [|c s IH]; [done|]. cbn [print_chars].
  pose proof (escape_length c (print_chars s r)). lia.
Qed.

Lemma string_app_length s r : String.length (s +:+ r) = (String.length s + String.length r)%nat.
Proof. induction s as [|c s IH]; [done|]. rewrite string_app_cons. cbn. by rewrite IH. Qed.

Definition print_needs (j : json) : Prop := forall rest,
  (need j + String.length rest <= String.length (print j rest))%nat.

Lemma print_elems_need l rest : Forall print_needs l ->
  (need_elems l + String.length rest <= String.length (print_elems rest l))%nat.
Proof.
  induction 1 as [|x l Hx _ IH]; [cbn; lia|]. cbn [need_elems print_elems].
  fold need_elems. fold (print_elems rest). destruct l as [|y l].
  - specialize (Hx (print_elems rest [])). cbn in Hx |- *. lia.
  - specialize (Hx (String "," (print_elems rest (y :: l)))). cbn [String.length] in Hx. lia.
Qed.

Lemma print_members_need l rest : Forall (fun kv => print_needs kv.2) l ->
  (need_members l + String.length rest <= String.length (print_members rest l))%nat.
Proof.
  induction 1 as [|[k x] l Hx _ IH]; [cbn; lia|]. cbn [need_members print_members].
  fold need_members. fold (print_members rest).
  match goal with |- (_ <= String.length (print_string k (String ":" ?t)))%nat =>
    assert (String.length t < String.length (print_string k (String ":" t)))%nat as Hl end.
  { unfold print_string. cbn [String.length].
    match goal with |- context [print_chars k ?t] => pose proof (print_chars_length k t) as H end.
    cbn [String.length] in H. lia. }
  destruct l as [|y l].
  - specialize (Hx (print_members rest [])). cbn in Hx, Hl |- *. lia.
  - specialize (Hx (String "," (print_members rest (y :: l)))). cbn [String.length] in Hx.
    cbn [snd] in *. lia.
Qed.

Lemma print_need j : print_needs j.
Proof.
  induction j as [|b|z|s|l HP|l HP] using json_nested_ind; intros rest.
  - cbn [print need]. rewrite string_app_length. cbn. lia.
  - destruct b; cbn [print need]; rewrite string_app_length; cbn; lia.
  - cbn [print need]. rewrite string_app_length.
    destruct (num_text_head z) as (c & s & -> & _). cbn. lia.
  - cbn. pose proof (print_chars_length s (String "034" rest)) as H. cbn in H. lia.
  - destruct l as [|x l]; [cbn [print need]; rewrite string_app_length; cbn; lia|]. rewrite print_arr.
    change (need (JArr (x :: l))) with (S (need_elems (x :: l))).
    pose proof (print_elems_need (x :: l) rest HP). cbn [String.length]. lia.
  - destruct l as [|x l]; [cbn [print need]; rewrite string_app_length; cbn; lia|]. rewrite print_obj.
    change (need (JObj (x :: l))) with (S (need_members (x :: l))).
    pose proof (print_members_need (x :: l) rest HP). cbn [String.length]. lia.
Qed.

Lemma unmarshal_marshal_text j : unmarshal_text (marshal_text j) = Some j.
Proof.
  unfold unmarshal_text, marshal_text. pose proof (print_need j EmptyString) as H. cbn in H.
  rewrite parse_print; [done|lia|done].
Qed.

#[global] Arguments marshal_text : simpl never.
#[global] Arguments unmarshal_text : simpl never.
