(* ===== verification/Store.v ===== *)
(** * Store: the key/value stores of store/

    The [Store] and [Transaction] interfaces of store/store.go as type classes,
    the promise their documentation makes as a class of laws ([StoreLaws]), and
    two implementations: [MemStore] (store/mem_store.go) and [DBStore]
    (store/dbstore.go).  [DBStore] is written against the LMDB binding, which is
    third-party code and hence a parameter with its documented behaviour as
    laws ([LmdbLaws]); the instance [map_lmdb] shows the laws can be met. *)

From S2P Require Import Prelude.

Open Scope Z_scope.

(** ** Interfaces (store/store.go) *)

(** An operation on a transaction [T]; [None] is the nil error. *)
Class Transaction (T : Type) := {
  ReadAll : string -> T -> result string;
  WriteAll : string -> string -> T -> option error * T;
  Remove : string -> T -> option error * T
}.

(** The body of a transaction is a closure; [A] is what it leaves in the
    variables it captures, which the caller sees even if the transaction
    aborts ([a0] when the body never ran). *)
Class Store (S : Type) := {
  store_Transaction :: Transaction S;
  Txn : Type;
  Txn_Transaction :: Transaction Txn;
  WriteTransaction {A} (a0 : A) (body : Txn -> A * option error * Txn) (s : S) :
    A * option error * S;
  ReadTransaction {A} (a0 : A) (body : Txn -> A * option error * Txn) (s : S) :
    A * option error * S
}.

(** What the operations mean in terms of the key/value contents. *)
Class TransactionLaws (T : Type) `{Transaction T} := {
  contents : T -> gmap string string;
  ReadAll_ok k t v : ReadAll k t = Ok v -> contents t !! k = Some v;
  ReadAll_not_exist k t e :
    ReadAll k t = Err e -> IsNotExist e = true -> contents t !! k = None;
  WriteAll_ok k v t t' :
    WriteAll k v t = (None, t') -> contents t' = <[k := v]> (contents t);
  WriteAll_err k v t t' e : WriteAll k v t = (Some e, t') -> contents t' = contents t;
  Remove_ok k t t' : Remove k t = (None, t') -> contents t' = delete k (contents t);
  Remove_err k t t' e : Remove k t = (Some e, t') -> contents t' = contents t
}.

(** The outcome of a transaction that keeps the promise of store/store.go:
    "If an error is returned by txnFunc, the transaction will be aborted
    instead of committed." *)
Inductive txn_outcome {S T A} (cS : S -> gmap string string) (cT : T -> gmap string string)
    (a0 : A) (body : T -> A * option error * T) (s : S) : A * option error * S -> Prop :=
  | txn_not_started e s' : cS s' = cS s -> txn_outcome cS cT a0 body s (a0, Some e, s')
  | txn_aborted t a e t' s' :
      cT t = cS s -> body t = (a, Some e, t') -> cS s' = cS s ->
      txn_outcome cS cT a0 body s (a, Some e, s')
  | txn_commit_failed t a e t' s' :
      cT t = cS s -> body t = (a, None, t') -> cS s' = cS s ->
      txn_outcome cS cT a0 body s (a, Some e, s')
  | txn_committed t a t' s' :
      cT t = cS s -> body t = (a, None, t') -> cS s' = cT t' ->
      txn_outcome cS cT a0 body s (a, None, s').

Class StoreLaws (S : Type) `{Store S} := {
  store_laws :: TransactionLaws S;
  txn_laws :: TransactionLaws Txn;
  WriteTransaction_spec {A} (a0 : A) body s :
    txn_outcome contents contents a0 body s (WriteTransaction a0 body s);
  ReadTransaction_spec {A} (a0 : A) body s :
    exists e a s', ReadTransaction a0 body s = (a, e, s') /\ contents s' = contents s /\
      ((a = a0 /\ is_Some e) \/
       exists t t', contents t = contents s /\ body t = (a, e, t'))
}.

(** ** MemStore (store/mem_store.go) *)

Module MemStore.

(** store/mem_store.go: the fields [data], [readonly], [disable]. *)
Record MemStore := mkMemStore {
  data : gmap string string;
  readonly : bool;
  disable : bool
}.

Definition errDisabled : error := EText "disabled".
Definition errReadOnly : error := EText "read only".

Definition NewMemStore : MemStore := mkMemStore ∅ false false.

Definition OpenRead (name : string) (ms : MemStore) : result string :=
  if disable ms then Err errDisabled
  else match data ms !! name with
       | None => Err ErrNotExist
       | Some v => Ok v
       end.

(** Opening an entry for writing empties it. *)
Definition OpenWrite (name : string) (ms : MemStore) : option error * MemStore :=
  if disable ms then (Some errDisabled, ms)
  else if readonly ms then (Some errReadOnly, ms)
  else (None, mkMemStore (<[name := EmptyString]> (data ms)) (readonly ms) (disable ms)).

(** A missing entry is a nil pointer that [Commit] dereferences: a panic,
    which [mem_WriteAll] rules out by opening the entry first. *)
Definition errNilDereference : error := EText "panic: nil pointer dereference".

Definition Commit (name d : string) (ms : MemStore) : option error * MemStore :=
  if readonly ms then (Some errReadOnly, ms)
  else match data ms !! name with
       | None => (Some errNilDereference, ms)
       | Some _ => (None, mkMemStore (<[name := d]> (data ms)) (readonly ms) (disable ms))
       end.

(** The buffer of a [MemStoreWriter] never fails to take the bytes. *)
Definition mem_WriteAll (name d : string) (ms : MemStore) : option error * MemStore :=
  match OpenWrite name ms with
  | (Some e, ms) => (Some e, ms)
  | (None, ms) => Commit name d ms
  end.

Definition mem_Remove (name : string) (ms : MemStore) : option error * MemStore :=
  (None, mkMemStore (delete name (data ms)) (readonly ms) (disable ms)).

Definition ReadOnly (ro : bool) (ms : MemStore) : MemStore :=
  mkMemStore (data ms) ro (disable ms).
Definition Disable (d : bool) (ms : MemStore) : MemStore :=
  mkMemStore (data ms) (readonly ms) d.

#[export] Instance mem_transaction : Transaction MemStore := {
  ReadAll := OpenRead;
  WriteAll := mem_WriteAll;
  Remove := mem_Remove
}.

(** Both kinds of transaction just run the body on the store itself, under a
    lock. *)
Definition mem_WriteTransaction {A} (a0 : A)
    (body : MemStore -> A * option error * MemStore) (ms : MemStore) :
    A * option error * MemStore := body ms.

#[export] Instance mem_store : Store MemStore := {
  Txn := MemStore;
  WriteTransaction := @mem_WriteTransaction;
  ReadTransaction := @mem_WriteTransaction
}.

Lemma mem_WriteAll_eq name d ms : mem_WriteAll name d ms =
  if disable ms then (Some errDisabled, ms)
  else if readonly ms then (Some errReadOnly, ms)
  else (None, mkMemStore (<[name := d]> (data ms)) (readonly ms) (disable ms)).
Proof.
  unfold mem_WriteAll, OpenWrite, Commit. destruct ms as [m [] []]; cbn; try done.
  by rewrite lookup_insert_eq, insert_insert_eq.
Qed.

#[export] Program Instance mem_transaction_laws : TransactionLaws MemStore := {
  contents := data
}.
Next Obligation. cbn. unfold OpenRead. intros. by case_all. Qed.
Next Obligation. cbn. unfold OpenRead. intros k t e H He. by case_all. Qed.
Next Obligation.
  cbn. intros k v t t' H. rewrite mem_WriteAll_eq in H. by case_all.
Qed.
Next Obligation.
  cbn. intros k v t t' e H. rewrite mem_WriteAll_eq in H. by case_all.
Qed.
Next Obligation. by intros ??? [= <-]. Qed.
Next Obligation. by intros ???? [=]. Qed.

End MemStore.

(** ** DBStore (store/dbstore.go) *)

(** The LMDB binding as the store uses it.  [X] is a transaction; [txn_Get] and
    [txn_Del] report a missing key as [None]. *)
Class Lmdb (E X : Type) := {
  env_Update {A} (a0 : A) (body : X -> A * option error * X) (env : E) :
    A * option error * E;
  env_View {A} (a0 : A) (body : X -> A * option error * X) (env : E) :
    A * option error * E;
  txn_OpenRoot : X -> option error;
  txn_Put : string -> string -> X -> option error * X;
  txn_Get : string -> X -> result (option string);
  txn_Del : string -> X -> result bool * X
}.

(** Documented behaviour of LMDB: an [Update] whose function returns an error
    is aborted, otherwise it is committed atomically or fails as a whole. *)
Class LmdbLaws (E X : Type) `{Lmdb E X} := {
  env_contents : E -> gmap string string;
  txn_contents : X -> gmap string string;
  env_Update_spec {A} (a0 : A) body env :
    txn_outcome env_contents txn_contents a0 body env (env_Update a0 body env);
  env_View_spec {A} (a0 : A) body env :
    exists e a env', env_View a0 body env = (a, e, env') /\
      env_contents env' = env_contents env /\
      ((a = a0 /\ exists e', e = Some e' /\ e' <> ErrNotExist) \/
       exists x x', txn_contents x = env_contents env /\ body x = (a, e, x'));
  txn_OpenRoot_err x e : txn_OpenRoot x = Some e -> e <> ErrNotExist;
  txn_Put_ok k v x x' :
    txn_Put k v x = (None, x') -> txn_contents x' = <[k := v]> (txn_contents x);
  txn_Put_err k v x x' e : txn_Put k v x = (Some e, x') -> txn_contents x' = txn_contents x;
  txn_Get_ok k x o : txn_Get k x = Ok o -> txn_contents x !! k = o;
  txn_Get_err k x e : txn_Get k x = Err e -> e <> ErrNotExist;
  txn_Del_ok k x b x' :
    txn_Del k x = (Ok b, x') -> txn_contents x' = delete k (txn_contents x);
  txn_Del_err k x e x' : txn_Del k x = (Err e, x') -> txn_contents x' = txn_contents x
}.

Module DBStore.

Definition ErrDBStoreNotInitialized : error := EText "DB store not initialized".

(** The transaction methods of [dbTransaction]: a missing key is
    [os.ErrNotExist] for a read and no error for a removal. *)
Section transaction.
Context {E X : Type} `{HL : LmdbLaws E X}.

Definition txn_WriteAll (name d : string) (x : X) : option error * X := txn_Put name d x.

Definition txn_ReadAll (name : string) (x : X) : result string :=
  match txn_Get name x with
  | Ok None => Err ErrNotExist
  | Ok (Some v) => Ok v
  | Err e => Err e
  end.

Definition txn_Remove (name : string) (x : X) : option error * X :=
  match txn_Del name x with
  | (Err e, x) => (Some e, x)
  | (Ok _, x) => (None, x)
  end.
End transaction.

(** [env] is nil once the store has been closed. *)
Record DBStore (E X : Type) := mkDBStore { env : option E }.
Arguments mkDBStore {E X} env.
Arguments env {E X} d.

Section dbstore.
Context {E X : Type} `{HL : LmdbLaws E X}.

#[export] Instance txn_transaction : Transaction X := {
  ReadAll := txn_ReadAll (E := E);
  WriteAll := txn_WriteAll (E := E);
  Remove := txn_Remove (E := E)
}.

(** Both transaction functions open the root database first.  With a nil
    [env] the binding dereferences a nil pointer. *)
Definition with_OpenRoot {A} (a0 : A) (txnFunc : X -> A * option error * X) (x : X) :
    A * option error * X :=
  match txn_OpenRoot (E := E) x with
  | Some e => (a0, Some e, x)
  | None => txnFunc x
  end.

Definition db_WriteTransaction {A} (a0 : A) (txnFunc : X -> A * option error * X)
    (db : DBStore E X) : A * option error * DBStore E X :=
  match env db with
  | None => (a0, Some (EText "panic: nil environment"), db)
  | Some e =>
      let '(a, err, e) := env_Update a0 (with_OpenRoot a0 txnFunc) e in
      (a, err, mkDBStore (Some e))
  end.

Definition db_ReadTransaction {A} (a0 : A) (txnFunc : X -> A * option error * X)
    (db : DBStore E X) : A * option error * DBStore E X :=
  match env db with
  | None => (a0, Some (EText "panic: nil environment"), db)
  | Some e =>
      let '(a, err, e) := env_View a0 (with_OpenRoot a0 txnFunc) e in
      (a, err, mkDBStore (Some e))
  end.

Definition db_ReadAll (name : string) (db : DBStore E X) : result string :=
  match env db with
  | None => Err ErrDBStoreNotInitialized
  | Some _ =>
      let '(buf, err, _) := db_ReadTransaction EmptyString
        (fun txn => match ReadAll name txn with
                    | Ok b => (b, None, txn)
                    | Err e => (EmptyString, Some e, txn)
                    end) db in
      match err with Some e => Err e | None => Ok buf end
  end.

Definition db_WriteAll (name d : string) (db : DBStore E X) : option error * DBStore E X :=
  match env db with
  | None => (Some ErrDBStoreNotInitialized, db)
  | Some _ =>
      let '(_, err, db) := db_WriteTransaction tt
        (fun txn => let '(err, txn) := WriteAll name d txn in (tt, err, txn)) db in
      (err, db)
  end.

Definition db_Remove (name : string) (db : DBStore E X) : option error * DBStore E X :=
  match env db with
  | None => (Some ErrDBStoreNotInitialized, db)
  | Some _ =>
      let '(_, err, db) := db_WriteTransaction tt
        (fun txn => let '(err, txn) := Remove name txn in (tt, err, txn)) db in
      (err, db)
  end.

#[export] Instance db_transaction : Transaction (DBStore E X) := {
  ReadAll := db_ReadAll;
  WriteAll := db_WriteAll;
  Remove := db_Remove
}.

#[export] Instance db_store : Store (DBStore E X) := {
  Txn := X;
  WriteTransaction := @db_WriteTransaction;
  ReadTransaction := @db_ReadTransaction
}.

Definition db_contents (db : DBStore E X) : gmap string string :=
  match env db with Some e => env_contents e | None => ∅ end.

#[export] Program Instance txn_transaction_laws : TransactionLaws X := {
  contents := txn_contents
}.
Next Obligation.
  cbn. unfold txn_ReadAll. intros k t v H1. case_all. by apply txn_Get_ok.
Qed.
Next Obligation.
  cbn. unfold txn_ReadAll. intros k t e H1 H2. unfold IsNotExist in H2. b2p. subst. case_all.
  - by apply txn_Get_ok.
  - by edestruct txn_Get_err.
Qed.
Next Obligation. cbn. intros. by eapply txn_Put_ok. Qed.
Next Obligation. cbn. intros. by eapply txn_Put_err. Qed.
Next Obligation.
  cbn. unfold txn_Remove. intros. case_all. by eapply txn_Del_ok.
Qed.
Next Obligation.
  cbn. unfold txn_Remove. intros. case_all. by eapply txn_Del_err.
Qed.

Lemma db_WriteTransaction_spec {A} (a0 : A) body db :
  txn_outcome db_contents contents a0 body db (db_WriteTransaction a0 body db).
Proof.
  unfold db_WriteTransaction. destruct db as [[e|]]; cbn; [|by apply txn_not_started].
  destruct (env_Update_spec a0 (with_OpenRoot a0 body) e) as
    [e1 s1 H1|t a e1 t1 s1 H1 H2 H3|t a e1 t1 s1 H1 H2 H3|t a t1 s1 H1 H2 H3];
    [by apply txn_not_started|..]; unfold with_OpenRoot in H2;
    destruct (txn_OpenRoot t) eqn:Ho; simplify_eq.
  - by apply txn_not_started.
  - by eapply txn_aborted.
  - by eapply txn_commit_failed.
  - by eapply txn_committed.
Qed.

Lemma db_ReadTransaction_spec {A} (a0 : A) body db :
  exists e a db', db_ReadTransaction a0 body db = (a, e, db') /\
    db_contents db' = db_contents db /\
    ((a = a0 /\ exists e', e = Some e' /\ e' <> ErrNotExist) \/
     exists t t', contents t = db_contents db /\ body t = (a, e, t')).
Proof.
  unfold db_ReadTransaction. destruct db as [[e|]]; cbn.
  2: { do 3 eexists. split; [done|]. split; [done|]. left. split; [done|]. by eexists. }
  destruct (env_View_spec a0 (with_OpenRoot a0 body) e) as (er & a & e' & -> & Hc & Hr).
  do 3 eexists. split; [done|]. split; [done|].
  destruct Hr as [Hr|(x & x' & Hx & Hb)]; [by left|]. unfold with_OpenRoot in Hb.
  destruct (txn_OpenRoot x) as [eo|] eqn:Ho; simplify_eq; [|by right; eauto].
  left. split; [done|]. exists eo. split; [done|]. by eapply txn_OpenRoot_err.
Qed.

Lemma db_ReadAll_cases k db :
  (exists v, db_ReadAll k db = Ok v /\ db_contents db !! k = Some v) \/
  (db_ReadAll k db = Err ErrNotExist /\ db_contents db !! k = None) \/
  (exists e, db_ReadAll k db = Err e /\ e <> ErrNotExist).
Proof.
  unfold db_ReadAll. destruct (env db) eqn:He; [|by do 2 right; eexists].
  match goal with |- context [db_ReadTransaction ?a ?b ?c] =>
    destruct (db_ReadTransaction_spec a b c) as (er & a1 & db' & -> & _ & Hr) end.
  destruct Hr as [[_ (e' & -> & Hne)]|(t & t' & Ht & Hb)]; [do 2 right; eauto|].
  destruct (ReadAll k t) as [v|e1] eqn:HR; simplify_eq.
  - left. exists a1. split; [done|]. rewrite <- Ht. by apply ReadAll_ok.
  - destruct (decide (e1 = ErrNotExist)) as [->|]; [|do 2 right; eauto].
    right; left. split; [done|]. rewrite <- Ht. by eapply ReadAll_not_exist.
Qed.

(** A single-operation write transaction that changes the contents by [f] or
    fails without changing them. *)
Lemma db_single_write (op : X -> option error * X) f db db' r :
  (forall t t', op t = (None, t') -> contents t' = f (contents t)) ->
  (let '(_, err, db') := db_WriteTransaction tt
     (fun txn => let '(err, txn) := op txn in (tt, err, txn)) db in (err, db')) = (r, db') ->
  match r with
  | None => db_contents db' = f (db_contents db)
  | Some _ => db_contents db' = db_contents db
  end.
Proof.
  intros Hop. match goal with |- context [db_WriteTransaction ?p ?q ?w] =>
    destruct (db_WriteTransaction_spec p q w) as
      [e1 s1 H1|t a e1 t1 s1 H1 H2 H3|t a e1 t1 s1 H1 H2 H3|t a t1 s1 H1 H2 H3] end;
    intros [= <- <-]; try done.
  rewrite H3, <- H1. destruct (op t) eqn:Ho. simplify_eq. by apply Hop.
Qed.

#[export] Program Instance db_transaction_laws : TransactionLaws (DBStore E X) := {
  contents := db_contents
}.
Next Obligation.
  cbn. intros k db v Hv.
  destruct (db_ReadAll_cases k db) as [(v' & E1 & ?)|[[E1 ?]|(e & E1 & ?)]]; congruence.
Qed.
Next Obligation.
  cbn. intros k db e Hv He. unfold IsNotExist in He. b2p. subst.
  destruct (db_ReadAll_cases k db) as [(v' & E1 & ?)|[[E1 ?]|(e & E1 & ?)]]; congruence.
Qed.
Next Obligation.
  cbn. intros k v db db' Hw. unfold db_WriteAll in Hw. destruct (env db) eqn:He; [|done].
  refine (db_single_write (WriteAll k v) (<[k := v]>) _ _ None _ Hw).
  intros; by eapply WriteAll_ok.
Qed.
Next Obligation.
  cbn. intros k v db db' e Hw. unfold db_WriteAll in Hw.
  destruct (env db) eqn:He; [|by simplify_eq].
  refine (db_single_write (WriteAll k v) (<[k := v]>) _ _ (Some e) _ Hw).
  intros; by eapply WriteAll_ok.
Qed.
Next Obligation.
  cbn. intros k db db' Hw. unfold db_Remove in Hw. destruct (env db) eqn:He; [|done].
  refine (db_single_write (Remove k) (delete k) _ _ None _ Hw).
  intros; by eapply Remove_ok.
Qed.
Next Obligation.
  cbn. intros k db db' e Hw. unfold db_Remove in Hw.
  destruct (env db) eqn:He; [|by simplify_eq].
  refine (db_single_write (Remove k) (delete k) _ _ (Some e) _ Hw).
  intros; by eapply Remove_ok.
Qed.

#[export] Program Instance db_store_laws : StoreLaws (DBStore E X).
Next Obligation. intros. apply db_WriteTransaction_spec. Qed.
Next Obligation.
  cbn. intros A a0 body db.
  destruct (db_ReadTransaction_spec a0 body db) as (e & a & db' & Heq & Hc & Hr).
  exists e, a, db'. split; [done|]. split; [done|].
  destruct Hr as [[-> (e' & -> & _)]|Hr]; [left; by eauto|by right].
Qed.
End dbstore.

End DBStore.

(** ** Concrete instances *)

(** The reference implementation of the LMDB binding: a transaction works on a
    copy of the map that replaces the original on success. *)
Section map_lmdb.
Local Notation kv := (gmap string string).

Definition map_Update {A} (a0 : A) (body : kv -> A * option error * kv) (m : kv) :
    A * option error * kv :=
  let '(a, err, m') := body m in
  (a, err, match err with None => m' | Some _ => m end).

Definition map_View {A} (a0 : A) (body : kv -> A * option error * kv) (m : kv) :
    A * option error * kv :=
  let '(a, err, _) := body m in (a, err, m).

Instance map_lmdb : Lmdb kv kv := {
  env_Update := @map_Update;
  env_View := @map_View;
  txn_OpenRoot _ := None;
  txn_Put k v m := (None, <[k := v]> m);
  txn_Get k m := Ok (m !! k);
  txn_Del k m := (Ok (bool_decide (is_Some (m !! k))), delete k m)
}.

Program Instance map_lmdb_laws : LmdbLaws kv kv := {
  env_contents m := m;
  txn_contents m := m
}.
Next Obligation.
  intros A a0 body m. cbn. unfold map_Update. destruct (body m) as [[a []] m'] eqn:E.
  - by eapply txn_aborted.
  - by eapply txn_committed.
Qed.
Next Obligation.
  intros A a0 body m. cbn. unfold map_View. destruct (body m) as [[a e] m'] eqn:E.
  do 3 eexists. split; [done|]. split; [done|]. right. by eauto.
Qed.
Solve Obligations with (cbn; intros; by simplify_eq).
End map_lmdb.

#[local] Existing Instances map_lmdb map_lmdb_laws.

(** ** Stores that work

    The laws above leave room for input/output errors.  For what the operations
    compute when there are none, a store whose operations all succeed. *)

Class ReliableTransaction (T : Type) `{TransactionLaws T} : Prop := {
  rel_ReadAll k (t : T) :
    ReadAll k t = match contents t !! k with Some v => Ok v | None => Err ErrNotExist end;
  rel_WriteAll k v (t : T) : (WriteAll k v t).1 = None;
  rel_Remove k (t : T) : (Remove k t).1 = None
}.

Class ReliableStore (S : Type) `{StoreLaws S} : Prop := {
  rel_store :: ReliableTransaction S;
  rel_txn :: ReliableTransaction Txn;
  rel_WriteTransaction {A} (a0 : A) body (s : S) :
    exists t s', contents t = contents s /\
      WriteTransaction a0 body s = ((body t).1, s') /\
      contents s' = match (body t).1.2 with
                    | None => contents (body t).2
                    | Some _ => contents s
                    end;
  rel_ReadTransaction {A} (a0 : A) body (s : S) :
    exists t s', contents t = contents s /\
      ReadTransaction a0 body s = ((body t).1, s') /\ contents s' = contents s
}.

Section reliable.
Context {T : Type} `{ReliableTransaction T}.

Lemma rel_write k v (t : T) :
  exists t', WriteAll k v t = (None, t') /\ contents t' = <[k := v]> (contents t).
Proof.
  pose proof (rel_WriteAll k v t) as He. destruct (WriteAll k v t) as [e t'] eqn:Hw.
  cbn in He. subst. exists t'. split; [done|]. by apply WriteAll_ok.
Qed.

Lemma rel_remove k (t : T) :
  exists t', Remove k t = (None, t') /\ contents t' = delete k (contents t).
Proof.
  pose proof (rel_Remove k t) as He. destruct (Remove k t) as [e t'] eqn:Hw.
  cbn in He. subst. exists t'. split; [done|]. by apply Remove_ok.
Qed.
End reliable.

(** Runs a store operation that cannot fail. *)
Ltac run_reliable :=
  match goal with
  | |- context [WriteAll ?k ?d ?t] =>
      let t' := fresh "t" in let Ht := fresh "Ht" in let Hw := fresh "Hw" in
      destruct (rel_write k d t) as (t' & Hw & Ht); rewrite ?Hw
  | |- context [Remove ?k ?t] =>
      let t' := fresh "t" in let Ht := fresh "Ht" in let Hw := fresh "Hw" in
      destruct (rel_remove k t) as (t' & Hw & Ht); rewrite ?Hw
  end.

(** A map is such a store: the reference the concrete examples run on. *)
Module MapStore.

Local Notation kv := (gmap string string).

#[export] Instance map_transaction : Transaction kv := {
  ReadAll k m := match m !! k with Some v => Ok v | None => Err ErrNotExist end;
  WriteAll k v m := (None, <[k := v]> m);
  Remove k m := (None, delete k m)
}.

#[export] Instance map_store : Store kv := {
  Txn := kv;
  WriteTransaction A a0 body m :=
    ((body m).1, match (body m).1.2 with None => (body m).2 | Some _ => m end);
  ReadTransaction A a0 body m := ((body m).1, m)
}.

#[export] Program Instance map_transaction_laws : TransactionLaws kv := { contents m := m }.
Next Obligation. cbn. intros. by case_all. Qed.
Next Obligation. cbn. intros. by case_all. Qed.
Solve Obligations with (cbn; intros; by simplify_eq).

#[export] Program Instance map_store_laws : StoreLaws kv.
Next Obligation.
  intros A a0 body m. cbn. destruct (body m) as [[a [e|]] m'] eqn:E; cbn.
  - by eapply txn_aborted.
  - by eapply txn_committed.
Qed.
Next Obligation.
  intros A a0 body m. cbn. destruct (body m) as [[a e] m'] eqn:E.
  do 3 eexists. split; [done|]. split; [done|]. right. by eauto.
Qed.

#[export] Program Instance map_reliable_transaction : ReliableTransaction kv.
Solve Obligations with done.

#[export] Program Instance map_reliable_store : ReliableStore kv.
Next Obligation. intros A a0 body m. exists m. eexists. by split_and!. Qed.
Next Obligation. intros A a0 body m. exists m. eexists. by split_and!. Qed.

End MapStore.

(** ** Properties *)

#[export] Existing Instances DBStore.txn_transaction DBStore.db_transaction DBStore.db_store
  DBStore.txn_transaction_laws DBStore.db_transaction_laws DBStore.db_store_laws
  MemStore.mem_transaction MemStore.mem_store MemStore.mem_transaction_laws.

(** What a transaction body does, as data: writes, removals and a failure. *)
Inductive txn_op : Type :=
  | OpWrite (k v : string)
  | OpRemove (k : string)
  | OpFail (e : error).

Fixpoint run_ops `{Transaction T} (ops : list txn_op) (t : T) : unit * option error * T :=
  match ops with
  | [] => (tt, None, t)
  | OpWrite k v :: ops =>
      match WriteAll k v t with
      | (None, t) => run_ops ops t
      | (Some e, t) => (tt, Some e, t)
      end
  | OpRemove k :: ops =>
      match Remove k t with
      | (None, t) => run_ops ops t
      | (Some e, t) => (tt, Some e, t)
      end
  | OpFail e :: ops => (tt, Some e, t)
  end.

Fixpoint apply_ops (ops : list txn_op) (m : gmap string string) : gmap string string :=
  match ops with
  | [] => m
  | OpWrite k v :: ops => apply_ops ops (<[k := v]> m)
  | OpRemove k :: ops => apply_ops ops (delete k m)
  | OpFail _ :: ops => m
  end.

Definition can_fail (op : txn_op) : bool :=
  match op with OpFail _ => true | _ => false end.

Lemma run_ops_contents `{TransactionLaws T} ops t t' :
  run_ops ops t = (tt, None, t') ->
  contents t' = apply_ops ops (contents t) /\ existsb can_fail ops = false.
Proof.
  revert t. induction ops as [|[k v|k|e] ops IH]; intros t Hr; cbn in *; try by simplify_eq.
  - destruct (WriteAll k v t) as [[]] eqn:Hw; [done|].
    destruct (IH _ Hr) as [-> ?]. by rewrite (WriteAll_ok _ _ _ _ Hw).
  - destruct (Remove k t) as [[]] eqn:Hw; [done|].
    destruct (IH _ Hr) as [-> ?]. by rewrite (Remove_ok _ _ _ Hw).
Qed.

(** A write transaction of the database store is all or nothing.  Whatever
    sequence of writes, removals and failures its body performs, either the
    caller gets no error, no operation failed and every one of them is in the
    store, in order; or the caller gets an error and the store is unchanged. *)
Theorem db_transaction_all_or_nothing {E X} `{LmdbLaws E X}
    (ops : list txn_op) (db : DBStore.DBStore E X) :
  let '(_, err, db') := DBStore.db_WriteTransaction tt (run_ops ops) db in
  match err with
  | None => DBStore.db_contents db' = apply_ops ops (DBStore.db_contents db) /\
            existsb can_fail ops = false
  | Some _ => DBStore.db_contents db' = DBStore.db_contents db
  end.
Proof.
  destruct (DBStore.db_WriteTransaction_spec tt (run_ops ops) db)
    as [e1 s1 H1|t a e1 t1 s1 H1 H2 H3|t a e1 t1 s1 H1 H2 H3|t [] t1 s1 H1 H2 H3]; try done.
  apply run_ops_contents in H2 as [H2 ?]. split; [|done]. by rewrite H3, H2, H1.
Qed.

Lemma db_transaction_all_or_nothing_witness :
  let db := DBStore.mkDBStore (Some ({["a" := "1"]} : gmap string string)) in
  let '(_, err, db') := DBStore.db_WriteTransaction tt
    (run_ops [OpWrite "b" "2"; OpRemove "a"]) db in
  match err with
  | None => DBStore.db_contents db' = {["b" := "2"]}
  | Some _ => False
  end.
Proof.
  pose proof (db_transaction_all_or_nothing [OpWrite "b" "2"; OpRemove "a"]
    (DBStore.mkDBStore (Some ({["a" := "1"]} : gmap string string)))) as H.
  cbn in H |- *. destruct H as [H _]. exact H.
Defined.

(** The in-memory store does not keep the promise of the [Store] interface
    that a transaction whose function returns an error is aborted: the writes
    made before the error stay. *)
Theorem mem_WriteTransaction_not_aborted : forall ms e k v,
  MemStore.disable ms = false -> MemStore.readonly ms = false ->
  exists ms', MemStore.mem_WriteTransaction tt (run_ops [OpWrite k v; OpFail e]) ms
    = (tt, Some e, ms') /\ MemStore.data ms' = <[k := v]> (MemStore.data ms).
Proof.
  intros ms e k v Hd Hr. unfold MemStore.mem_WriteTransaction. cbn.
  rewrite MemStore.mem_WriteAll_eq, Hd, Hr. by eexists.
Qed.

Lemma mem_WriteTransaction_not_aborted_witness :
  exists ms', MemStore.mem_WriteTransaction tt
      (run_ops [OpWrite "state" "x"; OpFail ErrNotExist]) MemStore.NewMemStore
    = (tt, Some ErrNotExist, ms') /\ MemStore.data ms' = ({["state" := "x"]} : gmap string string).
Proof.
  exact (mem_WriteTransaction_not_aborted MemStore.NewMemStore ErrNotExist "state" "x"
    eq_refl eq_refl).
Defined.
