(* ===== verification/StateData.v ===== *)
(** * StateData: the state the client keeps across reboots

    datastore/statedata.go and datastore/dbkeys.go: the [StateData] structure,
    the names of the states in the database, the methods of the small types,
    and the JSON form of the structure.  The decoder works on documents of
    [Json] the way [encoding/json] does on a destination structure: members
    are applied in order to the destination, a key matches a field exactly or
    up to ASCII case, unknown keys are ignored, null leaves a scalar unchanged
    and makes a slice or map nil, a value of the wrong kind is an error.

    Nil and empty slices are identified except for [ClearsArtifactProvides],
    and nil and empty maps except for [TypeInfoProvides], where the code tells
    them apart. *)

From S2P Require Import Prelude Json.
From Stdlib Require Import Ascii.

Open Scope Z_scope.

(** ** Decoding JSON into Go values *)

Definition decoder (R : Type) : Type := json -> R -> result R.

Definition mismatch : error := EText "json: cannot unmarshal value into Go struct field".

Definition dec_int : decoder Z := fun j old =>
  match j with
  | JNum z => if (int64_min <=? z) && (z <=? int64_max) then Ok z else Err mismatch
  | JNull => Ok old
  | _ => Err mismatch
  end.

Definition dec_bool : decoder bool := fun j old =>
  match j with JBool b => Ok b | JNull => Ok old | _ => Err mismatch end.

Definition dec_string : decoder string := fun j old =>
  match j with JStr s => Ok s | JNull => Ok old | _ => Err mismatch end.

(** An element of a fresh slice or map starts from the zero value. *)
Fixpoint dec_elems (l : list json) : result (list string) :=
  match l with
  | [] => Ok []
  | j :: l => s ← dec_string j EmptyString; ss ← dec_elems l; Ok (s :: ss)
  end.

Definition dec_nilable_strings : decoder (option (list string)) := fun j _ =>
  match j with
  | JArr l => Some <$> dec_elems l
  | JNull => Ok None
  | _ => Err mismatch
  end.

Definition dec_strings : decoder (list string) := fun j old =>
  default [] <$> dec_nilable_strings j (Some old).

(** Decoding into a map adds to the entries it has. *)
Fixpoint dec_entries (l : list (string * json)) (m : gmap string string) :
    result (gmap string string) :=
  match l with
  | [] => Ok m
  | (k, j) :: l => s ← dec_string j EmptyString; dec_entries l (<[k := s]> m)
  end.

Definition dec_nilable_map : decoder (option (gmap string string)) := fun j old =>
  match j with
  | JObj l => Some <$> dec_entries l (default ∅ old)
  | JNull => Ok None
  | _ => Err mismatch
  end.

Definition fold_char (c : ascii) : ascii :=
  let n := nat_of_ascii c in
  if ((65 <=? n) && (n <=? 90))%nat then ascii_of_nat (n + 32) else c.

Fixpoint fold_name (s : string) : string :=
  match s with
  | EmptyString => EmptyString
  | String c s => String (fold_char c) (fold_name s)
  end.

Fixpoint find_field {R} (p : string -> bool) (fs : list (string * decoder R)) :
    option (decoder R) :=
  match fs with
  | [] => None
  | (k, d) :: fs => if p k then Some d else find_field p fs
  end.

Definition lookup_field {R} (fs : list (string * decoder R)) (k : string) :
    option (decoder R) :=
  match find_field (String.eqb k) fs with
  | Some d => Some d
  | None => find_field (fun f => String.eqb (fold_name k) (fold_name f)) fs
  end.

Fixpoint dec_members {R} (fs : list (string * decoder R)) (l : list (string * json))
    (r : R) : result R :=
  match l with
  | [] => Ok r
  | (k, j) :: l =>
      r ← match lookup_field fs k with Some d => d j r | None => Ok r end;
      dec_members fs l r
  end.

Definition dec_struct {R} (fs : list (string * decoder R)) : decoder R := fun j r =>
  match j with
  | JObj l => dec_members fs l r
  | JNull => Ok r
  | _ => Err mismatch
  end.

(** A field of a structure, from its getter and setter. *)
Definition on_field {R F} (get : R -> F) (set : F -> R -> R) (d : decoder F) : decoder R :=
  fun j r => v ← d j (get r); Ok (set v r).

(** ** Encoding *)

Definition enc_nilable_strings (l : option (list string)) : json :=
  match l with None => JNull | Some l => JArr (JStr <$> l) end.

Definition enc_strings (l : list string) : json :=
  match l with [] => JNull | _ => JArr (JStr <$> l) end.

(** Maps are printed with their keys in byte order. *)
Definition key_le (a b : string * string) : Prop := String.leb a.1 b.1 = true.
#[export] Instance key_le_dec : RelDecision key_le.
Proof. intros a b. unfold key_le. apply _. Defined.

Definition enc_map (m : gmap string string) : json :=
  JObj ((fun kv => (kv.1, JStr kv.2)) <$> merge_sort key_le (map_to_list m)).

Definition enc_nilable_map (m : option (gmap string string)) : json :=
  match m with None => JNull | Some m => enc_map m end.

(** *** Decoding what was encoded *)

Lemma dec_elems_map l : dec_elems (JStr <$> l) = Ok l.
Proof. induction l as [|s l IH]; [done|]. cbn in *. by rewrite IH. Qed.

Lemma dec_enc_nilable_strings l old :
  dec_nilable_strings (enc_nilable_strings l) old = Ok l.
Proof. destruct l as [l|]; [|done]. cbn. by rewrite dec_elems_map. Qed.

Lemma dec_enc_strings l old : dec_strings (enc_strings l) old = Ok l.
Proof.
  destruct l as [|s l]; [done|]. unfold dec_strings, enc_strings.
  change (JArr (JStr <$> s :: l)) with (enc_nilable_strings (Some (s :: l))).
  by rewrite dec_enc_nilable_strings.
Qed.

Lemma dec_entries_list l m :
  NoDup l.*1 -> (forall k, k ∈ l.*1 -> m !! k = None) ->
  dec_entries ((fun kv => (kv.1, JStr kv.2)) <$> l) m = Ok (list_to_map l ∪ m).
Proof.
  revert m. induction l as [|[k v] l IH]; intros m Hnd Hm; cbn in *.
  - by rewrite (left_id_L ∅ (∪)).
  - apply NoDup_cons in Hnd as [Hk Hnd]. rewrite IH; [|done|].
    + f_equal. rewrite <- insert_union_r by (by apply not_elem_of_list_to_map_1).
      by rewrite <- insert_union_l.
    + intros k' Hk'. rewrite lookup_insert_ne by (by intros ->).
      apply Hm. by apply list_elem_of_further.
Qed.

Lemma dec_enc_map m : dec_nilable_map (enc_map m) None = Ok (Some m).
Proof.
  unfold enc_map, dec_nilable_map. cbn [default].
  pose proof (merge_sort_Permutation key_le (map_to_list m)) as Hp.
  rewrite dec_entries_list.
  - cbn. do 2 f_equal. rewrite (right_id_L ∅ (∪)).
    rewrite (list_to_map_proper _ (map_to_list m)); [apply list_to_map_to_list| |done].
    rewrite Hp. apply NoDup_fst_map_to_list.
  - rewrite Hp. apply NoDup_fst_map_to_list.
  - intros; apply lookup_empty.
Qed.

(** ** Database keys (datastore/dbkeys.go) *)

Definition ArtifactNameKey : string := "artifact-name".
Definition ArtifactGroupKey : string := "artifact-group".
Definition ArtifactTypeInfoProvidesKey : string := "artifact-provides".
Definition StandaloneStateKey : string := "standalone-state".
Definition StateDataKey : string := "state".
Definition StateDataKeyUncommitted : string := "state-uncommitted".
Definition UpdateControlMaps : string := "update-control-maps".
Definition AuthTokenName : string := "authtoken".
Definition AuthTokenCacheInvalidatorName : string := "auth-token-cache-invalidator".

(** ** State identifiers *)

Inductive MenderState : Type :=
  | MenderStateInit
  | MenderStateIdle
  | MenderStateAuthorize
  | MenderStateAuthorizeWait
  | MenderStateInventoryUpdate
  | MenderStateInventoryUpdateRetryWait
  | MenderStateCheckWait
  | MenderStateUpdateCheck
  | MenderStateUpdateFetch
  | MenderStateUpdateStore
  | MenderStateUpdateAfterStore
  | MenderStateUpdateInstall
  | MenderStateFetchStoreRetryWait
  | MenderStateUpdateVerify
  | MenderStateUpdatePreCommitStatusReportRetry
  | MenderStateUpdateCommit
  | MenderStateUpdateAfterFirstCommit
  | MenderStateUpdateAfterCommit
  | MenderStateUpdateStatusReport
  | MenderStateStatusReportRetry
  | MenderStateReboot
  | MenderStateVerifyReboot
  | MenderStateAfterReboot
  | MenderStateRollback
  | MenderStateRollbackReboot
  | MenderStateVerifyRollbackReboot
  | MenderStateAfterRollbackReboot
  | MenderStateError
  | MenderStateUpdateError
  | MenderStateUpdateCleanup
  | MenderStateDone
  | MenderStateUpdateControl
  | MenderStateUpdateControlPause
  | MenderStateFetchUpdateControl
  | MenderStateFetchRetryUpdateControl
  | MenderStateReportStatusError.

#[export] Instance MenderState_eq_dec : EqDecision MenderState.
Proof. solve_decision. Defined.

(** [stateNames], also [MenderState.String]. *)
Definition stateNames (m : MenderState) : string :=
  match m with
  | MenderStateInit => "init"
  | MenderStateIdle => "idle"
  | MenderStateAuthorize => "authorize"
  | MenderStateAuthorizeWait => "authorize-wait"
  | MenderStateInventoryUpdate => "inventory-update"
  | MenderStateInventoryUpdateRetryWait => "inventory-update-retry-wait"
  | MenderStateCheckWait => "check-wait"
  | MenderStateUpdateCheck => "update-check"
  | MenderStateUpdateFetch => "update-fetch"
  | MenderStateUpdateStore => "update-store"
  | MenderStateUpdateAfterStore => "update-after-store"
  | MenderStateUpdateInstall => "update-install"
  | MenderStateFetchStoreRetryWait => "fetch-install-retry-wait"
  | MenderStateUpdateVerify => "update-verify"
  | MenderStateUpdateCommit => "update-commit"
  | MenderStateUpdatePreCommitStatusReportRetry => "update-pre-commit-status-report-retry"
  | MenderStateUpdateAfterFirstCommit => "update-after-first-commit"
  | MenderStateUpdateAfterCommit => "update-after-commit"
  | MenderStateUpdateStatusReport => "update-status-report"
  | MenderStateStatusReportRetry => "update-retry-report"
  | MenderStateReboot => "reboot"
  | MenderStateVerifyReboot => "verify-reboot"
  | MenderStateAfterReboot => "after-reboot"
  | MenderStateRollback => "rollback"
  | MenderStateRollbackReboot => "rollback-reboot"
  | MenderStateVerifyRollbackReboot => "verify-rollback-reboot"
  | MenderStateAfterRollbackReboot => "after-rollback-reboot"
  | MenderStateError => "error"
  | MenderStateUpdateError => "update-error"
  | MenderStateUpdateCleanup => "cleanup"
  | MenderStateDone => "finished"
  | MenderStateUpdateControl => "mender-update-control"
  | MenderStateUpdateControlPause => "mender-update-control-pause"
  | MenderStateFetchUpdateControl => "mender-update-control-refresh-maps"
  | MenderStateFetchRetryUpdateControl => "mender-update-control-retry-refresh-maps"
  | MenderStateReportStatusError => "status-report-error"
  end.

Definition all_states : list MenderState :=
  [MenderStateInit; MenderStateIdle; MenderStateAuthorize; MenderStateAuthorizeWait;
   MenderStateInventoryUpdate; MenderStateInventoryUpdateRetryWait; MenderStateCheckWait;
   MenderStateUpdateCheck; MenderStateUpdateFetch; MenderStateUpdateStore;
   MenderStateUpdateAfterStore; MenderStateUpdateInstall; MenderStateFetchStoreRetryWait;
   MenderStateUpdateVerify; MenderStateUpdatePreCommitStatusReportRetry;
   MenderStateUpdateCommit; MenderStateUpdateAfterFirstCommit; MenderStateUpdateAfterCommit;
   MenderStateUpdateStatusReport; MenderStateStatusReportRetry; MenderStateReboot;
   MenderStateVerifyReboot; MenderStateAfterReboot; MenderStateRollback;
   MenderStateRollbackReboot; MenderStateVerifyRollbackReboot;
   MenderStateAfterRollbackReboot; MenderStateError; MenderStateUpdateError;
   MenderStateUpdateCleanup; MenderStateDone; MenderStateUpdateControl;
   MenderStateUpdateControlPause; MenderStateFetchUpdateControl;
   MenderStateFetchRetryUpdateControl; MenderStateReportStatusError].

Definition state_MarshalJSON (m : MenderState) : json := JStr (stateNames m).

(** [UnmarshalJSON] searches [stateNames] for the string; null leaves the
    string empty, which names no state. *)
Definition state_UnmarshalJSON : decoder MenderState := fun j _ =>
  match j with
  | JStr s =>
      match list_find (fun m => stateNames m = s) all_states with
      | Some (_, m) => Ok m
      | None => Err (EText "unmarshal error; unknown state")
      end
  | JNull => Err (EText "unmarshal error; unknown state")
  | _ => Err mismatch
  end.

Lemma stateNames_inj m m' : stateNames m = stateNames m' -> m = m'.
Proof. destruct m, m'; cbn; intros H; try reflexivity; discriminate H. Qed.

Lemma all_states_complete m : m ∈ all_states.
Proof. destruct m; unfold all_states; set_solver. Qed.

Lemma state_json_roundtrip m old : state_UnmarshalJSON (state_MarshalJSON m) old = Ok m.
Proof.
  unfold state_UnmarshalJSON, state_MarshalJSON.
  destruct (list_find_elem_of (fun m' => stateNames m' = stateNames m) all_states m)
    as [[i m'] Hf]; [apply all_states_complete|done|].
  rewrite Hf. apply list_find_Some in Hf as (_ & Hf & _). f_equal. by apply stateNames_inj.
Qed.

(** ** Rollback and reboot support *)

Definition RollbackSupportUnknown : string := EmptyString.
Definition RollbackNotSupported : string := "rollback-not-supported".
Definition RollbackSupported : string := "rollback-supported".

(** [SupportsRollbackType.Set]: the first value sticks. *)
Definition SupportsRollback_Set (value s : string) : result string :=
  if bool_decide (s = RollbackSupportUnknown) then Ok value
  else if bool_decide (s <> value) then Err (EText "Conflicting rollback support")
  else Ok s.

Definition RebootTypeNone : string := EmptyString.
Definition RebootTypeCustom : string := "reboot-type-custom".
Definition RebootTypeAutomatic : string := "reboot-type-automatic".

(** [RebootRequestedType.Get]; the index is a loop index. *)
Definition RebootRequested_Get (n : nat) (r : list string) : result string :=
  match r !! n with
  | None => Err (EText "Reboot information missing for payload")
  | Some t =>
      if bool_decide (t ∈ [RebootTypeNone; RebootTypeCustom; RebootTypeAutomatic]) then Ok t
      else Err (EText "Corrupt RebootRequested entry")
  end.

Definition RebootRequested_Set (n : nat) (t : string) (r : list string) :
    result (list string) :=
  if (n =? length r)%nat then Ok (r ++ [t])
  else Err (EText "RebootRequested not assigned in order").

(** ** The structures *)

Record Artifact := mkArtifact {
  Source_URI : string;
  Source_Expire : string;
  CompatibleDevices : list string;
  PayloadTypes : list string;
  ArtifactName : string;
  ArtifactGroup : string;
  TypeInfoProvides : option (gmap string string);
  ClearsArtifactProvides : option (list string)
}.

Record UpdateInfo := mkUpdateInfo {
  artifact : Artifact;
  ID : string;
  RebootRequested : list string;
  SupportsRollback : string;
  StateDataStoreCount : Z;
  HasDBSchemaUpdate : bool;
  StatusReportRetryAttempts : Z
}.

Record StateData := mkStateData {
  Version : Z;
  Name : MenderState;
  updateInfo : UpdateInfo
}.

Definition StateDataVersion : Z := 2.

(** The zero values. *)
Definition no_Artifact : Artifact :=
  mkArtifact EmptyString EmptyString [] [] EmptyString EmptyString None None.
Definition no_UpdateInfo : UpdateInfo :=
  mkUpdateInfo no_Artifact EmptyString [] EmptyString 0 false 0.
Definition no_StateData : StateData := mkStateData 0 MenderStateInit no_UpdateInfo.

(** Field assignments. *)
Definition set_Source_URI v a := mkArtifact v (Source_Expire a) (CompatibleDevices a)
  (PayloadTypes a) (ArtifactName a) (ArtifactGroup a) (TypeInfoProvides a)
  (ClearsArtifactProvides a).
Definition set_Source_Expire v a := mkArtifact (Source_URI a) v (CompatibleDevices a)
  (PayloadTypes a) (ArtifactName a) (ArtifactGroup a) (TypeInfoProvides a)
  (ClearsArtifactProvides a).
Definition set_CompatibleDevices v a := mkArtifact (Source_URI a) (Source_Expire a) v
  (PayloadTypes a) (ArtifactName a) (ArtifactGroup a) (TypeInfoProvides a)
  (ClearsArtifactProvides a).
Definition set_PayloadTypes v a := mkArtifact (Source_URI a) (Source_Expire a)
  (CompatibleDevices a) v (ArtifactName a) (ArtifactGroup a) (TypeInfoProvides a)
  (ClearsArtifactProvides a).
Definition set_ArtifactName v a := mkArtifact (Source_URI a) (Source_Expire a)
  (CompatibleDevices a) (PayloadTypes a) v (ArtifactGroup a) (TypeInfoProvides a)
  (ClearsArtifactProvides a).
Definition set_ArtifactGroup v a := mkArtifact (Source_URI a) (Source_Expire a)
  (CompatibleDevices a) (PayloadTypes a) (ArtifactName a) v (TypeInfoProvides a)
  (ClearsArtifactProvides a).
Definition set_TypeInfoProvides v a := mkArtifact (Source_URI a) (Source_Expire a)
  (CompatibleDevices a) (PayloadTypes a) (ArtifactName a) (ArtifactGroup a) v
  (ClearsArtifactProvides a).
Definition set_ClearsArtifactProvides v a := mkArtifact (Source_URI a) (Source_Expire a)
  (CompatibleDevices a) (PayloadTypes a) (ArtifactName a) (ArtifactGroup a)
  (TypeInfoProvides a) v.

Definition set_Artifact v u := mkUpdateInfo v (ID u) (RebootRequested u)
  (SupportsRollback u) (StateDataStoreCount u) (HasDBSchemaUpdate u)
  (StatusReportRetryAttempts u).
Definition set_ID v u := mkUpdateInfo (artifact u) v (RebootRequested u)
  (SupportsRollback u) (StateDataStoreCount u) (HasDBSchemaUpdate u)
  (StatusReportRetryAttempts u).
Definition set_RebootRequested v u := mkUpdateInfo (artifact u) (ID u) v
  (SupportsRollback u) (StateDataStoreCount u) (HasDBSchemaUpdate u)
  (StatusReportRetryAttempts u).
Definition set_SupportsRollback v u := mkUpdateInfo (artifact u) (ID u) (RebootRequested u)
  v (StateDataStoreCount u) (HasDBSchemaUpdate u) (StatusReportRetryAttempts u).
Definition set_StateDataStoreCount v u := mkUpdateInfo (artifact u) (ID u)
  (RebootRequested u) (SupportsRollback u) v (HasDBSchemaUpdate u)
  (StatusReportRetryAttempts u).
Definition set_HasDBSchemaUpdate v u := mkUpdateInfo (artifact u) (ID u)
  (RebootRequested u) (SupportsRollback u) (StateDataStoreCount u) v
  (StatusReportRetryAttempts u).
Definition set_StatusReportRetryAttempts v u := mkUpdateInfo (artifact u) (ID u)
  (RebootRequested u) (SupportsRollback u) (StateDataStoreCount u) (HasDBSchemaUpdate u) v.

Definition set_Version v s := mkStateData v (Name s) (updateInfo s).
Definition set_Name v s := mkStateData (Version s) v (updateInfo s).
Definition set_UpdateInfo v s := mkStateData (Version s) (Name s) v.

(** [UpdateInfo.Validate]. *)
Definition Validate (ur : UpdateInfo) : option error :=
  if bool_decide (ID ur = EmptyString)
     || (length (CompatibleDevices (artifact ur)) =? 0)%nat
     || bool_decide (ArtifactName (artifact ur) = EmptyString)
     || bool_decide (Source_URI (artifact ur) = EmptyString)
  then Some (EText "Missing parameters in encoded JSON update response")
  else None.

(** ** JSON form *)

Definition Source_fields : list (string * decoder Artifact) :=
  [("URI", on_field Source_URI set_Source_URI dec_string);
   ("Expire", on_field Source_Expire set_Source_Expire dec_string)].

Definition Artifact_fields : list (string * decoder Artifact) :=
  [("Source", dec_struct Source_fields);
   ("device_types_compatible", on_field CompatibleDevices set_CompatibleDevices dec_strings);
   ("PayloadTypes", on_field PayloadTypes set_PayloadTypes dec_strings);
   ("artifact_name", on_field ArtifactName set_ArtifactName dec_string);
   ("artifact_group", on_field ArtifactGroup set_ArtifactGroup dec_string);
   ("artifact_provides", on_field TypeInfoProvides set_TypeInfoProvides dec_nilable_map);
   ("clears_artifact_provides",
      on_field ClearsArtifactProvides set_ClearsArtifactProvides dec_nilable_strings)].

Definition UpdateInfo_fields : list (string * decoder UpdateInfo) :=
  [("Artifact", on_field artifact set_Artifact (dec_struct Artifact_fields));
   ("ID", on_field ID set_ID dec_string);
   ("RebootRequested", on_field RebootRequested set_RebootRequested dec_strings);
   ("SupportsRollback", on_field SupportsRollback set_SupportsRollback dec_string);
   ("StateDataStoreCount", on_field StateDataStoreCount set_StateDataStoreCount dec_int);
   ("HasDBSchemaUpdate", on_field HasDBSchemaUpdate set_HasDBSchemaUpdate dec_bool);
   ("StatusReportRetryAttempts",
      on_field StatusReportRetryAttempts set_StatusReportRetryAttempts dec_int)].

Definition StateData_fields : list (string * decoder StateData) :=
  [("Version", on_field Version set_Version dec_int);
   ("Name", on_field Name set_Name state_UnmarshalJSON);
   ("UpdateInfo", on_field updateInfo set_UpdateInfo (dec_struct UpdateInfo_fields))].

(** [omitempty] drops empty maps and slices, not only nil ones. *)
Definition omitempty_map (k : string) (m : option (gmap string string)) :
    list (string * json) :=
  match m with
  | None => []
  | Some m => if bool_decide (m = ∅) then [] else [(k, enc_map m)]
  end.

Definition omitempty_strings (k : string) (l : option (list string)) :
    list (string * json) :=
  match l with
  | None | Some [] => []
  | Some l => [(k, JArr (JStr <$> l))]
  end.

Definition enc_Artifact (a : Artifact) : json :=
  JObj ([("Source", JObj [("URI", JStr (Source_URI a)); ("Expire", JStr (Source_Expire a))]);
         ("device_types_compatible", enc_strings (CompatibleDevices a));
         ("PayloadTypes", enc_strings (PayloadTypes a));
         ("artifact_name", JStr (ArtifactName a));
         ("artifact_group", JStr (ArtifactGroup a))] ++
        omitempty_map "artifact_provides" (TypeInfoProvides a) ++
        omitempty_strings "clears_artifact_provides" (ClearsArtifactProvides a)).

Definition enc_UpdateInfo (u : UpdateInfo) : json :=
  JObj [("Artifact", enc_Artifact (artifact u));
        ("ID", JStr (ID u));
        ("RebootRequested", enc_strings (RebootRequested u));
        ("SupportsRollback", JStr (SupportsRollback u));
        ("StateDataStoreCount", JNum (StateDataStoreCount u));
        ("HasDBSchemaUpdate", JBool (HasDBSchemaUpdate u));
        ("StatusReportRetryAttempts", JNum (StatusReportRetryAttempts u))].

Definition enc_StateData (s : StateData) : json :=
  JObj [("Version", JNum (Version s)); ("Name", state_MarshalJSON (Name s));
        ("UpdateInfo", enc_UpdateInfo (updateInfo s))].

(** [json.Marshal(sd)] and [json.Unmarshal(data, &sd)] on a fresh [sd]. *)
Definition marshal_StateData (s : StateData) : string := marshal_text (enc_StateData s).

Definition unmarshal {R} (d : decoder R) (zero : R) (data : string) : result R :=
  match unmarshal_text data with
  | Some j => d j zero
  | None => Err (EText "invalid character in JSON")
  end.

Definition unmarshal_StateData (data : string) : result StateData :=
  unmarshal (dec_struct StateData_fields) no_StateData data.

#[global] Arguments marshal_StateData : simpl never.
#[global] Arguments unmarshal_StateData : simpl never.
#[global] Arguments unmarshal : simpl never.
#[global] Arguments enc_StateData : simpl never.

(** *** The round trip *)

(** What [omitempty] turns into nil. *)
Definition normalize_Artifact (a : Artifact) : Artifact :=
  set_TypeInfoProvides
    (match TypeInfoProvides a with
     | Some m => if bool_decide (m = ∅) then None else Some m
     | None => None
     end)
    (set_ClearsArtifactProvides
      (match ClearsArtifactProvides a with Some [] => None | o => o end) a).

Definition normalize (s : StateData) : StateData :=
  set_UpdateInfo (set_Artifact (normalize_Artifact (artifact (updateInfo s))) (updateInfo s)) s.

(** The Go [int] fields hold 64-bit values. *)
Definition int_fields_ok (s : StateData) : Prop :=
  int64_min <= Version s <= int64_max /\
  int64_min <= StateDataStoreCount (updateInfo s) <= int64_max /\
  int64_min <= StatusReportRetryAttempts (updateInfo s) <= int64_max.

Lemma dec_int_num z old : int64_min <= z <= int64_max -> dec_int (JNum z) old = Ok z.
Proof.
  intros [H1 H2]. unfold dec_int. apply Z.leb_le in H1, H2. by rewrite H1, H2.
Qed.

Lemma dec_members_cons {R} (fs : list (string * decoder R)) k j l r d r' :
  lookup_field fs k = Some d -> d j r = Ok r' ->
  dec_members fs ((k, j) :: l) r = dec_members fs l r'.
Proof. intros H1 H2. cbn [dec_members]. rewrite H1. cbn [mbind result_bind]. by rewrite H2. Qed.

Lemma on_field_ok {R F} (get : R -> F) set (d : decoder F) j r v :
  d j (get r) = Ok v -> on_field get set d j r = Ok (set v r).
Proof. intros H. unfold on_field. by rewrite H. Qed.

(** One member of a document that matches a field. *)
Ltac dec_member :=
  erewrite dec_members_cons;
    [|reflexivity|first [apply on_field_ok; first
        [reflexivity | by apply dec_enc_strings | by apply dec_int_num | eassumption
        |apply state_json_roundtrip]
      | reflexivity]].

Lemma dec_omitempty k1 k2 fs a0 a m l :
  lookup_field fs k1 = Some (on_field TypeInfoProvides set_TypeInfoProvides dec_nilable_map) ->
  lookup_field fs k2 =
    Some (on_field ClearsArtifactProvides set_ClearsArtifactProvides dec_nilable_strings) ->
  TypeInfoProvides a0 = None -> ClearsArtifactProvides a0 = None ->
  a = set_TypeInfoProvides m (set_ClearsArtifactProvides l a0) ->
  dec_members fs (omitempty_map k1 m ++ omitempty_strings k2 l) a0 =
    Ok (normalize_Artifact a).
Proof.
  intros H1 H2 Hm Hl ->. destruct a0; cbn in Hm, Hl; subst. unfold normalize_Artifact. cbn.
  assert (Hclears : forall a', ClearsArtifactProvides a' = None ->
    dec_members fs (omitempty_strings k2 l) a' = Ok (set_ClearsArtifactProvides
      (match l with Some [] => None | o => o end) a')).
  { intros a' Ha'. destruct l as [[|s l]|]; [by destruct a'; cbn in *; subst| |by destruct a'; cbn in *; subst].
    cbn [omitempty_strings]. erewrite dec_members_cons; [reflexivity|done|].
    apply on_field_ok, (dec_enc_nilable_strings (Some (s :: l))). }
  destruct m as [m|]; cbn [omitempty_map].
  - case_bool_decide; cbn [app]; [by rewrite Hclears; destruct l as [[]|]|].
    erewrite dec_members_cons; [|done|apply on_field_ok, dec_enc_map].
    by rewrite Hclears; destruct l as [[]|].
  - by rewrite Hclears; destruct l as [[]|].
Qed.

Lemma dec_enc_Artifact a : dec_struct Artifact_fields (enc_Artifact a) no_Artifact =
  Ok (normalize_Artifact a).
Proof.
  unfold enc_Artifact. cbn [dec_struct app]. do 5 dec_member.
  cbn [app]. apply dec_omitempty; [reflexivity..|]. by destruct a.
Qed.

Lemma dec_enc_UpdateInfo u :
  int64_min <= StateDataStoreCount u <= int64_max ->
  int64_min <= StatusReportRetryAttempts u <= int64_max ->
  dec_struct UpdateInfo_fields (enc_UpdateInfo u) no_UpdateInfo =
    Ok (set_Artifact (normalize_Artifact (artifact u)) u).
Proof.
  intros H1 H2. unfold enc_UpdateInfo. cbn [dec_struct].
  pose proof (dec_enc_Artifact (artifact u)) as Ha.
  do 7 dec_member. destruct u; reflexivity.
Qed.

Lemma unmarshal_marshal_StateData s : int_fields_ok s ->
  unmarshal_StateData (marshal_StateData s) = Ok (normalize s).
Proof.
  intros (Hv & Hc & Hr). unfold unmarshal_StateData, unmarshal, marshal_StateData.
  rewrite unmarshal_marshal_text. unfold enc_StateData. cbn [dec_struct].
  pose proof (dec_enc_UpdateInfo (updateInfo s) Hc Hr) as Hu.
  do 3 dec_member. destruct s; reflexivity.
Qed.

(** *** Decoded integers fit their type *)

Definition preserves {R} (P : R -> Prop) (d : decoder R) : Prop :=
  forall j r r', P r -> d j r = Ok r' -> P r'.

Lemma find_field_preserves {R} (P : R -> Prop) p fs d :
  Forall (fun kd => preserves P kd.2) fs -> find_field p fs = Some d -> preserves P d.
Proof.
  induction 1 as [|[k d'] fs Hd _ IH]; [done|]. cbn. intros. by case_all; auto.
Qed.

Lemma dec_struct_preserves {R} (P : R -> Prop) fs :
  Forall (fun kd => preserves P kd.2) fs -> preserves P (dec_struct fs).
Proof.
  intros Hfs j r r' Hr Hj. destruct j as [| | | | |l]; cbn in Hj; simplify_eq; [done|].
  revert r Hr Hj. induction l as [|[k j] l IH]; intros r Hr Hj; cbn in Hj; [by simplify_eq|].
  destruct (match lookup_field fs k with Some d => d j r | None => Ok r end) as [r1|] eqn:Hd;
    [|done].
  apply (IH r1); [|done]. destruct (lookup_field fs k) as [d|] eqn:Hl; [|by simplify_eq].
  assert (preserves P d) as Hp; [|by eapply Hp].
  unfold lookup_field in Hl. destruct (find_field (String.eqb k) fs) eqn:Hf; simplify_eq;
    by eapply find_field_preserves.
Qed.

Lemma on_field_preserves {R F} (P : R -> Prop) (Q : F -> Prop) get set (d : decoder F) :
  (forall r, P r -> Q (get r)) -> (forall v r, P r -> Q v -> P (set v r)) -> preserves Q d ->
  preserves P (on_field get set d).
Proof.
  intros Hg Hs Hd j r r' Hr. unfold on_field. destruct (d j (get r)) eqn:E; [|done].
  intros [= <-]. apply Hs; [done|]. by eapply Hd; [apply Hg|].
Qed.

Definition int64_ok (z : Z) : Prop := int64_min <= z <= int64_max.

Lemma dec_int_preserves : preserves int64_ok dec_int.
Proof.
  intros j r r' Hr Hj. destruct j; cbn in Hj; try done; [by simplify_eq|].
  destruct (_ && _) eqn:E; [|done]. b2p. by simplify_eq.
Qed.

Definition counters_ok (u : UpdateInfo) : Prop :=
  int64_ok (StateDataStoreCount u) /\ int64_ok (StatusReportRetryAttempts u).

Lemma preserves_other {R F} (P : R -> Prop) get set (d : decoder F) :
  (forall v r, P r -> P (set v r)) -> preserves P (on_field get set d).
Proof.
  intros Hs. by apply (on_field_preserves P (fun _ => True)); [|auto|].
Qed.

Lemma unmarshal_int_fields data s : unmarshal_StateData data = Ok s -> int_fields_ok s.
Proof.
  unfold unmarshal_StateData, unmarshal. destruct (unmarshal_text data) as [j|]; [|done].
  intros Hj. assert (preserves int_fields_ok (dec_struct StateData_fields)) as Hp.
  2: { eapply Hp; [|done]. repeat split; done. }
  apply dec_struct_preserves. repeat apply Forall_cons_2; [..|apply Forall_nil_2]; cbn [snd].
  - apply (on_field_preserves _ int64_ok); [by intros ? []|by intros ?? (?&?&?)|].
    apply dec_int_preserves.
  - by apply preserves_other.
  - apply (on_field_preserves _ counters_ok); [by intros ? (?&?&?)|by intros ?? (?&?&?) []|].
    apply dec_struct_preserves. repeat apply Forall_cons_2; [..|apply Forall_nil_2]; cbn [snd];
      try by apply preserves_other.
    + apply (on_field_preserves _ int64_ok); [by intros ? []|by intros ?? []|].
      apply dec_int_preserves.
    + apply (on_field_preserves _ int64_ok); [by intros ? []|by intros ?? []|].
      apply dec_int_preserves.
Qed.

(** ** Properties *)

(** State data survives being stored and loaded.  For every value whose
    integer fields fit their Go type, decoding its JSON text succeeds, and gives
    the value back exactly when neither of the [omitempty] fields is an empty
    but non-nil map or slice; in those two cases the field comes back nil. *)
Theorem statedata_roundtrip (s : StateData) (H : int_fields_ok s) :
  (exists s', unmarshal_StateData (marshal_StateData s) = Ok s') /\
  (unmarshal_StateData (marshal_StateData s) = Ok s <->
   TypeInfoProvides (artifact (updateInfo s)) <> Some ∅ /\
   ClearsArtifactProvides (artifact (updateInfo s)) <> Some []).
Proof.
  rewrite (unmarshal_marshal_StateData s H). split; [by eexists|].
  destruct s as [v n [[u x cd pt an ag m l] id rr sr sc hd ra]].
  unfold normalize, normalize_Artifact. cbn. split.
  - intros [= Hm Hl]. split.
    + intros ->. by rewrite bool_decide_true in Hm.
    + by intros ->.
  - intros [Hm Hl]. destruct m as [m|], l as [[|y l]|]; try done;
      rewrite ?(bool_decide_false (m = ∅)) by congruence; done.
Qed.

Definition example_StateData : StateData :=
  mkStateData 2 MenderStateUpdateInstall
    (mkUpdateInfo
      (mkArtifact "http://x/a?b=1&c=2" "never" ["qemux86-64"] ["rootfs-image"] "release-2"
        EmptyString (Some {["rootfs-image.version" := "2"]}) (Some ["rootfs-image.*"]))
      "deployment-1" [RebootTypeCustom] RebootTypeNone 3 false 0).

Lemma statedata_roundtrip_witness :
  (exists s', unmarshal_StateData (marshal_StateData example_StateData) = Ok s') /\
  (unmarshal_StateData (marshal_StateData example_StateData) = Ok example_StateData <->
   TypeInfoProvides (artifact (updateInfo example_StateData)) <> Some ∅ /\
   ClearsArtifactProvides (artifact (updateInfo example_StateData)) <> Some []).
Proof.
  apply (statedata_roundtrip example_StateData).
  repeat split; vm_compute; discriminate.
Defined.
