(* ===== verification/DataStore.v ===== *)
(** * DataStore: loading and storing the client's state

    datastore/datastore.go against the [Store] interface: the provides of the
    installed artifact, the state data with its store counter and schema
    migration, and the commit of an artifact's data.  The wildcard matching of
    the mender-artifact package is a parameter. *)

From S2P Require Import Prelude Json Store StateData.
Import MapStore.

Open Scope Z_scope.

Definition MaximumStateDataStoreCount : Z := 30.

(** Reading an entry that may be missing: nothing, its bytes, or an error. *)
Definition read_optional {T : Type} `{Transaction T} (what key : string) (txn : T) :
    result (option string) :=
  match ReadAll key txn with
  | Ok buf => Ok (Some buf)
  | Err err =>
      if IsNotExist err then Ok None
      else Err (EWrap ("Error reading " +:+ what +:+ " from datastore.") err)
  end.

(** The transaction of [LoadProvides].  The map is the captured variable: what
    it holds when an error cuts the transaction short is returned too. *)
Definition LoadProvides_txn {T : Type} `{Transaction T} (txn : T) :
    gmap string string * option error * T :=
  let provides := ∅ in
  match read_optional "ArtifactName" ArtifactNameKey txn with
  | Err err => (provides, Some err, txn)
  | Ok name =>
      let provides := match name with
                      | Some v => <["artifact_name" := v]> provides
                      | None => provides
                      end in
      match read_optional "ArtifactGroup" ArtifactGroupKey txn with
      | Err err => (provides, Some err, txn)
      | Ok group =>
          let provides := match group with
                          | Some v => <["artifact_group" := v]> provides
                          | None => provides
                          end in
          match read_optional "ArtifactTypeInfoProvides" ArtifactTypeInfoProvidesKey txn with
          | Err err => (provides, Some err, txn)
          | Ok None => (provides, None, txn)
          | Ok (Some buf) =>
              if bool_decide (buf = "null") then (provides, None, txn)
              else match unmarshal dec_nilable_map (Some provides) buf with
                   | Ok m => (default ∅ m, None, txn)
                   | Err err => (provides, Some err, txn)
                   end
          end
      end
  end.

Definition LoadProvides {DB : Type} `{Store DB} (dbStore : DB) : gmap string string * option error * DB :=
  ReadTransaction ∅ LoadProvides_txn dbStore.

(** ** Storing state data *)

(** The store count of the entry that is about to be overwritten, if there is
    one that can be read. *)
Definition existing_store_count {T : Type} `{Transaction T} (key : string)
    (ui : UpdateInfo) (txn : T) : UpdateInfo :=
  match ReadAll key txn with
  | Ok existingData =>
      match unmarshal_StateData existingData with
      | Ok existing => set_StateDataStoreCount (StateDataStoreCount (updateInfo existing)) ui
      | Err _ => ui
      end
  | Err _ => ui
  end.

Definition store_count_exceeded (c : Z) : bool := MaximumStateDataStoreCount <=? c.

(** The counter update both [StoreStateData] and [LoadStateData] make. *)
Definition next_store_count (incStoreCount : bool) (c : Z) : Z :=
  let c := if store_count_exceeded c then 0 else c in
  if incStoreCount then int64 (c + 1) else c.

Definition update_store_count (incStoreCount : bool) (ui : UpdateInfo) : UpdateInfo :=
  set_StateDataStoreCount (next_store_count incStoreCount (StateDataStoreCount ui)) ui.

Definition state_key (ui : UpdateInfo) : string :=
  if HasDBSchemaUpdate ui then StateDataKeyUncommitted else StateDataKey.

(** The custom function runs first; [storeCountExceeded] is the captured
    variable. *)
Definition StoreStateData_txn {T : Type} `{Transaction T} (sd : StateData) (incStoreCount : bool)
    (txnFunc : option (T -> option error * T)) (txn : T) : bool * option error * T :=
  let '(err, txn) := match txnFunc with Some f => f txn | None => (None, txn) end in
  match err with
  | Some err => (false, Some err, txn)
  | None =>
      let key := state_key (updateInfo sd) in
      let ui := existing_store_count key (updateInfo sd) txn in
      let storeCountExceeded := store_count_exceeded (StateDataStoreCount ui) in
      let ui := update_store_count incStoreCount ui in
      let data := marshal_StateData (set_UpdateInfo ui sd) in
      let '(err, txn) := if HasDBSchemaUpdate ui then (None, txn)
                         else Remove StateDataKeyUncommitted txn in
      match err with
      | Some err => (storeCountExceeded, Some err, txn)
      | None =>
          let '(err, txn) := WriteAll key data txn in
          (storeCountExceeded, err, txn)
      end
  end.

Definition StoreStateDataAndTransaction {DB : Type} `{Store DB} (dbStore : DB) (sd : StateData)
    (incStoreCount : bool) (txnFunc : option (Txn -> option error * Txn)) :
    option error * DB :=
  let sd := if Version sd =? 0 then set_Version StateDataVersion sd else sd in
  let '(storeCountExceeded, err, dbStore) :=
    WriteTransaction false (StoreStateData_txn sd incStoreCount txnFunc) dbStore in
  if storeCountExceeded : bool then (Some MaximumStateDataStoreCountExceeded, dbStore)
  else (err, dbStore).

Definition StoreStateData {DB : Type} `{Store DB} (dbStore : DB) (sd : StateData) (incStoreCount : bool) :
    option error * DB :=
  StoreStateDataAndTransaction dbStore sd incStoreCount None.

(** ** Loading state data *)

Definition loadStateData {T : Type} `{Transaction T} (txn : T) (key : string) : result StateData :=
  data ← ReadAll key txn;
  unmarshal_StateData data.

(** What a database of version 0 or 1 is taken to mean: the update was of a
    root file system. *)
Definition upgrade_schema (sd : StateData) : StateData :=
  let ui := updateInfo sd in
  set_UpdateInfo
    (set_HasDBSchemaUpdate true
      (set_SupportsRollback RollbackSupported
        (set_RebootRequested [RebootTypeCustom]
          (set_Artifact (set_PayloadTypes ["rootfs-image"] (artifact ui)) ui)))) sd.

(** The switch on the version. *)
Definition migrate {T : Type} `{Transaction T} (txn : T) (sd : StateData) :
    StateData * option error :=
  if (Version sd =? 0) || (Version sd =? 1) then
    match loadStateData txn StateDataKeyUncommitted with
    | Ok uncommSd =>
        let sd := if bool_decide (ID (updateInfo sd) = ID (updateInfo uncommSd))
                  then uncommSd else sd in
        (upgrade_schema sd, None)
    | Err err =>
        if bool_decide (err <> ErrNotExist) then (sd, Some err)
        else (upgrade_schema sd, None)
    end
  else if Version sd =? 2 then
    (set_UpdateInfo (set_HasDBSchemaUpdate false (updateInfo sd)) sd, None)
  else (sd, Some (EText "unsupported state data version")).

(** The captured variables are the state data and the flag.  What a failing
    [json.Unmarshal] leaves in [sd] is not modelled: it is the zero value here. *)
Definition LoadStateData_txn {T : Type} `{Transaction T} (txn : T) :
    (StateData * bool) * option error * T :=
  match loadStateData txn StateDataKey with
  | Err err => ((no_StateData, false), Some err, txn)
  | Ok sd =>
      match migrate txn sd with
      | (sd, Some err) => ((sd, false), Some err, txn)
      | (sd, None) =>
          let sd := set_Version StateDataVersion sd in
          let ui := updateInfo sd in
          let storeCountExceeded := store_count_exceeded (StateDataStoreCount ui) in
          let ui := update_store_count true ui in
          let sd := set_UpdateInfo ui sd in
          let key := state_key ui in
          let '(err, txn) := WriteAll key (marshal_StateData sd) txn in
          ((sd, storeCountExceeded), err, txn)
      end
  end.

Definition LoadStateData {DB : Type} `{Store DB} (dbStore : DB) : StateData * option error * DB :=
  let '((sd, storeCountExceeded), err, dbStore) :=
    WriteTransaction (no_StateData, false) LoadStateData_txn dbStore in
  if storeCountExceeded : bool then (sd, Some MaximumStateDataStoreCountExceeded, dbStore)
  else (sd, err, dbStore).

(** ** Committing an artifact *)

Section commit.
(** [utils.StringsMatchingWildcards] of mender-artifact: the strings of the
    first list that match one of the wildcards of the second. *)
Variable StringsMatchingWildcards : list string -> list string -> result (list string).

Context {T : Type} `{Transaction T}.

Definition getProvidesToPreserve (txn : T) (clearsProvides : list string) :
    result (gmap string string) :=
  match ReadAll ArtifactTypeInfoProvidesKey txn with
  | Err err => if IsNotExist err then Ok ∅ else Err err
  | Ok providesBuf =>
      match unmarshal dec_nilable_map None providesBuf with
      | Err err =>
          Err (EWrap "Could not unmarshall artifact_provides keys from storage" err)
      | Ok stored =>
          let providesInStore := default ∅ stored in
          match StringsMatchingWildcards (map_to_list providesInStore).*1 clearsProvides with
          | Err err =>
              Err (EWrap "Could not match against clears_artifact_provides field" err)
          | Ok entriesToRemove =>
              Ok (foldl (fun m entry => delete entry m) providesInStore entriesToRemove)
          end
      end
  end.

(** Whether the group is to be removed, when the artifact brings none. *)
Definition removes_group (clearsProvides : option (list string)) : result bool :=
  match clearsProvides with
  | None => Ok true
  | Some clears =>
      entriesToRemove ← StringsMatchingWildcards ["artifact_group"] clears;
      Ok (0 <? length entriesToRemove)%nat
  end.

Definition CommitArtifactData (artifactName artifactGroup : string)
    (provides : option (gmap string string)) (clearsProvides : option (list string))
    (txn : T) : option error * T :=
  match WriteAll ArtifactNameKey artifactName txn with
  | (Some err, txn) => (Some err, txn)
  | (None, txn) =>
      match (match clearsProvides with
             | None => Ok provides
             | Some clears =>
                 preserved ← getProvidesToPreserve txn clears;
                 Ok (Some (default ∅ provides ∪ preserved))
             end) with
      | Err err => (Some err, txn)
      | Ok providesToCommit =>
          let providesBuf := marshal_text (enc_nilable_map providesToCommit) in
          match WriteAll ArtifactTypeInfoProvidesKey providesBuf txn with
          | (Some err, txn) => (Some err, txn)
          | (None, txn) =>
              if bool_decide (artifactGroup = EmptyString) then
                match removes_group clearsProvides with
                | Err err => (Some err, txn)
                | Ok true => Remove ArtifactGroupKey txn
                | Ok false => (None, txn)
                end
              else WriteAll ArtifactGroupKey artifactGroup txn
          end
      end
  end.
End commit.

(** ** What the transactions do to the contents *)

Definition current_version (sd : StateData) : StateData :=
  if Version sd =? 0 then set_Version StateDataVersion sd else sd.

Definition with_store_count (c : Z) (sd : StateData) : StateData :=
  set_UpdateInfo (set_StateDataStoreCount c (updateInfo sd)) sd.

Definition store_count (sd : StateData) : Z := StateDataStoreCount (updateInfo sd).

Definition uncommitted_cleared (ui : UpdateInfo) (m : gmap string string) :
    gmap string string :=
  if HasDBSchemaUpdate ui then m else delete StateDataKeyUncommitted m.

Lemma existing_store_count_eq {T : Type} `{Transaction T} key ui (txn : T) :
  exists c, existing_store_count key ui txn = set_StateDataStoreCount c ui.
Proof.
  unfold existing_store_count.
  destruct (ReadAll key txn); [destruct (unmarshal_StateData a)|]; eauto;
    exists (StateDataStoreCount ui); by destruct ui.
Qed.

Section transactions.
Context {T : Type} `{TransactionLaws T}.

Lemma StoreStateData_txn_ok sd inc f (txn txn' : T) exceeded :
  StoreStateData_txn sd inc f txn = (exceeded, None, txn') ->
  exists txn1 c,
    match f with Some f => f txn = (None, txn1) | None => txn1 = txn end /\
    existing_store_count (state_key (updateInfo sd)) (updateInfo sd) txn1 =
      set_StateDataStoreCount c (updateInfo sd) /\
    exceeded = store_count_exceeded c /\
    contents txn' =
      <[state_key (updateInfo sd) :=
          marshal_StateData (with_store_count (next_store_count inc c) sd)]>
      (uncommitted_cleared (updateInfo sd) (contents txn1)).
Proof.
  unfold StoreStateData_txn. intros Hs.
  destruct (match f with Some f => f txn | None => (None, txn) end) as [[e|] txn1] eqn:Hf;
    [done|].
  destruct (existing_store_count_eq (state_key (updateInfo sd)) (updateInfo sd) txn1)
    as [c Hc].
  rewrite Hc in Hs. exists txn1, c. split; [by destruct f as [f|]; [|injection Hf]|]. split; [done|].
  unfold update_store_count in Hs. cbn in Hs. unfold uncommitted_cleared.
  destruct (HasDBSchemaUpdate (updateInfo sd)).
  - destruct (WriteAll _ _ txn1) as [[|] ?] eqn:Hw; simplify_eq.
    split; [done|]. by rewrite (WriteAll_ok _ _ _ _ Hw).
  - destruct (Remove _ txn1) as [[|] txn2] eqn:Hr; [done|].
    destruct (WriteAll _ _ txn2) as [[|] ?] eqn:Hw; simplify_eq.
    split; [done|]. by rewrite (WriteAll_ok _ _ _ _ Hw), (Remove_ok _ _ _ Hr).
Qed.
End transactions.

(** ** On a store that works *)

Definition stored_count (m : gmap string string) (key : string) (own : Z) : Z :=
  match m !! key with
  | Some data => match unmarshal_StateData data with
                 | Ok existing => store_count existing
                 | Err _ => own
                 end
  | None => own
  end.

Definition count_error (exceeded : bool) : option error :=
  if exceeded then Some MaximumStateDataStoreCountExceeded else None.

(** What is stored for [sd] over the contents [m]. *)
Definition stored_form (inc : bool) (m : gmap string string) (sd : StateData) : StateData :=
  with_store_count
    (next_store_count inc (stored_count m (state_key (updateInfo sd)) (store_count sd)))
    (current_version sd).

Lemma current_version_updateInfo sd : updateInfo (current_version sd) = updateInfo sd.
Proof. unfold current_version. by destruct (Version sd =? 0). Qed.

Lemma next_store_count_range inc c : int64_min <= c <= int64_max ->
  int64_min <= next_store_count inc c <= int64_max.
Proof.
  unfold next_store_count, store_count_exceeded. intros Hc.
  destruct inc; [apply int64_range|].
  destruct (_ <=? _); [unfold int64_min, int64_max; lia|done].
Qed.

Section reliable_txn.
Context {T : Type} `{ReliableTransaction T}.

Lemma existing_store_count_reliable key ui (txn : T) :
  existing_store_count key ui txn =
    set_StateDataStoreCount (stored_count (contents txn) key (StateDataStoreCount ui)) ui.
Proof.
  unfold existing_store_count, stored_count. rewrite rel_ReadAll.
  destruct (contents txn !! key) as [d|]; [|by destruct ui].
  destruct (unmarshal_StateData d); [done|by destruct ui].
Qed.

Lemma StoreStateData_txn_reliable sd inc (txn : T) :
  (StoreStateData_txn sd inc None txn).1 =
    (store_count_exceeded
      (stored_count (contents txn) (state_key (updateInfo sd)) (store_count sd)), None).
Proof.
  unfold StoreStateData_txn. rewrite existing_store_count_reliable.
  unfold update_store_count. cbn [StateDataStoreCount set_StateDataStoreCount].
  destruct (HasDBSchemaUpdate _).
  - by run_reliable.
  - run_reliable. cbn [fst]. by run_reliable.
Qed.
End reliable_txn.

Section reliable_store.
Context {DB : Type} `{ReliableStore DB}.

Lemma StoreStateData_reliable (s : DB) sd inc :
  exists s', StoreStateData s sd inc =
      (count_error (store_count_exceeded
        (stored_count (contents s) (state_key (updateInfo sd)) (store_count sd))), s') /\
    contents s' = <[state_key (updateInfo sd) :=
        marshal_StateData (stored_form inc (contents s) sd)]>
      (uncommitted_cleared (updateInfo sd) (contents s)).
Proof.
  unfold StoreStateData, StoreStateDataAndTransaction. fold (current_version sd).
  set (sd' := current_version sd).
  assert (updateInfo sd' = updateInfo sd) as Hui by apply current_version_updateInfo.
  destruct (rel_WriteTransaction false (StoreStateData_txn sd' inc None) s)
    as (t & s' & Ht & -> & Hc).
  pose proof (StoreStateData_txn_reliable sd' inc t) as Hr.
  destruct (StoreStateData_txn sd' inc None t) as [[ex er] t'] eqn:E. cbn in Hr, Hc.
  injection Hr as -> ->.
  unfold stored_form. fold sd'. rewrite <- Hui, <- Ht.
  replace (store_count sd) with (store_count sd') by (unfold store_count; by rewrite Hui).
  exists s'. split; [cbn; unfold count_error; by destruct (store_count_exceeded _)|].
  rewrite Hc. apply StoreStateData_txn_ok in E as (txn1 & c & -> & Hex & _ & ->).
  rewrite existing_store_count_reliable in Hex.
  apply (f_equal StateDataStoreCount) in Hex. cbn in Hex. by rewrite <- Hex.
Qed.

(** Loading what is stored in the current version. *)
Lemma LoadStateData_current (s : DB) data sd :
  contents s !! StateDataKey = Some data -> unmarshal_StateData data = Ok sd ->
  Version sd = 2 ->
  let sd' := with_store_count (next_store_count true (store_count sd))
    (set_UpdateInfo (set_HasDBSchemaUpdate false (updateInfo sd)) sd) in
  exists s', LoadStateData s =
      (sd', count_error (store_count_exceeded (store_count sd)), s') /\
    contents s' = <[StateDataKey := marshal_StateData sd']> (contents s).
Proof.
  intros Hd Hu Hv sd'. unfold LoadStateData.
  destruct (rel_WriteTransaction (no_StateData, false) LoadStateData_txn s)
    as (t & s' & Ht & -> & Hc). revert Hc.
  unfold LoadStateData_txn, loadStateData. rewrite rel_ReadAll, Ht, Hd. cbn [mbind result_bind].
  rewrite Hu. unfold migrate. rewrite Hv.
  change ((2 =? 0) || (2 =? 1)) with false. change (2 =? 2) with true. cbv iota.
  set (l := set_UpdateInfo _ (set_Version _ _)).
  assert (l = sd') as -> by (unfold l, sd', with_store_count, store_count; destruct sd;
    cbn in *; by subst).
  change (state_key _) with StateDataKey.
  run_reliable. cbn [fst snd]. intros Hc. exists s'. split.
  - change (StateDataStoreCount _) with (store_count sd).
    by destruct (store_count_exceeded (store_count sd)).
  - by rewrite Hc, Ht0, Ht.
Qed.
End reliable_store.

(** ** Commit, in terms of the contents *)

(** The provides the store holds, as [getProvidesToPreserve] reads them. *)
Definition stored_provides (m : gmap string string) : gmap string string :=
  match m !! ArtifactTypeInfoProvidesKey with
  | Some buf => match unmarshal dec_nilable_map None buf with
                | Ok (Some p) => p
                | _ => ∅
                end
  | None => ∅
  end.

Lemma lookup_foldl_delete (l : list string) (m : gmap string string) k :
  foldl (fun m entry => delete entry m) m l !! k = if bool_decide (k ∈ l) then None else m !! k.
Proof.
  revert m. induction l as [|x l IH]; intros m; cbn; [done|]. rewrite IH.
  destruct (decide (k ∈ l)); [rewrite !bool_decide_true by set_solver; done|].
  rewrite (bool_decide_false (k ∈ l)) by done.
  destruct (decide (k = x)) as [->|].
  - rewrite lookup_delete_eq, bool_decide_true; [done|set_solver].
  - rewrite lookup_delete_ne, bool_decide_false by set_solver. done.
Qed.

Section commit_spec.
Variable StringsMatchingWildcards : list string -> list string -> result (list string).
Variable wildcard_matches : string -> string -> bool.

(** The documented behaviour of the matcher. *)
Definition matcher_ok : Prop := forall l wildcards r,
  StringsMatchingWildcards l wildcards = Ok r ->
  forall k, k ∈ r <-> k ∈ l /\ existsb (wildcard_matches k) wildcards = true.

Context {T : Type} `{TransactionLaws T}.
Hypothesis Hmatch : matcher_ok.

Lemma getProvidesToPreserve_spec (txn : T) clears m :
  getProvidesToPreserve StringsMatchingWildcards txn clears = Ok m ->
  forall k, m !! k = if existsb (wildcard_matches k) clears then None
                     else stored_provides (contents txn) !! k.
Proof.
  unfold getProvidesToPreserve, stored_provides. intros Hg k.
  destruct (ReadAll ArtifactTypeInfoProvidesKey txn) as [buf|err] eqn:Hr.
  - rewrite (ReadAll_ok _ _ _ Hr).
    destruct (unmarshal dec_nilable_map None buf) as [stored|]; [|done].
    assert ((match stored with Some p => p | None => ∅ end) = default ∅ stored) as ->
      by by destruct stored.
    destruct (StringsMatchingWildcards _ clears) as [rm|] eqn:Hs; [|done].
    injection Hg as <-. rewrite lookup_foldl_delete.
    pose proof (Hmatch _ _ _ Hs k) as Hk. set (p := default ∅ stored) in *.
    destruct (p !! k) as [v|] eqn:Hv.
    + assert (k ∈ (map_to_list p).*1).
      { apply list_elem_of_fmap. exists (k, v). split; [done|]. by apply elem_of_map_to_list. }
      case_bool_decide; destruct (existsb _ _) eqn:He; try done; naive_solver.
    + case_bool_decide; by destruct (existsb _ _).
  - destruct (IsNotExist err) eqn:He; [|done]. injection Hg as <-.
    rewrite (ReadAll_not_exist _ _ _ Hr He). by destruct (existsb _ _).
Qed.

(** Whether a wildcard of the artifact covers [k]; no list at all covers
    everything. *)
Definition cleared (clears : option (list string)) (k : string) : bool :=
  match clears with
  | None => true
  | Some wildcards => existsb (wildcard_matches k) wildcards
  end.

Lemma removes_group_spec clears b :
  removes_group StringsMatchingWildcards clears = Ok b ->
  b = cleared clears "artifact_group".
Proof.
  destruct clears as [ws|]; cbn; [|by intros [= <-]].
  destruct (StringsMatchingWildcards _ ws) as [r|] eqn:Hs; [|done].
  intros [= <-]. pose proof (Hmatch _ _ _ Hs) as Hr.
  destruct (existsb _ ws) eqn:He.
  - destruct r as [|x r]; [|done]. exfalso.
    assert ("artifact_group" ∈ @nil string) as Hin; [|by apply elem_of_nil in Hin].
    apply Hr. split; [set_solver|done].
  - destruct r as [|x r]; [done|]. exfalso. destruct (proj1 (Hr x)) as [Hx He']; [set_solver|].
    apply list_elem_of_singleton in Hx. subst. congruence.
Qed.
End commit_spec.

Lemma CommitArtifactData_spec {T : Type} `{TransactionLaws T}
    matcher wildcard_matches (Hmatch : matcher_ok matcher wildcard_matches)
    name group provides clears (txn txn' : T)
    (Hcommit : CommitArtifactData matcher name group provides clears txn = (None, txn')) :
  let before := contents txn in
  let after := contents txn' in
  let keep k := negb (cleared wildcard_matches clears k) in
  after !! ArtifactNameKey = Some name /\
  after !! ArtifactGroupKey =
    (if bool_decide (group = EmptyString)
     then if keep "artifact_group" then before !! ArtifactGroupKey else None
     else Some group) /\
  (forall k, stored_provides after !! k =
     match default ∅ provides !! k with
     | Some v => Some v
     | None => if keep k then stored_provides before !! k else None
     end) /\
  (forall k, k ∉ [ArtifactNameKey; ArtifactGroupKey; ArtifactTypeInfoProvidesKey] ->
     after !! k = before !! k).
Proof.
  unfold CommitArtifactData in Hcommit.
  destruct (WriteAll ArtifactNameKey name txn) as [[e|] txn1] eqn:H1; [done|].
  apply WriteAll_ok in H1.
  match type of Hcommit with match ?m with _ => _ end = _ => destruct m as [p|e] eqn:Hp end;
    [|done].
  assert (forall k, default ∅ p !! k =
    match default ∅ provides !! k with
    | Some v => Some v
    | None => if negb (cleared wildcard_matches clears k)
              then stored_provides (contents txn) !! k else None
    end) as Hprov.
  { intros k. destruct clears as [ws|]; cbn in Hp.
    - destruct (getProvidesToPreserve matcher txn1 ws) as [m|] eqn:Hg; [|done].
      injection Hp as <-. cbn [from_option id cleared]. rewrite lookup_union.
      rewrite (getProvidesToPreserve_spec _ _ Hmatch _ _ _ Hg k).
      unfold stored_provides. rewrite H1, lookup_insert_ne by done.
      destruct (existsb _ ws); cbn; destruct (default ∅ provides !! k); cbn; try done;
        by destruct (_ !! k).
    - injection Hp as <-. cbn. by destruct (default ∅ provides !! k). }
  destruct (WriteAll ArtifactTypeInfoProvidesKey _ txn1) as [[e|] txn2] eqn:H2; [done|].
  apply WriteAll_ok in H2. rewrite H1 in H2.
  assert (exists og, contents txn' = partial_alter (fun _ => og) ArtifactGroupKey (contents txn2)
    /\ og = if bool_decide (group = EmptyString)
            then if negb (cleared wildcard_matches clears "artifact_group")
                 then contents txn !! ArtifactGroupKey else None
            else Some group) as (og & H3 & Hog).
  { case_bool_decide; [|eexists; split; [|done]; by apply WriteAll_ok in Hcommit].
    destruct (removes_group matcher clears) as [[]|] eqn:Hr; [..|done];
      apply (removes_group_spec _ _ Hmatch) in Hr; rewrite <- Hr; eexists; (split; [|done]).
    - by apply Remove_ok in Hcommit.
    - injection Hcommit as <-. symmetry. cbn. rewrite H2.
      rewrite <- (lookup_insert_ne (contents txn) ArtifactNameKey ArtifactGroupKey name) by done.
      rewrite <- (lookup_insert_ne _ ArtifactTypeInfoProvidesKey ArtifactGroupKey
        (marshal_text (enc_nilable_map p))) by done.
      by apply partial_alter_self. }
  cbn zeta. rewrite H3, H2. split_and!.
  - by rewrite lookup_partial_alter_ne, lookup_insert_ne, lookup_insert_eq by done.
  - by rewrite lookup_partial_alter_eq.
  - intros k. rewrite <- Hprov. unfold stored_provides at 1.
    rewrite lookup_partial_alter_ne, lookup_insert_eq by done.
    unfold unmarshal. rewrite unmarshal_marshal_text.
    destruct p as [p|]; [|done]. cbn [enc_nilable_map]. by rewrite dec_enc_map.
  - intros k Hk. rewrite lookup_partial_alter_ne, !lookup_insert_ne by set_solver. done.
Qed.

Lemma CommitArtifactData_name {T} `{TransactionLaws T} matcher n g p c (txn txn' : T) :
  CommitArtifactData matcher n g p c txn = (None, txn') ->
  contents txn' !! ArtifactNameKey = Some n.
Proof.
  unfold CommitArtifactData.
  destruct (WriteAll ArtifactNameKey n txn) as [[e|] txn1] eqn:H1'; [done|].
  destruct (match c with Some _ => _ | None => _ end) as [p'|e]; [|done].
  destruct (WriteAll ArtifactTypeInfoProvidesKey _ txn1) as [[e|] txn2] eqn:H2'; [done|].
  assert (contents txn2 !! ArtifactNameKey = Some n) as Hn.
  { rewrite (WriteAll_ok _ _ _ _ H2'), (WriteAll_ok _ _ _ _ H1').
    by rewrite lookup_insert_ne, lookup_insert_eq. }
  case_bool_decide.
  - destruct (removes_group matcher c) as [[]|]; [|by intros [= <-]|done].
    intros Hr. rewrite (Remove_ok _ _ _ Hr). by rewrite lookup_delete_ne.
  - intros Hw. rewrite (WriteAll_ok _ _ _ _ Hw). by rewrite lookup_insert_ne.
Qed.

Lemma StoreStateDataAndTransaction_outcome {DB : Type} `{StoreLaws DB}
    (dbStore : DB) sd inc txnFunc :
  let '(err, dbStore') := StoreStateDataAndTransaction dbStore sd inc txnFunc in
  (err <> None /\ contents dbStore' = contents dbStore) \/
  (exists txn txn1 c,
     contents txn = contents dbStore /\
     match txnFunc with Some f => f txn = (None, txn1) | None => txn1 = txn end /\
     contents dbStore' =
       <[state_key (updateInfo sd) :=
           marshal_StateData (with_store_count (next_store_count inc c) (current_version sd))]>
       (uncommitted_cleared (updateInfo sd) (contents txn1)) /\
     err = count_error (store_count_exceeded c)).
Proof.
  unfold StoreStateDataAndTransaction. fold (current_version sd).
  set (sd' := current_version sd).
  assert (updateInfo sd' = updateInfo sd) as Hui by apply current_version_updateInfo.
  destruct (WriteTransaction_spec false (StoreStateData_txn sd' inc txnFunc) dbStore)
    as [e s1 H1|t a e t1 s1 H1 H2 H3|t a e t1 s1 H1 H2 H3|t a t1 s1 H1 H2 H3];
    [by left|destruct a; by left|destruct a; by left|].
  apply StoreStateData_txn_ok in H2 as (txn1 & c & Hf & _ & -> & Hc).
  rewrite Hui, <- H3 in Hc. unfold count_error.
  destruct (store_count_exceeded c) eqn:Hex; right; exists t, txn1, c; by rewrite Hex.
Qed.

(** ** Properties *)

(** The state data and the writes of the custom function (at a commit, the
    new artifact's name and provides) reach the database together or not at
    all, whether or not the store counter is found exceeded. *)
Theorem StoreStateDataAndTransaction_atomic {DB : Type} `{StoreLaws DB}
    (dbStore : DB) sd inc txnFunc :
  let '(err, dbStore') := StoreStateDataAndTransaction dbStore sd inc txnFunc in
  (err <> None /\ contents dbStore' = contents dbStore) \/
  (exists txn txn1 c,
     contents txn = contents dbStore /\
     match txnFunc with Some f => f txn = (None, txn1) | None => txn1 = txn end /\
     contents dbStore' =
       <[state_key (updateInfo sd) :=
           marshal_StateData (with_store_count (next_store_count inc c) (current_version sd))]>
       (uncommitted_cleared (updateInfo sd) (contents txn1)) /\
     err = count_error (store_count_exceeded c)).
Proof. apply StoreStateDataAndTransaction_outcome. Qed.

(** What a load makes of stored state data: when the update migrates the
    database, what a database of an old version is taken to mean. *)
Definition loaded_form (sd : StateData) : StateData :=
  if HasDBSchemaUpdate (updateInfo sd) then upgrade_schema sd else sd.

(** The update [u] migrates the database: the entry of the old client is there and
    is of the same update. *)
Definition migrates (db : gmap string string) (u : UpdateInfo) : Prop :=
  exists data old, db !! StateDataKey = Some data /\ unmarshal_StateData data = Ok old /\
    (Version old = 0 \/ Version old = 1) /\ ID (updateInfo old) = ID u.

(** Loading what is stored in the current version for an update that migrates the
    database. *)
Lemma LoadStateData_uncommitted {DB : Type} `{ReliableStore DB} (s : DB) data sd :
  contents s !! StateDataKeyUncommitted = Some data -> unmarshal_StateData data = Ok sd ->
  migrates (contents s) (updateInfo sd) ->
  let sd' := with_store_count (next_store_count true (store_count sd))
    (set_Version StateDataVersion (upgrade_schema sd)) in
  exists s', LoadStateData s =
      (sd', count_error (store_count_exceeded (store_count sd)), s') /\
    contents s' = <[StateDataKeyUncommitted := marshal_StateData sd']> (contents s).
Proof.
  intros Hd Hu (d0 & old & Hd0 & Hu0 & Hv0 & Hid) sd'. unfold LoadStateData.
  destruct (rel_WriteTransaction (no_StateData, false) LoadStateData_txn s)
    as (t & s' & Ht & -> & Hc). revert Hc.
  unfold LoadStateData_txn, loadStateData. rewrite rel_ReadAll, Ht, Hd0. cbn [mbind result_bind].
  rewrite Hu0. assert (migrate t old = (upgrade_schema sd, None)) as ->.
  { unfold migrate. replace ((Version old =? 0) || (Version old =? 1)) with true
      by (by destruct Hv0 as [-> | ->]).
    unfold loadStateData. rewrite rel_ReadAll, Ht, Hd. cbn [mbind result_bind]. rewrite Hu.
    by rewrite bool_decide_true. }
  change (state_key _) with StateDataKeyUncommitted.
  change (set_UpdateInfo _ (set_Version StateDataVersion (upgrade_schema sd))) with sd'.
  run_reliable. cbn [fst snd]. intros Hc. exists s'. split.
  - change (StateDataStoreCount _) with (store_count sd).
    by destruct (store_count_exceeded (store_count sd)).
  - by rewrite Hc, Ht0, Ht.
Qed.

(** C18: what is stored is what the next start finds.  On a store that works,
    storing state data of the current version and loading it again never fails
    (the only error either can report is the exceeded counter), and returns the
    same state data up to the store counter and the fields that [omitempty]
    drops, and leaves that very state data in the store.  For an update that
    migrates the database from an old version, where the entry of the old client
    is of the same update, the same holds of the entry beside it, which the old
    client does not read, with the fields that the old version did not have set
    as for every update it could do.  The numbers of the state data are 64-bit
    numbers, as in the program. *)
Theorem store_then_load {DB : Type} `{ReliableStore DB} (dbStore : DB) sd inc
    (Hint : int_fields_ok sd) (Hv : Version sd = 0 \/ Version sd = 2)
    (Hschema : HasDBSchemaUpdate (updateInfo sd) = true -> migrates (contents dbStore) (updateInfo sd)) :
  exists b1 s1 c b2 s2,
    let sd' := with_store_count c (loaded_form (normalize (current_version sd))) in
    StoreStateData dbStore sd inc = (count_error b1, s1) /\
    LoadStateData s1 = (sd', count_error b2, s2) /\
    contents s2 !! state_key (updateInfo sd) = Some (marshal_StateData sd').
Proof.
  destruct (StoreStateData_reliable dbStore sd inc) as (s1 & Hs & Hc1).
  set (key := state_key (updateInfo sd)) in *.
  set (c0 := stored_count (contents dbStore) key (store_count sd)) in *.
  assert (int64_ok c0) as Hc0.
  { unfold c0, stored_count. destruct Hint as (_ & Hi & _).
    destruct (contents dbStore !! key) as [d|]; [|done].
    destruct (unmarshal_StateData d) as [ex|] eqn:Hd; [|done].
    by apply unmarshal_int_fields in Hd as (_ & ? & _). }
  set (sf := stored_form inc (contents dbStore) sd) in *.
  assert (int_fields_ok sf) as Hok.
  { unfold sf, stored_form, with_store_count, int_fields_ok. fold key c0.
    destruct Hint as (_ & _ & Hi). cbn. rewrite current_version_updateInfo.
    split; [|split; [by apply next_store_count_range|done]].
    unfold current_version. destruct Hv as [Hv|Hv]; rewrite Hv; cbn; [|rewrite Hv];
      unfold int64_min, int64_max, StateDataVersion; lia. }
  assert (contents s1 !! key = Some (marshal_StateData sf)) as Hd by (by rewrite Hc1, lookup_insert_eq).
  assert (unmarshal_StateData (marshal_StateData sf) = Ok (normalize sf)) as Hu
    by by apply unmarshal_marshal_StateData.
  assert (exists s2, let sd' := with_store_count (next_store_count true (store_count (normalize sf)))
      (loaded_form (normalize (current_version sd))) in
    LoadStateData s1 = (sd', count_error (store_count_exceeded (store_count (normalize sf))), s2) /\
    contents s2 !! key = Some (marshal_StateData sd')) as (s2 & Hl & Hc2).
  { unfold key, state_key in Hd, Hc1 |- *. destruct (HasDBSchemaUpdate (updateInfo sd)) eqn:Hs'.
    - destruct (LoadStateData_uncommitted s1 _ _ Hd Hu) as (s2 & Hl & Hc2).
      { destruct (Hschema eq_refl) as (d0 & old & Hd0 & Hrest). exists d0, old.
        rewrite Hc1, lookup_insert_ne by done. unfold uncommitted_cleared. rewrite Hs'.
        split; [done|]. unfold sf, stored_form. cbn. by rewrite current_version_updateInfo. }
      exists s2. cbv zeta in Hl, Hc2 |- *. rewrite Hl, Hc2, lookup_insert_eq.
      match goal with |- (?a, _, _) = (?b, _, _) /\ _ => assert (a = b) as -> end; [|done].
      unfold loaded_form, sf, stored_form, current_version. destruct sd as [v n [a i r s c h t]].
      cbn in Hv, Hs'. subst h. by destruct Hv as [-> | ->].
    - destruct (LoadStateData_current s1 _ _ Hd Hu) as (s2 & Hl & Hc2).
      { unfold sf, stored_form, current_version, normalize. by destruct Hv as [Hv|Hv]; rewrite Hv. }
      exists s2. cbv zeta in Hl, Hc2 |- *. rewrite Hl, Hc2, lookup_insert_eq.
      match goal with |- (?a, _, _) = (?b, _, _) /\ _ => assert (a = b) as -> end; [|done].
      unfold loaded_form, sf, stored_form, current_version. destruct sd as [v n [a i r s c h t]].
      cbn in Hv, Hs'. subst h. by destruct Hv as [-> | ->]. }
  do 5 eexists. split; [exact Hs|]. split; [exact Hl|exact Hc2].
Qed.

(** A migration: the entry of a client of version 1, and the update it did. *)
Definition migrating_db : gmap string string :=
  {[StateDataKey := marshal_StateData (set_Version 1 example_StateData)]}.
Definition migrating_StateData : StateData :=
  set_UpdateInfo (set_HasDBSchemaUpdate true (updateInfo example_StateData)) example_StateData.

Lemma store_then_load_witness :
  exists b1 s1 c b2 s2,
    let sd' := with_store_count c (loaded_form (normalize (current_version migrating_StateData))) in
    StoreStateData (DB := gmap string string) migrating_db migrating_StateData true = (count_error b1, s1) /\
    LoadStateData s1 = (sd', count_error b2, s2) /\
    contents s2 !! state_key (updateInfo migrating_StateData) = Some (marshal_StateData sd').
Proof.
  assert (int_fields_ok migrating_StateData) as Hi by (repeat split; vm_compute; discriminate).
  assert (migrates migrating_db (updateInfo migrating_StateData)) as Hm.
  { eexists _, _. split; [vm_compute; reflexivity|]. split; [vm_compute; reflexivity|].
    split; [right|]; vm_compute; reflexivity. }
  exact (store_then_load (migrating_db : gmap string string) migrating_StateData true Hi (or_intror eq_refl) (fun _ => Hm)).
Defined.

(** Storing state after state, as the state machine does within one boot. *)
Fixpoint store_all {DB : Type} `{Store DB} (dbStore : DB) (sds : list StateData) :
    list (option error) * DB :=
  match sds with
  | [] => ([], dbStore)
  | sd :: sds =>
      let '(err, dbStore) := StoreStateData dbStore sd true in
      let '(errs, dbStore) := store_all dbStore sds in
      (err :: errs, dbStore)
  end.

(** Both counters, of the entry and of the one beside it. *)
Definition counts_at_least (lo k j : Z) (m : gmap string string) : Prop :=
  forall own, lo <= own -> k <= stored_count m StateDataKey own /\ j <= stored_count m StateDataKeyUncommitted own.

(** State data as the program can have it, with a count from [lo] on. *)
Definition storable (lo : Z) (sd : StateData) : Prop := int_fields_ok sd /\ lo <= store_count sd.

Lemma stored_count_stored (m : gmap string string) (sd : StateData) key own :
  int_fields_ok sd -> m !! key = Some (marshal_StateData sd) -> stored_count m key own = store_count sd.
Proof. intros Hok Hm. unfold stored_count. by rewrite Hm, unmarshal_marshal_StateData. Qed.

(** One more store either finds the counter exceeded or moves one of the two
    counters on; storing beside the entry leaves it as it is, and storing the entry
    takes away what is beside it. *)
Lemma store_counts {DB : Type} `{ReliableStore DB} (dbStore : DB) sd lo k j :
  storable lo sd -> lo <= k -> lo <= j -> counts_at_least lo k j (contents dbStore) ->
  int64_min <= lo ->
  exists err s', StoreStateData dbStore sd true = (err, s') /\
    (err = Some MaximumStateDataStoreCountExceeded \/
     if HasDBSchemaUpdate (updateInfo sd)
     then j + 1 <= 30 /\ counts_at_least lo k (j + 1) (contents s')
     else k + 1 <= 30 /\ counts_at_least lo (k + 1) lo (contents s')).
Proof.
  intros [Hint Hown] Hk Hj Hat Hlo. destruct (StoreStateData_reliable dbStore sd true) as (s1 & -> & Hc).
  set (c := stored_count (contents dbStore) (state_key (updateInfo sd)) (store_count sd)) in *.
  do 2 eexists. split; [done|]. unfold count_error.
  destruct (store_count_exceeded c) eqn:Hex; [by left|right].
  unfold store_count_exceeded, MaximumStateDataStoreCount in Hex. b2p.
  assert (lo <= c) as Hcl by (unfold c, state_key; destruct (Hat _ Hown); destruct (HasDBSchemaUpdate _); lia).
  assert (next_store_count true c = c + 1) as Hnext.
  { unfold next_store_count, store_count_exceeded, MaximumStateDataStoreCount.
    destruct (30 <=? c) eqn:?; b2p; [lia|].
    rewrite int64_id; [done|unfold int64_min, int64_max in *; lia]. }
  assert (forall own, stored_count (contents s1) (state_key (updateInfo sd)) own = c + 1) as Hnew.
  { intros own. rewrite (stored_count_stored _ (stored_form true (contents dbStore) sd)).
    - unfold store_count, stored_form. fold c. by rewrite Hnext.
    - unfold stored_form. fold c. rewrite Hnext. destruct Hint as (Hv & _ & Hr).
      unfold int_fields_ok. cbn. rewrite current_version_updateInfo.
      split; [|split; [unfold int64_min, int64_max in *; lia|done]].
      unfold current_version. destruct (_ =? _); [by split|done].
    - by rewrite Hc, lookup_insert_eq. }
  assert (c = stored_count (contents dbStore) (state_key (updateInfo sd)) (store_count sd)) as Heq by done.
  clearbody c. unfold state_key, uncommitted_cleared in *. destruct (Hat _ Hown) as [Hk' Hj'].
  destruct (HasDBSchemaUpdate _); (split; [lia|]); intros own Ho; rewrite Hnew.
  - split; [|lia]. unfold stored_count. rewrite Hc, lookup_insert_ne by done. by apply Hat.
  - split; [lia|]. unfold stored_count. by rewrite Hc, lookup_insert_ne, lookup_delete_eq by done.
Qed.

(** The stores that are left before the counter is exceeded. *)
Lemma store_all_exceeds {DB : Type} `{ReliableStore DB} lo (sds : list StateData) : int64_min <= lo ->
  forall (dbStore : DB) k j, lo <= k <= 30 -> lo <= j <= 30 -> Forall (storable lo) sds ->
  counts_at_least lo k j (contents dbStore) ->
  (30 - k) * (31 - lo) + (30 - j) < Z.of_nat (length sds) \/
  (Forall (fun sd => HasDBSchemaUpdate (updateInfo sd) = true) sds /\ 30 - j < Z.of_nat (length sds)) \/
  (Forall (fun sd => HasDBSchemaUpdate (updateInfo sd) = false) sds /\ 30 - k < Z.of_nat (length sds)) ->
  Some MaximumStateDataStoreCountExceeded ∈ (store_all dbStore sds).1.
Proof.
  intros Hlo. induction sds as [|sd sds IH]; intros s k j Hk Hj Hsds Hat Hlen; [cbn in Hlen; nia|].
  apply Forall_cons in Hsds as [Hsd Hsds]. cbn [store_all].
  destruct (store_counts s sd lo k j) as (err & s1 & -> & Hs); [done|lia|lia|done|done|].
  destruct (store_all s1 sds) as [errs s2] eqn:E. cbn [fst].
  destruct Hs as [-> |Hs]; [by apply list_elem_of_here|].
  apply list_elem_of_further. change errs with (errs, s2).1. rewrite <- E.
  rewrite !Forall_cons in Hlen. cbn [length] in Hlen. rewrite Nat2Z.inj_succ in Hlen.
  destruct (HasDBSchemaUpdate (updateInfo sd)).
  - apply (IH s1 k (j + 1)); [lia|lia|done|tauto|].
    destruct Hlen as [?|[[[_ ?] ?]|[[? _] ?]]]; [left; lia|right; left; split; [done|lia]|done].
  - apply (IH s1 (k + 1) lo); [lia|lia|done|tauto|].
    destruct Hlen as [?|[[[? _] ?]|[[_ ?] ?]]]; [left; nia|done|right; right; split; [done|lia]].
Qed.

(** C20: a loop of the state machine is always broken.  On a store that works, let
    any state data be stored over and over, each store counted (as those of the
    update states are, and those of the pauses are not), whatever the database held
    before.  If no count, stored or in the state data, is below [lo], which is 0 for
    the counts the program makes, then one of the first [31 - lo] stores reports
    [MaximumStateDataStoreCountExceeded], if all or none of them are of an update
    that migrates the database; and one of the first [(31 - lo) ^ 2], with the two
    kinds mixed in any way, although each store of the one takes away the counter of
    the other. *)
Theorem store_loop_is_broken {DB : Type} `{ReliableStore DB} (dbStore : DB)
    (sds : list StateData) lo
    (Hlo : int64_min <= lo <= 30)
    (Hsds : Forall (fun sd => int_fields_ok sd /\ lo <= store_count sd) sds)
    (Hstored : forall key own, lo <= own -> lo <= stored_count (contents dbStore) key own)
    (Hlen : (31 - lo) ^ 2 <= Z.of_nat (length sds) \/
       31 - lo <= Z.of_nat (length sds) /\
       exists b, Forall (fun sd => HasDBSchemaUpdate (updateInfo sd) = b) sds) :
  Some MaximumStateDataStoreCountExceeded ∈ (store_all dbStore sds).1.
Proof.
  apply (store_all_exceeds lo sds) with (k := lo) (j := lo); [lia|lia|lia|done|by split; apply Hstored|].
  destruct Hlen as [Hlen|[Hlen [[] Hb]]]; [left; nia|right; left; split; [done|lia]|right; right; split; [done|lia]].
Qed.

Lemma store_loop_is_broken_witness :
  Some MaximumStateDataStoreCountExceeded
    ∈ (store_all (DB := gmap string string) ∅ (replicate 31 example_StateData)).1.
Proof.
  apply (store_loop_is_broken (DB := gmap string string) ∅ (replicate 31 example_StateData) 0).
  - split; vm_compute; discriminate.
  - apply Forall_replicate. repeat split; vm_compute; discriminate.
  - intros key own Hown. exact Hown.
  - right. split; [vm_compute; discriminate|]. exists false. apply Forall_replicate. reflexivity.
Defined.

(** Loading state data that a client before version 2 left.  The update in
    progress is taken to be a root file system update that supports rollback;
    a version-2 form of the same update written before is continued; the result
    is stored under the uncommitted key and the old entry keeps its bytes, so
    that a client that is rolled back to still finds it. *)
Theorem LoadStateData_migrates {DB : Type} `{ReliableStore DB} (dbStore : DB) data old
    (Hdata : contents dbStore !! StateDataKey = Some data)
    (Hold : unmarshal_StateData data = Ok old)
    (Hv : Version old = 0 \/ Version old = 1)
    (uncommitted : option StateData)
    (Hunc : match contents dbStore !! StateDataKeyUncommitted with
            | None => uncommitted = None
            | Some data' => exists u, uncommitted = Some u /\ unmarshal_StateData data' = Ok u
            end) :
  exists sd exceeded dbStore',
    LoadStateData dbStore = (sd, count_error exceeded, dbStore') /\
    Version sd = 2 /\ HasDBSchemaUpdate (updateInfo sd) = true /\
    PayloadTypes (artifact (updateInfo sd)) = ["rootfs-image"] /\
    RebootRequested (updateInfo sd) = [RebootTypeCustom] /\
    SupportsRollback (updateInfo sd) = RollbackSupported /\
    ID (updateInfo sd) = ID (updateInfo old) /\
    Name sd = Name (match uncommitted with
                    | Some u => if bool_decide (ID (updateInfo u) = ID (updateInfo old))
                                then u else old
                    | None => old
                    end) /\
    contents dbStore' = <[StateDataKeyUncommitted := marshal_StateData sd]> (contents dbStore).
Proof.
  unfold LoadStateData.
  destruct (rel_WriteTransaction (no_StateData, false) LoadStateData_txn dbStore)
    as (t & s' & Ht & -> & Hc). revert Hc.
  assert (loadStateData t StateDataKey = Ok old) as Hload.
  { unfold loadStateData. rewrite rel_ReadAll, Ht, Hdata. exact Hold. }
  unfold LoadStateData_txn. rewrite Hload.
  assert (migrate t old = (upgrade_schema (match uncommitted with
      | Some u => if bool_decide (ID (updateInfo u) = ID (updateInfo old)) then u else old
      | None => old end), None)) as ->.
  { unfold migrate. replace ((Version old =? 0) || (Version old =? 1)) with true
      by (destruct Hv as [-> | ->]; done).
    unfold loadStateData. rewrite rel_ReadAll, Ht.
    destruct (contents dbStore !! StateDataKeyUncommitted) as [d|].
    - destruct Hunc as (u & -> & Hu). cbn [mbind result_bind]. rewrite Hu.
      by repeat case_bool_decide; try congruence.
    - by subst. }
  set (base := match uncommitted with Some _ => _ | None => _ end).
  assert (ID (updateInfo base) = ID (updateInfo old)) as Hid.
  { unfold base. destruct uncommitted; [|done]. by case_bool_decide. }
  set (sd := set_UpdateInfo _ (set_Version _ (upgrade_schema base))).
  assert (state_key (update_store_count true
    (updateInfo (set_Version StateDataVersion (upgrade_schema base)))) =
    StateDataKeyUncommitted) as -> by reflexivity.
  run_reliable. cbn [fst snd]. intros Hc. rewrite Ht0, Ht in Hc.
  exists sd, (store_count_exceeded (store_count base)), s'.
  unfold count_error.
  change (StateDataStoreCount (updateInfo (set_Version StateDataVersion (upgrade_schema base))))
    with (store_count base).
  by destruct (store_count_exceeded (store_count base)); split_and!.
Qed.

Definition example_v1 : StateData :=
  set_Version 1 (set_UpdateInfo (set_ID "d1" (set_Artifact
    (set_ArtifactName "r2" no_Artifact) no_UpdateInfo)) (set_Name MenderStateReboot no_StateData)).

Lemma LoadStateData_migrates_witness :
  exists sd exceeded dbStore',
    LoadStateData (DB := gmap string string) {[StateDataKey := marshal_StateData example_v1]}
      = (sd, count_error exceeded, dbStore') /\
    Version sd = 2 /\ Name sd = MenderStateReboot /\
    PayloadTypes (artifact (updateInfo sd)) = ["rootfs-image"].
Proof.
  destruct (LoadStateData_migrates (DB := gmap string string)
    {[StateDataKey := marshal_StateData example_v1]} (marshal_StateData example_v1) example_v1)
    with (uncommitted := @None StateData) as (sd & ex & s' & Hl & Hv & _ & Hp & _ & _ & _ & Hn & _).
  - vm_compute. reflexivity.
  - vm_compute. reflexivity.
  - by right.
  - vm_compute. reflexivity.
  - exists sd, ex, s'. split; [exact Hl|]. split; [exact Hv|]. split; [exact Hn|exact Hp].
Defined.

(** What a committed artifact leaves in the database.  Its name is stored;
    each provide is the artifact's own value, or else the old value unless a
    wildcard of its [clears_artifact_provides] covers it (with no such list,
    all old provides go); the group follows the same rule; no other entry
    changes. *)
Theorem CommitArtifactData_contents {T : Type} `{TransactionLaws T}
    matcher wildcard_matches (Hmatch : matcher_ok matcher wildcard_matches)
    name group provides clears (txn txn' : T)
    (Hcommit : CommitArtifactData matcher name group provides clears txn = (None, txn')) :
  let before := contents txn in
  let after := contents txn' in
  let keep k := negb (cleared wildcard_matches clears k) in
  after !! ArtifactNameKey = Some name /\
  after !! ArtifactGroupKey =
    (if bool_decide (group = EmptyString)
     then if keep "artifact_group" then before !! ArtifactGroupKey else None
     else Some group) /\
  (forall k, stored_provides after !! k =
     match default ∅ provides !! k with
     | Some v => Some v
     | None => if keep k then stored_provides before !! k else None
     end) /\
  (forall k, k ∉ [ArtifactNameKey; ArtifactGroupKey; ArtifactTypeInfoProvidesKey] ->
     after !! k = before !! k).
Proof. by apply (CommitArtifactData_spec matcher wildcard_matches). Qed.

(** A matcher whose wildcards are plain keys. *)
Definition exact_matcher (l wildcards : list string) : result (list string) :=
  Ok (filter (fun k => existsb (String.eqb k) wildcards = true) l).

Definition example_before : gmap string string :=
  {[ArtifactNameKey := "r1";
    ArtifactTypeInfoProvidesKey :=
      marshal_text (enc_map {["rootfs.version" := "1"; "dtb.version" := "7"]})]}.

Definition example_commit : option error * gmap string string :=
  CommitArtifactData exact_matcher "r2" EmptyString (Some {["rootfs.version" := "2"]})
    (Some ["rootfs.version"]) example_before.

Lemma CommitArtifactData_contents_witness :
  example_commit.1 = None /\
  example_commit.2 !! ArtifactNameKey = Some "r2" /\
  stored_provides example_commit.2 !! "rootfs.version" = Some "2" /\
  stored_provides example_commit.2 !! "dtb.version" = Some "7".
Proof.
  assert (example_commit.1 = None) as H1 by (vm_compute; reflexivity).
  split; [exact H1|].
  destruct (CommitArtifactData_contents exact_matcher String.eqb) with
    (name := "r2") (group := EmptyString)
    (provides := Some ({["rootfs.version" := "2"]} : gmap string string))
    (clears := Some ["rootfs.version"]) (txn := example_before) (txn' := example_commit.2)
    as (Hname & _ & Hprov & _).
  - intros l ws r [= <-] k. rewrite list_elem_of_filter. tauto.
  - rewrite <- H1. apply surjective_pairing.
  - split; [exact Hname|].
    split; [etransitivity; [exact (Hprov "rootfs.version")|]
           |etransitivity; [exact (Hprov "dtb.version")|]]; vm_compute; reflexivity.
Defined.
