(* ===== verification/ControlMap.v ===== *)
(** * ControlMap: update control maps (app/updatecontrolmap/updatecontrolmap.go)

    A control map says, for each of three points of a deployment, whether the
    client is to continue, pause or fail.  Here: the structure with its
    validation, defaults, expiry and JSON form.

    A nil [States] is the empty map.  Expiry: the source starts a goroutine that
    sets [expired] when the time has passed; the model asks the clock instead,
    so [Expired] takes the current time (in nanoseconds). *)

From S2P Require Import Prelude Json StateData.
From Stdlib Require Import Ascii.

Open Scope Z_scope.

Module ControlMap.

Record UpdateControlMapState := mkMapState {
  Action : string;
  OnMapExpire : string;
  OnActionExecuted : string
}.

#[export] Instance UpdateControlMapState_eq_dec : EqDecision UpdateControlMapState.
Proof. solve_decision. Defined.

Record UpdateControlMap := mkControlMap {
  ID : string;
  Priority : Z;
  States : gmap string UpdateControlMapState;
  Stamped : Z;
  HalfWayTime : Z;
  ExpiryTime : Z;
  expired : bool
}.

Definition set_States (v : gmap string UpdateControlMapState) (u : UpdateControlMap) :=
  mkControlMap (ID u) (Priority u) v (Stamped u) (HalfWayTime u) (ExpiryTime u) (expired u).
Definition set_ID (v : string) (u : UpdateControlMap) :=
  mkControlMap v (Priority u) (States u) (Stamped u) (HalfWayTime u) (ExpiryTime u) (expired u).
Definition set_Priority (v : Z) (u : UpdateControlMap) :=
  mkControlMap (ID u) v (States u) (Stamped u) (HalfWayTime u) (ExpiryTime u) (expired u).

Definition Second : Z := 1000000000.

(** [Stamp] and the goroutine of [expire]; products of a [time.Duration] wrap. *)
Definition Stamp (now updateControlTimeoutSeconds : Z) (u : UpdateControlMap) :
    UpdateControlMap :=
  let d := int64 (updateControlTimeoutSeconds * Second) in
  mkControlMap (ID u) (Priority u) (States u) now (now + Z.quot d 2) (now + d) (expired u).

Definition Expired (now : Z) (u : UpdateControlMap) : bool :=
  expired u || (ExpiryTime u <=? now).

Definition Expire (u : UpdateControlMap) : UpdateControlMap :=
  mkControlMap (ID u) (Priority u) (States u) (Stamped u) (HalfWayTime u) (ExpiryTime u) true.

(** ** Valid values and defaults *)

Definition UpdateControlMapStateKeyValid : list string :=
  ["ArtifactInstall_Enter"; "ArtifactReboot_Enter"; "ArtifactCommit_Enter"].
Definition UpdateControlMapStateActionValid : list string :=
  ["continue"; "force_continue"; "pause"; "fail"].
Definition UpdateControlMapStateOnMapExpireValid : list string :=
  ["continue"; "force_continue"; "fail"].
Definition UpdateControlMapStateOnActionExecutedValid : list string :=
  UpdateControlMapStateActionValid.
Definition UpdateControlMapStateActionDefault : string := "continue".

Definition UpdateControlMapStateOnMapExpireDefault (action : string) : string :=
  if bool_decide (action = "pause") then "fail" else action.
Definition UpdateControlMapStateOnActionExecutedDefault (action : string) : string := action.

(** [utils.ElemInSlice] on strings, where the types always match. *)
Definition ElemInSlice (slice : list string) (elem : string) : bool :=
  bool_decide (elem ∈ slice).

Definition errInvalidValue : error := EText "invalid value".

Definition optional_in (valid : list string) (v : string) : bool :=
  bool_decide (v = EmptyString) || ElemInSlice valid v.

Definition state_Validate (s : UpdateControlMapState) : option error :=
  if negb (optional_in UpdateControlMapStateActionValid (Action s)) then Some errInvalidValue
  else if negb (optional_in UpdateControlMapStateOnMapExpireValid (OnMapExpire s))
  then Some errInvalidValue
  else if negb (optional_in UpdateControlMapStateOnActionExecutedValid (OnActionExecuted s))
  then Some errInvalidValue
  else None.

Definition state_Sanitize (s : UpdateControlMapState) : UpdateControlMapState :=
  let action := if bool_decide (Action s = EmptyString)
                then UpdateControlMapStateActionDefault else Action s in
  mkMapState action
    (if bool_decide (OnMapExpire s = EmptyString)
     then UpdateControlMapStateOnMapExpireDefault action else OnMapExpire s)
    (if bool_decide (OnActionExecuted s = EmptyString)
     then UpdateControlMapStateOnActionExecutedDefault action else OnActionExecuted s).

Definition to_lower (c : ascii) : ascii := fold_char c.

Fixpoint isUUID_from (i : nat) (s : string) : bool :=
  match s with
  | EmptyString => true
  | String c s =>
      let c := to_lower c in
      (if bool_decide (i ∈ [8; 13; 18; 23]%nat) then bool_decide (c = "-"%char)
       else let n := nat_of_ascii c in
            (((48 <=? n) && (n <=? 57)) || ((97 <=? n) && (n <=? 102)))%nat)
      && isUUID_from (S i) s
  end.

Definition isUUID (s : string) : bool := (String.length s =? 36)%nat && isUUID_from 0 s.

(** The order in which a Go map is visited only selects among errors that are
    not told apart here. *)
Definition Validate (m : UpdateControlMap) : option error :=
  if negb (isUUID (ID m)) then Some (EText "ID must be a UUID")
  else if (Priority m <? -10) || (10 <? Priority m)
  then Some (EText "invalid Priority, value must be in the range [-10, 10]")
  else if existsb (fun kv => negb (ElemInSlice UpdateControlMapStateKeyValid kv.1))
            (map_to_list (States m))
  then Some errInvalidValue
  else if existsb (fun kv => bool_decide (state_Validate kv.2 <> None))
            (map_to_list (States m))
  then Some errInvalidValue
  else None.

Definition defaultState : UpdateControlMapState :=
  mkMapState UpdateControlMapStateActionDefault
    (UpdateControlMapStateOnMapExpireDefault UpdateControlMapStateActionDefault)
    (UpdateControlMapStateOnActionExecutedDefault UpdateControlMapStateActionDefault).

(** Fills in the defaults and drops the states that say nothing. *)
Definition Sanitize (m : UpdateControlMap) : UpdateControlMap :=
  set_States
    (omap (fun s => let s := state_Sanitize s in
                    if bool_decide (s = defaultState) then None else Some s) (States m)) m.

Definition Equal (u other : UpdateControlMap) : bool :=
  bool_decide (ID u = ID other) && (Priority u =? Priority other).

(** [Action]; the empty string for a state the map does not have. *)
Definition map_Action (now : Z) (state : string) (u : UpdateControlMap) : string :=
  match States u !! state with
  | None => EmptyString
  | Some s => if Expired now u then OnMapExpire s else Action s
  end.

(** ** JSON form *)

Definition unsupported_fields (e : error) : error :=
  EWrap "Update Control Map contains unsupported fields" e.

(** Decoding with [DisallowUnknownFields]. *)
Fixpoint dec_members_strict {R} (fs : list (string * decoder R)) (l : list (string * json))
    (r : R) : result R :=
  match l with
  | [] => Ok r
  | (k, j) :: l =>
      match lookup_field fs k with
      | Some d => r ← d j r; dec_members_strict fs l r
      | None => Err (EText "json: unknown field")
      end
  end.

Definition dec_struct_strict {R} (fs : list (string * decoder R)) : decoder R := fun j r =>
  match j with
  | JObj l => dec_members_strict fs l r
  | JNull => Ok r
  | _ => Err mismatch
  end.

Definition state_fields : list (string * decoder UpdateControlMapState) :=
  [("action", on_field Action
      (fun v s => mkMapState v (OnMapExpire s) (OnActionExecuted s)) dec_string);
   ("on_map_expire", on_field OnMapExpire
      (fun v s => mkMapState (Action s) v (OnActionExecuted s)) dec_string);
   ("on_action_executed", on_field OnActionExecuted
      (fun v s => mkMapState (Action s) (OnMapExpire s) v) dec_string)].

Definition no_MapState : UpdateControlMapState := mkMapState EmptyString EmptyString EmptyString.

Fixpoint dec_state_entries (l : list (string * json)) (m : gmap string UpdateControlMapState) :
    result (gmap string UpdateControlMapState) :=
  match l with
  | [] => Ok m
  | (k, j) :: l =>
      s ← dec_struct_strict state_fields j no_MapState;
      dec_state_entries l (<[k := s]> m)
  end.

Definition dec_states : decoder (gmap string UpdateControlMapState) := fun j m =>
  match j with
  | JObj l => dec_state_entries l m
  | JNull => Ok ∅
  | _ => Err mismatch
  end.

Definition map_fields : list (string * decoder UpdateControlMap) :=
  [("id", on_field ID set_ID dec_string);
   ("priority", on_field Priority set_Priority dec_int);
   ("states", on_field States set_States dec_states)].

Definition no_ControlMap : UpdateControlMap := mkControlMap EmptyString 0 ∅ 0 0 0 false.

(** [UnmarshalJSON]: decode strictly, validate, sanitize. *)
Definition UnmarshalJSON : decoder UpdateControlMap := fun j u =>
  match j with
  | JNull => Ok u
  | _ =>
      match dec_struct_strict map_fields j no_ControlMap with
      | Err e => Err (unsupported_fields e)
      | Ok u => match Validate u with
                | Some e => Err e
                | None => Ok (Sanitize u)
                end
      end
  end.

Definition enc_state (s : UpdateControlMapState) : json :=
  JObj [("action", JStr (Action s)); ("on_map_expire", JStr (OnMapExpire s));
        ("on_action_executed", JStr (OnActionExecuted s))].

Definition state_key_le (a b : string * UpdateControlMapState) : Prop :=
  String.leb a.1 b.1 = true.
#[export] Instance state_key_le_dec : RelDecision state_key_le.
Proof. intros a b. unfold state_key_le. apply _. Defined.

Definition enc_states (m : gmap string UpdateControlMapState) : json :=
  JObj ((fun kv => (kv.1, enc_state kv.2)) <$> merge_sort state_key_le (map_to_list m)).

Definition enc_ControlMap (u : UpdateControlMap) : json :=
  JObj [("id", JStr (ID u)); ("priority", JNum (Priority u)); ("states", enc_states (States u))].

(** ** Lemmas *)

Lemma dec_enc_state s : dec_struct_strict state_fields (enc_state s) no_MapState = Ok s.
Proof. by destruct s. Qed.

Lemma dec_state_entries_list l m :
  NoDup l.*1 -> (forall k, k ∈ l.*1 -> m !! k = None) ->
  dec_state_entries ((fun kv => (kv.1, enc_state kv.2)) <$> l) m = Ok (list_to_map l ∪ m).
Proof.
  revert m. induction l as [|[k v] l IH]; intros m Hnd Hm.
  - cbn. by rewrite (left_id_L ∅ (∪)).
  - rewrite fmap_cons. cbn [dec_state_entries fst snd]. rewrite dec_enc_state.
    cbn [mbind result_bind]. cbn in Hnd, Hm. apply NoDup_cons in Hnd as [Hk Hnd].
    rewrite IH; [|done|].
    + cbn. f_equal. rewrite <- insert_union_r by (by apply not_elem_of_list_to_map_1).
      by rewrite <- insert_union_l.
    + intros k' Hk'. rewrite lookup_insert_ne by (by intros ->).
      apply Hm. by apply list_elem_of_further.
Qed.

Lemma dec_enc_states m : dec_states (enc_states m) ∅ = Ok m.
Proof.
  unfold enc_states, dec_states.
  pose proof (merge_sort_Permutation state_key_le (map_to_list m)) as Hp.
  rewrite dec_state_entries_list.
  - f_equal. rewrite (right_id_L ∅ (∪)).
    rewrite (list_to_map_proper _ (map_to_list m)); [apply list_to_map_to_list| |done].
    rewrite Hp. apply NoDup_fst_map_to_list.
  - rewrite Hp. apply NoDup_fst_map_to_list.
  - intros; apply lookup_empty.
Qed.

Lemma state_Sanitize_idemp s : state_Sanitize (state_Sanitize s) = state_Sanitize s.
Proof.
  unfold state_Sanitize, UpdateControlMapStateOnMapExpireDefault,
    UpdateControlMapStateOnActionExecutedDefault, UpdateControlMapStateActionDefault.
  destruct s as [a b c]. cbn. repeat case_bool_decide; subst; done.
Qed.

Lemma Sanitize_lookup m k :
  States (Sanitize m) !! k =
    (States m !! k) ≫= (fun s => if bool_decide (state_Sanitize s = defaultState)
                                 then None else Some (state_Sanitize s)).
Proof. cbn. by rewrite lookup_omap. Qed.

(** Sanitizing is a normal form. *)
Lemma Sanitize_idemp m : Sanitize (Sanitize m) = Sanitize m.
Proof.
  assert (States (Sanitize (Sanitize m)) = States (Sanitize m)) as Hs.
  { apply (map_eq (M := gmap string)). intros k. rewrite !Sanitize_lookup.
    destruct (States m !! k) as [s|]; [|done]. cbn.
    case_bool_decide; [done|]. cbn. rewrite state_Sanitize_idemp. by rewrite bool_decide_false. }
  change (set_States (States (Sanitize (Sanitize m))) m = set_States (States (Sanitize m)) m).
  by rewrite Hs.
Qed.

Definition state_ok (s : UpdateControlMapState) : Prop := state_Validate s = None.

Lemma Validate_None m : Validate m = None <->
  isUUID (ID m) = true /\ -10 <= Priority m <= 10 /\
  (forall k s, States m !! k = Some s -> k ∈ UpdateControlMapStateKeyValid /\ state_ok s).
Proof.
  unfold Validate. destruct (isUUID (ID m)); cbn [negb]; [|by split; [done|intros (?&?)]].
  destruct ((Priority m <? -10) || (10 <? Priority m)) eqn:Hp.
  { split; [done|]. intros (_ & ? & _). apply orb_true_iff in Hp as [Hp|Hp];
      apply Z.ltb_lt in Hp; lia. }
  b2p. destruct (existsb _ _) eqn:H1.
  { split; [done|]. intros (_ & _ & Hall). apply existsb_exists in H1 as ([k s] & Hin & Hk).
    apply list_elem_of_In, elem_of_map_to_list in Hin. apply Hall in Hin as [Hin _].
    unfold ElemInSlice in Hk. cbn in Hk. by rewrite bool_decide_true in Hk. }
  destruct (existsb _ _) eqn:H2 in |- *.
  { split; [done|]. intros (_ & _ & Hall). apply existsb_exists in H2 as ([k s] & Hin & Hk).
    apply list_elem_of_In, elem_of_map_to_list in Hin. apply Hall in Hin as [_ Hin].
    b2p. by destruct Hk. }
  split; [|done]. intros _. split; [done|]. split; [lia|]. intros k s Hks.
  apply elem_of_map_to_list, list_elem_of_In in Hks. split.
  - apply dec_stable. intros Hk. apply not_true_iff_false in H1. apply H1.
    apply existsb_exists. exists (k, s). split; [done|]. unfold ElemInSlice. cbn.
    by rewrite bool_decide_false.
  - unfold state_ok. apply dec_stable. intros Hk. apply not_true_iff_false in H2. apply H2.
    apply existsb_exists. exists (k, s). split; [done|]. by apply bool_decide_eq_true.
Qed.

Lemma state_Sanitize_ok s : state_ok s -> state_ok (state_Sanitize s).
Proof.
  unfold state_ok, state_Validate. destruct s as [a b c]. unfold state_Sanitize. cbn.
  unfold optional_in, ElemInSlice, UpdateControlMapStateOnMapExpireDefault,
    UpdateControlMapStateOnActionExecutedDefault.
  intros H. case_all; b2p; try done; repeat case_bool_decide; subst; try done; set_solver.
Qed.

(** What the JSON form keeps. *)
Definition strip_times (m : UpdateControlMap) : UpdateControlMap :=
  mkControlMap (ID m) (Priority m) (States m) 0 0 0 false.

Lemma Validate_strip_times m : Validate (strip_times m) = Validate m.
Proof. done. Qed.

Lemma dec_members_strict_cons {R} (fs : list (string * decoder R)) k j l r d r' :
  lookup_field fs k = Some d -> d j r = Ok r' ->
  dec_members_strict fs ((k, j) :: l) r = dec_members_strict fs l r'.
Proof.
  intros H1 H2. cbn [dec_members_strict]. rewrite H1. cbn [mbind result_bind]. by rewrite H2.
Qed.

Lemma unmarshal_enc m u : Validate m = None ->
  UnmarshalJSON (enc_ControlMap m) u = Ok (Sanitize (strip_times m)).
Proof.
  intros Hv. unfold UnmarshalJSON, enc_ControlMap. cbn [dec_struct_strict].
  assert (dec_members_strict map_fields
    [("id", JStr (ID m)); ("priority", JNum (Priority m)); ("states", enc_states (States m))]
    no_ControlMap = Ok (strip_times m)) as ->.
  { apply Validate_None in Hv as (_ & Hp & _).
    erewrite dec_members_strict_cons; [|reflexivity|by apply on_field_ok].
    erewrite dec_members_strict_cons; [|reflexivity|apply on_field_ok, dec_int_num].
    2: { unfold int64_min, int64_max. lia. }
    erewrite dec_members_strict_cons; [|reflexivity|apply on_field_ok, dec_enc_states].
    done. }
  by rewrite Validate_strip_times, Hv.
Qed.

End ControlMap.
