(* ===== verification/ControlMapPool.v ===== *)
(** * ControlMapPool: the pool of control maps (app/updatemanager.go)

    The pool decides at each of the three control points of a deployment
    whether to continue, pause or fail, and is kept in the database.  Times are
    the clock reading of the caller; a pool is the slice [Pool] plus the
    configured expiration time.  The [Updates] channel and the D-Bus binding are
    not modelled, except for the handler of [SetUpdateControlMap].

    [sort.Slice] is not stable and the documentation does not say how it orders
    equal elements: the model takes any sorting function ([sorts]). *)

From S2P Require Import Prelude Json Store StateData ControlMap.
Import ControlMap MapStore.

Open Scope Z_scope.

Record ControlMapPool := mkPool {
  Pool : list UpdateControlMap;
  updateControlMapExpirationTimeSeconds : Z
}.

Definition set_Pool (l : list UpdateControlMap) (c : ControlMapPool) : ControlMapPool :=
  mkPool l (updateControlMapExpirationTimeSeconds c).

(** ** Queries *)

(** [query] with all its predicates as one. *)
Definition query (keep : UpdateControlMap -> bool) (m : list UpdateControlMap) :
    list UpdateControlMap := base.filter (fun u => keep u = true) m.

(** [Get]: the active and the expired maps of a deployment. *)
Definition Get (now : Z) (id : string) (c : ControlMapPool) :
    list UpdateControlMap * list UpdateControlMap :=
  let l := query (fun u => bool_decide (ID u = id)) (Pool c) in
  (query (fun u => negb (Expired now u)) l, query (Expired now) l).

Definition HasControlMap (now : Z) (id : string) (c : ControlMapPool) : bool :=
  let '(activeMaps, passiveMaps) := Get now id c in
  (0 <? length activeMaps)%nat || (0 <? length passiveMaps)%nat.

(** The fold of [nextHalfTime]. *)
Definition nextHalfTime (maps : list UpdateControlMap) : result Z :=
  match maps with
  | [] => Err NoUpdateMapsErr
  | u0 :: _ =>
      Ok (foldl (fun minTime u => if HalfWayTime u <? minTime then HalfWayTime u else minTime)
            (HalfWayTime u0) maps)
  end.

Definition NextIDControlMapHalfTime (now : Z) (id : string) (c : ControlMapPool) : result Z :=
  nextHalfTime
    (query (fun u => bool_decide (ID u = id) && negb (Expired now u)) (Pool c)).

(** The source does not use the identifier it is given. *)
Definition NextAnyControlMapHalfTime (now : Z) (id : string) (c : ControlMapPool) : result Z :=
  nextHalfTime (query (fun u => negb (Expired now u)) (Pool c)).

(** The priorities of a list that is sorted by priority. *)
Fixpoint uniquePriorities_from (oldPri : Z) (m : list UpdateControlMap) : list Z :=
  match m with
  | [] => []
  | e :: m =>
      if Priority e =? oldPri then uniquePriorities_from oldPri m
      else Priority e :: uniquePriorities_from (Priority e) m
  end.

Definition uniquePriorities (m : list UpdateControlMap) : list Z :=
  match m with
  | [] => []
  | e :: _ => Priority e :: uniquePriorities_from (Priority e) m
  end.

(** The loop with its early return for "fail". *)
Fixpoint queryActionList_from (pauseExists forceContinueExists : bool)
    (stateActions : list string) : string :=
  match stateActions with
  | [] => if pauseExists then "pause"
          else if forceContinueExists then "continue" else EmptyString
  | e :: l =>
      if bool_decide (e = "fail") then "fail"
      else queryActionList_from (pauseExists || bool_decide (e = "pause"))
             (forceContinueExists || bool_decide (e = "force_continue")) l
  end.

Definition queryActionList (stateActions : list string) : string :=
  queryActionList_from false false stateActions.

(** Replaces the action of [state] by its [on_action_executed]. *)
Definition action_executed (state : string) (u : UpdateControlMap) : UpdateControlMap :=
  match States u !! state with
  | None => u
  | Some s =>
      set_States (<[state := mkMapState (OnActionExecuted s) (OnMapExpire s)
                               (OnActionExecuted s)]> (States u)) u
  end.

Definition at_priority (priority : Z) (state : string) (u : UpdateControlMap) : bool :=
  (Priority u =? priority) && bool_decide (is_Some (States u !! state)).

(** The loop over the priorities, highest first; the actions accumulate. *)
Fixpoint query_priorities (now : Z) (state : string) (priorities : list Z)
    (actions : list string) (maps : list UpdateControlMap) :
    string * list UpdateControlMap :=
  match priorities with
  | [] => ("continue", maps)
  | priority :: priorities =>
      let actions := actions ++ (map_Action now state <$> query (at_priority priority state) maps) in
      let maps := (fun u => if at_priority priority state u then action_executed state u else u)
                    <$> maps in
      let v := queryActionList actions in
      if bool_decide (v <> EmptyString) then (v, maps)
      else query_priorities now state priorities actions maps
  end.

(** ** Persistence *)

Definition enc_maps (l : list UpdateControlMap) : json :=
  match l with [] => JNull | _ => JArr (enc_ControlMap <$> l) end.

(** The JSON text of [controlMapPoolDBFormat]. *)
Definition marshal_pool (active expired : list UpdateControlMap) : string :=
  marshal_text (JObj [("active", enc_maps active); ("expired", enc_maps expired)]).

Definition saveToStore {DB : Type} `{Store DB} (now : Z) (c : ControlMapPool) (store : DB) : DB :=
  let active := query (fun u => negb (Expired now u)) (Pool c) in
  let expired := query (Expired now) (Pool c) in
  match active, expired with
  | [], [] => (Remove UpdateControlMaps store).2
  | _, _ => (WriteAll UpdateControlMaps (marshal_pool active expired) store).2
  end.

Fixpoint dec_map_elems (l : list json) : result (list UpdateControlMap) :=
  match l with
  | [] => Ok []
  | j :: l => u ← UnmarshalJSON j no_ControlMap; us ← dec_map_elems l; Ok (u :: us)
  end.

Definition dec_maps : decoder (list UpdateControlMap) := fun j _ =>
  match j with JArr l => dec_map_elems l | JNull => Ok [] | _ => Err mismatch end.

Definition pool_fields :
    list (string * decoder (list UpdateControlMap * list UpdateControlMap)) :=
  [("active", on_field fst (fun v p => (v, p.2)) dec_maps);
   ("expired", on_field snd (fun v p => (p.1, v)) dec_maps)].

(** Maps that cannot be read leave the pool empty. *)
Definition loadFromStore {DB : Type} `{Store DB} (now timeout : Z) (c : ControlMapPool)
    (store : DB) : ControlMapPool :=
  match ReadAll UpdateControlMaps store with
  | Err _ => c
  | Ok data =>
      match unmarshal (dec_struct pool_fields) ([], []) data with
      | Err _ => c
      | Ok (active, expired) =>
          set_Pool ((Stamp now timeout <$> active)
                    ++ ((fun m => Expire (Stamp now timeout m)) <$> expired)) c
      end
  end.

Definition NewControlMap {DB : Type} `{Store DB} (now : Z) (store : DB)
    (loadTimeout updateControlMapExpirationTimeSeconds : Z) : ControlMapPool :=
  loadFromStore now loadTimeout (mkPool [] updateControlMapExpirationTimeSeconds) store.

(** ** Changes: the pool and the store change together *)

Section changes.
Context {DB : Type} `{Store DB}.

Definition insertMap (now : Z) (keep : UpdateControlMap -> bool) (cm : UpdateControlMap)
    (c : ControlMapPool) (store : DB) : ControlMapPool * DB :=
  let c := set_Pool (query keep (Pool c) ++ [cm]) c in
  (c, saveToStore now c store).

Definition Insert (now : Z) (cm : UpdateControlMap) : ControlMapPool -> DB -> ControlMapPool * DB :=
  insertMap now (fun u => negb (Equal cm u)) cm.

Definition InsertReplaceAllPriorities (now : Z) (cm : UpdateControlMap) :
    ControlMapPool -> DB -> ControlMapPool * DB :=
  insertMap now (fun u => negb (bool_decide (ID cm = ID u))) cm.

Definition deleteMaps (now : Z) (keep : UpdateControlMap -> bool) (c : ControlMapPool)
    (store : DB) : ControlMapPool * DB :=
  let c := set_Pool (query keep (Pool c)) c in
  (c, saveToStore now c store).

Definition Delete (now : Z) (id : string) (priority : Z) :
    ControlMapPool -> DB -> ControlMapPool * DB :=
  deleteMaps now (fun u => negb (bool_decide (ID u = id)) || negb (Priority u =? priority)).

Definition DeleteAllPriorities (now : Z) (id : string) :
    ControlMapPool -> DB -> ControlMapPool * DB :=
  deleteMaps now (fun u => negb (bool_decide (ID u = id))).

Definition ClearExpired (now : Z) (c : ControlMapPool) (store : DB) : ControlMapPool * DB :=
  let c := set_Pool (query (fun u => negb (Expired now u)) (Pool c)) c in
  (c, saveToStore now c store).

(** Any function that sorts by decreasing priority. *)
Definition sorts (sort : list UpdateControlMap -> list UpdateControlMap) : Prop :=
  forall l, sort l ≡ₚ l /\ StronglySorted (fun u v => Priority v <= Priority u) (sort l).

Variable sort : list UpdateControlMap -> list UpdateControlMap.

Definition QueryAndUpdate (now : Z) (state : string) (c : ControlMapPool) (store : DB) :
    string * ControlMapPool * DB :=
  let maps := sort (Pool c) in
  let '(action, maps) := query_priorities now state (uniquePriorities maps) [] maps in
  let c := set_Pool maps c in
  (action, c, saveToStore now c store).

(** The D-Bus method [SetUpdateControlMap], on a decoded map. *)
Definition SetUpdateControlMap (now updateControlTimeoutSeconds : Z) (controlMap : UpdateControlMap)
    (c : ControlMapPool) (store : DB) : ControlMapPool * DB :=
  if bool_decide (States controlMap = ∅)
  then Delete now (ID controlMap) (Priority controlMap) c store
  else Insert now (Stamp now updateControlTimeoutSeconds controlMap) c store.
End changes.

(** ** The decision, as a specification *)

Definition decisive (a : string) : Prop := a ∈ ["fail"; "pause"; "force_continue"].

#[export] Instance decisive_dec a : Decision (decisive a).
Proof. unfold decisive. apply _. Defined.

Lemma queryActionList_from_spec p f l :
  queryActionList_from p f l =
    if bool_decide ("fail" ∈ l) then "fail"
    else if p || bool_decide ("pause" ∈ l) then "pause"
    else if f || bool_decide ("force_continue" ∈ l) then "continue"
    else EmptyString.
Proof.
  revert p f. induction l as [|e l IH]; intros p f; cbn [queryActionList_from].
  - rewrite !bool_decide_false by (by intros ?%elem_of_nil). by rewrite !orb_false_r.
  - assert (forall x, bool_decide (x ∈ e :: l) = bool_decide (e = x) || bool_decide (x ∈ l)) as Hx.
    { intros x. destruct (decide (e = x)) as [->|Hne].
      - rewrite (bool_decide_true (x = x)), bool_decide_true; [done|apply list_elem_of_here|done].
      - rewrite (bool_decide_false (e = x)) by done. apply bool_decide_ext.
        rewrite elem_of_cons. naive_solver. }
    rewrite !Hx, IH, !orb_assoc. by destruct (bool_decide (e = "fail")).
Qed.

(** The four rules of the comment above [queryActionList]. *)
Lemma queryActionList_spec l :
  queryActionList l =
    if bool_decide ("fail" ∈ l) then "fail"
    else if bool_decide ("pause" ∈ l) then "pause"
    else if bool_decide ("force_continue" ∈ l) then "continue"
    else EmptyString.
Proof. apply queryActionList_from_spec. Qed.

Lemma queryActionList_empty l :
  queryActionList l = EmptyString <-> Forall (fun a => ~ decisive a) l.
Proof.
  rewrite queryActionList_spec, Forall_forall. unfold decisive. split.
  - intros H a Ha Hd. repeat case_bool_decide; try done. set_solver.
  - intros H. rewrite !bool_decide_false; [done|..]; intros Hin; apply (H _ Hin); set_solver.
Qed.

Lemma queryActionList_skip l l' :
  Forall (fun a => ~ decisive a) l -> queryActionList (l ++ l') = queryActionList l'.
Proof.
  intros Hl. rewrite Forall_forall in Hl. rewrite !queryActionList_spec.
  assert (forall a, decisive a -> bool_decide (a ∈ l ++ l') = bool_decide (a ∈ l')) as Ha.
  { intros a Hd. apply bool_decide_ext. rewrite elem_of_app.
    split; [|by right]. intros [Hin|?]; [by destruct (Hl a)|done]. }
  rewrite !Ha; [done|unfold decisive; set_solver..].
Qed.

Definition has_state (state : string) (u : UpdateControlMap) : bool :=
  bool_decide (is_Some (States u !! state)).

(** The pool once the levels [ps] have been queried. *)
Definition executed_at (ps : list Z) (state : string) (u : UpdateControlMap) :
    UpdateControlMap :=
  if bool_decide (Priority u ∈ ps) && has_state state u then action_executed state u else u.

Lemma action_executed_priority state u : Priority (action_executed state u) = Priority u.
Proof. unfold action_executed. by destruct (States u !! state). Qed.

Lemma action_executed_ID state u : ID (action_executed state u) = ID u.
Proof. unfold action_executed. by destruct (States u !! state). Qed.

Lemma action_executed_has state k u : has_state k (action_executed state u) = has_state k u.
Proof.
  unfold has_state, action_executed. destruct (States u !! state) as [s|] eqn:E; [|done]. cbn.
  apply bool_decide_ext. rewrite lookup_insert_is_Some. split.
  - intros [<-|[_ ?]]; [by rewrite E|done].
  - destruct (decide (state = k)); [by left|by right].
Qed.

Lemma at_priority_eq p state u : at_priority p state u = (Priority u =? p) && has_state state u.
Proof. done. Qed.

Lemma executed_at_priority ps state u : Priority (executed_at ps state u) = Priority u.
Proof.
  unfold executed_at. destruct (_ && _); [apply action_executed_priority|done].
Qed.

Lemma executed_at_has ps state u k : has_state k (executed_at ps state u) = has_state k u.
Proof. unfold executed_at. destruct (_ && _); [apply action_executed_has|done]. Qed.

Lemma query_elem keep l u : u ∈ query keep l <-> keep u = true /\ u ∈ l.
Proof. apply (list_elem_of_filter (fun u => keep u = true)). Qed.

(** Levels that are still to be queried look as they did at the start. *)
Lemma query_executed p ps state now maps : p ∉ ps ->
  map_Action now state <$> query (at_priority p state) (executed_at ps state <$> maps) =
  map_Action now state <$> query (at_priority p state) maps.
Proof.
  intros Hp. induction maps as [|u maps IH]; [done|].
  unfold query in *. rewrite fmap_cons, !filter_cons.
  rewrite !at_priority_eq, executed_at_priority, executed_at_has.
  destruct (decide _) as [Hu|Hu]; [|by rewrite IH].
  rewrite !fmap_cons, IH. f_equal. b2p. subst.
  unfold executed_at. by rewrite bool_decide_false.
Qed.

Lemma executed_at_step p ps state (maps : list UpdateControlMap) : p ∉ ps ->
  (fun u => if at_priority p state u then action_executed state u else u)
    <$> (executed_at ps state <$> maps) = executed_at (ps ++ [p]) state <$> maps.
Proof.
  intros Hp. rewrite <- list_fmap_compose. apply list_fmap_ext. intros _ u _. cbn.
  rewrite at_priority_eq, executed_at_priority, executed_at_has. unfold executed_at.
  destruct (has_state state u); rewrite ?andb_false_r, ?andb_true_r; [|done].
  destruct (Priority u =? p) eqn:E; b2p.
  - rewrite (bool_decide_false (Priority u ∈ ps)) by (by subst).
    by rewrite bool_decide_true by set_solver.
  - rewrite (bool_decide_ext (Priority u ∈ ps ++ [p]) (Priority u ∈ ps)); [done|].
    rewrite elem_of_app, list_elem_of_singleton. tauto.
Qed.

Definition level (now : Z) (state : string) (maps : list UpdateControlMap) (p : Z) : list string :=
  map_Action now state <$> query (at_priority p state) maps.

Lemma query_priorities_spec now state maps ps : forall done actions,
  NoDup (done ++ ps) -> Forall (fun a => ~ decisive a) actions ->
  exists ps1 r,
    query_priorities now state ps actions (executed_at done state <$> maps) =
      (r, executed_at (done ++ ps1) state <$> maps) /\
    ((r = "continue" /\ ps1 = ps /\
      forall p, p ∈ ps -> Forall (fun a => ~ decisive a) (level now state maps p)) \/
     (exists ps0 p ps2, ps1 = ps0 ++ [p] /\ ps = ps0 ++ p :: ps2 /\
      r = queryActionList (level now state maps p) /\ r <> EmptyString /\
      forall p', p' ∈ ps0 -> Forall (fun a => ~ decisive a) (level now state maps p'))).
Proof.
  induction ps as [|p ps IH]; intros done actions Hnd Hact; cbn [query_priorities].
  { exists [], "continue". rewrite app_nil_r. split; [auto|]. left.
    split_and!; [done|done|]. by intros p ?%elem_of_nil. }
  assert (p ∉ done) as Hp.
  { apply NoDup_app in Hnd as (_ & Hnd & _). intros Hin. apply (Hnd p Hin), list_elem_of_here. }
  rewrite query_executed, executed_at_step by done.
  change (map_Action now state <$> query (at_priority p state) maps) with (level now state maps p).
  rewrite queryActionList_skip by done. case_bool_decide as Hv.
  - exists [p], (queryActionList (level now state maps p)). split; [auto|].
    right. exists [], p, ps. split_and!; auto. by intros p' ?%elem_of_nil.
  - assert (Forall (fun a => ~ decisive a) (level now state maps p)) as Hl.
    { apply queryActionList_empty.
      by destruct (decide (queryActionList (level now state maps p) = EmptyString)). }
    destruct (IH (done ++ [p]) (actions ++ level now state maps p)) as (ps1 & r & Hq & Hr).
    + by rewrite <- app_assoc.
    + by apply Forall_app.
    + exists (p :: ps1), r. rewrite Hq, <- app_assoc. split; [auto|].
      destruct Hr as [(-> & -> & Hall)|(ps0 & p1 & ps2 & -> & -> & Hr & Hne & Hall)].
      * left. split_and!; auto. intros p' [->|Hin]%elem_of_cons; auto.
      * right. exists (p :: ps0), p1, ps2. split_and!; auto.
        intros p' [->|Hin]%elem_of_cons; auto.
Qed.

Definition by_priority (u v : UpdateControlMap) : Prop := Priority v <= Priority u.

Lemma uniquePriorities_from_spec m : forall old,
  StronglySorted by_priority m -> Forall (fun u => Priority u <= old) m ->
  StronglySorted Z.gt (old :: uniquePriorities_from old m) /\
  forall p, p ∈ old :: uniquePriorities_from old m <-> p = old \/ p ∈ Priority <$> m.
Proof.
  induction m as [|u m IH]; intros old Hs Hold; cbn [uniquePriorities_from].
  - split; [repeat constructor|]. intros p. rewrite elem_of_cons. done.
  - apply StronglySorted_cons in Hs as [Hu Hs].
    apply Forall_cons in Hold as [Hle Hold]. case_all; b2p.
    + subst old. destruct (IH (Priority u) Hs Hu) as [H1 H2]. split; [done|].
      intros p. rewrite H2; cbn; rewrite elem_of_cons; tauto.
    + destruct (IH (Priority u) Hs Hu) as [H1 H2]. split.
      * constructor; [done|]. apply Forall_forall. intros p Hp.
        apply H2 in Hp as [-> |(v & -> & Hv)%list_elem_of_fmap]; [lia|].
        rewrite Forall_forall in Hu. apply Hu in Hv. unfold by_priority in Hv. lia.
      * intros p. rewrite elem_of_cons, H2; cbn; rewrite elem_of_cons; tauto.
Qed.

Lemma uniquePriorities_spec m : StronglySorted by_priority m ->
  StronglySorted Z.gt (uniquePriorities m) /\
  forall p, p ∈ uniquePriorities m <-> p ∈ Priority <$> m.
Proof.
  destruct m as [|u m]; intros Hs.
  { split; [constructor|]. intros p. cbn. by rewrite !elem_of_nil. }
  pose proof Hs as Hs'. apply StronglySorted_cons in Hs' as [Hu Hs'].
  cbn [uniquePriorities uniquePriorities_from]. rewrite Z.eqb_refl.
  destruct (uniquePriorities_from_spec m (Priority u) Hs' Hu) as [H1 H2].
  split; [done|]. intros p. rewrite H2, fmap_cons, elem_of_cons. tauto.
Qed.

Lemma sorted_gt_nodup l : StronglySorted Z.gt l -> NoDup l.
Proof.
  induction l as [|x l IH]; [constructor|]. intros [Hx Hl]%StronglySorted_cons.
  constructor; [|auto]. intros Hin. rewrite Forall_forall in Hx. apply Hx in Hin. lia.
Qed.

Lemma sorted_gt_split l p l' : StronglySorted Z.gt (l ++ p :: l') ->
  (forall q, q ∈ l -> p < q) /\ (forall q, q ∈ l' -> q < p).
Proof.
  induction l as [|x l IH]; cbn; intros [Hx Hl]%StronglySorted_cons.
  - split; [by intros q ?%elem_of_nil|]. rewrite Forall_forall in Hx.
    intros q Hq. apply Hx in Hq. lia.
  - destruct (IH Hl) as [H1 H2]. split; [|done]. intros q [->|Hq]%elem_of_cons; [|auto].
    rewrite Forall_forall in Hx.
    assert (p ∈ l ++ p :: l') as Hin by (apply elem_of_app; right; apply list_elem_of_here).
    apply Hx in Hin. lia.
Qed.

(** Some map of the pool at priority [p] asks for [a] at this point. *)
Definition asks (now : Z) (state : string) (pool : list UpdateControlMap) (p : Z) (a : string) :
    Prop :=
  exists u, u ∈ pool /\ Priority u = p /\ is_Some (States u !! state) /\
            map_Action now state u = a.

Lemma level_asks now state pool p a : a ∈ level now state pool p <-> asks now state pool p a.
Proof.
  unfold level, asks. rewrite list_elem_of_fmap. unfold at_priority. split.
  - intros (u & -> & [Hp Hu]%query_elem). b2p. eauto.
  - intros (u & Hu & <- & Hs & <-). exists u. split; [done|]. apply query_elem.
    rewrite Z.eqb_refl, bool_decide_true by done. done.
Qed.

Definition decisive_at (now : Z) (state : string) (pool : list UpdateControlMap) (p : Z) : Prop :=
  exists a, decisive a /\ asks now state pool p a.

Lemma not_decisive_level now state pool p :
  Forall (fun a => ~ decisive a) (level now state pool p) <-> ~ decisive_at now state pool p.
Proof.
  rewrite Forall_forall. split.
  - intros H (a & Hd & Ha). by apply level_asks, H in Ha.
  - intros H a Ha Hd. apply H. exists a. by rewrite <- level_asks.
Qed.

(** The verdict of a level: fail before pause before continue. *)
Definition verdict (now : Z) (state : string) (pool : list UpdateControlMap) (p : Z)
    (action : string) : Prop :=
  (action = "fail" /\ asks now state pool p "fail") \/
  (action = "pause" /\ asks now state pool p "pause" /\ ~ asks now state pool p "fail") \/
  (action = "continue" /\ asks now state pool p "force_continue" /\
   ~ asks now state pool p "fail" /\ ~ asks now state pool p "pause").

Lemma queryActionList_verdict now state pool p :
  queryActionList (level now state pool p) <> EmptyString ->
  verdict now state pool p (queryActionList (level now state pool p)).
Proof.
  rewrite queryActionList_spec. unfold verdict. rewrite <- !level_asks.
  repeat case_bool_decide; tauto.
Qed.

Lemma QueryAndUpdate_action {DB : Type} `{Store DB} sort (Hsort : sorts sort)
    now state c (store : DB) action c' store' :
  QueryAndUpdate sort now state c store = (action, c', store') ->
  (action = "continue" /\ (forall p, ~ decisive_at now state (Pool c) p) /\
   Pool c' ≡ₚ ((fun u => if has_state state u then action_executed state u else u) <$> Pool c)) \/
  (exists p, decisive_at now state (Pool c) p /\
     (forall p', p < p' -> ~ decisive_at now state (Pool c) p') /\
     verdict now state (Pool c) p action /\
     Pool c' ≡ₚ ((fun u => if (p <=? Priority u) && has_state state u
                           then action_executed state u else u) <$> Pool c)).
Proof.
  unfold QueryAndUpdate. destruct (Hsort (Pool c)) as [Hp Hs]. set (maps := sort (Pool c)) in *.
  destruct (uniquePriorities_spec maps Hs) as [Hups Hin].
  destruct (query_priorities_spec now state maps (uniquePriorities maps) [] [])
    as (ps1 & r & Hq & Hr); [by apply sorted_gt_nodup|constructor|].
  replace (executed_at [] state <$> maps) with maps in Hq.
  2: { rewrite <- (list_fmap_id maps) at 1. apply list_fmap_ext. intros _ u _.
       unfold executed_at. by rewrite bool_decide_false by (by intros ?%elem_of_nil). }
  rewrite Hq. intros [= <- <- _]. cbn [Pool set_Pool app].
  assert (Hask : forall p, decisive_at now state maps p <-> decisive_at now state (Pool c) p).
  { intros p. unfold decisive_at, asks. by setoid_rewrite Hp. }
  assert (forall p, decisive_at now state maps p -> p ∈ uniquePriorities maps) as Hd.
  { intros p (a & _ & u & Hu & <- & _). apply Hin, list_elem_of_fmap. eauto. }
  destruct Hr as [(-> & -> & Hall)|(ps0 & p & ps2 & -> & Hps & -> & Hne & Hall)].
  - left. split; [done|]. split.
    + intros p Hp'. apply Hask in Hp'. pose proof (Hd p Hp') as Hpin.
      by apply Hall, not_decisive_level in Hpin.
    + rewrite <- Hp. apply reflexive_eq. apply list_fmap_ext. intros i u Hi.
      unfold executed_at. rewrite bool_decide_true; [done|].
      apply Hin, list_elem_of_fmap. eauto using list_elem_of_lookup_2.
  - right. exists p.
    assert (verdict now state maps p (queryActionList (level now state maps p))) as Hv
      by by apply queryActionList_verdict.
    rewrite Hps in Hups.
    destruct (sorted_gt_split _ _ _ Hups) as [Hgt Hlt].
    split; [|split; [|split]].
    + apply Hask. destruct (decide (Forall (fun a => ~ decisive a) (level now state maps p))) as [Hf|Hf].
      * by apply queryActionList_empty in Hf.
      * apply not_Forall_Exists in Hf; [|apply _]. apply Exists_exists in Hf as (a & Ha & Hdec).
        exists a. split; [by apply dec_stable|by apply level_asks].
    + intros q Hq' Hdec. apply Hask in Hdec. pose proof (Hd _ Hdec) as Hqin. rewrite Hps in Hqin.
      apply elem_of_app in Hqin as [Hqin|[->|Hqin]%elem_of_cons].
      * by apply Hall, not_decisive_level in Hqin.
      * lia.
      * apply Hlt in Hqin. lia.
    + unfold verdict, asks in *. by setoid_rewrite <- Hp.
    + rewrite <- Hp. apply reflexive_eq. apply list_fmap_ext. intros i u Hi.
      unfold executed_at. f_equal.
      assert (Priority u ∈ uniquePriorities maps) as Hu.
      { apply Hin, list_elem_of_fmap. eauto using list_elem_of_lookup_2. }
      assert (bool_decide (Priority u ∈ ps0 ++ [p]) = (p <=? Priority u)) as ->; [|done].
      rewrite Hps in Hu. destruct (p <=? Priority u) eqn:E; b2p.
      * apply bool_decide_eq_true. apply elem_of_app.
        apply elem_of_app in Hu as [Hu|[Hu|Hu]%elem_of_cons]; [by left| |].
        -- right. by apply list_elem_of_singleton.
        -- apply Hlt in Hu. lia.
      * apply bool_decide_eq_false. intros [Hu'|Hu'%list_elem_of_singleton]%elem_of_app; [|lia].
        apply Hgt in Hu'. lia.
Qed.

Lemma verdict_det now state pool p a a' :
  verdict now state pool p a -> verdict now state pool p a' -> a = a'.
Proof. unfold verdict. intuition congruence. Qed.

(** ** Saving and loading *)

Lemma dec_map_elems_enc l : Forall (fun m => Validate m = None) l ->
  dec_map_elems (enc_ControlMap <$> l) = Ok ((fun m => Sanitize (strip_times m)) <$> l).
Proof.
  induction 1 as [|m l Hm _ IH]; [done|]. rewrite !fmap_cons. cbn [dec_map_elems].
  rewrite (unmarshal_enc m _ Hm). cbn [mbind result_bind]. rewrite IH. done.
Qed.

Lemma dec_enc_maps l old : Forall (fun m => Validate m = None) l ->
  dec_maps (enc_maps l) old = Ok ((fun m => Sanitize (strip_times m)) <$> l).
Proof.
  intros Hl. destruct l as [|m l]; [done|]. cbn [enc_maps dec_maps]. by apply dec_map_elems_enc.
Qed.

Lemma unmarshal_marshal_pool active expired :
  Forall (fun m => Validate m = None) active -> Forall (fun m => Validate m = None) expired ->
  unmarshal (dec_struct pool_fields) ([], []) (marshal_pool active expired) =
    Ok ((fun m => Sanitize (strip_times m)) <$> active,
        (fun m => Sanitize (strip_times m)) <$> expired).
Proof.
  intros Ha He. unfold unmarshal, marshal_pool. rewrite unmarshal_marshal_text. cbn [dec_struct].
  erewrite dec_members_cons; [|reflexivity|by apply on_field_ok, dec_enc_maps].
  erewrite dec_members_cons; [|reflexivity|by apply on_field_ok, dec_enc_maps].
  done.
Qed.

(** What a saved map becomes when it is loaded at [now]. *)
Definition reloaded (saved now timeout : Z) (m : UpdateControlMap) : UpdateControlMap :=
  let m' := Stamp now timeout (Sanitize (strip_times m)) in
  if Expired saved m then Expire m' else m'.

Definition reload_order (saved : Z) (l : list UpdateControlMap) : list UpdateControlMap :=
  query (fun u => negb (Expired saved u)) l ++ query (Expired saved) l.

Lemma query_split keep l : query (fun u => negb (keep u)) l ++ query keep l ≡ₚ l.
Proof.
  induction l as [|u l IH]; [done|]. unfold query in *. rewrite !filter_cons.
  destruct (keep u) eqn:E.
  - rewrite decide_False, decide_True by done. rewrite <- Permutation_middle. by rewrite IH.
  - rewrite decide_True, decide_False by done. cbn. by rewrite IH.
Qed.

Lemma load_saved {DB : Type} `{ReliableStore DB} saved now timeout c (store : DB) :
  Forall (fun m => Validate m = None) (Pool c) ->
  Pool (loadFromStore now timeout (set_Pool [] c) (saveToStore saved c store)) =
    reloaded saved now timeout <$> reload_order saved (Pool c).
Proof.
  intros Hv. unfold saveToStore, reload_order, loadFromStore. rewrite Forall_forall in Hv.
  set (active := query _ (Pool c)). set (exp := query (Expired saved) (Pool c)).
  assert (Ha : Forall (fun m => Validate m = None) active).
  { apply Forall_forall. intros m [_ Hm]%query_elem. auto. }
  assert (He : Forall (fun m => Validate m = None) exp).
  { apply Forall_forall. intros m [_ Hm]%query_elem. auto. }
  assert (forall l l' : list UpdateControlMap, (match l, l' with
     | [], [] => (Remove UpdateControlMaps store).2
     | _, _ => (WriteAll UpdateControlMaps (marshal_pool active exp) store).2 end : DB) =
     if bool_decide (l = [] /\ l' = [])
     then (Remove UpdateControlMaps store).2
     else (WriteAll UpdateControlMaps (marshal_pool active exp) store).2) as Hmatch.
  { intros l l'. by destruct l as [|? l], l' as [|? l']. }
  assert (Hpool : Stamp now timeout <$> ((fun m => Sanitize (strip_times m)) <$> active)
    = reloaded saved now timeout <$> active /\
    (fun m => Expire (Stamp now timeout m)) <$> ((fun m => Sanitize (strip_times m)) <$> exp)
    = reloaded saved now timeout <$> exp).
  { split; rewrite <- list_fmap_compose; apply list_fmap_ext; intros i m Hm;
      apply list_elem_of_lookup_2, query_elem in Hm as [Hm _]; unfold reloaded; cbn.
    - apply negb_true_iff in Hm. by rewrite Hm.
    - by rewrite Hm. }
  rewrite Hmatch. case_bool_decide as Hnil.
  - destruct Hnil as [-> ->]. destruct (rel_remove UpdateControlMaps store) as (s' & -> & Hs').
    cbn [snd]. rewrite rel_ReadAll, Hs', lookup_delete_eq. done.
  - destruct (rel_write UpdateControlMaps (marshal_pool active exp) store) as (s' & -> & Hs').
    cbn [snd]. rewrite rel_ReadAll, Hs', lookup_insert_eq.
    rewrite unmarshal_marshal_pool by done. cbn [Pool set_Pool]. rewrite fmap_app.
    by destruct Hpool as [-> ->].
Qed.

(** ** The decision depends only on what is asked *)

Definition decision (now : Z) (state : string) (pool : list UpdateControlMap)
    (action : string) : Prop :=
  (action = "continue" /\ forall p, ~ decisive_at now state pool p) \/
  (exists p, decisive_at now state pool p /\
     (forall p', p < p' -> ~ decisive_at now state pool p') /\
     verdict now state pool p action).

Lemma QueryAndUpdate_decision {DB : Type} `{Store DB} sort (Hsort : sorts sort)
    now state c (store : DB) :
  decision now state (Pool c) (QueryAndUpdate sort now state c store).1.1.
Proof.
  destruct (QueryAndUpdate sort now state c store) as [[action c'] store'] eqn:E.
  destruct (QueryAndUpdate_action _ Hsort _ _ _ _ _ _ _ E)
    as [(-> & Hn & _)|(p & Hd & Hmax & Hv & _)]; [by left|right; by exists p].
Qed.

Definition same_demands (now1 now2 : Z) (state : string) (pool1 pool2 : list UpdateControlMap) :
    Prop :=
  forall p a, decisive a -> asks now1 state pool1 p a <-> asks now2 state pool2 p a.

Lemma same_decisive now1 now2 state pool1 pool2 p : same_demands now1 now2 state pool1 pool2 ->
  decisive_at now1 state pool1 p <-> decisive_at now2 state pool2 p.
Proof. intros H. split; intros (a & Hd & Ha); exists a; split; auto; by apply (H p a). Qed.

Lemma same_verdict now1 now2 state pool1 pool2 p a : same_demands now1 now2 state pool1 pool2 ->
  verdict now1 state pool1 p a <-> verdict now2 state pool2 p a.
Proof.
  intros H. unfold verdict.
  assert (decisive "fail" /\ decisive "pause" /\ decisive "force_continue") as (H1 & H2 & H3)
    by (unfold decisive; set_solver).
  rewrite (H p _ H1), (H p _ H2), (H p _ H3). done.
Qed.

Lemma decision_det now1 now2 state pool1 pool2 a1 a2 :
  same_demands now1 now2 state pool1 pool2 ->
  decision now1 state pool1 a1 -> decision now2 state pool2 a2 -> a1 = a2.
Proof.
  intros Hsame [[-> Hn1]|(p1 & Hd1 & Hm1 & Hv1)] [[-> Hn2]|(p2 & Hd2 & Hm2 & Hv2)].
  - done.
  - rewrite <- same_decisive in Hd2 by done. by apply Hn1 in Hd2.
  - rewrite same_decisive in Hd1 by done. by apply Hn2 in Hd1.
  - assert (p1 = p2) as <-.
    { pose proof (same_decisive _ _ _ _ _ p1 Hsame) as E1.
      pose proof (same_decisive _ _ _ _ _ p2 Hsame) as E2.
      destruct (Z.lt_trichotomy p1 p2) as [Hlt|[?|Hlt]]; [|done|].
      - by apply E2, (Hm1 p2 Hlt) in Hd2.
      - by apply E1, (Hm2 p1 Hlt) in Hd1. }
    rewrite same_verdict in Hv1 by done. by eapply verdict_det.
Qed.

Lemma permuted_demands now state pool1 pool2 : pool1 ≡ₚ pool2 ->
  same_demands now now state pool1 pool2.
Proof. intros Hp p a _. unfold asks. by setoid_rewrite Hp. Qed.

(** A map whose states have no field left to default. *)
Definition complete (m : UpdateControlMap) : Prop :=
  forall k s, States m !! k = Some s -> state_Sanitize s = s.

Lemma reloaded_action saved boot timeout now state m :
  complete m -> 0 <= timeout * Second <= int64_max -> now < boot + timeout * Second ->
  forall a, decisive a ->
  (is_Some (States (reloaded saved boot timeout m) !! state) /\
   map_Action now state (reloaded saved boot timeout m) = a) <->
  (is_Some (States m !! state) /\ map_Action saved state m = a).
Proof.
  intros Hc Ht Hnow a Hd.
  assert (Hst : States (reloaded saved boot timeout m) = States (Sanitize (strip_times m))).
  { unfold reloaded. by destruct (Expired saved m). }
  assert (Hex : Expired now (reloaded saved boot timeout m) = Expired saved m).
  { unfold reloaded. destruct (Expired saved m); [done|]. unfold Expired. cbn.
    rewrite int64_id by (unfold int64_min, int64_max in *; lia). apply Z.leb_gt. lia. }
  unfold map_Action. rewrite Hst, Hex, Sanitize_lookup. cbn [States strip_times].
  destruct (States m !! state) as [s|] eqn:Hs; cbn; [|by split; intros [[? ?] _]].
  rewrite (Hc _ _ Hs). case_bool_decide as Hdef; [|done]. subst s.
  split; [by intros [[? ?] _]|]. intros [_ <-]. exfalso. revert Hd. unfold decisive.
  destruct (Expired saved m); cbn; rewrite !elem_of_cons, elem_of_nil;
    unfold UpdateControlMapStateActionDefault, UpdateControlMapStateOnMapExpireDefault;
    cbn; intuition discriminate.
Qed.

Lemma reloaded_demands saved boot timeout now state pool :
  Forall complete pool -> 0 <= timeout * Second <= int64_max ->
  now < boot + timeout * Second ->
  same_demands saved now state pool (reloaded saved boot timeout <$> reload_order saved pool).
Proof.
  intros Hc Ht Hnow p a Hd. rewrite Forall_forall in Hc. unfold asks.
  assert (forall u, u ∈ reload_order saved pool <-> u ∈ pool) as Hin.
  { intros u. unfold reload_order. by rewrite query_split. }
  split.
  - intros (u & Hu & <- & Hs & Ha). exists (reloaded saved boot timeout u).
    split; [apply list_elem_of_fmap; exists u; by rewrite Hin|].
    split; [unfold reloaded; by destruct (Expired saved u)|].
    apply reloaded_action; auto.
  - intros (v & (u & -> & Hu)%list_elem_of_fmap & <- & Hs & Ha). exists u. apply Hin in Hu.
    split; [done|]. split; [unfold reloaded; by destruct (Expired saved u)|].
    apply (reloaded_action saved boot timeout now); auto.
Qed.

(** ** The pool invariant *)

(** No two maps of the pool have the same deployment and priority, and every
    map is valid. *)
Definition pool_ok (c : ControlMapPool) : Prop :=
  NoDup ((fun u => (ID u, Priority u)) <$> Pool c) /\
  Forall (fun m => Validate m = None) (Pool c).

Lemma query_sublist keep l : query keep l `sublist_of` l.
Proof. unfold query. apply sublist_filter. Qed.

Lemma pool_ok_query keep c : pool_ok c -> pool_ok (set_Pool (query keep (Pool c)) c).
Proof.
  intros [Hnd Hv]. split; cbn.
  - eapply sublist_NoDup; [exact Hnd|]. apply fmap_sublist, query_sublist.
  - rewrite Forall_forall in *. intros m [_ Hm]%query_elem. auto.
Qed.

Lemma pool_ok_insert keep cm c :
  pool_ok c -> Validate cm = None ->
  (forall u, keep u = true -> (ID u, Priority u) <> (ID cm, Priority cm)) ->
  pool_ok (set_Pool (query keep (Pool c) ++ [cm]) c).
Proof.
  intros Hok Hcm Hkeep. destruct (pool_ok_query keep c Hok) as [Hnd Hv]. cbn in Hnd, Hv.
  split; cbn.
  - rewrite fmap_app. apply NoDup_app. split; [done|]. split; [|apply NoDup_singleton].
    intros x (u & -> & [Hu _]%query_elem)%list_elem_of_fmap Hin.
    apply list_elem_of_singleton in Hin. by apply (Hkeep u Hu).
  - apply Forall_app. by split; [|constructor].
Qed.

Lemma action_executed_valid state u : Validate u = None -> Validate (action_executed state u) = None.
Proof.
  intros H. apply Validate_None in H as (Hid & Hp & Hst). apply Validate_None.
  rewrite action_executed_ID, action_executed_priority. split_and!; try done; try lia.
  intros k s Hk. unfold action_executed in Hk.
  destruct (States u !! state) as [s0|] eqn:E; [|by apply Hst]. cbn in Hk.
  destruct (decide (state = k)) as [<-|Hne]; [|rewrite lookup_insert_ne in Hk by done; by apply Hst].
  rewrite lookup_insert_eq in Hk. injection Hk as <-. destruct (Hst _ _ E) as [Hin Hok].
  split; [done|]. revert Hok. unfold state_ok, state_Validate. cbn.
  unfold UpdateControlMapStateOnActionExecutedValid.
  by destruct (optional_in _ (Action s0)), (optional_in _ (OnMapExpire s0)),
    (optional_in _ (OnActionExecuted s0)).
Qed.

Lemma pool_ok_permuted sel state c l : pool_ok c ->
  l ≡ₚ ((fun u => if sel u : bool then action_executed state u else u) <$> Pool c) ->
  pool_ok (set_Pool l c).
Proof.
  intros [Hnd Hv] Hl. split; cbn; rewrite Hl.
  - rewrite <- list_fmap_compose. erewrite list_fmap_ext; [exact Hnd|].
    intros _ u _. cbn. destruct (sel u); [|done].
    by rewrite action_executed_ID, action_executed_priority.
  - apply Forall_fmap. eapply Forall_impl; [exact Hv|]. intros u Hu. cbn.
    destruct (sel u); [by apply action_executed_valid|done].
Qed.

(** The operations of the pool, with the clock reading they are made at. *)
Inductive pool_op : Type :=
  | OpInsert (now : Z) (cm : UpdateControlMap)
  | OpInsertReplaceAllPriorities (now : Z) (cm : UpdateControlMap)
  | OpDelete (now : Z) (id : string) (priority : Z)
  | OpDeleteAllPriorities (now : Z) (id : string)
  | OpClearExpired (now : Z)
  | OpQueryAndUpdate (now : Z) (state : string)
  | OpSetUpdateControlMap (now timeout : Z) (cm : UpdateControlMap).

Definition run_pool_op {DB : Type} `{Store DB} sort (op : pool_op)
    (p : ControlMapPool * DB) : ControlMapPool * DB :=
  let '(c, store) := p in
  match op with
  | OpInsert now cm => Insert now cm c store
  | OpInsertReplaceAllPriorities now cm => InsertReplaceAllPriorities now cm c store
  | OpDelete now id priority => Delete now id priority c store
  | OpDeleteAllPriorities now id => DeleteAllPriorities now id c store
  | OpClearExpired now => ClearExpired now c store
  | OpQueryAndUpdate now state =>
      let '(_, c, store) := QueryAndUpdate sort now state c store in (c, store)
  | OpSetUpdateControlMap now timeout cm => SetUpdateControlMap now timeout cm c store
  end.

(** A map reaches the pool through [UnmarshalJSON], which validates it. *)
Definition op_ok (op : pool_op) : Prop :=
  match op with
  | OpInsert _ cm | OpInsertReplaceAllPriorities _ cm | OpSetUpdateControlMap _ _ cm =>
      Validate cm = None
  | _ => True
  end.

Lemma run_pool_op_ok {DB : Type} `{Store DB} sort (Hsort : sorts sort) op c (store : DB) :
  pool_ok c -> op_ok op -> pool_ok (run_pool_op sort op (c, store)).1.
Proof.
  assert (Hins : forall now cm c (store : DB), pool_ok c -> Validate cm = None ->
    pool_ok (Insert now cm c store).1).
  { intros now cm c0 s Hok Hcm. apply pool_ok_insert; [done..|]. intros u Hu [= H1 H2].
    unfold Equal in Hu. rewrite bool_decide_true, H2, Z.eqb_refl in Hu by congruence. done. }
  intros Hok Hop. destruct op; cbn [run_pool_op].
  - by apply Hins.
  - apply pool_ok_insert; [done..|]. intros u Hu [= H1 H2].
    rewrite bool_decide_true in Hu by congruence. done.
  - by apply pool_ok_query.
  - by apply pool_ok_query.
  - by apply pool_ok_query.
  - destruct (QueryAndUpdate sort now state c store) as [[a c'] s'] eqn:E. cbn [fst].
    pose proof E as E'. unfold QueryAndUpdate in E'. destruct (query_priorities _ _ _ _ _) as [a' l].
    injection E' as <- <- _.
    destruct (QueryAndUpdate_action _ Hsort _ _ _ _ _ _ _ E)
      as [(_ & _ & Hl)|(p & _ & _ & _ & Hl)]; cbn in Hl.
    + by apply (pool_ok_permuted (has_state state) state).
    + by apply (pool_ok_permuted (fun u => (p <=? Priority u) && has_state state u) state).
  - unfold SetUpdateControlMap. case_bool_decide; [by apply pool_ok_query|by apply Hins].
Qed.

(** ** Properties *)

(** Sorting by decreasing priority, for the examples. *)
Definition priority_ge (u v : UpdateControlMap) : Prop := Priority v <= Priority u.
#[export] Instance priority_ge_dec : RelDecision priority_ge.
Proof. intros u v. unfold priority_ge. apply _. Defined.
#[export] Instance priority_ge_total : Total priority_ge.
Proof. intros u v. unfold priority_ge. lia. Qed.
#[export] Instance priority_ge_trans : Transitive priority_ge.
Proof. intros u v w. unfold priority_ge. lia. Qed.

Definition merge_sort_priority : list UpdateControlMap -> list UpdateControlMap :=
  merge_sort priority_ge.

Lemma merge_sort_priority_sorts : sorts merge_sort_priority.
Proof.
  intros l. split; [apply merge_sort_Permutation|].
  apply (StronglySorted_merge_sort priority_ge).
Qed.

Definition example_id : string := "0123abcd-0123-0123-0123-0123456789ab".

Definition example_map (priority : Z) (action on_expire : string) : UpdateControlMap :=
  mkControlMap example_id priority
    {["ArtifactReboot_Enter" := mkMapState action on_expire "continue"]} 0 50 100 false.

Definition example_pool : ControlMapPool :=
  mkPool [example_map (-1) "fail" "fail"; example_map 3 "continue" "continue";
          example_map 2 "force_continue" "fail"] 100.

(** C22: the answer of the pool.  However the sort orders maps of equal
    priority, the highest priority at which some map asks (by its action, or by
    its [on_map_expire] once it has expired) for anything but "continue" decides:
    "fail" wins over "pause" and "pause" over "force_continue", which answers
    "continue"; when there is no such priority the answer is "continue".
    Exactly the maps from that priority upwards (all of them if there is none)
    advance to their [on_action_executed]. *)
Theorem QueryAndUpdate_spec {DB : Type} `{Store DB} sort (Hsort : sorts sort)
    now state c (store : DB) :
  let '(action, c', _) := QueryAndUpdate sort now state c store in
  (action = "continue" /\ (forall p, ~ decisive_at now state (Pool c) p) /\
   Pool c' ≡ₚ ((fun u => if has_state state u then action_executed state u else u) <$> Pool c)) \/
  (exists p, decisive_at now state (Pool c) p /\
     (forall p', p < p' -> ~ decisive_at now state (Pool c) p') /\
     verdict now state (Pool c) p action /\
     Pool c' ≡ₚ ((fun u => if (p <=? Priority u) && has_state state u
                           then action_executed state u else u) <$> Pool c)).
Proof.
  destruct (QueryAndUpdate sort now state c store) as [[action c'] store'] eqn:E.
  by eapply QueryAndUpdate_action.
Qed.

Lemma QueryAndUpdate_spec_witness :
  (QueryAndUpdate (DB := gmap string string) merge_sort_priority 10 "ArtifactReboot_Enter"
     example_pool ∅).1.1 = "continue" /\
  exists p, verdict 10 "ArtifactReboot_Enter" (Pool example_pool) p
    (QueryAndUpdate (DB := gmap string string) merge_sort_priority 10 "ArtifactReboot_Enter"
       example_pool ∅).1.1.
Proof.
  pose proof (QueryAndUpdate_spec (DB := gmap string string) merge_sort_priority
    merge_sort_priority_sorts 10 "ArtifactReboot_Enter" example_pool ∅) as H.
  split; [vm_compute; reflexivity|].
  destruct (QueryAndUpdate _ _ _ _ _) as [[a c'] s']. cbn [fst].
  destruct H as [(_ & Hno & _)|(p & _ & _ & Hv & _)]; [|by exists p].
  exfalso. apply (Hno 2). exists "force_continue". split; [unfold decisive; set_solver|].
  exists (example_map 2 "force_continue" "fail").
  split; [right; right; left|]. split; [reflexivity|]. split; [by eexists|reflexivity].
Defined.

(** The order of the pool does not matter.  Two pools with the same maps,
    sorted by two different functions, give the same answer. *)
Theorem QueryAndUpdate_order_independent {DB : Type} `{Store DB} sort1 sort2
    (Hsort1 : sorts sort1) (Hsort2 : sorts sort2) now state c1 c2 (s1 s2 : DB)
    (Hperm : Pool c1 ≡ₚ Pool c2) :
  (QueryAndUpdate sort1 now state c1 s1).1.1 = (QueryAndUpdate sort2 now state c2 s2).1.1.
Proof.
  eapply decision_det; [by apply permuted_demands|..]; by apply QueryAndUpdate_decision.
Qed.

Lemma QueryAndUpdate_order_independent_witness :
  (QueryAndUpdate (DB := gmap string string) merge_sort_priority 200 "ArtifactReboot_Enter"
     example_pool ∅).1.1 =
  (QueryAndUpdate (DB := gmap string string) merge_sort_priority 200 "ArtifactReboot_Enter"
     (set_Pool (reverse (Pool example_pool)) example_pool) ∅).1.1.
Proof.
  apply QueryAndUpdate_order_independent; [apply merge_sort_priority_sorts..|].
  symmetry. apply reverse_Permutation.
Defined.

(** A restart does not change what the pool answers.  The maps are valid
    and complete, saved at one time and loaded at another; as long as the load
    timeout has not passed again, the loaded pool gives the answer the pool gave
    when it was saved: active maps are active again and expired ones expired. *)
Theorem restart_keeps_decision {DB : Type} `{ReliableStore DB} sort (Hsort : sorts sort)
    saved boot now timeout state c (store store' : DB)
    (Hvalid : Forall (fun m => Validate m = None) (Pool c))
    (Hcomplete : Forall complete (Pool c))
    (Htimeout : 0 <= timeout * Second <= int64_max)
    (Hnow : now < boot + timeout * Second) :
  (QueryAndUpdate sort now state
     (loadFromStore boot timeout (set_Pool [] c) (saveToStore saved c store)) store').1.1 =
  (QueryAndUpdate sort saved state c store).1.1.
Proof.
  eapply decision_det; [|by apply QueryAndUpdate_decision..].
  rewrite load_saved by done. intros p a Ha. symmetry.
  by apply (reloaded_demands saved boot timeout now state (Pool c)).
Qed.

Lemma restart_keeps_decision_witness :
  (QueryAndUpdate (DB := gmap string string) merge_sort_priority 2000 "ArtifactReboot_Enter"
     (loadFromStore (DB := gmap string string) 1000 60 (set_Pool [] example_pool)
        (saveToStore 10 example_pool ∅)) ∅).1.1 =
  (QueryAndUpdate (DB := gmap string string) merge_sort_priority 10 "ArtifactReboot_Enter"
     example_pool ∅).1.1.
Proof.
  apply (restart_keeps_decision (DB := gmap string string)).
  - apply merge_sort_priority_sorts.
  - repeat constructor.
  - repeat constructor; intros k s Hs; unfold example_map in Hs; cbn [States] in Hs;
      apply lookup_singleton_Some in Hs as [_ <-]; reflexivity.
  - unfold Second, int64_max. lia.
  - unfold Second. lia.
Defined.

(** The pool never holds two maps for the same deployment and priority,
    nor an invalid map: from a pool where this holds (the empty one), any
    sequence of inserts, deletes, expirations, queries and D-Bus requests with
    validated maps leads to pools where it holds. *)
Theorem pool_invariant {DB : Type} `{Store DB} sort (Hsort : sorts sort)
    (ops : list pool_op) c (store : DB) (Hok : pool_ok c) (Hops : Forall op_ok ops) :
  pool_ok (foldl (fun p op => run_pool_op sort op p) (c, store) ops).1.
Proof.
  revert c store Hok. induction Hops as [|op ops Hop _ IH]; intros c store Hok; [done|].
  cbn [foldl]. pose proof (run_pool_op_ok sort Hsort op c store Hok Hop) as Hok'.
  destruct (run_pool_op sort op (c, store)) as [c' store']. by apply IH.
Qed.

Lemma pool_invariant_witness :
  pool_ok (foldl (fun p op => run_pool_op merge_sort_priority op p)
    (mkPool [] 100, ∅ : gmap string string)
    [OpInsert 0 (example_map 1 "pause" "fail"); OpInsert 1 (example_map 1 "fail" "fail");
     OpQueryAndUpdate 2 "ArtifactReboot_Enter"; OpClearExpired 300]).1.
Proof.
  apply (pool_invariant merge_sort_priority merge_sort_priority_sorts).
  - split; constructor.
  - repeat constructor.
Defined.
