(* ===== verification/Client.v ===== *)
(** * Client: requests to the server (client/)

    The parts of the client package that carry decisions: the exponential
    backoff of client/client.go, and what the answers to a status report, a log
    upload and a control map request mean (client_status.go, client_log.go,
    client_update.go).  The HTTP exchange itself ([api.Do]) is the
    environment's; its answer is an error or a status code. *)

From S2P Require Import Prelude.

Open Scope Z_scope.

Definition StatusInstalling : string := "installing".
Definition StatusDownloading : string := "downloading".
Definition StatusRebooting : string := "rebooting".
Definition StatusSuccess : string := "success".
Definition StatusFailure : string := "failure".

Definition buildURL (server : string) : string :=
  if String.prefix "https://" server || String.prefix "http://" server then server
  else "https://" +:+ server.

(** ** Exponential backoff *)

(** [time.Minute], in nanoseconds. *)
Definition ExponentialBackoffSmallestUnit : Z := 60000000000.

Definition perIntervalAttempts : Z := 3.

(** The loop; [nextInterval *= 2] wraps.  The count [c] goes up to [tried] plus
    three only, and [tried] is far from the largest integer. *)
Fixpoint backoff_loop (fuel : nat) (c tried maxInterval maxAttempts interval nextInterval : Z) :
    result Z :=
  match fuel with
  | O => Ok interval
  | S fuel =>
      if c <=? tried then
        let interval := nextInterval in
        let nextInterval := int64 (nextInterval * 2) in
        if maxInterval <=? interval then
          if (maxAttempts <=? 0) && (perIntervalAttempts <=? tried - c)
          then Err MaxRetriesExceededError
          else if maxInterval <? ExponentialBackoffSmallestUnit
          then Ok ExponentialBackoffSmallestUnit
          else Ok maxInterval
        else backoff_loop fuel (c + perIntervalAttempts) tried maxInterval maxAttempts
               interval nextInterval
      else Ok interval
  end.

(** The loop runs at most [tried / 3 + 1] times. *)
Definition GetExponentialBackoffTime (tried maxInterval maxAttempts : Z) : result Z :=
  let interval := ExponentialBackoffSmallestUnit in
  if (0 <? maxAttempts) && (maxAttempts <=? tried) then Err MaxRetriesExceededError
  else backoff_loop (S (Z.to_nat (tried / 3 + 1))) 0 tried maxInterval maxAttempts
         interval interval.

(** ** What an answer means *)

Definition StatusOK : Z := 200.
Definition StatusNoContent : Z := 204.
Definition StatusNotFound : Z := 404.
Definition StatusConflict : Z := 409.
Definition StatusGone : Z := 410.

(** [NewAPIError]: a wrapper that keeps its cause. *)
Definition NewAPIError (err : error) : error := EWrap "server error" err.

(** [StatusClient.Report], from the answer of [api.Do]. *)
Definition Report (r : result Z) : option error :=
  match r with
  | Err err => Some (EWrap "reporting status failed" err)
  | Ok code =>
      if code =? StatusConflict then Some (NewAPIError ErrDeploymentAborted)
      else if (code =? StatusNotFound) || (code =? StatusGone)
      then Some (NewAPIError ErrDeploymentAborted)
      else if negb (code =? StatusNoContent)
      then Some (NewAPIError (EText "reporting status failed, bad status"))
      else None
  end.

(** [LogUploadClient.Upload]. *)
Definition Upload (r : result Z) : option error :=
  match r with
  | Err err => Some (EWrap "uploading logs failed" err)
  | Ok code =>
      if negb (code =? StatusNoContent)
      then Some (NewAPIError (EText "uploading logs failed, bad status"))
      else None
  end.

(** ** Properties *)

Definition doublings (i : Z) : Z := ExponentialBackoffSmallestUnit * 2 ^ i.

Lemma doublings_succ i : 0 <= i -> doublings (i + 1) = doublings i * 2.
Proof. intros. unfold doublings. rewrite Z.pow_add_r by lia. lia. Qed.

Lemma doublings_mono i j : 0 <= i <= j -> doublings i <= doublings j.
Proof.
  intros H. unfold doublings, ExponentialBackoffSmallestUnit.
  pose proof (Z.pow_le_mono_r 2 i j). lia.
Qed.

Lemma doublings_pos i : 0 <= i -> 0 < doublings i.
Proof.
  intros H. unfold doublings, ExponentialBackoffSmallestUnit.
  pose proof (Z.pow_pos_nonneg 2 i). lia.
Qed.

(** The specification: what is waited, and when the client gives up. *)
Definition backoff_gives_up (tried maxInterval maxAttempts : Z) : bool :=
  if 0 <? maxAttempts then maxAttempts <=? tried
  else (3 <=? tried) && (maxInterval <=? doublings (tried / 3 - 1)).

Definition backoff_wait (tried maxInterval : Z) : Z :=
  Z.min (doublings (tried / 3)) (Z.max ExponentialBackoffSmallestUnit maxInterval).

Definition backoff_spec (tried maxInterval maxAttempts : Z) : result Z :=
  if backoff_gives_up tried maxInterval maxAttempts then Err MaxRetriesExceededError
  else Ok (backoff_wait tried maxInterval).

(** The invariant of the loop at its [i]-th turn. *)
Lemma backoff_loop_spec tried maxInterval maxAttempts fuel : forall i interval,
  0 <= tried -> maxInterval <= 2 ^ 62 -> 0 <= i <= tried / 3 + 1 ->
  (0 < maxAttempts -> tried < maxAttempts) ->
  (forall k, 0 <= k < i -> doublings k < maxInterval) ->
  (0 < i -> interval = doublings (i - 1)) -> 0 < i \/ i = 0 ->
  (Z.to_nat (tried / 3 + 1 - i) < fuel)%nat ->
  backoff_loop fuel (3 * i) tried maxInterval maxAttempts interval (doublings i) =
    backoff_spec tried maxInterval maxAttempts.
Proof.
  induction fuel as [|fuel IH]; intros i interval Ht Hmax Hi Hatt Hlow Hint Hi0 Hfuel; [lia|].
  cbn [backoff_loop]. pose proof (Z.div_mod tried 3) as Hdiv.
  pose proof (Z.mod_pos_bound tried 3) as Hmod.
  unfold backoff_spec, backoff_gives_up, backoff_wait, perIntervalAttempts.
  destruct (3 * i <=? tried) eqn:Hc; b2p.
  - destruct (maxInterval <=? doublings i) eqn:Hge; b2p.
    + destruct (0 <? maxAttempts) eqn:Ha; b2p.
      * replace (maxAttempts <=? 0) with false by (symmetry; apply Z.leb_gt; lia). cbn [andb].
        replace (maxAttempts <=? tried) with false by (symmetry; apply Z.leb_gt; lia).
        pose proof (doublings_mono i (tried / 3)). pose proof (doublings_mono 0 (tried / 3)).
        change (doublings 0) with ExponentialBackoffSmallestUnit in *.
        destruct (maxInterval <? ExponentialBackoffSmallestUnit) eqn:E; b2p; f_equal; lia.
      * replace (maxAttempts <=? 0) with true by (symmetry; apply Z.leb_le; lia). cbn [andb].
        destruct (3 <=? tried - 3 * i) eqn:E; b2p.
        -- replace (3 <=? tried) with true by (symmetry; apply Z.leb_le; lia). cbn [andb].
           pose proof (doublings_mono i (tried / 3 - 1)).
           replace (maxInterval <=? doublings (tried / 3 - 1)) with true; [done|].
           symmetry. apply Z.leb_le. lia.
        -- assert (tried / 3 = i) as -> by lia.
           assert ((3 <=? tried) && (maxInterval <=? doublings (i - 1)) = false) as ->.
           { destruct (3 <=? tried) eqn:E3; b2p; [|done]. apply Z.leb_gt, Hlow. lia. }
           pose proof (doublings_mono 0 i).
           change (doublings 0) with ExponentialBackoffSmallestUnit in *.
           destruct (maxInterval <? ExponentialBackoffSmallestUnit) eqn:E1; b2p; f_equal; lia.
    + rewrite int64_id.
      2: { pose proof (doublings_pos i). unfold int64_min, int64_max. lia. }
      rewrite <- doublings_succ by lia. replace (3 * i + 3) with (3 * (i + 1)) by lia.
      apply IH; try lia.
      * intros k Hk. destruct (Z.eq_dec k i) as [->|]; [lia|]. apply Hlow. lia.
      * intros _. by replace (i + 1 - 1) with i by lia.
  - assert (i = tried / 3 + 1) as Ei by lia.
    assert (0 < i) as Hpos by lia. rewrite Hint by done.
    replace (i - 1) with (tried / 3) by lia.
    assert (doublings (tried / 3) < maxInterval) as Hlt by (apply Hlow; lia).
    assert ((if 0 <? maxAttempts then maxAttempts <=? tried
      else (3 <=? tried) && (maxInterval <=? doublings (tried / 3 - 1))) = false) as ->.
    { destruct (0 <? maxAttempts) eqn:Ha; b2p; [apply Z.leb_gt; lia|].
      destruct (3 <=? tried) eqn:E3; b2p; [|done]. apply Z.leb_gt, Hlow. lia. }
    f_equal. lia.
Qed.

Lemma GetExponentialBackoffTime_eq tried maxInterval maxAttempts :
  0 <= tried -> maxInterval <= 2 ^ 62 ->
  GetExponentialBackoffTime tried maxInterval maxAttempts =
    backoff_spec tried maxInterval maxAttempts.
Proof.
  intros Htried Hmax. unfold GetExponentialBackoffTime.
  destruct ((0 <? maxAttempts) && (maxAttempts <=? tried)) eqn:E.
  - b2p. unfold backoff_spec, backoff_gives_up.
    replace (0 <? maxAttempts) with true by (symmetry; by apply Z.ltb_lt).
    by replace (maxAttempts <=? tried) with true by (symmetry; by apply Z.leb_le).
  - pose proof (Z.div_pos tried 3).
    apply (backoff_loop_spec tried maxInterval maxAttempts _ 0); try lia.
Qed.


