(* ===== verification/States.v ===== *)
(** * States: transitions, errors and the states of the update state machine

    app/transition.go, app/error.go and the data of app/state.go: the state
    types with what they carry, their identifiers and transitions, which of them
    are update states, and which may loop.  What the states do is in
    [Handlers]. *)

From S2P Require Import Prelude StateData Client.
From Stdlib Require Import Ascii.

Open Scope Z_scope.

(** ** Transitions (app/transition.go) *)

Inductive Transition : Type :=
  | ToNone
  | ToIdle
  | ToSync
  | ToError
  | ToDownload_Enter
  | ToDownload_Leave
  | ToArtifactInstall
  | ToArtifactReboot_Enter
  | ToArtifactReboot_Leave
  | ToArtifactCommit_Enter
  | ToArtifactCommit_Leave
  | ToArtifactRollback
  | ToArtifactRollbackReboot_Enter
  | ToArtifactRollbackReboot_Leave
  | ToArtifactFailure.

#[export] Instance Transition_eq_dec : EqDecision Transition.
Proof. solve_decision. Defined.

Definition IsToError (t : Transition) : bool :=
  bool_decide (t = ToError)
  || bool_decide (t = ToArtifactFailure)
  || bool_decide (t = ToArtifactRollback)
  || bool_decide (t = ToArtifactRollbackReboot_Enter)
  || bool_decide (t = ToArtifactRollbackReboot_Leave).

Definition transitionNames (t : Transition) : string :=
  match t with
  | ToNone => "none"
  | ToIdle => "Idle"
  | ToSync => "Sync"
  | ToError => "Error"
  | ToDownload_Enter => "Download_Enter"
  | ToDownload_Leave => "Download_Leave"
  | ToArtifactInstall => "ArtifactInstall"
  | ToArtifactReboot_Enter => "ArtifactReboot_Enter"
  | ToArtifactReboot_Leave => "ArtifactReboot_Leave"
  | ToArtifactCommit_Enter => "ArtifactCommit_Enter"
  | ToArtifactCommit_Leave => "ArtifactCommit_Leave"
  | ToArtifactRollback => "ArtifactRollback"
  | ToArtifactRollbackReboot_Enter => "ArtifactRollbackReboot_Enter"
  | ToArtifactRollbackReboot_Leave => "ArtifactRollbackReboot_Leave"
  | ToArtifactFailure => "ArtifactFailure"
  end.

(** The action argument is not used by the source. *)
Definition ignoreErrors (t : Transition) (action : string) : bool :=
  bool_decide (t = ToIdle)
  || bool_decide (t = ToArtifactRollback)
  || bool_decide (t = ToArtifactRollbackReboot_Enter)
  || bool_decide (t = ToArtifactRollbackReboot_Leave)
  || bool_decide (t = ToArtifactFailure).

(** [strings.Split] by a one-character separator. *)
Fixpoint split (sep : ascii) (s : string) : list string :=
  match s with
  | EmptyString => [EmptyString]
  | String c s =>
      if bool_decide (c = sep) then EmptyString :: split sep s
      else match split sep s with
           | [] => [String c EmptyString]
           | x :: l => String c x :: l
           end
  end.

Definition getName (t : Transition) (action : string) : string :=
  let name := transitionNames t in
  match split "_" name with
  | [base; suffix] =>
      if bool_decide (action <> "Error") && bool_decide (suffix <> action) then EmptyString
      else base
  | _ => name
  end.

(** ** Errors (app/error.go) *)

Record menderError := mkMenderError { cause : error; fatal : bool }.

Definition NewFatalError (err : error) : menderError := mkMenderError err true.
Definition NewTransientError (err : error) : menderError := mkMenderError err false.

(** A [menderError] where an [error] is expected. *)
Definition as_error (m : menderError) : error := EMender (fatal m) (cause m).

(** ** The states *)

(** Fields of the source that nothing reads are left out ([from] of the two
    retry states, [logs] of the status report state, the channels). *)
Inductive State : Type :=
  | finalState
  | initState
  | idleState
  | checkWaitState
  | inventoryUpdateState
  | updateCheckState
  | inventoryUpdateRetry (err : error)
  | errorState (cause : menderError)
  | updateFetchState (update : UpdateInfo)
  | updateStoreState (update : UpdateInfo)
  | updateAfterStoreState (update : UpdateInfo)
  | updateInstallState (update : UpdateInfo)
  | fetchStoreRetryState (update : UpdateInfo) (err : option error)
  | updateCommitState (update : UpdateInfo) (reportTries : Z)
  | updatePreCommitStatusReportRetryState (returnToState : State) (reportTries : Z)
  | updateAfterFirstCommitState (update : UpdateInfo)
  | updateAfterCommitState (update : UpdateInfo)
  | updateErrorState (cause : menderError) (update : UpdateInfo)
  | updateCleanupState (t : Transition) (update : UpdateInfo) (status : string)
  | updateStatusReportState (update : UpdateInfo) (status : string)
      (triesSendingReport triesSendingLogs : Z)
  | updateStatusReportRetryState (reportState : State) (update : UpdateInfo)
      (status : string) (triesSending : Z)
  | updateRebootPauseRequestedState (update : UpdateInfo)
  | updateRebootState (update : UpdateInfo)
  | updateVerifyRebootState (update : UpdateInfo)
  | updateAfterRebootState (update : UpdateInfo)
  | updateRollbackState (update : UpdateInfo)
  | updateRollbackRebootState (update : UpdateInfo)
  | updateVerifyRollbackRebootState (update : UpdateInfo)
  | updateAfterRollbackRebootState (update : UpdateInfo)
  | controlMapState (wrappedState : State) (pauseState : option State)
  | fetchControlMapState (wrappedState : State) (pauseState : option State)
  | fetchRetryControlMapState (wrappedState : State) (pauseState : option State)
  | controlMapPauseState (wrappedState : State).

(** [State.Id()]. *)
Definition state_Id (s : State) : MenderState :=
  match s with
  | finalState => MenderStateDone
  | initState => MenderStateInit
  | idleState => MenderStateIdle
  | checkWaitState => MenderStateCheckWait
  | inventoryUpdateState => MenderStateInventoryUpdate
  | updateCheckState => MenderStateUpdateCheck
  | inventoryUpdateRetry _ => MenderStateInventoryUpdateRetryWait
  | errorState _ => MenderStateError
  | updateFetchState _ => MenderStateUpdateFetch
  | updateStoreState _ => MenderStateUpdateStore
  | updateAfterStoreState _ => MenderStateUpdateAfterStore
  | updateInstallState _ => MenderStateUpdateInstall
  | fetchStoreRetryState _ _ => MenderStateFetchStoreRetryWait
  | updateCommitState _ _ => MenderStateUpdateCommit
  | updatePreCommitStatusReportRetryState _ _ => MenderStateUpdatePreCommitStatusReportRetry
  | updateAfterFirstCommitState _ => MenderStateUpdateAfterFirstCommit
  | updateAfterCommitState _ => MenderStateUpdateAfterCommit
  | updateErrorState _ _ => MenderStateUpdateError
  | updateCleanupState _ _ _ => MenderStateUpdateCleanup
  | updateStatusReportState _ _ _ _ => MenderStateUpdateStatusReport
  | updateStatusReportRetryState _ _ _ _ => MenderStateStatusReportRetry
  | updateRebootPauseRequestedState _ => MenderStateReboot
  | updateRebootState _ => MenderStateReboot
  | updateVerifyRebootState _ => MenderStateAfterReboot
  | updateAfterRebootState _ => MenderStateAfterReboot
  | updateRollbackState _ => MenderStateRollback
  | updateRollbackRebootState _ => MenderStateRollbackReboot
  | updateVerifyRollbackRebootState _ => MenderStateVerifyRollbackReboot
  | updateAfterRollbackRebootState _ => MenderStateAfterRollbackReboot
  | controlMapState _ _ => MenderStateUpdateControl
  | fetchControlMapState _ _ => MenderStateFetchUpdateControl
  | fetchRetryControlMapState _ _ => MenderStateFetchRetryUpdateControl
  | controlMapPauseState _ => MenderStateUpdateControlPause
  end.

(** [State.Transition()]. *)
Definition state_Transition (s : State) : Transition :=
  match s with
  | finalState | initState => ToNone
  | idleState | checkWaitState => ToIdle
  | inventoryUpdateState | updateCheckState | inventoryUpdateRetry _ => ToSync
  | errorState _ => ToError
  | updateFetchState _ | updateStoreState _ | fetchStoreRetryState _ _ => ToDownload_Enter
  | updateAfterStoreState _ => ToDownload_Leave
  | updateInstallState _ => ToArtifactInstall
  | updateCommitState _ _ | updatePreCommitStatusReportRetryState _ _ => ToArtifactCommit_Enter
  | updateAfterFirstCommitState _ => ToNone
  | updateAfterCommitState _ => ToArtifactCommit_Leave
  | updateErrorState _ _ => ToArtifactFailure
  | updateCleanupState t _ _ => t
  | updateStatusReportState _ _ _ _ | updateStatusReportRetryState _ _ _ _ => ToNone
  | updateRebootPauseRequestedState _ | updateRebootState _ => ToArtifactReboot_Enter
  | updateVerifyRebootState _ | updateAfterRebootState _ => ToArtifactReboot_Leave
  | updateRollbackState _ => ToArtifactRollback
  | updateRollbackRebootState _ => ToArtifactRollbackReboot_Enter
  | updateVerifyRollbackRebootState _ | updateAfterRollbackRebootState _ =>
      ToArtifactRollbackReboot_Leave
  | controlMapState _ _ | fetchControlMapState _ _ | fetchRetryControlMapState _ _
  | controlMapPauseState _ => ToNone
  end.

(** [UpdateState.Update()]; [None] for a state that is not an [UpdateState].
    The control map states have no [Update] method, nor do the two waits
    before a fetch and before a commit. *)
Definition state_Update (s : State) : option UpdateInfo :=
  match s with
  | updateFetchState u | updateStoreState u | updateAfterStoreState u | updateInstallState u
  | updateCommitState u _ | updateAfterFirstCommitState u | updateAfterCommitState u
  | updateErrorState _ u | updateCleanupState _ u _ | updateStatusReportState u _ _ _
  | updateStatusReportRetryState _ u _ _ | updateRebootPauseRequestedState u
  | updateRebootState u | updateVerifyRebootState u | updateAfterRebootState u
  | updateRollbackState u | updateRollbackRebootState u | updateVerifyRollbackRebootState u
  | updateAfterRollbackRebootState u => Some u
  | _ => None
  end.

(** [UpdateState.PermitLooping()]. *)
Definition PermitLooping (s : State) : bool :=
  match s with
  | updateStatusReportRetryState _ _ _ _
  | controlMapState _ _ | fetchControlMapState _ _ | fetchRetryControlMapState _ _
  | controlMapPauseState _ => true
  | _ => false
  end.

(** ** Constructors of the source that compute something *)

Definition NewUpdateCleanupState (update : UpdateInfo) (status : string) : State :=
  updateCleanupState
    (if bool_decide (status = StatusSuccess) then ToNone else ToError) update status.

Definition NewUpdateCommitState (update : UpdateInfo) : State := updateCommitState update 0.

Definition NewUpdateStatusReportState (update : UpdateInfo) (status : string) : State :=
  updateStatusReportState update status 0 0.

(** Resumes the attempt counter after a restart. *)
Definition newResumedUpdateStatusReportState (update : UpdateInfo) (status : string) : State :=
  updateStatusReportState update status (StatusReportRetryAttempts update) 0.

(** ** Status names (app/mender.go) *)

Definition StateStatus (m : MenderState) : string :=
  match m with
  | MenderStateUpdateFetch | MenderStateUpdateStore => StatusDownloading
  | MenderStateUpdateInstall => StatusInstalling
  | MenderStateUpdateVerify | MenderStateUpdateCommit | MenderStateReboot
  | MenderStateAfterReboot | MenderStateRollback | MenderStateRollbackReboot
  | MenderStateAfterRollbackReboot => StatusRebooting
  | MenderStateUpdateError => StatusFailure
  | _ => EmptyString
  end.

Definition shouldReportUpdateStatus (m : MenderState) : bool :=
  bool_decide (StateStatus m <> EmptyString).

Definition shouldTransit (from to : State) : bool :=
  bool_decide (state_Transition from <> state_Transition to).

(** ** Sending attempts *)

Definition maxSendingAttemptsRoof : Z := 10.
Definition minReportSendRetries : Z := 3.

Definition maxSendingAttempts (upi rpi minRetries : Z) : Z :=
  if rpi =? 0 then minRetries
  else
    let max := Z.quot upi rpi in
    if max <=? minRetries then minRetries
    else Z.min (int64 (max * 2)) maxSendingAttemptsRoof.

(** ** Names for control maps *)

(** [mapStateToName] and [pauseName] panic on any other transition. *)
Definition mapStateToName (t : Transition) : option string :=
  match t with
  | ToArtifactReboot_Enter | ToArtifactCommit_Enter => Some (transitionNames t)
  | ToArtifactInstall => Some "ArtifactInstall_Enter"
  | _ => None
  end.

Definition pauseName (t : Transition) : option string :=
  match t with
  | ToArtifactReboot_Enter => Some "pause_before_rebooting"
  | ToArtifactCommit_Enter => Some "pause_before_committing"
  | ToArtifactInstall => Some "pause_before_installing"
  | _ => None
  end.
