(* ===== verification/World.v ===== *)
(** * World: what the state machine runs in

    The state handlers talk to the outside (server, installers, scripts, clock,
    log files) through calls; the outside is an environment that answers each
    call and changes its own state ([Env]), so a theorem that holds for every
    environment holds whatever the outside does.  The rest of the world is the
    database (any [Store]), the [StateContext], the control map pool, the list
    of installers and the current state.

    The world also keeps a history, newest event first: every call with its
    answer and the database contents when it was made, and the contents after
    each database change.  It is not part of the program; a process that is
    killed leaves one of the recorded contents behind, so the history is what
    statements about crashes quantify over. *)

From S2P Require Import Prelude Store StateData Client ControlMap ControlMapPool States.

Open Scope Z_scope.

(** ** Configuration (conf/config.go) *)

Record Config := mkConfig {
  UpdatePollIntervalSeconds : Z;
  InventoryPollIntervalSeconds : Z;
  RetryPollIntervalSeconds : Z;
  RetryPollCount : Z;
  UpdateControlMapExpirationTimeSeconds : Z;
  UpdateControlMapBootExpirationTimeSeconds : Z
}.

Definition DefaultUpdateControlMapBootExpirationTimeSeconds : Z := 600.

Definition GetUpdateControlMapExpirationTimeSeconds (c : Config) : Z :=
  if UpdateControlMapExpirationTimeSeconds c =? 0
  then int64 (2 * UpdatePollIntervalSeconds c)
  else UpdateControlMapExpirationTimeSeconds c.

Definition GetUpdateControlMapBootExpirationTimeSeconds (c : Config) : Z :=
  if UpdateControlMapBootExpirationTimeSeconds c =? 0
  then DefaultUpdateControlMapBootExpirationTimeSeconds
  else UpdateControlMapBootExpirationTimeSeconds c.

Definition Minute : Z := 60 * ControlMap.Second.

(** Seconds to a duration, with a default for zero. *)
Definition seconds_or (seconds default : Z) : Z :=
  let t := int64 (seconds * ControlMap.Second) in
  if t =? 0 then default else t.

Definition GetUpdatePollInterval (c : Config) : Z :=
  seconds_or (UpdatePollIntervalSeconds c) (30 * Minute).
Definition GetInventoryPollInterval (c : Config) : Z :=
  seconds_or (InventoryPollIntervalSeconds c) (30 * Minute).
Definition GetRetryPollInterval (c : Config) : Z :=
  seconds_or (RetryPollIntervalSeconds c) (5 * Minute).
Definition GetRetryPollCount (c : Config) : Z := RetryPollCount c.

(** ** Calls *)

(** installer/installer.go; any other value is unknown to the client. *)
Inductive RebootAction : Type := NoReboot | RebootRequired | AutomaticReboot | UnknownReboot.

(** The operations of an installer that return only an error. *)
Inductive InstallerOp : Type :=
  | OpInstallUpdate
  | OpCommitUpdate
  | OpRollback
  | OpReboot
  | OpVerifyReboot
  | OpRollbackReboot
  | OpVerifyRollbackReboot
  | OpFailure
  | OpCleanup.

#[export] Instance InstallerOp_eq_dec : EqDecision InstallerOp.
Proof. solve_decision. Defined.

(** One dependency of an artifact, by its Go type: an element of
    [[]interface{}] that is not a string is [None]. *)
Inductive Depend : Type :=
  | DependInterfaces (l : list (option string))
  | DependStrings (l : list string)
  | DependString (s : string)
  | DependOther.

(** What the headers of an artifact say; the dependencies in the order the map
    is visited. *)
Record ArtifactHeaders := mkHeaders {
  GetArtifactName : string;
  GetCompatibleDevices : list string;
  GetArtifactDepends : result (option (list (string * Depend)));
  GetArtifactProvides : result (option (gmap string string));
  GetArtifactClearsProvides : option (list string)
}.

Inductive WaitOutcome : Type := WaitDone | WaitWakeup | WaitCancelled.

(** The artifact to report against while scripts run: deployment and status. *)
Definition StatusReportWrapper : Type := (string * string)%type.

Inductive Call : Type :=
  | CNow
  | CLogEnable (deploymentID : string)
  | CLogDisable
  | CGetLogs (deploymentID : string)
  | CReportStatus (deploymentID status : string)
  | CUploadLog (deploymentID logs : string)
  | CGetScheduledUpdate (artifact deviceType : string) (provides : gmap string string)
  | CGetUpdateControlMap (deploymentID : string)
  | CFetchUpdate (url : string) (maxWait : Z)
  | CClearAuthorization
  | CReadArtifactHeaders
  | CStorePayloads
  | CInstaller (n : nat) (op : InstallerOp)
  | CNeedsReboot (n : nat)
  | CSupportsRollback (n : nat)
  | CCreateInstallersFromList (payloadTypes : list string)
  | CSystemReboot
  | CExecuteAll (state action : string) (ignoreError : bool)
      (report : option StatusReportWrapper)
  | CCheckRootfsScriptsVersion
  | CGetDeviceType
  | CGetInventory
  | CSubmitInventory (deviceType artifactName : string)
  | CWait (duration : Z).

(** Answers: [option error] for a call that only fails or succeeds, an HTTP
    status code where the client interprets one; a
    system reboot that returns at all has failed (system/system.go).  The scheduled update comes as
    the pair Go returns: the update and control map that could be parsed, and the
    error.  Reading the headers also sets the list of installers, by type. *)
Definition answer (c : Call) : Type :=
  match c with
  | CNow => Z
  | CLogEnable _ | CLogDisable => option error
  | CGetLogs _ => result string
  | CReportStatus _ _ | CUploadLog _ _ => result Z
  | CGetScheduledUpdate _ _ _ =>
      option UpdateInfo * option ControlMap.UpdateControlMap * option error
  | CGetUpdateControlMap _ => result (option ControlMap.UpdateControlMap)
  | CFetchUpdate _ _ => option error
  | CClearAuthorization => unit
  | CReadArtifactHeaders => list string * result ArtifactHeaders
  | CStorePayloads => option error
  | CInstaller _ _ => option error
  | CNeedsReboot _ => result RebootAction
  | CSupportsRollback _ => result bool
  | CCreateInstallersFromList _ => list string * option error
  | CSystemReboot => error
  | CExecuteAll _ _ _ _ => option error
  | CCheckRootfsScriptsVersion => option error
  | CGetDeviceType => result string
  | CGetInventory => option error
  | CSubmitInventory _ _ => option error
  | CWait _ => WaitOutcome
  end.

Class Env (D : Type) := env_step : forall c : Call, D -> answer c * D.

(** ** The world *)

Inductive Event : Type :=
  | Ev (c : Call) (a : answer c) (db : gmap string string)
  | EvDB (db : gmap string string).

(** [StateContext]; times are in nanoseconds, 0 being the zero time. *)
Record StateContext := mkContext {
  lastUpdateCheckAttempt : Z;
  lastInventoryUpdateAttempt : Z;
  fetchInstallAttempts : Z;
  controlMapFetchAttempts : Z;
  inventoryUpdateAttempts : Z;
  nextAttemptAt : Z;
  pauseReported : gset string
}.

Definition empty_context : StateContext := mkContext 0 0 0 0 0 0 ∅.

Definition set_lastUpdateCheckAttempt v c := mkContext v (lastInventoryUpdateAttempt c)
  (fetchInstallAttempts c) (controlMapFetchAttempts c) (inventoryUpdateAttempts c)
  (nextAttemptAt c) (pauseReported c).
Definition set_lastInventoryUpdateAttempt v c := mkContext (lastUpdateCheckAttempt c) v
  (fetchInstallAttempts c) (controlMapFetchAttempts c) (inventoryUpdateAttempts c)
  (nextAttemptAt c) (pauseReported c).
Definition set_fetchInstallAttempts v c := mkContext (lastUpdateCheckAttempt c)
  (lastInventoryUpdateAttempt c) v (controlMapFetchAttempts c) (inventoryUpdateAttempts c)
  (nextAttemptAt c) (pauseReported c).
Definition set_controlMapFetchAttempts v c := mkContext (lastUpdateCheckAttempt c)
  (lastInventoryUpdateAttempt c) (fetchInstallAttempts c) v (inventoryUpdateAttempts c)
  (nextAttemptAt c) (pauseReported c).
Definition set_inventoryUpdateAttempts v c := mkContext (lastUpdateCheckAttempt c)
  (lastInventoryUpdateAttempt c) (fetchInstallAttempts c) (controlMapFetchAttempts c) v
  (nextAttemptAt c) (pauseReported c).
Definition set_nextAttemptAt v c := mkContext (lastUpdateCheckAttempt c)
  (lastInventoryUpdateAttempt c) (fetchInstallAttempts c) (controlMapFetchAttempts c)
  (inventoryUpdateAttempts c) v (pauseReported c).
Definition set_pauseReported v c := mkContext (lastUpdateCheckAttempt c)
  (lastInventoryUpdateAttempt c) (fetchInstallAttempts c) (controlMapFetchAttempts c)
  (inventoryUpdateAttempts c) (nextAttemptAt c) v.

Record World (DB D : Type) := mkWorld {
  w_db : DB;
  w_env : D;
  w_ctx : StateContext;
  w_pool : ControlMapPool;
  w_installers : list string;
  w_state : State;
  w_log : list Event
}.
Arguments mkWorld {DB D}.
Arguments w_db {DB D}.
Arguments w_env {DB D}.
Arguments w_ctx {DB D}.
Arguments w_pool {DB D}.
Arguments w_installers {DB D}.
Arguments w_state {DB D}.
Arguments w_log {DB D}.

(** ** The monad of handlers *)

Definition M (DB D A : Type) : Type := World DB D -> A * World DB D.

#[export] Instance M_ret DB D : MRet (M DB D) := fun A a w => (a, w).
#[export] Instance M_bind DB D : MBind (M DB D) := fun A B f m w =>
  let '(a, w) := m w in f a w.

Section operations.
Context {DB D : Type} `{StoreLaws DB} `{Env D}.

Notation M := (M DB D).

Definition db_contents (w : World DB D) : gmap string string := contents (w_db w).

Definition call (c : Call) : M (answer c) := fun w =>
  let '(a, d) := env_step c (w_env w) in
  (a, mkWorld (w_db w) d (w_ctx w) (w_pool w) (w_installers w) (w_state w)
        (Ev c a (db_contents w) :: w_log w)).

(** A store operation; the new contents go to the history. *)
Definition db_op {A} (f : DB -> A * DB) : M A := fun w =>
  let '(a, db) := f (w_db w) in
  (a, mkWorld db (w_env w) (w_ctx w) (w_pool w) (w_installers w) (w_state w)
        (EvDB (contents db) :: w_log w)).

Definition get_ctx : M StateContext := fun w => (w_ctx w, w).
Definition modify_ctx (f : StateContext -> StateContext) : M () := fun w =>
  ((), mkWorld (w_db w) (w_env w) (f (w_ctx w)) (w_pool w) (w_installers w) (w_state w)
         (w_log w)).

Definition get_pool : M ControlMapPool := fun w => (w_pool w, w).

(** A pool operation changes the pool and the store. *)
Definition pool_op {A} (f : ControlMapPool -> DB -> A * ControlMapPool * DB) : M A := fun w =>
  let '(a, pool, db) := f (w_pool w) (w_db w) in
  (a, mkWorld db (w_env w) (w_ctx w) pool (w_installers w) (w_state w)
        (EvDB (contents db) :: w_log w)).

Definition GetInstallers : M (list string) := fun w => (w_installers w, w).
Definition set_installers (l : list string) : M () := fun w =>
  ((), mkWorld (w_db w) (w_env w) (w_ctx w) (w_pool w) l (w_state w) (w_log w)).

(** [GetCurrentState] and [SetNextState]. *)
Definition GetCurrentState : M State := fun w => (w_state w, w).
Definition SetNextState (s : State) : M () := fun w =>
  ((), mkWorld (w_db w) (w_env w) (w_ctx w) (w_pool w) (w_installers w) s (w_log w)).

Definition now : M Z := call CNow.

(** Runs [f] on each index until one returns a result. *)
Fixpoint for_each {A} (l : list nat) (f : nat -> M (option A)) : M (option A) :=
  match l with
  | [] => mret None
  | n :: l =>
      r ← f n;
      match r with
      | Some a => mret (Some a)
      | None => for_each l f
      end
  end.

(** The indices of the installers. *)
Definition installer_indices : M (list nat) :=
  installers ← GetInstallers;
  mret (seq 0 (length installers)).
End operations.
