(* ===== verification/Controller.v ===== *)
(** * Controller: the methods of [Mender] the states call

    app/mender.go and device/device.go: reporting, checking for an update, the
    control maps, the inventory, the dependency check of an artifact, and the
    transitions' scripts (app/transition.go). *)

From S2P Require Import Prelude Store StateData DataStore Client ControlMap ControlMapPool.
From S2P Require Import States World.

Open Scope Z_scope.

(** ** Artifact dependencies (pure) *)

Definition errDependencyNotSatisfied (key : string) : error :=
  EText ("Artifact dependency " +:+ key +:+ " not satisfied by currently installed artifact").
Definition errInvalidDependsType (key : string) : error :=
  EText ("invalid type for dependency with name " +:+ key).

(** [utils.ElemInSlice] on a [[]interface{}]: an element of another type before
    the match is an error. *)
Fixpoint ElemInInterfaces (l : list (option string)) (elem : string) : result bool :=
  match l with
  | [] => Ok false
  | None :: _ => Err (EText "invalid type")
  | Some x :: l => if bool_decide (x = elem) then Ok true else ElemInInterfaces l elem
  end.

(** The switch on the type of a dependency. *)
Definition depend_satisfied (key : string) (depend : Depend) (p : string) : option error :=
  match depend with
  | DependInterfaces l =>
      match ElemInInterfaces l p with
      | Ok true => None
      | Ok false => Some (errDependencyNotSatisfied key)
      | Err _ => Some (errInvalidDependsType key)
      end
  | DependStrings l =>
      if ControlMap.ElemInSlice l p then None else Some (errDependencyNotSatisfied key)
  | DependString s =>
      if bool_decide (p = s) then None else Some (errDependencyNotSatisfied key)
  | DependOther => Some (errInvalidDependsType key)
  end.

(** The loop over the dependencies, in the order they are visited. *)
Fixpoint verifyArtifactDependencies (depends : list (string * Depend))
    (provides : gmap string string) : option error :=
  match depends with
  | [] => None
  | (key, depend) :: depends =>
      if bool_decide (key = "device_type") then verifyArtifactDependencies depends provides
      else match provides !! key with
           | Some p =>
               match depend_satisfied key depend p with
               | None => verifyArtifactDependencies depends provides
               | Some err => Some err
               end
           | None => Some (errDependencyNotSatisfied key)
           end
  end.

(** Which priorities the pool sorts first among equals is up to [sort.Slice]. *)
Class SortMaps := sort_maps :
  list ControlMap.UpdateControlMap -> list ControlMap.UpdateControlMap.

Section controller.
Context {DB D : Type} `{StoreLaws DB} `{Env D} `{SortMaps} (cfg : Config).

Notation M := (M DB D).

(** ** Database (device/device.go) *)

Definition db_read {A} (f : DB -> A) : M A := fun w => (f (w_db w), w).

Definition getValueFromDatabaseKey (key : string) : M (result string) :=
  r ← db_read (ReadAll key);
  mret match r with
       | Ok value => Ok value
       | Err err => if bool_decide (err <> ErrNotExist) then Err err else Ok EmptyString
       end.

Definition GetCurrentArtifactName : M (result string) :=
  getValueFromDatabaseKey ArtifactNameKey.

Definition GetProvides : M (gmap string string * option error) := db_op LoadProvides.

Definition RestoreInstallersFromTypeList (payloadTypes : list string) : M (option error) :=
  r ← call (CCreateInstallersFromList payloadTypes);
  let '(installers, err) := r : list string * option error in
  _ ← set_installers installers;
  mret err.

Definition ReadArtifactHeaders : M (result ArtifactHeaders) :=
  r ← call CReadArtifactHeaders;
  let '(installers, headers) := r : list string * result ArtifactHeaders in
  _ ← set_installers installers;
  mret headers.

(** ** Reports (app/mender.go) *)

Definition NewStatusReportWrapper (updateId : string) (stateId : MenderState) :
    StatusReportWrapper := (updateId, StateStatus stateId).

Definition ReportUpdateStatus (update : UpdateInfo) (status : string) :
    M (option menderError) :=
  r ← call (CReportStatus (ID update) status);
  mret match Report r with
       | None => None
       | Some err =>
           if bool_decide (Cause err = ErrDeploymentAborted) then Some (NewFatalError err)
           else Some (NewTransientError err)
       end.

Definition UploadLog (update : UpdateInfo) (logs : string) : M (option menderError) :=
  r ← call (CUploadLog (ID update) logs);
  mret match Upload r with
       | None => None
       | Some err => Some (NewTransientError err)
       end.

(** ** Control maps *)

Definition pool_change (f : Z -> ControlMapPool -> DB -> ControlMapPool * DB) : M () :=
  t ← now;
  pool_op (fun p db => let '(p, db) := f t p db in ((), p, db)).

(** A map without an identifier takes the deployment's. *)
Definition HandleControlMap (deploymentID : string)
    (updateControlMap : option ControlMap.UpdateControlMap) : M (option error) :=
  match updateControlMap with
  | Some cm =>
      if bool_decide (ControlMap.ID cm <> EmptyString)
         && bool_decide (ControlMap.ID cm <> deploymentID)
      then mret (Some (as_error (NewTransientError
                   (EText "Mismatched control map ID and deployment ID"))))
      else
        let cm := if bool_decide (ControlMap.ID cm <> EmptyString) then cm
                  else ControlMap.set_ID deploymentID cm in
        _ ← pool_change (fun t => InsertReplaceAllPriorities t
              (ControlMap.Stamp t (GetUpdateControlMapExpirationTimeSeconds cfg) cm));
        mret None
  | None =>
      _ ← pool_change (fun t => DeleteAllPriorities t deploymentID);
      mret None
  end.

Definition RefreshServerUpdateControlMap (deploymentID : string) : M (option error) :=
  r ← call (CGetUpdateControlMap deploymentID);
  match (r : result (option ControlMap.UpdateControlMap)) with
  | Err err => mret (Some err)
  | Ok cm => HandleControlMap deploymentID cm
  end.

Definition pool_query (f : Z -> ControlMapPool -> DB -> string * ControlMapPool * DB) :
    M string :=
  t ← now;
  pool_op (f t).

(** ** Checking for an update *)

Definition errArtifactNameEmpty : error := EText "artifact name is empty".

Definition CheckUpdate : M (option UpdateInfo * option menderError) :=
  name ← GetCurrentArtifactName;
  match match name with
        | Err err => Err err
        | Ok n => if bool_decide (n = EmptyString) then Err errArtifactNameEmpty else Ok n
        end with
  | Err _ => mret (None, Some (NewTransientError (EText "could not read the Artifact name")))
  | Ok currentArtifactName =>
      deviceType ← call CGetDeviceType;
      let deviceType := match deviceType with Ok d => d | Err _ => EmptyString end in
      provides ← GetProvides;
      let provides := provides.1 in
      r ← call (CGetScheduledUpdate currentArtifactName deviceType provides);
      let '(info, cm, err) := r : option UpdateInfo * option ControlMap.UpdateControlMap
                                  * option error in
      match err, info with
      | Some err, _ => mret (info, Some (NewTransientError err))
      | None, None => mret (None, None)
      | None, Some ur =>
          e ← HandleControlMap (ID ur) cm;
          match e with
          | Some err => mret (Some ur, Some (NewTransientError err))
          | None => mret (Some ur, None)
          end
      end
  end.

(** ** Inventory *)

Definition InventoryRefresh : M (option error) :=
  name ← GetCurrentArtifactName;
  match match name with
        | Err err => Err err
        | Ok n => if bool_decide (n = EmptyString) then Err errArtifactNameEmpty else Ok n
        end with
  | Err _ => mret (Some (EWrap "could not read the artifact name" errNoArtifactName))
  | Ok artifactName =>
      _ ← call CGetInventory;
      deviceType ← call CGetDeviceType;
      let deviceType := match deviceType with Ok d => d | Err _ => EmptyString end in
      err ← call (CSubmitInventory deviceType artifactName);
      mret match (err : option error) with
           | Some err => Some (EWrap "failed to submit inventory data" err)
           | None => None
           end
  end.

Definition verifyAndSetArtifactNameInProvides (provides : gmap string string) :
    M (gmap string string * option error) :=
  match provides !! "artifact_name" with
  | Some _ => mret (provides, None)
  | None =>
      name ← GetCurrentArtifactName;
      mret match name with
           | Err err => (provides, Some err)
           | Ok n =>
               if bool_decide (n = EmptyString) then (provides, Some errArtifactNameEmpty)
               else (<["artifact_name" := n]> provides, None)
           end
  end.

(** ** Scripts of a transition (app/transition.go) *)

(** [ExecuteAll] for one of the three actions; nothing to run for [ToNone] nor
    for the half of a split state that has no such action. *)
Definition run_scripts (t : Transition) (action : string) (ignoreError : bool)
    (report : option StatusReportWrapper) : M (option error) :=
  if bool_decide (t = ToNone) then mret None
  else
    let name := getName t action in
    if bool_decide (name = EmptyString) then mret None
    else
      err ← call (CExecuteAll name action ignoreError report);
      mret match (err : option error) with
           | Some err => Some (EWrap ("error running " +:+ action +:+ " state script(s)") err)
           | None => None
           end.

Definition Transition_Enter (t : Transition) (report : option StatusReportWrapper) :
    M (option error) := run_scripts t "Enter" (ignoreErrors t "Enter") report.
Definition Transition_Leave (t : Transition) (report : option StatusReportWrapper) :
    M (option error) := run_scripts t "Leave" (ignoreErrors t "Leave") report.
Definition Transition_Error (t : Transition) (report : option StatusReportWrapper) :
    M (option error) := run_scripts t "Error" true report.

(** ** Logs *)

Definition DeploymentLogger_Enable (deploymentID : string) : M (option error) :=
  call (CLogEnable deploymentID).
Definition DeploymentLogger_Disable : M (option error) := call CLogDisable.

(** ** Helpers of app/state.go *)

Definition RemoveStateData : M (option error) := db_op (Remove StateDataKey).

Definition BrokenArtifactSuffix : string := "_INCONSISTENT".

Definition setBrokenArtifactFlag (artName : string) : M () :=
  _ ← db_op (WriteAll ArtifactNameKey (artName +:+ BrokenArtifactSuffix));
  mret ().

(** Returns the new state, unless the store count is exceeded. *)
Definition handleStateDataError (newState : State) (cancelled : bool) (update : UpdateInfo)
    (err : error) : M (State * bool) :=
  if bool_decide (err = MaximumStateDataStoreCountExceeded) then
    _ ← setBrokenArtifactFlag (ArtifactName (artifact update));
    mret (NewUpdateStatusReportState update StatusFailure, false)
  else mret (newState, cancelled).

(** The count of tries goes to the persisted update while attempts fail; returns
    the update and the counter as they are afterwards. *)
Definition sendDeploymentStatus (update : UpdateInfo) (status : string) (tries : Z) :
    M (UpdateInfo * Z * option menderError) :=
  let tries := int64 (tries + 1) in
  err ← ReportUpdateStatus update status;
  mret match err with
       | Some err => (set_StatusReportRetryAttempts tries update, tries, Some err)
       | None => (set_StatusReportRetryAttempts 0 update, tries, None)
       end.

Definition sendDeploymentLogs (update : UpdateInfo) (sentTries : Z) :
    M (Z * option menderError) :=
  logs ← call (CGetLogs (ID update));
  match (logs : result string) with
  | Err _ => mret (sentTries, Some (NewFatalError (EText "can not get deployment logs from file")))
  | Ok logs =>
      let sentTries := int64 (sentTries + 1) in
      err ← UploadLog update logs;
      mret match err with
           | Some err =>
               (sentTries, Some (NewTransientError
                  (EWrap "failed to send deployment logs" (as_error err))))
           | None => (sentTries, None)
           end
  end.
End controller.
