(* ===== verification/Handlers.v ===== *)
(** * Handlers: what each state does (app/state.go)

    [HandleError] and [Handle] of every state, as programs of the monad of
    [World].  A state is a mutable object in the source: a handler that changes
    its own fields stores the changed state back as the current one
    ([SetNextState]), which is what the next transition leaves from.

    A panic of the source ends the process; here it returns with the
    cancelled flag set, which ends the daemon loop too. *)

From S2P Require Import Prelude Store StateData DataStore Client ControlMap ControlMapPool.
From S2P Require Import States World Controller.

Open Scope Z_scope.

Section handlers.
Context {DB D : Type} `{StoreLaws DB} `{Env D} `{SortMaps} (cfg : Config).

Notation M := (M DB D).
Notation Handler := (M (State * bool)).

Definition next (s : State) : Handler := mret (s, false).

Definition store_state (name : MenderState) (u : UpdateInfo) (incStoreCount : bool) :
    M (option error) :=
  db_op (fun db => StoreStateData db (mkStateData 0 name u) incStoreCount).

(** ** Error handling *)

(** [updateState.HandleError], inherited by most update states. *)
Definition updateState_HandleError (u : UpdateInfo) (err : menderError) : Handler :=
  if bool_decide (SupportsRollback u = RollbackSupported) then next (updateRollbackState u)
  else
    _ ← setBrokenArtifactFlag (ArtifactName (artifact u));
    next (updateErrorState err u).

(** [HandleError] of a state after the first commit. *)
Definition committed_HandleError (u : UpdateInfo) : Handler :=
  _ ← setBrokenArtifactFlag (ArtifactName (artifact u));
  next (NewUpdateCleanupState u StatusFailure).

Definition HandleError (s : State) (err : menderError) : Handler :=
  match s with
  | updateFetchState u => next (updateErrorState err u)
  | updateStoreState u => next (NewUpdateCleanupState u StatusFailure)
  | updateAfterStoreState u => next (NewUpdateCleanupState u StatusFailure)
  | updateAfterFirstCommitState u => committed_HandleError u
  | updateAfterCommitState u => committed_HandleError u
  | updateRollbackState u =>
      _ ← setBrokenArtifactFlag (ArtifactName (artifact u));
      next (updateErrorState err u)
  | updateRollbackRebootState u => next (updateVerifyRollbackRebootState u)
  | updateVerifyRollbackRebootState u => next (updateRollbackRebootState u)
  | updateInstallState u
  | updateCommitState u _
  | updateCleanupState _ u _
  | updateStatusReportState u _ _ _
  | updateRebootPauseRequestedState u
  | updateRebootState u
  | updateVerifyRebootState u
  | updateAfterRebootState u
  | updateAfterRollbackRebootState u => updateState_HandleError u err
  | _ => next (errorState err)
  end.

Definition is_fatal (merr : option menderError) : bool :=
  match merr with Some e => fatal e | None => false end.

(** ** Waiting *)

Definition Wait (nextState same : State) (wait : Z) : Handler :=
  o ← call (CWait wait);
  mret match (o : WaitOutcome) with
       | WaitDone | WaitWakeup => (nextState, false)
       | WaitCancelled => (same, true)
       end.

(** The states built without a cancel channel cannot be cancelled. *)
Definition Wait_no_cancel (nextState : State) (wait : Z) : Handler :=
  _ ← call (CWait wait);
  next nextState.

Definition MultiplexWait (timerState wakeupState : State) (wait : Z) : Handler :=
  o ← call (CWait wait);
  mret match (o : WaitOutcome) with
       | WaitDone => (timerState, false)
       | WaitWakeup => (wakeupState, false)
       | WaitCancelled => (timerState, true)
       end.

(** ** Idle, start-up and recovery *)

Definition idle_Handle : Handler :=
  _ ← DeploymentLogger_Disable;
  _ ← RemoveStateData;
  _ ← pool_change ClearExpired;
  next checkWaitState.

(** Where an interrupted update continues. *)
Definition getNextState (sd : StateData) (maybeErr : menderError) : Handler :=
  let u := updateInfo sd in
  match Name sd with
  | MenderStateUpdateFetch =>
      err ← RemoveStateData;
      match err with
      | Some err => next (errorState (NewFatalError err))
      | None => next idleState
      end
  | MenderStateUpdateStore
  | MenderStateUpdateAfterStore => next (NewUpdateCleanupState u StatusFailure)
  | MenderStateReboot => next (updateVerifyRebootState u)
  | MenderStateRollbackReboot
  | MenderStateVerifyRollbackReboot
  | MenderStateAfterRollbackReboot => next (updateVerifyRollbackRebootState u)
  | MenderStateUpdateAfterFirstCommit => next (updateAfterFirstCommitState u)
  | MenderStateUpdateAfterCommit => next (updateAfterCommitState u)
  | MenderStateUpdateError => next (updateErrorState maybeErr u)
  | MenderStateUpdateCleanup => next (NewUpdateCleanupState u StatusFailure)
  | MenderStateUpdateStatusReport
  | MenderStateStatusReportRetry => next (newResumedUpdateStatusReportState u StatusFailure)
  | MenderStateReportStatusError => next idleState
  | _ => updateState_HandleError u maybeErr
  end.

Definition init_Handle : Handler :=
  r ← db_op LoadStateData;
  let '(sd, sdErr) := r : StateData * option error in
  match sdErr with
  | Some err =>
      if IsNotExist err then next idleState
      else if bool_decide (err <> MaximumStateDataStoreCountExceeded) then
        next (updateErrorState (NewFatalError (EWrap "failed to restore state data" err))
                (set_ID "unknown" no_UpdateInfo))
      else
        _ ← DeploymentLogger_Enable (ID (updateInfo sd));
        handleStateDataError finalState false (updateInfo sd) err
  | None =>
      _ ← DeploymentLogger_Enable (ID (updateInfo sd));
      err ← RestoreInstallersFromTypeList (PayloadTypes (artifact (updateInfo sd)));
      match err with
      | Some _ => next (NewUpdateStatusReportState (updateInfo sd) StatusFailure)
      | None =>
          getNextState sd (NewFatalError
            (EText ("Mender shut down in state: " +:+ stateNames (Name sd))))
      end
  end.

(** ** Commit *)

Variable StringsMatchingWildcards : list string -> list string -> result (list string).

(** Stores the state together with the new artifact's name and provides. *)
Definition commit_store (u : UpdateInfo) : M (option error) :=
  db_op (fun db => StoreStateDataAndTransaction db
    (mkStateData 0 MenderStateUpdateCommit u) true
    (Some (CommitArtifactData StringsMatchingWildcards
      (ArtifactName (artifact u)) (ArtifactGroup (artifact u))
      (TypeInfoProvides (artifact u)) (ClearsArtifactProvides (artifact u))))).

Definition updateCommit_Handle (u : UpdateInfo) (reportTries : Z) : Handler :=
  _ ← DeploymentLogger_Enable (ID u);
  err ← call CCheckRootfsScriptsVersion;
  match (err : option error) with
  | Some _ =>
      HandleError (updateCommitState u reportTries)
        (NewTransientError (EText "update commit failed"))
  | None =>
      _ ← call CClearAuthorization;
      r ← sendDeploymentStatus u StatusInstalling reportTries;
      let '(u, reportTries, merr) := r in
      let self := updateCommitState u reportTries in
      _ ← SetNextState self;
      match merr with
      | Some merr =>
          if fatal merr then HandleError self merr
          else next (updatePreCommitStatusReportRetryState self reportTries)
      | None =>
          installers ← GetInstallers;
          err ← match installers with
                | [] => mret None
                | _ => call (CInstaller 0 OpCommitUpdate)
                end;
          match (err : option error) with
          | Some _ => HandleError self (NewTransientError (EText "update commit failed"))
          | None =>
              let u := set_HasDBSchemaUpdate false u in
              _ ← SetNextState (updateCommitState u reportTries);
              err ← commit_store u;
              match err with
              | Some err =>
                  handleStateDataError (updateErrorState (NewTransientError err) u) false u err
              | None => next (updateAfterFirstCommitState u)
              end
          end
      end
  end.

Definition max_tries : Z :=
  maxSendingAttempts (GetUpdatePollInterval cfg) (GetRetryPollInterval cfg)
    minReportSendRetries + 1.

Definition updatePreCommitStatusReportRetry_Handle (returnToState : State) (reportTries : Z) :
    Handler :=
  if reportTries <? max_tries then Wait_no_cancel returnToState (GetRetryPollInterval cfg)
  else HandleError returnToState
         (NewTransientError (EText "Tried sending status report maximum number of times.")).

(** Commits the remaining payloads, all of them even after an error. *)
Fixpoint commit_rest (l : list nat) (firstErr : option error) : M (option error) :=
  match l with
  | [] => mret firstErr
  | n :: l =>
      err ← call (CInstaller n OpCommitUpdate);
      commit_rest l match firstErr with None => err | Some _ => firstErr end
  end.

Definition updateAfterFirstCommit_Handle (u : UpdateInfo) : Handler :=
  l ← installer_indices;
  firstErr ← commit_rest (tail l) None;
  match firstErr with
  | Some _ =>
      HandleError (updateAfterFirstCommitState u) (NewTransientError (EText "update commit failed"))
  | None => next (updateAfterCommitState u)
  end.

Definition updateAfterCommit_Handle (u : UpdateInfo) : Handler :=
  next (NewUpdateCleanupState u StatusSuccess).

(** ** Check and fetch *)

Definition updateCheck_Handle : Handler :=
  r ← CheckUpdate cfg;
  let '(update, err) := r in
  match err with
  | Some err =>
      if error_Is (as_error err) ErrNoDeploymentAvailable then next checkWaitState
      else match update with
           | Some update =>
               _ ← DeploymentLogger_Enable (ID update);
               next (NewUpdateStatusReportState update StatusFailure)
           | None => next (errorState err)
           end
  | None =>
      match update with
      | Some update => next (updateFetchState update)
      | None => next checkWaitState
      end
  end.

Definition updateFetch_Handle (u : UpdateInfo) : Handler :=
  err ← DeploymentLogger_Enable (ID u);
  match err with
  | Some _ => next (NewUpdateStatusReportState u StatusFailure)
  | None =>
      merr ← ReportUpdateStatus u StatusDownloading;
      if is_fatal merr then next (NewUpdateStatusReportState u StatusFailure)
      else
        err ← call (CFetchUpdate (Source_URI (artifact u)) (GetRetryPollInterval cfg));
        match (err : option error) with
        | Some err => next (fetchStoreRetryState u (Some err))
        | None => next (updateStoreState u)
        end
  end.
End handlers.

Section install_handlers.
Context {DB D : Type} `{StoreLaws DB} `{Env D} `{SortMaps} (cfg : Config).

Notation M := (M DB D).
Notation Handler := (M (State * bool)).

(** ** Download *)

Definition verifyUpdateResponseAndHeader (u : UpdateInfo) (installer : ArtifactHeaders) :
    option error :=
  if bool_decide (GetArtifactName installer <> ArtifactName (artifact u))
  then Some (EText "Artifact name in artifact is not what the server claims")
  else if forallb (fun rspDev => existsb (String.eqb rspDev) (GetCompatibleDevices installer))
            (CompatibleDevices (artifact u))
  then None
  else Some (EText "Compatible devices in artifact is not what the server claims").

(** The dependencies of the artifact against what is installed. *)
Definition check_depends (installer : ArtifactHeaders) : M (option error) :=
  match GetArtifactDepends installer with
  | Err _ | Ok None => mret None
  | Ok (Some depends) =>
      r ← db_op LoadProvides;
      let '(provides, err) := r : gmap string string * option error in
      match err with
      | Some err => mret (Some err)
      | None =>
          r ← verifyAndSetArtifactNameInProvides provides;
          let '(provides, err) := r : gmap string string * option error in
          match err with
          | Some err => mret (Some err)
          | None => mret (verifyArtifactDependencies depends provides)
          end
      end
  end.

(** The provides of the artifact go to the update; an artifact that provides
    no name is let through as it is (the error returned there is nil). *)
Definition take_provides (u : UpdateInfo) (installer : ArtifactHeaders) :
    UpdateInfo * option error :=
  let finish u := (set_Artifact (set_ClearsArtifactProvides
                     (GetArtifactClearsProvides installer) (artifact u)) u, None) in
  match GetArtifactProvides installer with
  | Err err => (u, Some err)
  | Ok None => finish u
  | Ok (Some provides) =>
      match provides !! "artifact_name" with
      | None => (u, None)
      | Some _ =>
          let provides := delete "artifact_name" provides in
          let '(u, provides) :=
            match provides !! "artifact_group" with
            | Some grp => (set_Artifact (set_ArtifactGroup grp (artifact u)) u,
                           delete "artifact_group" provides)
            | None => (u, provides)
            end in
          finish (set_Artifact (set_TypeInfoProvides (Some provides) (artifact u)) u)
      end
  end.

Definition maybeVerifyArtifactDependsAndProvides (u : UpdateInfo)
    (installer : ArtifactHeaders) : M (UpdateInfo * option error) :=
  err ← check_depends installer;
  match err with
  | Some err => mret (u, Some err)
  | None => mret (take_provides u installer)
  end.

Fixpoint supports_rollback_loop (l : list nat) (u : UpdateInfo) :
    M (UpdateInfo * option error) :=
  match l with
  | [] => mret (u, None)
  | n :: l =>
      r ← call (CSupportsRollback n);
      match (r : result bool) with
      | Err err => mret (u, Some err)
      | Ok b =>
          match SupportsRollback_Set (if b then RollbackSupported else RollbackNotSupported)
                  (SupportsRollback u) with
          | Err err => mret (u, Some err)
          | Ok s => supports_rollback_loop l (set_SupportsRollback s u)
          end
      end
  end.

(** [None]: carry on; otherwise the state to go to. *)
Definition handleSupportsRollback (u : UpdateInfo) :
    M (UpdateInfo * option (State * bool)) :=
  l ← installer_indices;
  r ← supports_rollback_loop l u;
  let '(u, err) := r in
  _ ← SetNextState (updateStoreState u);
  match err with
  | Some err => mret (u, Some (updateErrorState (NewTransientError err) u, false))
  | None =>
      err ← store_state MenderStateUpdateStore u true;
      match err with
      | Some err =>
          s ← handleStateDataError (updateErrorState (NewTransientError err) u) false u err;
          mret (u, Some s)
      | None => mret (u, None)
      end
  end.

Definition updateStore_Handle (u : UpdateInfo) : Handler :=
  err ← DeploymentLogger_Enable (ID u);
  match err with
  | Some _ => next (NewUpdateStatusReportState u StatusFailure)
  | None =>
  merr ← ReportUpdateStatus u StatusDownloading;
  if is_fatal merr then next (NewUpdateStatusReportState u StatusFailure) else
  r ← ReadArtifactHeaders;
  match r with
  | Err _ => next (NewUpdateCleanupState u StatusFailure)
  | Ok installer =>
  installers ← GetInstallers;
  let u := set_Artifact (set_PayloadTypes installers (artifact u)) u in
  _ ← SetNextState (updateStoreState u);
  match verifyUpdateResponseAndHeader u installer with
  | Some _ => next (NewUpdateStatusReportState u StatusFailure)
  | None =>
  r ← maybeVerifyArtifactDependsAndProvides u installer;
  let '(u, err) := r in
  _ ← SetNextState (updateStoreState u);
  match err with
  | Some _ => next (NewUpdateStatusReportState u StatusFailure)
  | None =>
  err ← store_state MenderStateUpdateStore u true;
  match err with
  | Some err => handleStateDataError (NewUpdateCleanupState u StatusFailure) false u err
  | None =>
  err ← call CStorePayloads;
  match (err : option error) with
  | Some _ => next (NewUpdateCleanupState u StatusFailure)
  | None =>
  r ← handleSupportsRollback u;
  let '(u, out) := r in
  match out with
  | Some s => mret s
  | None =>
  _ ← modify_ctx (set_fetchInstallAttempts 0);
  merr ← ReportUpdateStatus u StatusDownloading;
  match merr with
  | Some e => if fatal e then next (updateErrorState e u) else next (updateAfterStoreState u)
  | None => next (updateAfterStoreState u)
  end
  end end end end end end end.

Definition updateAfterStore_Handle (u : UpdateInfo) : Handler :=
  next (fetchControlMapState (updateInstallState u) None).

(** ** Install *)

(** Runs an operation of each installer, stopping at the first error. *)
Definition for_installers (op : InstallerOp) : M (option error) :=
  l ← installer_indices;
  for_each l (fun n => call (CInstaller n op)).

Definition reboot_type (a : RebootAction) : option string :=
  match a with
  | NoReboot => Some RebootTypeNone
  | RebootRequired => Some RebootTypeCustom
  | AutomaticReboot => Some RebootTypeAutomatic
  | UnknownReboot => None
  end.

Fixpoint reboot_type_loop (l : list nat) (u : UpdateInfo) :
    M (UpdateInfo * option menderError) :=
  match l with
  | [] => mret (u, None)
  | n :: l =>
      r ← call (CNeedsReboot n);
      match (r : result RebootAction) with
      | Err err => mret (u, Some (NewTransientError err))
      | Ok needsReboot =>
          match reboot_type needsReboot with
          | None => mret (u, Some (NewFatalError
                      (EText "Unknown reply from NeedsReboot. Should not happen")))
          | Some t =>
              match RebootRequested_Set n t (RebootRequested u) with
              | Err err => mret (u, Some (NewTransientError
                             (EWrap "Unable to store requested reboot type" err)))
              | Ok r => reboot_type_loop l (set_RebootRequested r u)
              end
          end
      end
  end.

Definition handleRebootType (u : UpdateInfo) : M (UpdateInfo * option (State * bool)) :=
  l ← installer_indices;
  r ← reboot_type_loop l u;
  let '(u, merr) := r in
  let self := updateInstallState u in
  _ ← SetNextState self;
  match merr with
  | Some merr => s ← HandleError self merr; mret (u, Some s)
  | None =>
      err ← store_state MenderStateUpdateInstall u true;
      match err with
      | Some err =>
          s ← HandleError self (NewTransientError err);
          let '(state, cancelled) := s in
          s ← handleStateDataError state cancelled u err;
          mret (u, Some s)
      | None => mret (u, None)
      end
  end.

Definition createRebootState (u : UpdateInfo) : State :=
  fetchControlMapState (updateRebootState u) (Some (updateRebootPauseRequestedState u)).

(** The first payload that asks for a reboot decides; the error of [Get] comes
    from a missing or corrupt entry. *)
Fixpoint first_reboot (l : list nat) (r : list string) : result bool :=
  match l with
  | [] => Ok false
  | n :: l =>
      t ← RebootRequested_Get n r;
      if bool_decide (t = RebootTypeNone) then first_reboot l r else Ok true
  end.

Definition updateInstall_Handle (u : UpdateInfo) : Handler :=
  let self := updateInstallState u in
  err ← DeploymentLogger_Enable (ID u);
  match err with
  | Some err => next (updateErrorState (NewTransientError err) u)
  | None =>
  merr ← ReportUpdateStatus u StatusInstalling;
  match match merr with Some e => if fatal e then Some e else None | None => None end with
  | Some e => HandleError self e
  | None =>
  err ← for_installers OpInstallUpdate;
  match err with
  | Some err => HandleError self (NewTransientError err)
  | None =>
  r ← handleRebootType u;
  let '(u, out) := r in
  match out with
  | Some s => mret s
  | None =>
  l ← installer_indices;
  match first_reboot l (RebootRequested u) with
  | Err err => HandleError (updateInstallState u) (NewTransientError
                 (EWrap "Unable to get requested reboot type" err))
  | Ok true => next (createRebootState u)
  | Ok false => next (fetchControlMapState (NewUpdateCommitState u) None)
  end
  end end end end.

Definition fetchStoreRetry_Handle (u : UpdateInfo) (ferr : option error) : Handler :=
  ctx ← get_ctx;
  match GetExponentialBackoffTime (fetchInstallAttempts ctx) (GetUpdatePollInterval cfg)
          (GetRetryPollCount cfg) with
  | Err err =>
      next (updateErrorState (NewTransientError
        match ferr with Some e => EWrap "Tried maximum amount of times" e | None => err end) u)
  | Ok intvl =>
      _ ← modify_ctx (set_fetchInstallAttempts (int64 (fetchInstallAttempts ctx + 1)));
      Wait (updateFetchState u) (fetchStoreRetryState u ferr) intvl
  end.

(** ** Reboot *)

(** The reboot requests of the payloads, in order: a custom reboot is made at
    once ([custom]), an automatic one is remembered. *)
Fixpoint reboot_loop (custom : nat -> M (option (State * bool)))
    (bad : error -> Handler) (l : list nat) (r : list string) (systemRebootRequested : bool) :
    M (bool + (State * bool)) :=
  match l with
  | [] => mret (inl systemRebootRequested)
  | n :: l =>
      match RebootRequested_Get n r with
      | Err err => s ← bad err; mret (inr s)
      | Ok t =>
          if bool_decide (t = RebootTypeCustom) then
            out ← custom n;
            match out with
            | Some s => mret (inr s)
            | None => reboot_loop custom bad l r systemRebootRequested
            end
          else
            reboot_loop custom bad l r
              (systemRebootRequested || bool_decide (t = RebootTypeAutomatic))
      end
  end.

Definition could_not_reboot (err : error) : menderError :=
  NewTransientError (EWrap "Could not reboot host" err).

Definition updateReboot_Handle (u : UpdateInfo) : Handler :=
  let self := updateRebootState u in
  _ ← DeploymentLogger_Enable (ID u);
  merr ← ReportUpdateStatus u StatusRebooting;
  if is_fatal merr then next (updateRollbackState u) else
  l ← installer_indices;
  r ← reboot_loop
    (fun n => err ← call (CInstaller n OpReboot);
              match (err : option error) with
              | Some _ => mret (Some (updateRollbackState u, false))
              | None => mret None
              end)
    (fun err => HandleError self (NewTransientError
                  (EWrap "Unable to get requested reboot type" err)))
    l (RebootRequested u) false;
  match r with
  | inr s => mret s
  | inl true =>
      err ← call CSystemReboot;
      HandleError self (could_not_reboot err)
  | inl false => next (updateVerifyRebootState u)
  end.

Definition updateVerifyReboot_Handle (u : UpdateInfo) : Handler :=
  err ← for_installers OpVerifyReboot;
  match err with
  | Some err => HandleError (updateVerifyRebootState u) (NewTransientError err)
  | None => next (updateAfterRebootState u)
  end.

Definition updateAfterReboot_Handle (u : UpdateInfo) : Handler :=
  _ ← DeploymentLogger_Enable (ID u);
  next (fetchControlMapState (NewUpdateCommitState u) None).

Definition updateRebootPauseRequested_Handle (u : UpdateInfo) : Handler :=
  next (controlMapState (updateRebootState u) None).

(** ** Rollback *)

(** Asks the modules again, unless a reboot is already requested; errors are
    only logged. *)
Fixpoint queryUpdateModuleReboot (l : list nat) (u : UpdateInfo) : M UpdateInfo :=
  match l with
  | [] => mret u
  | n :: l =>
      let v := match RebootRequested_Get n (RebootRequested u) with
               | Ok v => v
               | Err _ => RebootTypeNone
               end in
      if bool_decide (v = RebootTypeAutomatic) || bool_decide (v = RebootTypeCustom)
      then queryUpdateModuleReboot l u
      else
        r ← call (CNeedsReboot n);
        let u := match (r : result RebootAction) with
                 | Err _ => u
                 | Ok needsReboot =>
                     match reboot_type needsReboot with
                     | None => u
                     | Some t =>
                         match RebootRequested_Set n t (RebootRequested u) with
                         | Ok r => set_RebootRequested r u
                         | Err _ => u
                         end
                     end
                 end in
        queryUpdateModuleReboot l u
  end.

(** A missing or corrupt entry counts as no reboot. *)
Definition any_reboot (l : list nat) (r : list string) : bool :=
  existsb (fun n => match RebootRequested_Get n r with
                    | Ok t => negb (bool_decide (t = RebootTypeNone))
                    | Err _ => false
                    end) l.

Definition updateRollback_Handle (u : UpdateInfo) : Handler :=
  _ ← DeploymentLogger_Enable (ID u);
  err ← for_installers OpRollback;
  match err with
  | Some err => HandleError (updateRollbackState u) (NewFatalError err)
  | None =>
      l ← installer_indices;
      u ← queryUpdateModuleReboot l u;
      _ ← SetNextState (updateRollbackState u);
      if any_reboot l (RebootRequested u) then next (updateRollbackRebootState u)
      else next (updateErrorState (NewTransientError (EText "update error")) u)
  end.

Definition updateRollbackReboot_Handle (u : UpdateInfo) : Handler :=
  let self := updateRollbackRebootState u in
  _ ← DeploymentLogger_Enable (ID u);
  l ← installer_indices;
  r ← reboot_loop
    (fun n => _ ← call (CInstaller n OpRollbackReboot); mret None)
    (fun err => HandleError self (NewTransientError
                  (EWrap "Unable to get requested reboot type" err)))
    l (RebootRequested u) false;
  match r with
  | inr s => mret s
  | inl true =>
      err ← call CSystemReboot;
      HandleError self (could_not_reboot err)
  | inl false => next (updateVerifyRollbackRebootState u)
  end.

Definition updateVerifyRollbackReboot_Handle (u : UpdateInfo) : Handler :=
  err ← for_installers OpVerifyRollbackReboot;
  match err with
  | Some err => HandleError (updateVerifyRollbackRebootState u) (NewTransientError err)
  | None => next (updateAfterRollbackRebootState u)
  end.

Definition updateAfterRollbackReboot_Handle (u : UpdateInfo) : Handler :=
  _ ← DeploymentLogger_Enable (ID u);
  next (updateErrorState (NewTransientError (EText "update error")) u).
End install_handlers.

Section other_handlers.
Context {DB D : Type} `{StoreLaws DB} `{Env D} `{SortMaps} (cfg : Config).

Notation M := (M DB D).
Notation Handler := (M (State * bool)).

(** ** Errors and cleanup *)

Definition errorState_Handle (e : menderError) : Handler :=
  _ ← DeploymentLogger_Disable;
  if fatal e then next finalState else next idleState.

(** Runs an operation of every installer; the last error. *)
Fixpoint run_all (op : InstallerOp) (l : list nat) (lastError : option error) :
    M (option error) :=
  match l with
  | [] => mret lastError
  | n :: l =>
      err ← call (CInstaller n op);
      run_all op l match (err : option error) with Some e => Some e | None => lastError end
  end.

Definition updateError_Handle (u : UpdateInfo) : Handler :=
  l ← installer_indices;
  _ ← run_all OpFailure l None;
  next (NewUpdateCleanupState u StatusFailure).

Definition updateCleanup_Handle (t : Transition) (u : UpdateInfo) (status : string) : Handler :=
  _ ← DeploymentLogger_Enable (ID u);
  l ← installer_indices;
  lastError ← run_all OpCleanup l None;
  let status := match lastError with Some _ => StatusFailure | None => status end in
  _ ← SetNextState (updateCleanupState t u status);
  _ ← pool_change (fun t => DeleteAllPriorities t (ID u));
  _ ← modify_ctx (set_lastInventoryUpdateAttempt 0);
  _ ← modify_ctx (set_pauseReported ∅);
  next (NewUpdateStatusReportState u status).

(** ** Final status report *)

Definition updateStatusReport_Handle (u : UpdateInfo) (status : string)
    (triesSendingReport triesSendingLogs : Z) : Handler :=
  _ ← DeploymentLogger_Enable (ID u);
  r ← sendDeploymentStatus u status triesSendingReport;
  let '(u, triesSendingReport, err) := r in
  let self := updateStatusReportState u status triesSendingReport triesSendingLogs in
  _ ← SetNextState self;
  match err with
  | Some err =>
      if fatal err then next idleState
      else next (updateStatusReportRetryState self u status triesSendingReport)
  | None =>
      r ← (if bool_decide (status = StatusFailure)
           then sendDeploymentLogs u triesSendingLogs
           else mret (triesSendingLogs, None));
      let '(triesSendingLogs, err) := r : Z * option menderError in
      let self := updateStatusReportState u status triesSendingReport triesSendingLogs in
      _ ← SetNextState self;
      match err with
      | Some err =>
          if fatal err then next idleState
          else next (updateStatusReportRetryState self u status triesSendingLogs)
      | None =>
          _ ← DeploymentLogger_Disable;
          next idleState
      end
  end.

Definition updateStatusReportRetry_Handle (self reportState : State) (triesSending : Z) :
    Handler :=
  if triesSending <? max_tries cfg
  then Wait reportState self (GetRetryPollInterval cfg)
  else next idleState.

(** ** Inventory and waiting for the next check *)

Definition inventoryUpdateRetry_Handle (self : State) : Handler :=
  ctx ← get_ctx;
  t ← now;
  if t <? nextAttemptAt ctx then
    t ← now;
    Wait inventoryUpdateState self (Z.min (nextAttemptAt ctx - t) (GetRetryPollInterval cfg))
  else
    err ← InventoryRefresh;
    match err with
    | None => next checkWaitState
    | Some err =>
        if bool_decide (Cause err = errNoArtifactName)
        then next (errorState (NewTransientError err))
        else
          let r := GetExponentialBackoffTime (inventoryUpdateAttempts ctx)
                     (GetRetryPollInterval cfg) (GetRetryPollCount cfg) in
          let interval := match r with Ok i => i | Err _ => 0 end in
          t ← now;
          _ ← modify_ctx (set_nextAttemptAt (t + interval));
          match r with
          | Err _ => next checkWaitState
          | Ok interval =>
              _ ← modify_ctx (set_inventoryUpdateAttempts
                                (int64 (inventoryUpdateAttempts ctx + 1)));
              Wait inventoryUpdateState self (Z.min interval (GetRetryPollInterval cfg))
          end
    end.

Definition checkWait_Handle : Handler :=
  ctx ← get_ctx;
  if lastInventoryUpdateAttempt ctx =? 0 then next inventoryUpdateState
  else
    let nextUpdateCheck := lastUpdateCheckAttempt ctx + GetUpdatePollInterval cfg in
    let nextInventoryCheck := lastInventoryUpdateAttempt ctx + GetInventoryPollInterval cfg in
    t ← now;
    if nextUpdateCheck <? nextInventoryCheck
    then Wait updateCheckState checkWaitState (nextUpdateCheck - t)
    else Wait inventoryUpdateState checkWaitState (nextInventoryCheck - t).

Definition inventoryUpdate_Handle : Handler :=
  err ← InventoryRefresh;
  match err with
  | Some err =>
      if bool_decide (Cause err = errNoArtifactName)
      then next (errorState (NewTransientError err))
      else next (inventoryUpdateRetry err)
  | None =>
      _ ← modify_ctx (set_inventoryUpdateAttempts 0);
      next checkWaitState
  end.

(** ** Control maps *)

(** Only update states are wrapped. *)
Definition wrapped_Update (s : State) : UpdateInfo := default no_UpdateInfo (state_Update s).

Definition panic (s : State) : Handler := mret (s, true).

Definition controlMap_Handle (self wrappedState : State) (pauseState : option State) : Handler :=
  match mapStateToName (state_Transition wrappedState) with
  | None => panic self
  | Some name =>
      action ← pool_query (fun t => QueryAndUpdate sort_maps t name);
      if bool_decide (action = "continue") then next wrappedState
      else if bool_decide (action = "pause") then
        match pauseState with
        | Some pauseState => next pauseState
        | None =>
            match pauseName (state_Transition wrappedState) with
            | None => panic self
            | Some pause =>
                ctx ← get_ctx;
                let id := stateNames (state_Id wrappedState) in
                merr ←
                  (if bool_decide (id ∈ pauseReported ctx) then mret None
                   else
                     _ ← modify_ctx (set_pauseReported ({[id]} ∪ pauseReported ctx));
                     ReportUpdateStatus (wrapped_Update wrappedState) pause);
                match merr with
                | Some merr =>
                    if fatal merr then HandleError wrappedState merr
                    else next (controlMapPauseState wrappedState)
                | None => next (controlMapPauseState wrappedState)
                end
            end
        end
      else if bool_decide (action = "fail") then
        HandleError wrappedState (NewTransientError (EText "Forced a failed update"))
      else next wrappedState
  end.

Definition fetchControlMap_Handle (wrappedState : State) (pauseState : option State) : Handler :=
  t ← now;
  pool ← get_pool;
  err ←
    (if HasControlMap t (ID (wrapped_Update wrappedState)) pool
     then RefreshServerUpdateControlMap cfg (ID (wrapped_Update wrappedState))
     else mret None);
  match err with
  | Some err =>
      if error_Is err ErrNoDeploymentAvailable
      then HandleError wrappedState
             (NewTransientError (EText "The deployment was aborted from the server"))
      else next (fetchRetryControlMapState wrappedState pauseState)
  | None =>
      _ ← modify_ctx (set_controlMapFetchAttempts 0);
      next (controlMapState wrappedState pauseState)
  end.

Definition fetchRetryControlMap_Handle (wrappedState : State) (pauseState : option State) :
    Handler :=
  ctx ← get_ctx;
  match GetExponentialBackoffTime (controlMapFetchAttempts ctx) (GetUpdatePollInterval cfg)
          (GetRetryPollCount cfg) with
  | Err err => HandleError wrappedState (NewTransientError err)
  | Ok intvl =>
      _ ← modify_ctx (set_controlMapFetchAttempts (int64 (controlMapFetchAttempts ctx + 1)));
      Wait_no_cancel (fetchControlMapState wrappedState pauseState) intvl
  end.

(** The fallback wait is 30 ns, the [time.Duration] 30. *)
Definition controlMapPause_Handle (self wrappedState : State) : Handler :=
  t ← now;
  pool ← get_pool;
  match NextIDControlMapHalfTime t (ID (wrapped_Update wrappedState)) pool with
  | Err _ =>
      match NextAnyControlMapHalfTime t (ID (wrapped_Update wrappedState)) pool with
      | Err _ => next (controlMapState wrappedState None)
      | Ok nextMapRefresh =>
          t ← now;
          let d := nextMapRefresh - t in
          Wait (controlMapState wrappedState None) self (if d <? 0 then 30 else d)
      end
  | Ok nextServerMapRefresh =>
      t ← now;
      let d := Z.min (nextServerMapRefresh - t) (GetUpdatePollInterval cfg) in
      MultiplexWait (fetchControlMapState wrappedState None) (controlMapState wrappedState None)
        (if d <=? 0 then 30 else d)
  end.
End other_handlers.

(** ** Dispatch *)

Section dispatch.
Context {DB D : Type} `{StoreLaws DB} `{Env D} `{SortMaps} (cfg : Config).
Variable StringsMatchingWildcards : list string -> list string -> result (list string).

(** The [Handle] method of each state. *)
Definition Handle (s : State) : M DB D (State * bool) :=
  match s with
  | finalState => panic finalState
  | initState => init_Handle
  | idleState => idle_Handle
  | checkWaitState => checkWait_Handle cfg
  | inventoryUpdateState => inventoryUpdate_Handle
  | updateCheckState => updateCheck_Handle cfg
  | inventoryUpdateRetry _ => inventoryUpdateRetry_Handle cfg s
  | errorState e => errorState_Handle e
  | updateFetchState u => updateFetch_Handle cfg u
  | updateStoreState u => updateStore_Handle u
  | updateAfterStoreState u => updateAfterStore_Handle u
  | updateInstallState u => updateInstall_Handle u
  | fetchStoreRetryState u err => fetchStoreRetry_Handle cfg u err
  | updateCommitState u reportTries => updateCommit_Handle StringsMatchingWildcards u reportTries
  | updatePreCommitStatusReportRetryState r reportTries =>
      updatePreCommitStatusReportRetry_Handle cfg r reportTries
  | updateAfterFirstCommitState u => updateAfterFirstCommit_Handle u
  | updateAfterCommitState u => updateAfterCommit_Handle u
  | updateErrorState _ u => updateError_Handle u
  | updateCleanupState t u status => updateCleanup_Handle t u status
  | updateStatusReportState u status n m => updateStatusReport_Handle u status n m
  | updateStatusReportRetryState r _ _ n => updateStatusReportRetry_Handle cfg s r n
  | updateRebootPauseRequestedState u => updateRebootPauseRequested_Handle u
  | updateRebootState u => updateReboot_Handle u
  | updateVerifyRebootState u => updateVerifyReboot_Handle u
  | updateAfterRebootState u => updateAfterReboot_Handle u
  | updateRollbackState u => updateRollback_Handle u
  | updateRollbackRebootState u => updateRollbackReboot_Handle u
  | updateVerifyRollbackRebootState u => updateVerifyRollbackReboot_Handle u
  | updateAfterRollbackRebootState u => updateAfterRollbackReboot_Handle u
  | controlMapState w p => controlMap_Handle s w p
  | fetchControlMapState w p => fetchControlMap_Handle cfg w p
  | fetchRetryControlMapState w p => fetchRetryControlMap_Handle cfg w p
  | controlMapPauseState w => controlMapPause_Handle cfg s w
  end.
End dispatch.

(** ** How often a report is sent *)

Lemma int64_multiple m z : (m | 2 ^ 64) -> (m | z) -> (m | int64 z).
Proof.
  intros [p Hp] [q ->]. unfold int64.
  rewrite (Z.mod_eq _ (2 ^ 64)) by done. set (k := (q * m + 2 ^ 63) / 2 ^ 64).
  exists (q - p * k). rewrite Z.mul_sub_distr_r.
  replace (p * k * m) with (2 ^ 64 * k) by (rewrite Hp; ring). ring.
Qed.

Lemma seconds_or_multiple s d : (512 | d) -> (512 | seconds_or s d).
Proof.
  intros Hd. unfold seconds_or. destruct (_ =? 0); [done|].
  apply int64_multiple; [by exists (2 ^ 55)|]. exists (s * 1953125).
  unfold ControlMap.Second. lia.
Qed.

Lemma seconds_or_range s d : int64_min <= d <= int64_max -> int64_min <= seconds_or s d <= int64_max.
Proof. intros Hd. unfold seconds_or. destruct (_ =? 0); [done|apply int64_range]. Qed.

(** An interval is a multiple of 512 ns, so the doubled quotient of two cannot
    overflow. *)
Lemma max_tries_range cfg : 4 <= max_tries cfg <= 11.
Proof.
  unfold max_tries, maxSendingAttempts, minReportSendRetries, maxSendingAttemptsRoof.
  assert (int64_min <= GetUpdatePollInterval cfg <= int64_max) as Hu
    by (by apply seconds_or_range).
  assert (512 | GetRetryPollInterval cfg) as [q Hr]
    by (apply seconds_or_multiple; by exists 585937500).
  set (upi := GetUpdatePollInterval cfg) in *. set (rpi := GetRetryPollInterval cfg) in *.
  destruct (Z.eqb_spec rpi 0) as [|Hne]; [lia|].
  destruct (Z.leb_spec (upi ÷ rpi) 3) as [|Hlt]; [lia|].
  assert (upi ÷ rpi <= 2 ^ 54) as Hle.
  { rewrite <- (Z.abs_eq (upi ÷ rpi)), <- Z.quot_abs, Z.quot_div_nonneg by lia.
    apply Z.div_le_upper_bound; [lia|]. unfold int64_min, int64_max in Hu. nia. }
  rewrite int64_id; [lia|]. unfold int64_min, int64_max. lia.
Qed.

(** ** Properties *)

(** A status report is sent between four and eleven times, whatever the
    polling intervals in the configuration, even where seconds overflow to
    nanoseconds: an interval is a multiple of 512 ns, so doubling the quotient of
    two stays within 64 bits. *)
Theorem report_attempts_bounded cfg : 4 <= max_tries cfg <= 11.
Proof. apply max_tries_range. Qed.
