(* ===== verification/Mender.v ===== *)
(** * Mender: transitions and the daemon loop

    [transitionState] and the start-up of app/mender.go, and the loop of
    app/daemon.go.  Parsing the bootstrap artifact (files and the
    mender-artifact reader) is the environment's. *)

From S2P Require Import Prelude Store StateData DataStore Client ControlMap ControlMapPool.
From S2P Require Import States World Controller Handlers.

Open Scope Z_scope.

Section mender.
Context {DB D : Type} `{StoreLaws DB} `{Env D} `{SortMaps} (cfg : Config).
Variable StringsMatchingWildcards : list string -> list string -> result (list string).

Notation M := (M DB D).
Notation Handler := (M (State * bool)).

(** ** State transitions *)

(** The report for the scripts: only for states with a status, and only if the
    state is an update state. *)
Definition transition_report (to : State) : option StatusReportWrapper :=
  if shouldReportUpdateStatus (state_Id to) then
    match state_Update to with
    | Some upd => Some (NewStatusReportWrapper (ID upd) (state_Id to))
    | None => None
    end
  else None.

(** Leaving [from]: the error scripts when it fails into an error state, whose
    outcome is ignored; otherwise the leave scripts, whose failure is handled by
    [from].  Returns the report as it is afterwards. *)
Definition leave (from to : State) (report : option StatusReportWrapper) :
    M (option StatusReportWrapper * option (State * bool)) :=
  if shouldTransit from to then
    if IsToError (state_Transition to) && negb (IsToError (state_Transition from)) then
      let report := match report with
                    | Some (id, _) => Some (id, StateStatus (state_Id from))
                    | None => None
                    end in
      _ ← Transition_Error (state_Transition from) report;
      mret (report, None)
    else
      err ← Transition_Leave (state_Transition from) report;
      match err with
      | Some err =>
          s ← HandleError from (NewTransientError (EText "error executing leave script"));
          mret (report, Some s)
      | None => mret (report, None)
      end
  else mret (report, None).

(** Whether storing [to] counts as a turn of a possible loop. *)
Definition counts_as_loop (from to : State) : bool :=
  negb (PermitLooping to ||
        match state_Update from with Some _ => PermitLooping from | None => true end).

(** Storing the state we go to, if it is an update state. *)
Definition store_transition (from to : State) : M (option (State * bool)) :=
  match state_Update to with
  | None => mret None
  | Some upd =>
      err ← store_state (state_Id to) upd (counts_as_loop from to);
      match err with
      | None => mret None
      | Some err =>
          s ← HandleError to (NewFatalError err);
          let '(state, cancelled) := s in
          s ← handleStateDataError state cancelled upd err;
          mret (Some s)
      end
  end.

(** Entering [to] and running it. *)
Definition enter_and_handle (from to : State) (report : option StatusReportWrapper) : Handler :=
  err ← (if shouldTransit from to then Transition_Enter (state_Transition to) report
         else mret None);
  match err with
  | Some err => HandleError to (NewTransientError (EText "error calling enter script"))
  | None => Handle cfg StringsMatchingWildcards to
  end.

Definition transitionState (to : State) : Handler :=
  from ← GetCurrentState;
  r ← leave from to (transition_report to);
  let '(report, out) := r in
  match out with
  | Some s => mret s
  | None =>
      _ ← SetNextState to;
      out ← store_transition from to;
      match out with
      | Some s => mret s
      | None => enter_and_handle from to report
      end
  end.

(** ** Start-up *)

(** What the reader of an artifact gives of a bootstrap artifact: the names of its
    scripts, its name, format and version, the groups it depends on, the group it
    provides, and its updates with what they provide and depend on and their
    files. *)
Record BootstrapUpdate := mkBootstrapUpdate {
  update_provides : result (option (gmap string string));
  update_depends : result (option (gmap string string));
  update_files : list string
}.

Record BootstrapArtifact := mkBootstrapArtifact {
  artifact_scripts : list string;
  artifact_name : string;
  artifact_format : string;
  artifact_version : Z;
  artifact_group_depends : option (list string);
  artifact_group_provides : string;
  artifact_updates : list BootstrapUpdate
}.

(** [read] is the third-party reader, which asks the given function whether the
    device is one of those that the artifact is for. *)
Definition validateAndParseBootstrapArtifact (opened : option error)
    (read : (list string -> option error) -> result BootstrapArtifact) (dt : string) :
    result (string * string * gmap string string) :=
  match opened with
  | Some err => Err err
  | None =>
      a ← read (fun devices => if existsb (String.eqb dt) devices then None
                               else Some (EText "image not compatible with device"));
      if bool_decide (artifact_name a = EmptyString) then Err (EText "artifact_name cannot be empty")
      else if negb (bool_decide (artifact_scripts a = [])) then Err (EText "bootstrap Artifact cannot contain state scripts")
      else if negb (bool_decide (artifact_format a = "mender")) then Err (EText "wrong Artifact format")
      else if artifact_version a <? 3 then Err (EText "wrong Artifact version")
      else if bool_decide (is_Some (artifact_group_depends a)) then Err (EText "artifact_depends must be empty")
      else
        match artifact_updates a with
        | [update] =>
            match update_provides update with
            | Err err => Err (EWrap "error reading provides" err)
            | Ok None => Err (EText "update must include artifact_provides")
            | Ok (Some provides) =>
                match update_depends update with
                | Err err => Err (EWrap "error reading depends" err)
                | Ok (Some _) => Err (EText "update artifact_depends must be empty")
                | Ok None =>
                    if negb (bool_decide (update_files update = [])) then Err (EText "update must not contain files")
                    else Ok (artifact_name a, artifact_group_provides a, provides)
                end
            end
        | _ => Err (EText "bootstrap Artifact must contain exactly 1 update")
        end
  end.

(** An artifact that is accepted carries no more than provides: no scripts, no files
    and no dependencies, and it has a name. *)
Lemma bootstrap_artifact_is_plain opened read dt name group provides :
  validateAndParseBootstrapArtifact opened read dt = Ok (name, group, provides) ->
  name <> EmptyString /\ exists a update,
    read (fun devices => if existsb (String.eqb dt) devices then None else Some (EText "image not compatible with device")) = Ok a /\
    artifact_name a = name /\ artifact_scripts a = [] /\ 3 <= artifact_version a /\ artifact_updates a = [update] /\
    update_provides update = Ok (Some provides) /\ update_depends update = Ok None /\ update_files update = [].
Proof.
  unfold validateAndParseBootstrapArtifact. destruct opened; [done|].
  destruct (read _) as [a|]; [|done]. cbn [mbind result_bind].
  case_bool_decide as Hn; [done|]. case_bool_decide as Hs; [|done]. cbn [negb].
  destruct (negb _); [done|]. destruct (Z.ltb_spec (artifact_version a) 3); [done|].
  destruct (bool_decide _); [done|]. destruct (artifact_updates a) as [|update [|? ?]] eqn:Hu; try done.
  destruct (update_provides update) as [[p|]|] eqn:Hp; try done.
  destruct (update_depends update) as [[?|]|] eqn:Hd; try done.
  case_bool_decide as Hf; [|done]. cbn [negb]. intros [= <- <- <-]. split; [done|]. exists a, update. by repeat split.
Qed.

(** What the bootstrap artifact file holds: nothing, something invalid, or a
    name, group and provides. *)
Definition Bootstrap : Type := option (result (string * string * gmap string string)).

Definition commit_in_txn (name group : string) (provides : gmap string string) :
    M (option error) :=
  db_op (fun db =>
    let '(_, err, db) := WriteTransaction ()
      (fun txn => let '(err, txn) := CommitArtifactData StringsMatchingWildcards
                                       name group (Some provides) None txn in
                  ((), err, txn)) db in
    (err, db)).

(** Whether there is state data or there are provides. *)
Definition databaseInitialized : M bool :=
  r ← db_op LoadStateData;
  let '(_, sdErr) := r : StateData * option error in
  match sdErr with
  | None => mret true
  | Some _ =>
      r ← db_op LoadProvides;
      let '(p, pErr) := r : gmap string string * option error in
      mret (match pErr with None => negb (bool_decide (p = ∅)) | Some _ => false end)
  end.

(** The name the database gets when nothing else is known. *)
Definition init_database : M () :=
  _ ← commit_in_txn "unknown" EmptyString {["artifact_name" := "unknown"]};
  mret ().

Definition HandleBootstrapArtifact (file : Bootstrap) : M (option error) :=
  initialized ← databaseInitialized;
  if initialized : bool then mret None
  else
    match file with
    | None => _ ← init_database; mret None
    | Some parsed =>
        r ← call CGetDeviceType;
        match (r : result string), parsed with
        | Err err, _ =>
            _ ← init_database; mret (Some (EWrap "could not get device type" err))
        | Ok _, Err err =>
            _ ← init_database; mret (Some (EWrap "invalid bootstrap Artifact" err))
        | Ok _, Ok (name, group, provides) =>
            err ← commit_in_txn name group provides;
            match err with
            | Some err =>
                _ ← init_database; mret (Some (EWrap "Could not update database" err))
            | None => mret None
            end
        end
    end.

(** ** The daemon loop (app/daemon.go) *)

(** What happens outside the state machine before a turn: a forced state
    (SIGUSR1, SIGUSR2), control maps that arrived over D-Bus, a request to stop
    that is seen after the turn. *)
Record Tick := mkTick {
  forced : option State;
  dbus_maps : list ControlMap.UpdateControlMap;
  stop : bool
}.

Definition can_be_forced (s : State) : bool :=
  match s with
  | idleState | checkWaitState | updateCheckState | inventoryUpdateState => true
  | _ => false
  end.

Definition receive_map (cm : ControlMap.UpdateControlMap) : M () :=
  pool_change (fun t =>
    SetUpdateControlMap t (GetUpdateControlMapExpirationTimeSeconds cfg) cm).

Fixpoint receive_maps (l : list ControlMap.UpdateControlMap) : M () :=
  match l with
  | [] => mret ()
  | cm :: l => _ ← receive_map cm; receive_maps l
  end.

(** How a run of the loop goes on or ends. *)
Inductive Outcome : Type :=
  | Continue (toState : State)
  | Stopped
  | Failed (err : error).

(** One turn of the loop. *)
Definition turn (tick : Tick) (toState : State) : M Outcome :=
  _ ← receive_maps (dbus_maps tick);
  let '(toState, updateLastCheckAttempt) :=
    match forced tick with
    | Some nState => if can_be_forced toState then (nState, false) else (toState, true)
    | None => (toState, true)
    end in
  _ ← match toState with
      | updateCheckState =>
          if updateLastCheckAttempt : bool
          then t ← now; modify_ctx (set_lastUpdateCheckAttempt t) else mret ()
      | inventoryUpdateState =>
          if updateLastCheckAttempt : bool
          then t ← now; modify_ctx (set_lastInventoryUpdateAttempt t) else mret ()
      | _ => mret ()
      end;
  r ← transitionState toState;
  let '(toState, cancelled) := r in
  mret match toState with
       | errorState e =>
           if fatal e then Failed (cause e)
           else if cancelled || stop tick then Stopped else Continue toState
       | finalState => Stopped
       | _ => if cancelled || stop tick then Stopped else Continue toState
       end.

(** The loop, for as many turns as there are ticks. *)
Fixpoint loop (ticks : list Tick) (toState : State) : M Outcome :=
  match ticks with
  | [] => mret (Continue toState)
  | tick :: ticks =>
      o ← turn tick toState;
      match o with
      | Continue s => loop ticks s
      | o => mret o
      end
  end.
End mender.
