(* ===== verification/Scenario.v ===== *)
(** * Scenario: concrete environments and runs

    Environments that answer every call of the same kind alike, and a run of a
    whole update on one of them, from the found deployment to the final report.
    The concrete inputs of the witnesses are built from these. *)

From S2P Require Import Prelude Store StateData DataStore Client ControlMap ControlMapPool.
From S2P Require Import States World Controller Handlers Mender.
Import MapStore.

Open Scope Z_scope.

Definition fixed_env (f : forall c, answer c) : Env () := fun c d => (f c, d).

Definition example_update : UpdateInfo :=
  set_Artifact (set_ArtifactName "release-2" no_Artifact)
    (set_ID "deployment-1" (set_SupportsRollback RollbackSupported no_UpdateInfo)).

Definition example_headers : ArtifactHeaders :=
  mkHeaders "release-2" [] (Ok None) (Ok (Some {["artifact_name" := "release-2"]})) None.

(** Everything succeeds; there is one payload, which asks for no reboot. *)
Definition happy (c : Call) : answer c :=
  match c with
  | CNow => 1
  | CLogEnable _ | CLogDisable => None
  | CGetLogs _ => Ok EmptyString
  | CReportStatus _ _ | CUploadLog _ _ => Ok 204
  | CGetScheduledUpdate _ _ _ => (Some example_update, None, None)
  | CGetUpdateControlMap _ => Ok None
  | CFetchUpdate _ _ => None
  | CClearAuthorization => ()
  | CReadArtifactHeaders => (["rootfs-image"], Ok example_headers)
  | CStorePayloads => None
  | CInstaller _ _ => None
  | CNeedsReboot _ => Ok NoReboot
  | CSupportsRollback _ => Ok true
  | CCreateInstallersFromList l => (l, None)
  | CSystemReboot => EText "reboot failed"
  | CExecuteAll _ _ _ _ => None
  | CCheckRootfsScriptsVersion => None
  | CGetDeviceType => Ok "qemux86-64"
  | CGetInventory => None
  | CSubmitInventory _ _ => None
  | CWait _ => WaitDone
  end.

(** [f], except that operation [op] of every installer answers [a]. *)
Definition with_installer (op : InstallerOp) (a : option error) (f : forall c, answer c)
    (c : Call) : answer c :=
  match c return answer c with
  | CInstaller n op' => if bool_decide (op = op') then a else f (CInstaller n op')
  | c => f c
  end.

(** [f], except that every status report gets the answer [a]. *)
Definition with_report (a : result Z) (f : forall c, answer c) (c : Call) : answer c :=
  match c return answer c with
  | CReportStatus _ _ => a
  | c => f c
  end.

(** [f], except that the scripts of [name] and [action] fail. *)
Definition with_script (name action : string) (f : forall c, answer c) (c : Call) : answer c :=
  match c return answer c with
  | CExecuteAll n a i r =>
      if bool_decide (n = name) && bool_decide (a = action) then Some (EText "script failed")
      else f (CExecuteAll n a i r)
  | c => f c
  end.

Definition example_cfg : Config := mkConfig 1800 28800 300 10 0 0.

Definition no_wildcards (l wildcards : list string) : result (list string) := Ok [].

#[export] Instance keep_order : SortMaps := fun l => l.

Definition quiet_tick : Tick := mkTick None [] false.

Definition example_db : gmap string string := {[ArtifactNameKey := "release-1"]}.

Definition example_world (s : State) : World (gmap string string) () :=
  mkWorld example_db () empty_context (mkPool [] 3600) ["rootfs-image"] s [].

Definition set_db (db : gmap string string) (w : World (gmap string string) ()) :
    World (gmap string string) () :=
  mkWorld db (w_env w) (w_ctx w) (w_pool w) (w_installers w) (w_state w) (w_log w).

Definition run (f : forall c, answer c) (n : nat) (from to : State) :
    Outcome * World (gmap string string) () :=
  loop (D := ()) (H1 := fixed_env f) example_cfg no_wildcards (replicate n quiet_tick) to
    (example_world from).

(** The installer operations of a run, oldest first. *)
Fixpoint installer_ops (log : list Event) : list (nat * InstallerOp) :=
  match log with
  | [] => []
  | Ev (CInstaller n op) _ _ :: log => installer_ops log ++ [(n, op)]
  | _ :: log => installer_ops log
  end.

(** An update that goes well: found, downloaded, installed, committed, cleaned
    up, reported; the database has the new name and the machine is idle. *)
Example run_update :
  let '(o, w) := run happy 14 checkWaitState updateCheckState in
  o = Continue idleState /\
  installer_ops (w_log w) = [(0, OpInstallUpdate); (0, OpCommitUpdate); (0, OpCleanup)]%nat /\
  db_contents w !! ArtifactNameKey = Some "release-2".
Proof. vm_compute. by split_and!. Qed.
