(* ===== verification/Triples.v ===== *)
(** * Triples: reasoning about handlers

    [wp E m Q w]: run from [w], [m] adds to the history only events that satisfy
    [E], and its result and final world satisfy [Q].  The rules decompose a
    handler along [mret], bind, calls, database and pool operations; [wp_step]
    applies them.  Everything holds for any store that keeps the [StoreLaws] and
    any environment. *)

From S2P Require Import Prelude Store StateData DataStore Client ControlMap ControlMapPool.
From S2P Require Import States World Controller Handlers.

Open Scope Z_scope.

Section triples.
Context {DB D : Type} `{StoreLaws DB} `{Env D}.

Notation M := (M DB D).
Notation World := (World DB D).

Definition wp {A} (E : Event -> Prop) (m : M A) (Q : A -> World -> Prop) (w : World) : Prop :=
  exists l, w_log (m w).2 = l ++ w_log w /\ Forall E l /\ Q (m w).1 (m w).2.

(** What a call leaves as it is. *)
Record same (w w' : World) : Prop := mkSame {
  same_db : w_db w' = w_db w;
  same_ctx : w_ctx w' = w_ctx w;
  same_pool : w_pool w' = w_pool w;
  same_installers : w_installers w' = w_installers w;
  same_state : w_state w' = w_state w
}.

Lemma same_contents w w' : same w w' -> db_contents w' = db_contents w.
Proof. intros Hs. unfold db_contents. by rewrite (same_db _ _ Hs). Qed.

Lemma wp_ret {A} E (a : A) Q w : Q a w -> wp E (mret a) Q w.
Proof. intros HQ. exists []. by split_and!. Qed.

Lemma wp_bind {A B} E (m : M A) (f : A -> M B) Q w :
  wp E m (fun a w' => wp E (f a) Q w') w -> wp E (m ≫= f) Q w.
Proof.
  intros (l1 & Hl1 & HE1 & l2 & Hl2 & HE2 & HQ). unfold wp, mbind, M_bind.
  destruct (m w) as [a w1]. cbn in *. exists (l2 ++ l1).
  rewrite Hl2, Hl1, app_assoc. split; [done|]. split; [by apply Forall_app|done].
Qed.

Lemma wp_mono {A} (E E' : Event -> Prop) (m : M A) (Q Q' : A -> World -> Prop) w :
  wp E m Q w -> (forall e, E e -> E' e) -> (forall a w', Q a w' -> Q' a w') -> wp E' m Q' w.
Proof.
  intros (l & Hl & HE & HQ) HEE' HQQ'. exists l. split; [done|].
  split; [by eapply Forall_impl|auto].
Qed.

(** The history only grows. *)
Definition ext (w w' : World) : Prop := exists l, w_log w' = l ++ w_log w.

Lemma ext_trans w1 w2 w3 : ext w1 w2 -> ext w2 w3 -> ext w1 w3.
Proof. intros [l1 Hl1] [l2 Hl2]. exists (l2 ++ l1). by rewrite Hl2, Hl1, app_assoc. Qed.

Lemma wp_ext {A} E (m : M A) Q w : wp E m (fun a w' => ext w w' -> Q a w') w -> wp E m Q w.
Proof.
  intros (l & Hl & HE & HQ). exists l. split; [done|]. split; [done|]. apply HQ. by exists l.
Qed.

Lemma wp_call E c Q w :
  (forall a, E (Ev c a (db_contents w))) ->
  (forall a w', same w w' -> Q a w') ->
  wp E (call c) Q w.
Proof.
  intros HE HQ. unfold wp, call. destruct (env_step c (w_env w)) as [a d]. cbn.
  exists [Ev c a (db_contents w)]. split; [done|]. split; [by constructor|].
  by apply HQ.
Qed.

(** The same, remembering the event. *)
Lemma wp_call_log (E : Event -> Prop) c Q w :
  (forall a, E (Ev c a (db_contents w))) ->
  (forall a w', same w w' -> w_log w' = Ev c a (db_contents w) :: w_log w -> Q a w') ->
  wp E (call c) Q w.
Proof.
  intros HE HQ. unfold wp, call. destruct (env_step c (w_env w)) as [a d]. cbn.
  exists [Ev c a (db_contents w)]. split; [done|]. split; [by constructor|].
  by apply HQ.
Qed.

(** What a database operation leaves as it is. *)
Record same_but_db (w w' : World) : Prop := mkSameButDb {
  sbd_ctx : w_ctx w' = w_ctx w;
  sbd_pool : w_pool w' = w_pool w;
  sbd_installers : w_installers w' = w_installers w;
  sbd_state : w_state w' = w_state w
}.

Lemma wp_db_op {A} E (f : DB -> A * DB) Q w :
  (forall a db, f (w_db w) = (a, db) -> E (EvDB (contents db))) ->
  (forall a w', f (w_db w) = (a, w_db w') -> same_but_db w w' -> Q a w') ->
  wp E (db_op f) Q w.
Proof.
  intros HE HQ. unfold wp, db_op. destruct (f (w_db w)) as [a db]. cbn.
  exists [EvDB (contents db)]. split; [done|]. split; [constructor; [by apply (HE a)|constructor]|].
  by apply HQ.
Qed.

Lemma wp_pool_op {A} E (f : ControlMapPool -> DB -> A * ControlMapPool * DB) Q w :
  (forall a p db, f (w_pool w) (w_db w) = (a, p, db) -> E (EvDB (contents db))) ->
  (forall a w', f (w_pool w) (w_db w) = (a, w_pool w', w_db w') ->
     w_ctx w' = w_ctx w -> w_installers w' = w_installers w -> w_state w' = w_state w ->
     Q a w') ->
  wp E (pool_op f) Q w.
Proof.
  intros HE HQ. unfold wp, pool_op. destruct (f (w_pool w) (w_db w)) as [[a p] db]. cbn.
  exists [EvDB (contents db)].
  split; [done|]. split; [constructor; [by apply (HE a p)|constructor]|]. by apply HQ.
Qed.

Lemma wp_pure {A} E (a : A) (w' : World) Q w :
  w_log w' = w_log w -> Q a w' -> wp E (fun _ => (a, w')) Q w.
Proof. intros Hl HQ. exists []. split; [done|]. split; [constructor|done]. Qed.

Lemma wp_get_ctx E Q w : Q (w_ctx w) w -> wp E get_ctx Q w.
Proof. intros. exists []. by split_and!. Qed.
Lemma wp_get_pool E Q w : Q (w_pool w) w -> wp E get_pool Q w.
Proof. intros. exists []. by split_and!. Qed.
Lemma wp_GetInstallers E Q w : Q (w_installers w) w -> wp E GetInstallers Q w.
Proof. intros. exists []. by split_and!. Qed.
Lemma wp_GetCurrentState E Q w : Q (w_state w) w -> wp E GetCurrentState Q w.
Proof. intros. exists []. by split_and!. Qed.
Lemma wp_db_read {A} (f : DB -> A) E Q w : Q (f (w_db w)) w -> wp E (db_read f) Q w.
Proof. intros. exists []. by split_and!. Qed.

Lemma wp_modify_ctx f E Q w :
  (forall w', w_ctx w' = f (w_ctx w) -> w_db w' = w_db w -> w_pool w' = w_pool w ->
     w_installers w' = w_installers w -> w_state w' = w_state w -> Q () w') ->
  wp E (modify_ctx f) Q w.
Proof. intros HQ. exists []. split; [done|]. split; [constructor|]. by apply HQ. Qed.

Lemma wp_set_installers l E Q w :
  (forall w', w_installers w' = l -> w_db w' = w_db w -> w_ctx w' = w_ctx w ->
     w_pool w' = w_pool w -> w_state w' = w_state w -> w_log w' = w_log w -> Q () w') ->
  wp E (set_installers l) Q w.
Proof. intros HQ. exists []. split; [done|]. split; [constructor|]. by apply HQ. Qed.

Lemma wp_SetNextState s E Q w :
  (forall w', w_state w' = s -> w_db w' = w_db w -> w_ctx w' = w_ctx w ->
     w_pool w' = w_pool w -> w_installers w' = w_installers w -> Q () w') ->
  wp E (SetNextState s) Q w.
Proof. intros HQ. exists []. split; [done|]. split; [constructor|]. by apply HQ. Qed.

Lemma wp_installer_indices E Q w :
  Q (seq 0 (length (w_installers w))) w -> wp E installer_indices Q w.
Proof. intros HQ. apply wp_bind, wp_GetInstallers, wp_ret, HQ. Qed.

(** A loop over the installers with an invariant. *)
Lemma wp_for_each {A} E (I : World -> Prop) (l : list nat) (f : nat -> M (option A)) Q w :
  I w ->
  (forall n w', n ∈ l -> I w' ->
     wp E (f n) (fun r w'' => match r with None => I w'' | Some a => Q (Some a) w'' end) w') ->
  (forall w', I w' -> Q None w') ->
  wp E (for_each l f) Q w.
Proof.
  revert w. induction l as [|n l IH]; intros w HI Hf HQ; cbn [for_each].
  - by apply wp_ret, HQ.
  - apply wp_bind. eapply wp_mono; [apply Hf; [apply list_elem_of_here|done]|done|].
    intros [a|] w' HI'; [by apply wp_ret|].
    apply IH; [done| |done]. intros n' w'' Hn'. apply Hf. by apply list_elem_of_further.
Qed.
End triples.
