(* ===== verification/Recovery.v ===== *)
(** * Recovery: what is on disk whenever the outside is touched

    The order of database writes and installer calls in a transition: an
    installer operation runs only while the database names a state it belongs
    to, so that a client that is killed at that moment finds its way back. *)

From S2P Require Import Prelude Json Store StateData DataStore Client ControlMap ControlMapPool.
From S2P Require Import States World Controller Handlers Mender Triples.
Import MapStore.

Open Scope Z_scope.

(** ** Handlers that do not act *)

(** The calls that act on the device: the installers' operations, writing the
    payloads, rebooting. *)
Definition is_action (c : Call) : bool :=
  match c with CInstaller _ _ | CStorePayloads | CSystemReboot => true | _ => false end.

(** A predicate on events that constrains actions only. *)
Class ActionPredicate (E : Event -> Prop) : Prop := {
  ip_db db : E (EvDB db);
  ip_call c a db : is_action c = false -> E (Ev c a db)
}.

Section quiet.
Context {DB D : Type} `{StoreLaws DB} `{Env D} `{SortMaps} (cfg : Config).
Context (E : Event -> Prop) `{!ActionPredicate E}.

Notation M := (M DB D).

Definition quiet {A} (m : M A) : Prop := forall w, wp E m (fun _ _ => True) w.

Lemma quiet_wp {A} (m : M A) Q w : quiet m -> (forall a w', Q a w') -> wp E m Q w.
Proof. intros Hm HQ. eapply wp_mono; [apply Hm|done|auto]. Qed.

Lemma quiet_ret {A} (a : A) : quiet (mret a).
Proof. intros w. by apply wp_ret. Qed.
Lemma quiet_bind {A B} (m : M A) (f : A -> M B) :
  quiet m -> (forall a, quiet (f a)) -> quiet (m ≫= f).
Proof. intros Hm Hf w. apply wp_bind, quiet_wp; [done|]. intros. apply Hf. Qed.
Lemma quiet_call c : is_action c = false -> quiet (call c).
Proof. intros Hc w. apply wp_call; [|done]. intros. by apply ip_call. Qed.
Lemma quiet_db_op {A} (f : DB -> A * DB) : quiet (db_op f).
Proof. intros w. apply wp_db_op; [|done]. intros. apply ip_db. Qed.
Lemma quiet_pool_op {A} (f : ControlMapPool -> DB -> A * ControlMapPool * DB) :
  quiet (pool_op f).
Proof. intros w. apply wp_pool_op; [|done]. intros. apply ip_db. Qed.
Lemma quiet_db_read {A} (f : DB -> A) : quiet (db_read f).
Proof. intros w. by apply wp_db_read. Qed.
Lemma quiet_get_ctx : quiet get_ctx.
Proof. intros w. by apply wp_get_ctx. Qed.
Lemma quiet_get_pool : quiet get_pool.
Proof. intros w. by apply wp_get_pool. Qed.
Lemma quiet_GetInstallers : quiet GetInstallers.
Proof. intros w. by apply wp_GetInstallers. Qed.
Lemma quiet_GetCurrentState : quiet GetCurrentState.
Proof. intros w. by apply wp_GetCurrentState. Qed.
Lemma quiet_modify_ctx f : quiet (modify_ctx f).
Proof. intros w. by apply wp_modify_ctx. Qed.
Lemma quiet_set_installers l : quiet (set_installers l).
Proof. intros w. by apply wp_set_installers. Qed.
Lemma quiet_SetNextState s : quiet (SetNextState s).
Proof. intros w. by apply wp_SetNextState. Qed.
End quiet.

(** Decomposes a program down to its calls. *)
Ltac quiet_step :=
  first
    [ assumption
    | apply quiet_ret
    | match goal with |- quiet _ (call ?c) => solve [apply (quiet_call _ c); first [assumption|reflexivity]] end
    | solve [apply quiet_db_op; assumption]
    | solve [apply quiet_pool_op; assumption]
    | apply quiet_db_read | apply quiet_get_ctx | apply quiet_get_pool
    | apply quiet_GetInstallers | apply quiet_GetCurrentState | apply quiet_modify_ctx
    | apply quiet_set_installers | apply quiet_SetNextState
    | solve [eauto 2 with quiet]
    | apply quiet_bind; [|intros ?]
    | match goal with
      | |- quiet _ (match ?x with _ => _ end) => destruct x
      | |- quiet _ (if ?x then _ else _) => destruct x
      end ].

Create HintDb quiet.

Ltac quiet := repeat quiet_step.

Section quiet_handlers.
Context {DB D : Type} `{StoreLaws DB} `{Env D} `{SortMaps} (cfg : Config).
Context (E : Event -> Prop) `{!ActionPredicate E}.

Notation quiet := (quiet (DB := DB) (D := D) E).

Lemma quiet_setBrokenArtifactFlag n : quiet (setBrokenArtifactFlag n).
Proof. unfold setBrokenArtifactFlag. quiet. Qed.
Lemma quiet_handleStateDataError s b u e : quiet (handleStateDataError s b u e).
Proof. unfold handleStateDataError, setBrokenArtifactFlag. quiet. Qed.
Lemma quiet_HandleError s e : quiet (HandleError s e).
Proof.
  unfold HandleError, updateState_HandleError, committed_HandleError, setBrokenArtifactFlag, next.
  destruct s; quiet.
Qed.
Lemma quiet_ReportUpdateStatus u s : quiet (ReportUpdateStatus u s).
Proof. unfold ReportUpdateStatus. quiet. Qed.
Lemma quiet_sendDeploymentStatus u s t : quiet (sendDeploymentStatus u s t).
Proof. unfold sendDeploymentStatus, ReportUpdateStatus. quiet. Qed.
Lemma quiet_sendDeploymentLogs u t : quiet (sendDeploymentLogs u t).
Proof. unfold sendDeploymentLogs, UploadLog. quiet. Qed.
Lemma quiet_pool_change f : quiet (pool_change f).
Proof. unfold pool_change, now. quiet. Qed.
Lemma quiet_pool_query f : quiet (pool_query f).
Proof. unfold pool_query, now. quiet. Qed.
Lemma quiet_HandleControlMap id cm : quiet (HandleControlMap cfg id cm).
Proof. unfold HandleControlMap, pool_change, now. quiet. Qed.
Lemma quiet_run_scripts t a b r : quiet (run_scripts t a b r).
Proof. unfold run_scripts. quiet. Qed.
Lemma quiet_store_state n u i : quiet (store_state n u i).
Proof. unfold store_state. quiet. Qed.
Lemma quiet_InventoryRefresh : quiet InventoryRefresh.
Proof. unfold InventoryRefresh, GetCurrentArtifactName, getValueFromDatabaseKey. quiet. Qed.
Lemma quiet_CheckUpdate : quiet (CheckUpdate cfg).
Proof.
  unfold CheckUpdate, GetCurrentArtifactName, getValueFromDatabaseKey, GetProvides,
    HandleControlMap, pool_change, now. quiet.
Qed.
Lemma quiet_getNextState sd e : quiet (getNextState sd e).
Proof.
  unfold getNextState, updateState_HandleError, setBrokenArtifactFlag, RemoveStateData, next. quiet.
Qed.
Lemma quiet_reboot_type_loop l : forall u, quiet (reboot_type_loop l u).
Proof. induction l; intros; cbn [reboot_type_loop]; quiet. Qed.
Lemma quiet_queryUpdateModuleReboot l : forall u, quiet (queryUpdateModuleReboot l u).
Proof. induction l; intros; cbn [queryUpdateModuleReboot]; quiet. Qed.
Lemma quiet_supports_rollback_loop l : forall u, quiet (supports_rollback_loop l u).
Proof. induction l; intros; cbn [supports_rollback_loop]; quiet. Qed.
Lemma quiet_installer_indices : quiet installer_indices.
Proof. unfold installer_indices. quiet. Qed.
End quiet_handlers.

#[export] Hint Resolve quiet_setBrokenArtifactFlag quiet_handleStateDataError quiet_HandleError
  quiet_ReportUpdateStatus quiet_sendDeploymentStatus quiet_sendDeploymentLogs
  quiet_pool_change quiet_pool_query quiet_HandleControlMap quiet_run_scripts quiet_store_state
  quiet_InventoryRefresh quiet_CheckUpdate quiet_getNextState quiet_reboot_type_loop
  quiet_queryUpdateModuleReboot quiet_supports_rollback_loop quiet_installer_indices : quiet.

(** The states whose handler does not act. *)
Definition acts (s : State) : bool :=
  match s with
  | updateStoreState _ | updateInstallState _ | updateCommitState _ _
  | updateAfterFirstCommitState _ | updateRebootState _ | updateVerifyRebootState _
  | updateRollbackState _ | updateRollbackRebootState _ | updateVerifyRollbackRebootState _
  | updateErrorState _ _ | updateCleanupState _ _ _ => true
  | _ => false
  end.

Section quiet_states.
Context {DB D : Type} `{StoreLaws DB} `{Env D} `{SortMaps} (cfg : Config).
Context (E : Event -> Prop) `{!ActionPredicate E}.
Variable matcher : list string -> list string -> result (list string).

Notation quiet := (quiet (DB := DB) (D := D) E).

Lemma quiet_Handle s : acts s = false -> quiet (Handle cfg matcher s).
Proof.
  destruct s; cbn [acts]; intros ?; try discriminate; cbn [Handle];
    unfold panic, init_Handle, idle_Handle, checkWait_Handle, inventoryUpdate_Handle,
      updateCheck_Handle, inventoryUpdateRetry_Handle, errorState_Handle, updateFetch_Handle,
      updateAfterStore_Handle, fetchStoreRetry_Handle, updatePreCommitStatusReportRetry_Handle,
      updateAfterCommit_Handle, updateStatusReport_Handle, updateStatusReportRetry_Handle,
      updateRebootPauseRequested_Handle, updateAfterReboot_Handle,
      updateAfterRollbackReboot_Handle, controlMap_Handle, fetchControlMap_Handle,
      fetchRetryControlMap_Handle, controlMapPause_Handle, RefreshServerUpdateControlMap,
      RestoreInstallersFromTypeList, DeploymentLogger_Enable, DeploymentLogger_Disable,
      RemoveStateData, Wait, Wait_no_cancel, MultiplexWait, now, next; quiet.
Qed.
End quiet_states.

(** ** Actions on a fixed database *)

(** While the database holds [db0], the calls that [allowed] lets through may be
    made.  A [steady] program leaves the database alone; an [acting] one makes
    its actions before it changes the database. *)
Section acting.
Context {DB D : Type} `{StoreLaws DB} `{Env D}.
Context (E : Event -> Prop) `{!ActionPredicate E}.
Variable db0 : gmap string string.
Variable allowed : Call -> Prop.
Hypothesis E_allowed : forall c a, allowed c -> E (Ev c a db0).

Notation M := (M DB D).

Definition steady {A} (m : M A) : Prop := forall w, db_contents w = db0 ->
  wp E m (fun _ w' => db_contents w' = db0) w.
Definition acting {A} (m : M A) : Prop := forall w, db_contents w = db0 ->
  wp E m (fun _ _ => True) w.

Lemma steady_ret {A} (a : A) : steady (mret a).
Proof. intros w Hw. by apply wp_ret. Qed.
Lemma steady_bind {A B} (m : M A) (f : A -> M B) :
  steady m -> (forall a, steady (f a)) -> steady (m ≫= f).
Proof.
  intros Hm Hf w Hw. apply wp_bind. eapply wp_mono; [by apply Hm|done|].
  intros a w' Hw'. by apply Hf.
Qed.
Lemma steady_call c : is_action c = false \/ allowed c -> steady (call c).
Proof.
  intros Hc w Hw. apply wp_call.
  - intros a. rewrite Hw. destruct Hc; [by apply ip_call|by apply E_allowed].
  - intros a w' Hs. by rewrite (same_contents _ _ Hs).
Qed.
Lemma steady_get_ctx : steady get_ctx.
Proof. intros w ?. by apply wp_get_ctx. Qed.
Lemma steady_GetInstallers : steady GetInstallers.
Proof. intros w ?. by apply wp_GetInstallers. Qed.
Lemma steady_modify_ctx f : steady (modify_ctx f).
Proof. intros w ?. apply wp_modify_ctx. intros w' _ Hd *. unfold db_contents in *. by rewrite Hd. Qed.
Lemma steady_SetNextState s : steady (SetNextState s).
Proof. intros w ?. apply wp_SetNextState. intros w' _ Hd *. unfold db_contents in *. by rewrite Hd. Qed.

Lemma acting_quiet {A} (m : M A) : quiet E m -> acting m.
Proof. intros Hm w _. apply Hm. Qed.
Lemma acting_bind {A B} (m : M A) (f : A -> M B) :
  steady m -> (forall a, acting (f a)) -> acting (m ≫= f).
Proof.
  intros Hm Hf w Hw. apply wp_bind. eapply wp_mono; [by apply Hm|done|].
  intros a w' Hw'. by apply Hf.
Qed.
Lemma acting_bind_quiet {A B} (m : M A) (f : A -> M B) :
  acting m -> (forall a, quiet E (f a)) -> acting (m ≫= f).
Proof.
  intros Hm Hf w Hw. apply wp_bind. eapply wp_mono; [by apply Hm|done|].
  intros a w' _. by apply Hf.
Qed.

Lemma steady_for_each {A} l (f : nat -> M (option A)) :
  (forall n, steady (f n)) -> steady (for_each l f).
Proof.
  intros Hf. induction l as [|n l IH]; cbn [for_each]; [by apply steady_ret|].
  apply steady_bind; [done|]. intros [a|]; [by apply steady_ret|done].
Qed.

Lemma steady_commit_rest l : (forall n, allowed (CInstaller n OpCommitUpdate)) ->
  forall e, steady (commit_rest l e).
Proof.
  intros Ha. induction l; intros; cbn [commit_rest]; [apply steady_ret|].
  apply steady_bind; [apply (steady_call (CInstaller _ _)); auto|auto].
Qed.

Lemma steady_run_all op l : (forall n, allowed (CInstaller n op)) ->
  forall e, steady (run_all op l e).
Proof.
  intros Ha. induction l; intros; cbn [run_all]; [apply steady_ret|].
  apply steady_bind; [apply (steady_call (CInstaller _ _)); auto|auto].
Qed.
End acting.

(** [allowed] for a call, by assumption or by membership in a list. *)
Ltac stage := solve [auto | cbn; repeat constructor].

Ltac steady_step :=
  first
    [ solve [auto 2]
    | apply steady_ret
    | match goal with
      | Hall : forall c a, _ -> ?E (Ev c a ?db) |- steady ?E ?db (call ?c) =>
          solve [eapply (steady_call _ _ _ Hall c); first [left; reflexivity|right; stage]]
      | Hall : forall c a, _ -> ?E (Ev c a ?db) |- steady ?E ?db (run_all _ _ _) =>
          solve [eapply (steady_run_all _ _ _ Hall); intros; stage]
      | Hall : forall c a, _ -> ?E (Ev c a ?db) |- steady ?E ?db (commit_rest _ _) =>
          solve [eapply (steady_commit_rest _ _ _ Hall); intros; stage]
      end
    | apply steady_get_ctx | apply steady_GetInstallers | apply steady_modify_ctx
    | apply steady_SetNextState
    | apply steady_for_each; intros ?
    | apply steady_bind; [|intros ?]
    | match goal with
      | |- steady _ _ (match ?x with _ => _ end) => destruct x
      | |- steady _ _ (if ?x then _ else _) => destruct x
      end ].

Ltac steady := repeat steady_step.

Ltac acting_step :=
  first
    [ solve [auto 2]
    | apply acting_quiet; solve [quiet]
    | apply acting_bind; [solve [steady]|intros ?]
    | apply acting_bind_quiet; [|intros ?; solve [quiet]]
    | match goal with
      | |- acting _ _ (match ?x with _ => _ end) => destruct x
      | |- acting _ _ (if ?x then _ else _) => destruct x
      end ].

Ltac acting := repeat acting_step.

(** ** The handlers that act *)

Section acting_states.
Context {DB D : Type} `{StoreLaws DB} `{Env D} `{SortMaps} (cfg : Config).
Context (E : Event -> Prop) `{!ActionPredicate E}.
Variable matcher : list string -> list string -> result (list string).
Variable db0 : gmap string string.
Variable allowed : Call -> Prop.
Hypothesis E_allowed : forall c a, allowed c -> E (Ev c a db0).

Notation steady := (steady (DB := DB) (D := D) E db0).
Notation acting := (acting (DB := DB) (D := D) E db0).

Lemma steady_installer_indices : steady installer_indices.
Proof. unfold installer_indices. steady. Qed.

Lemma steady_ReportUpdateStatus u s : steady (ReportUpdateStatus u s).
Proof. unfold ReportUpdateStatus. steady. Qed.

Lemma steady_for_installers op : (forall n, allowed (CInstaller n op)) -> steady (for_installers op).
Proof. intros. unfold for_installers, installer_indices. steady. Qed.

(** The reboots that are asked for; the database changes only when a corrupt
    entry ends the loop. *)
Lemma reboot_loop_steady custom bad r l :
  (forall n, steady (custom n)) -> (forall e, quiet E (bad e)) ->
  forall b w, db_contents w = db0 ->
  wp E (reboot_loop custom bad l r b)
    (fun out w' => match out with inl _ => db_contents w' = db0 | inr _ => True end) w.
Proof.
  intros Hc Hb. induction l as [|n l IH]; intros b w Hw; cbn [reboot_loop]; [by apply wp_ret|].
  destruct (RebootRequested_Get n r) as [t|err].
  - case_bool_decide; [|by apply IH].
    apply wp_bind. eapply wp_mono; [by apply Hc|done|]. intros [s|] w' Hw'; [by apply wp_ret|].
    by apply IH.
  - apply wp_bind. eapply wp_mono; [by apply Hb|done|]. intros s w' _. by apply wp_ret.
Qed.

Lemma acting_reboot_loop {A} custom bad r l (k : bool + (State * bool) -> M DB D A) b :
  (forall n, steady (custom n)) -> (forall e, quiet E (bad e)) ->
  (forall b, acting (k (inl b))) -> (forall s, quiet E (k (inr s))) ->
  acting (reboot_loop custom bad l r b ≫= k).
Proof.
  intros Hc Hb Hl Hr w Hw. apply wp_bind.
  eapply wp_mono; [by apply reboot_loop_steady|done|]. intros [b'|s] w' Hw'; [by apply Hl|by apply Hr].
Qed.
End acting_states.

(** ** What the database says while the device is acted upon *)

(** The calls made in the course of a state. *)
Definition stage (c : Call) : list MenderState :=
  match c with
  | CStorePayloads => [MenderStateUpdateStore]
  | CInstaller _ op =>
      match op with
      | OpInstallUpdate => [MenderStateUpdateInstall]
      | OpCommitUpdate => [MenderStateUpdateCommit; MenderStateUpdateAfterFirstCommit]
      | OpRollback => [MenderStateRollback]
      | OpReboot => [MenderStateReboot]
      | OpVerifyReboot => [MenderStateAfterReboot]
      | OpRollbackReboot => [MenderStateRollbackReboot]
      | OpVerifyRollbackReboot => [MenderStateVerifyRollbackReboot]
      | OpFailure => [MenderStateUpdateError]
      | OpCleanup => [MenderStateUpdateCleanup]
      end
  | CSystemReboot => [MenderStateReboot; MenderStateRollbackReboot]
  | _ => []
  end.

(** The database holds the update [u], in state [n], as state data of the
    current version; the counter is a 64-bit value if those of [u] are. *)
Definition records (db : gmap string string) (u : UpdateInfo) (n : MenderState) : Prop :=
  exists c, (counters_ok u -> int64_ok c) /\ db !! state_key u =
    Some (marshal_StateData (mkStateData StateDataVersion n (set_StateDataStoreCount c u))).

(** Whatever acts on the device does so while the database names the state it
    belongs to. *)
Definition recorded (e : Event) : Prop :=
  match e with
  | Ev c _ db => is_action c = true -> exists u n, n ∈ stage c /\ records db u n
  | EvDB _ => True
  end.

#[export] Instance recorded_action : ActionPredicate recorded.
Proof. split; [done|]. intros c a db Hc. cbn. by rewrite Hc. Qed.

Section recorded.
Context {DB D : Type} `{StoreLaws DB} `{Env D} `{SortMaps} (cfg : Config).
Variable matcher : list string -> list string -> result (list string).

Notation M := (M DB D).

Lemma existing_store_count_ok {T} `{Transaction T} key u (txn : T) c :
  counters_ok u -> existing_store_count key u txn = set_StateDataStoreCount c u -> int64_ok c.
Proof.
  unfold existing_store_count. intros Hu.
  assert (u = set_StateDataStoreCount c u -> int64_ok c) as Hown.
  { intros Heq. destruct Hu as [Hu _]. rewrite Heq in Hu. by destruct u. }
  destruct (ReadAll key txn) as [d|]; [|done].
  destruct (unmarshal_StateData d) as [sd|] eqn:Hd; [|done].
  intros Heq. apply (f_equal StateDataStoreCount) in Heq. cbn in Heq. subst c.
  by apply unmarshal_int_fields in Hd as (_ & ? & _).
Qed.

Lemma StoreStateData_records (db db' : DB) n u inc :
  StoreStateData db (mkStateData 0 n u) inc = (None, db') -> records (contents db') u n.
Proof.
  unfold StoreStateData, StoreStateDataAndTransaction.
  change (if Version (mkStateData 0 n u) =? 0 then _ else _)
    with (mkStateData StateDataVersion n u).
  set (sd := mkStateData _ n u).
  destruct (WriteTransaction_spec false (StoreStateData_txn sd inc None) db)
    as [e s1 H1'|t a e t1 s1 H1' H2' H3'|t a e t1 s1 H1' H2' H3'|t a t1 s1 H1' H2' H3'];
    try destruct a; try done.
  intros [= <-]. rewrite H3'.
  apply StoreStateData_txn_ok in H2' as (txn1 & c & -> & Hc & _ & ->).
  exists (next_store_count inc c). split; [|by rewrite lookup_insert_eq].
  intros Hu. apply next_store_count_range.
  apply (existing_store_count_ok _ _ _ _ Hu Hc).
Qed.

Lemma store_state_records E `{!ActionPredicate E} n u inc (w : World DB D) :
  wp E (store_state n u inc)
    (fun err w' => err = None -> records (db_contents w') u n) w.
Proof.
  unfold store_state. apply wp_db_op; [intros; apply ip_db|].
  intros err w' Hs _ ->. by eapply StoreStateData_records.
Qed.

Lemma records_allowed db u n c a : records db u n -> n ∈ stage c -> recorded (Ev c a db).
Proof. intros Hr Hn _. by exists u, n. Qed.

Notation acting := (acting (DB := DB) (D := D) recorded).

(** The states whose handler acts at once, on what the transition recorded. *)
Lemma acting_Handle s u db :
  state_Update s = Some u -> records db u (state_Id s) ->
  (forall u, s <> updateStoreState u) -> acting db (Handle cfg matcher s).
Proof.
  intros Hu Hr Hs.
  pose proof recorded_action as HE.
  destruct (acts s) eqn:Ha; [|by apply acting_quiet, quiet_Handle].
  assert (forall c a, state_Id s ∈ stage c -> recorded (Ev c a db)) as Hall.
  { intros c a. by eapply records_allowed. }
  destruct s; try discriminate Ha; try (exfalso; by eapply Hs); cbn [Handle state_Id] in *;
    unfold updateInstall_Handle, updateCommit_Handle, updateAfterFirstCommit_Handle,
      updateError_Handle, updateCleanup_Handle, updateVerifyReboot_Handle, updateRollback_Handle,
      updateVerifyRollbackReboot_Handle, handleRebootType, commit_store, sendDeploymentStatus,
      ReportUpdateStatus, for_installers, installer_indices,
      DeploymentLogger_Enable, next; clear Hs Hu.
  all: try solve [acting].
  all: unfold updateReboot_Handle, updateRollbackReboot_Handle, ReportUpdateStatus,
    installer_indices, next, DeploymentLogger_Enable.
  all: repeat acting_step; apply acting_reboot_loop; intros; [steady|quiet|acting|quiet].
Qed.

(** What follows a store that succeeds acts on what was stored. *)
Lemma quiet_store {A} n u inc (k : option error -> M A) :
  (forall e, quiet recorded (k (Some e))) ->
  (forall db, records db u n -> acting db (k None)) ->
  quiet recorded (store_state n u inc ≫= k).
Proof.
  intros Hs Hn w. apply wp_bind. eapply wp_mono; [by apply store_state_records, recorded_action|done|].
  intros [e|] w' Hw'; [by apply Hs|]. eapply Hn; [by apply Hw'|done].
Qed.

(** Storing the payloads comes after storing the update it has become. *)
Lemma updateStore_quiet u : quiet (DB := DB) (D := D) recorded (updateStore_Handle u).
Proof.
  pose proof recorded_action as HE.
  unfold updateStore_Handle, handleSupportsRollback, maybeVerifyArtifactDependsAndProvides,
    check_depends, verifyAndSetArtifactNameInProvides, GetCurrentArtifactName,
    getValueFromDatabaseKey, ReadArtifactHeaders, DeploymentLogger_Enable, next.
  repeat match goal with
         | |- quiet _ (mbind _ (store_state _ _ _)) => fail 1
         | _ => quiet_step
         end.
  apply quiet_store; [intros; quiet|]. intros db Hr.
  assert (forall c a, MenderStateUpdateStore ∈ stage c -> recorded (Ev c a db)) as Hall.
  { intros c a'. by eapply records_allowed. }
  acting.
Qed.

(** ** Transitions *)

Lemma quiet_leave E `{!ActionPredicate E} from to r : quiet (DB := DB) (D := D) E (leave from to r).
Proof. unfold leave, Transition_Error, Transition_Leave. quiet. Qed.

Lemma acting_enter_and_handle from to r u db :
  state_Update to = Some u -> records db u (state_Id to) ->
  acting db (enter_and_handle cfg matcher from to r).
Proof.
  intros Hu Hr. pose proof recorded_action as HE. unfold enter_and_handle. apply acting_bind.
  { unfold Transition_Enter, run_scripts.
    assert (forall c a, False -> recorded (Ev c a db)) as Hall by done. steady. }
  intros [e|]; [apply acting_quiet; quiet|].
  assert ((exists u, to = updateStoreState u) \/ (forall u, to <> updateStoreState u))
    as [[u' ->]|Hs] by (destruct to; eauto; by right).
  - by apply acting_quiet, updateStore_quiet.
  - by eapply acting_Handle.
Qed.

Lemma store_transition_records from to u (w : World DB D) :
  state_Update to = Some u ->
  wp recorded (store_transition from to)
    (fun out w' => out = None -> records (db_contents w') u (state_Id to)) w.
Proof.
  intros Hu. pose proof recorded_action as HE. unfold store_transition. rewrite Hu.
  apply wp_bind. eapply wp_mono; [by apply store_state_records|done|].
  intros [e|] w' Hw'; [|by apply wp_ret; intros _; apply Hw'].
  apply wp_bind. eapply wp_mono; [by apply quiet_HandleError|done|]. intros [s c] w'' _.
  apply wp_bind. eapply wp_mono; [by apply quiet_handleStateDataError|done|]. intros s' w3 _.
  by apply wp_ret.
Qed.

Lemma transitionState_quiet to :
  quiet (DB := DB) (D := D) recorded (transitionState cfg matcher to).
Proof.
  pose proof recorded_action as HE. unfold transitionState.
  apply quiet_bind; [apply quiet_GetCurrentState|intros from].
  apply quiet_bind; [by apply quiet_leave|]. intros [report [s|]]; [quiet|].
  apply quiet_bind; [apply quiet_SetNextState|intros _].
  destruct (state_Update to) as [u|] eqn:Hu.
  - intros w. apply wp_bind.
    eapply wp_mono; [by eapply store_transition_records|done|].
    intros [s|] w' Hw'; [by apply wp_ret|].
    eapply acting_enter_and_handle; [done|by apply Hw'|done].
  - unfold store_transition. rewrite Hu.
    apply quiet_bind; [apply quiet_ret|]. intros [s|]; [quiet|].
    unfold enter_and_handle, Transition_Enter.
    assert (quiet (DB := DB) (D := D) recorded (Handle cfg matcher to)) as Hh.
    { apply quiet_Handle; [done|by destruct to]. }
    quiet.
Qed.

Lemma turn_quiet tick s : quiet (DB := DB) (D := D) recorded (turn cfg matcher tick s).
Proof.
  pose proof recorded_action as HE. pose proof transitionState_quiet as Ht.
  unfold turn. apply quiet_bind; [|intros _].
  { induction (dbus_maps tick); cbn [receive_maps]; unfold receive_map; quiet. }
  destruct (match forced tick with Some _ => _ | None => _ end) as [s' b].
  unfold now. quiet.
Qed.

Lemma loop_quiet ticks : forall s, quiet (DB := DB) (D := D) recorded (loop cfg matcher ticks s).
Proof.
  induction ticks as [|t ticks IH]; intros s; cbn [loop]; [apply quiet_ret|].
  apply quiet_bind; [apply turn_quiet|]. intros [s'| |e]; quiet.
Qed.
End recorded.

(** ** Properties *)

(** C2: nothing acts on the device unrecorded.  Whatever the server, the
    installers, the scripts, the clock and the store do, whatever state the loop
    starts in and however often the operator forces a state, each installer
    operation, each write of the payloads and each reboot happens while the
    database holds, as state data of the current version, the update and a
    state that the action belongs to. *)
Theorem actions_are_recorded {DB D} `{StoreLaws DB} `{Env D} `{SortMaps} cfg matcher
    ticks s (w : World DB D) :
  exists l, w_log (loop cfg matcher ticks s w).2 = l ++ w_log w /\ Forall recorded l.
Proof.
  destruct (loop_quiet cfg matcher ticks s w) as (l & Hl & HE & _). by exists l.
Qed.
