(* ===== verification/Restart.v ===== *)
(** * Restart: where an interrupted update goes on

    What [initState] makes of the state data that an earlier process left
    behind, for a process killed while it acted on the device. *)

From S2P Require Import Prelude Json Store StateData DataStore Client ControlMap ControlMapPool.
From S2P Require Import States World Controller Handlers Mender Triples Recovery Scenario.
Import MapStore.

Open Scope Z_scope.

(** ** The state a recorded state resumes in *)

(** The update as it is loaded: its counter moves on, and empty fields that are
    left out of the JSON text are nil; an update that migrates the database is
    taken to be one of the root file system. *)
Definition loaded_update (c : Z) (u : UpdateInfo) : UpdateInfo :=
  set_StateDataStoreCount c
    (updateInfo (loaded_form (normalize (mkStateData StateDataVersion MenderStateInit u)))).

Definition flagged (u : UpdateInfo) (db : gmap string string) : Prop :=
  db !! ArtifactNameKey = Some (ArtifactName (artifact u) +:+ BrokenArtifactSuffix).

(** Roll back if the payloads can; otherwise the artifact is flagged. *)
Definition rolls_back (u : UpdateInfo) (s : State) (db : gmap string string) : Prop :=
  if bool_decide (SupportsRollback u = RollbackSupported) then s = updateRollbackState u
  else (exists e, s = updateErrorState e u) /\ flagged u db.

Definition resumed (n : MenderState) (u : UpdateInfo) (s : State) (db : gmap string string) :
    Prop :=
  match n with
  | MenderStateUpdateStore => s = NewUpdateCleanupState u StatusFailure
  | MenderStateUpdateInstall | MenderStateUpdateCommit | MenderStateAfterReboot
  | MenderStateRollback => rolls_back u s db
  | MenderStateReboot => s = updateVerifyRebootState u
  | MenderStateRollbackReboot | MenderStateVerifyRollbackReboot =>
      s = updateVerifyRollbackRebootState u
  | MenderStateUpdateAfterFirstCommit => s = updateAfterFirstCommitState u
  | MenderStateUpdateError => exists e, s = updateErrorState e u
  | MenderStateUpdateCleanup => s = NewUpdateCleanupState u StatusFailure
  | _ => True
  end.

(** After a restart: the state is resumed, or the update is given up, because
    the state data was stored too often or its installers cannot be made. *)
Definition restarts (n : MenderState) (u : UpdateInfo) (s : State)
    (db : gmap string string) (log : list Event) : Prop :=
  exists c, let u := loaded_update c u in
  resumed n u s db \/
  s = NewUpdateStatusReportState u StatusFailure /\
  (flagged u db \/
   exists l e db' log', log =
     Ev (CCreateInstallersFromList (PayloadTypes (artifact u))) (l, Some e) db' :: log').

Section restart.
Context {DB D : Type} `{ReliableStore DB} `{Env D}.

Notation World := (World DB D).

Lemma wp_setBrokenArtifactFlag E n Q (w : World) :
  (forall db, E (EvDB db)) ->
  (forall w', db_contents w' !! ArtifactNameKey = Some (n +:+ BrokenArtifactSuffix) -> Q () w') ->
  wp E (setBrokenArtifactFlag n) Q w.
Proof.
  intros HE HQ. unfold setBrokenArtifactFlag. apply wp_bind, wp_db_op; [auto|].
  intros a w' Hw _. apply wp_ret, HQ. unfold db_contents.
  destruct (rel_write ArtifactNameKey (n +:+ BrokenArtifactSuffix) (w_db w)) as (db & Hdb & Hc).
  rewrite Hdb in Hw. injection Hw as _ ->. rewrite Hc. apply lookup_insert_eq.
Qed.

Lemma wp_rolls_back E u e (w : World) :
  (forall db, E (EvDB db)) ->
  wp E (updateState_HandleError u e) (fun r w' => rolls_back u r.1 (db_contents w')) w.
Proof.
  intros HE. unfold updateState_HandleError, rolls_back, next. case_bool_decide; [by apply wp_ret|].
  apply wp_bind, wp_setBrokenArtifactFlag; [done|]. intros w' Hw'. apply wp_ret. eauto.
Qed.

Lemma getNextState_resumed E n u v e (w : World) :
  (forall db, E (EvDB db)) ->
  wp E (getNextState (mkStateData v n u) e)
    (fun r w' => resumed n u r.1 (db_contents w')) w.
Proof.
  intros HE. destruct n; cbn [getNextState Name updateInfo resumed];
    try (apply wp_ret; by eauto); try (by apply wp_rolls_back);
    try (eapply wp_mono; [apply wp_rolls_back|..]; done).
  apply wp_bind, wp_db_op; [auto|]. intros [?|] w' _ _; by apply wp_ret.
Qed.

(** The state data [records] speaks of is what the next start loads. *)
Lemma LoadStateData_records (db : DB) u n :
  records (contents db) u n -> counters_ok u ->
  (HasDBSchemaUpdate u = true -> migrates (contents db) u) ->
  exists c db' b, LoadStateData db =
    (mkStateData StateDataVersion n (loaded_update c u), count_error b, db').
Proof.
  intros (c & Hc & Hr) Hu Hs. specialize (Hc Hu).
  set (sd := mkStateData StateDataVersion n (set_StateDataStoreCount c u)) in *.
  assert (int_fields_ok sd) as Hok.
  { split; [by split|]. split; [done|]. by destruct Hu. }
  pose proof (unmarshal_marshal_StateData sd Hok) as Hd.
  exists (next_store_count true (store_count (normalize sd))).
  unfold state_key in Hr. destruct (HasDBSchemaUpdate u) eqn:Hh.
  - destruct (LoadStateData_uncommitted db _ _ Hr Hd (Hs eq_refl)) as (db' & Hl & _).
    exists db', (store_count_exceeded (store_count (normalize sd))). rewrite Hl. f_equal. f_equal.
    unfold loaded_update, loaded_form. destruct u as [a i r s sc h t]. cbn in Hh. by subst h.
  - destruct (LoadStateData_current db _ _ Hr Hd) as (db' & Hl & _); [done|].
    exists db', (store_count_exceeded (store_count (normalize sd))). rewrite Hl. f_equal. f_equal.
    unfold loaded_update, loaded_form. destruct u as [a i r s sc h t]. cbn in Hh. by subst h.
Qed.

Lemma init_Handle_restarts E n u (w : World) :
  (forall e, E e) ->
  records (db_contents w) u n -> counters_ok u ->
  (HasDBSchemaUpdate u = true -> migrates (db_contents w) u) ->
  wp E init_Handle (fun r w' => restarts n u r.1 (db_contents w') (w_log w')) w.
Proof.
  intros HE Hr Hu Hs. destruct (LoadStateData_records _ _ _ Hr Hu Hs) as (c & db' & b & Hl).
  unfold init_Handle. apply wp_bind, wp_db_op; [auto|]. intros [sd err] w1 Hw1 _.
  rewrite Hl in Hw1. injection Hw1 as <- <- _. unfold restarts.
  destruct b; cbn [count_error].
  - change (IsNotExist MaximumStateDataStoreCountExceeded) with false.
    rewrite bool_decide_false by naive_solver.
    apply wp_bind. unfold DeploymentLogger_Enable. apply (wp_call _ (CLogEnable _)); [auto|].
    intros _ w2 _. unfold handleStateDataError. rewrite bool_decide_true by done.
    apply wp_bind, wp_setBrokenArtifactFlag; [auto|]. intros w3 Hw3. apply wp_ret.
    exists c. right. split; [done|]. by left.
  - apply wp_bind. apply (wp_call _ (CLogEnable _)); [auto|]. intros _ w2 _.
    unfold RestoreInstallersFromTypeList. apply wp_bind, wp_bind.
    apply (wp_call_log _ (CCreateInstallersFromList _)); [auto|].
    intros [l [e|]] w3 _ Hlog.
    + apply wp_bind, wp_set_installers. intros w4 _ _ _ _ _ Hlog4. apply wp_ret, wp_ret.
      exists c. right. split; [done|]. right. do 4 eexists. by rewrite Hlog4, Hlog.
    + apply wp_bind, wp_set_installers. intros w4 _ _ _ _ _ _. apply wp_ret.
      eapply wp_mono; [apply (getNextState_resumed E); auto|done|]. intros r w5 Hr5. exists c. by left.
Qed.
End restart.

(** ** Properties *)

(** What an action leaves behind for the next start: the update and a state
    the action belongs to, from which the next start goes on. *)
Definition recoverable (DB D : Type) `{StoreLaws DB} `{Env D} (e : Event) : Prop :=
  match e with
  | Ev c _ db => is_action c = true ->
      exists u n, n ∈ stage c /\ records db u n /\
        (counters_ok u -> (HasDBSchemaUpdate u = true -> migrates db u) ->
         forall w0 : World DB D, db_contents w0 = db ->
           let '((s, _), w1) := init_Handle w0 in
           restarts n u s (db_contents w1) (w_log w1))
  | EvDB _ => True
  end.


