(* ===== verification/WrapUp.v ===== *)
(** * WrapUp: after the first commit

    From the first commit on, an update goes through cleanup and the final
    report to the idle state.  Here: it always gets there, in a bounded number
    of turns, and on the way no installer is asked to do anything but commit and
    clean up - provided that the scripts of the [Error] state succeed and the
    store works.  Why the first condition is needed is shown at the end. *)

From S2P Require Import Prelude Json Store StateData DataStore Client ControlMap ControlMapPool.
From S2P Require Import States World Controller Handlers Mender Triples Scenario.
Import MapStore.

Open Scope Z_scope.

(** ** Pool operations and the other entries of the database *)

Section pool_entries.
Context {DB : Type} `{StoreLaws DB}.

Lemma saveToStore_entry now c (s : DB) k : k <> UpdateControlMaps ->
  contents (saveToStore now c s) !! k = contents s !! k.
Proof.
  intros Hk. unfold saveToStore.
  assert (forall v, contents (WriteAll UpdateControlMaps v s).2 !! k = contents s !! k) as Hw.
  { intros v. destruct (WriteAll UpdateControlMaps v s) as [[e|] s'] eqn:E; cbn.
    - by rewrite (WriteAll_err _ _ _ _ _ E).
    - rewrite (WriteAll_ok _ _ _ _ E). by rewrite lookup_insert_ne. }
  destruct (query _ (Pool c)), (query (ControlMap.Expired now) (Pool c)); try apply Hw.
  destruct (Remove UpdateControlMaps s) as [[e|] s'] eqn:E; cbn.
  - by rewrite (Remove_err _ _ _ _ E).
  - rewrite (Remove_ok _ _ _ E). by rewrite lookup_delete_ne.
Qed.
End pool_entries.

(** ** Programs that leave an entry and the current state alone *)

Section keeps.
Context {DB D : Type} `{StoreLaws DB} `{Env D}.
Context (E : Event -> Prop) (E_db : forall db, E (EvDB db)).
Variable k : string.
Hypothesis k_pool : k <> UpdateControlMaps.

Notation M := (M DB D).
Notation World := (World DB D).

Definition kept (w w' : World) : Prop :=
  db_contents w' !! k = db_contents w !! k /\ w_state w' = w_state w.

Definition keeps {A} (m : M A) : Prop := forall w, wp E m (fun _ w' => kept w w') w.

Lemma kept_trans w1 w2 w3 : kept w1 w2 -> kept w2 w3 -> kept w1 w3.
Proof. intros [] []. split; congruence. Qed.

Lemma keeps_wp {A} (m : M A) Q w :
  keeps m -> (forall a w', kept w w' -> Q a w') -> wp E m Q w.
Proof. intros Hm HQ. eapply wp_mono; [apply Hm|done|auto]. Qed.

Lemma keeps_ret {A} (a : A) : keeps (mret a).
Proof. intros w. by apply wp_ret. Qed.
Lemma keeps_bind {A B} (m : M A) (f : A -> M B) :
  keeps m -> (forall a, keeps (f a)) -> keeps (m ≫= f).
Proof.
  intros Hm Hf w. apply wp_bind, keeps_wp; [done|]. intros a w' Hw.
  apply keeps_wp; [done|]. intros. by eapply kept_trans.
Qed.
Lemma keeps_call c : (forall a db, E (Ev c a db)) -> keeps (call c).
Proof.
  intros Hc w. apply wp_call; [auto|]. intros a w' Hs. split.
  - by rewrite (same_contents _ _ Hs).
  - apply (same_state _ _ Hs).
Qed.
Lemma keeps_GetInstallers : keeps GetInstallers.
Proof. intros w. by apply wp_GetInstallers. Qed.
Lemma keeps_modify_ctx f : keeps (modify_ctx f).
Proof.
  intros w. apply wp_modify_ctx. intros w' _ Hd _ _ Hs. split; [|done].
  unfold db_contents. by rewrite Hd.
Qed.
Lemma keeps_pool_change f :
  (forall a db, E (Ev CNow a db)) ->
  (forall t p (db : DB), contents (f t p db).2 !! k = contents db !! k) ->
  keeps (pool_change f).
Proof.
  intros Hn Hf. unfold pool_change. apply keeps_bind; [by apply (keeps_call CNow)|]. intros t w.
  apply wp_pool_op; [auto|]. intros a w' Hw _ _ Hs. split; [|done].
  unfold db_contents. rewrite <- (Hf t (w_pool w) (w_db w)).
  by destruct (f t (w_pool w) (w_db w)) as [p db]; cbn; injection Hw as _ _ ->.
Qed.
Lemma keeps_setBrokenArtifactFlag n : k <> ArtifactNameKey -> keeps (setBrokenArtifactFlag n).
Proof.
  intros Hk. unfold setBrokenArtifactFlag. apply keeps_bind; [|intros; apply keeps_ret].
  intros w. apply wp_db_op; [auto|]. intros a w' Hw [_ _ _ Hs]. split; [|done].
  unfold db_contents. destruct a as [e|].
  - by rewrite (WriteAll_err _ _ _ _ _ Hw).
  - rewrite (WriteAll_ok _ _ _ _ Hw). by rewrite lookup_insert_ne.
Qed.
End keeps.

Lemma deleteMaps_entry {DB : Type} `{StoreLaws DB} now f c (s : DB) k :
  k <> UpdateControlMaps -> contents (deleteMaps now f c s).2 !! k = contents s !! k.
Proof. intros Hk. by apply saveToStore_entry. Qed.

Lemma SetUpdateControlMap_entry {DB : Type} `{StoreLaws DB} now t cm c (s : DB) k :
  k <> UpdateControlMaps -> contents (SetUpdateControlMap now t cm c s).2 !! k = contents s !! k.
Proof.
  intros Hk. unfold SetUpdateControlMap. case_bool_decide; by apply saveToStore_entry.
Qed.

Lemma wp_call_env {DB D} `{StoreLaws DB} `{Env D} (E : Event -> Prop) c Q (w : World DB D) :
  (forall a, E (Ev c a (db_contents w))) ->
  (forall w', same w w' -> Q (env_step c (w_env w)).1 w') ->
  wp E (call c) Q w.
Proof.
  intros HE HQ. unfold wp, call. destruct (env_step c (w_env w)) as [a d] eqn:He. cbn.
  exists [Ev c a (db_contents w)]. split; [done|]. split; [by constructor|].
  by apply (HQ (mkWorld _ d _ _ _ _ _)).
Qed.

(** ** Room for further stores *)

Definition room (k : Z) (u : UpdateInfo) (db : gmap string string) : Prop :=
  stored_count db (state_key u) (StateDataStoreCount u) + k <= 29.

Lemma stored_count_ok db key own : int64_ok own -> int64_ok (stored_count db key own).
Proof.
  intros Hown. unfold stored_count. destruct (db !! key) as [d|]; [|done].
  destruct (unmarshal_StateData d) as [sd|] eqn:Hd; [|done].
  by apply unmarshal_int_fields in Hd as (_ & ? & _).
Qed.

Lemma room_mono k k' u db : k' <= k -> room k u db -> room k' u db.
Proof. unfold room. lia. Qed.

Lemma room_lookup k u u' db db' :
  state_key u' = state_key u -> StateDataStoreCount u' = StateDataStoreCount u ->
  db' !! state_key u = db !! state_key u -> room k u db -> room k u' db'.
Proof. unfold room, stored_count. intros -> -> ->. done. Qed.

Lemma state_key_pool u : state_key u <> UpdateControlMaps.
Proof. unfold state_key. by destruct (HasDBSchemaUpdate u). Qed.
Lemma state_key_name u : state_key u <> ArtifactNameKey.
Proof. unfold state_key. by destruct (HasDBSchemaUpdate u). Qed.

(** A store succeeds while there is room, and takes one place if it counts. *)
Lemma store_state_room {DB D} `{ReliableStore DB} `{Env D} (E : Event -> Prop) n u (inc : bool) k
    (w : World DB D) :
  (forall db, E (EvDB db)) -> counters_ok u -> (if inc then 1 else 0) <= k ->
  room k u (db_contents w) ->
  wp E (store_state n u inc)
    (fun err w' => err = None /\ w_state w' = w_state w /\
       room (k - (if inc then 1 else 0)) u (db_contents w')) w.
Proof.
  intros HE Hu Hk Hroom. unfold store_state. apply wp_db_op; [auto|].
  intros err w' Hw [_ _ _ Hs].
  destruct (StoreStateData_reliable (w_db w) (mkStateData 0 n u) inc) as (s' & Hst & Hc).
  rewrite Hst in Hw. injection Hw as <- ->. cbn [updateInfo] in *. unfold store_count in *.
  cbn [updateInfo] in *. unfold room in *. fold (db_contents w) in *.
  pose proof (stored_count_ok (db_contents w) (state_key u) _ (proj1 Hu)) as Hok.
  set (c := stored_count (db_contents w) (state_key u) (StateDataStoreCount u)) in *.
  assert (store_count_exceeded c = false) as Hex.
  { unfold store_count_exceeded, MaximumStateDataStoreCount. destruct inc; lia. }
  rewrite Hex. split; [done|]. split; [done|].
  assert (next_store_count inc c = c + (if inc then 1 else 0)) as Hnext.
  { unfold next_store_count. rewrite Hex. unfold int64_ok, int64_min, int64_max in *.
    destruct inc; [|lia]. rewrite int64_id; [done|]. unfold int64_min, int64_max. lia. }
  unfold db_contents at 1, stored_count. rewrite Hc, lookup_insert_eq.
  unfold stored_form, store_count. cbn [updateInfo]. fold (db_contents w). fold c. rewrite Hnext.
  rewrite unmarshal_marshal_StateData; [cbn; destruct inc; lia|].
  destruct Hu as [_ Hr]. split; [by split|]. split; [|done]. cbn.
  unfold int64_ok, int64_min, int64_max in *. destruct inc; lia.
Qed.

(** ** Sending *)

Section sending.
Context {DB D : Type} `{StoreLaws DB} `{Env D}.
Context (E : Event -> Prop) (k : string).
Hypothesis E_report : forall id st a db, E (Ev (CReportStatus id st) a db).
Hypothesis E_logs : forall id a db, E (Ev (CGetLogs id) a db).
Hypothesis E_upload : forall id l a db, E (Ev (CUploadLog id l) a db).

Lemma wp_sendDeploymentStatus u st n (w : World DB D) :
  wp E (sendDeploymentStatus u st n)
    (fun r w' => kept k w w' /\
       exists x err, int64_ok x /\ r = (set_StatusReportRetryAttempts x u, int64 (n + 1), err)) w.
Proof.
  unfold sendDeploymentStatus, ReportUpdateStatus. apply wp_bind, wp_bind.
  apply (wp_call _ (CReportStatus _ _)); [auto|]. intros a w' Hs. apply wp_ret, wp_ret.
  split; [by split; [rewrite (same_contents _ _ Hs)|apply (same_state _ _ Hs)]|].
  destruct (match Report a with Some _ => _ | None => _ end) as [e|];
    do 2 eexists; (split; [|done]); [apply int64_range|done].
Qed.

Lemma wp_sendDeploymentLogs u n (w : World DB D) :
  wp E (sendDeploymentLogs u n)
    (fun r w' => kept k w w' /\
       ((exists e, r = (n, Some e) /\ fatal e = true) \/ r.1 = int64 (n + 1))) w.
Proof.
  unfold sendDeploymentLogs, UploadLog. apply wp_bind.
  apply (wp_call _ (CGetLogs _)); [auto|]. intros [logs|e] w' Hs.
  - apply wp_bind, wp_bind. apply (wp_call _ (CUploadLog _ _)); [auto|]. intros a w2 Hs2.
    apply wp_ret, wp_ret. split.
    + split; [by rewrite (same_contents _ _ Hs2), (same_contents _ _ Hs)|].
      by rewrite (same_state _ _ Hs2), (same_state _ _ Hs).
    + right. by destruct (match Upload a with Some _ => _ | None => _ end).
  - apply wp_ret. split; [|left; by eexists].
    split; [by rewrite (same_contents _ _ Hs)|apply (same_state _ _ Hs)].
Qed.
End sending.

(** ** The way to idle *)

(** The tries that are left of the report and of the logs. *)
Definition tries_left (max a b : Z) : Z := Z.max 0 (max - 1 - a) + Z.max 0 (max - b).

Definition report_ok (max a b : Z) : Prop :=
  0 <= a /\ 0 <= b < max /\ a + tries_left max a b <= 2 * max.

(** Leaving the state runs no script. *)
Definition silent (s : State) : bool :=
  bool_decide (state_Transition s = ToNone)
  || bool_decide (getName (state_Transition s) "Leave" = EmptyString).

(** [winding max from to u rank k]: the machine is about to go from [from] to
    [to] on its way to idle; it gets there in at most [rank] turns, of which at
    most [k] are counted against loops. *)
Inductive winding (max : Z) (from : State) : State -> UpdateInfo -> Z -> Z -> Prop :=
  | wind_first u : silent from = true ->
      winding max from (updateAfterFirstCommitState u) u (2 * (2 * max) + 5) 4
  | wind_after u : silent from = true ->
      winding max from (updateAfterCommitState u) u (2 * (2 * max) + 4) 3
  | wind_cleanup u st : silent from = true \/ from = updateAfterCommitState u ->
      winding max from (updateCleanupState ToNone u st) u (2 * (2 * max) + 3) 2
  | wind_cleanup_error u st : silent from = true \/ from = updateAfterCommitState u ->
      winding max from (updateCleanupState ToError u st) u (2 * (2 * max) + 2) 2
  | wind_report u st a b :
      silent from = true \/ state_Transition from = ToError -> report_ok max a b ->
      winding max from (updateStatusReportState u st a b) u (2 * tries_left max a b + 3) 1
  | wind_report_again u st a b r u' st' n :
      from = updateStatusReportRetryState r u' st' n -> report_ok max a b ->
      winding max from (updateStatusReportState u st a b) u (2 * tries_left max a b + 3) 0
  | wind_retry u st a b n : silent from = true -> (n < max -> report_ok max a b) ->
      winding max from
        (updateStatusReportRetryState (updateStatusReportState u st a b) u st n) u
        (if n <? max then 2 * tries_left max a b + 4 else 1) 0.

(** The installers are only asked to commit and to clean up. *)
Definition only_finishes (e : Event) : Prop :=
  match e with
  | Ev (CInstaller _ op) _ _ => op = OpCommitUpdate \/ op = OpCleanup
  | Ev CStorePayloads _ _ | Ev CSystemReboot _ _ => False
  | _ => True
  end.

Section winding.
Context {DB D : Type} `{ReliableStore DB} `{Env D} `{SortMaps} (cfg : Config).
Variable matcher : list string -> list string -> result (list string).

Notation World := (World DB D).
Notation winding := (winding (max_tries cfg)).
Notation wp := (wp (DB := DB) (D := D) only_finishes).

(** What a turn leaves: the machine is idle or cancelled, or closer to idle. *)
Definition progress (rank : Z) (r : State * bool) (w : World) : Prop :=
  (r.2 = true /\ is_Some (state_Update r.1)) \/ r.1 = idleState \/
  exists u rank' k, winding (w_state w) r.1 u rank' k /\ rank' < rank /\
    counters_ok u /\ room k u (db_contents w).

Lemma only_finishes_db db : only_finishes (EvDB db).
Proof. done. Qed.

Lemma keeps_commit_rest k l : forall e, keeps (DB := DB) (D := D) only_finishes k (commit_rest l e).
Proof.
  induction l; intros; cbn [commit_rest]; [apply keeps_ret|].
  apply keeps_bind; [apply (keeps_call _ _ (CInstaller _ _)); cbn; auto|auto].
Qed.

Lemma keeps_cleanup k l : forall e,
  keeps (DB := DB) (D := D) only_finishes k (run_all OpCleanup l e).
Proof.
  induction l; intros; cbn [run_all]; [apply keeps_ret|].
  apply keeps_bind; [apply (keeps_call _ _ (CInstaller _ _)); cbn; auto|auto].
Qed.

Lemma keeps_installer_indices k : keeps (DB := DB) (D := D) only_finishes k installer_indices.
Proof. unfold installer_indices. apply keeps_bind; [apply keeps_GetInstallers|intros; apply keeps_ret]. Qed.

(** Going on to cleanup after an error. *)
Lemma wind_committed_error u rank (w w0 : World) :
  2 * (2 * max_tries cfg) + 2 < rank -> counters_ok u -> room 2 u (db_contents w0) ->
  kept (state_key u) w0 w ->
  silent (w_state w0) = true \/ w_state w0 = updateAfterCommitState u ->
  wp (committed_HandleError u) (progress rank) w.
Proof.
  intros Hr Hu Hroom Hk Hs. unfold committed_HandleError, next. apply wp_bind.
  eapply keeps_wp; [apply keeps_setBrokenArtifactFlag; [done|apply state_key_name]|].
  intros _ w' Hk'. apply wp_ret. right; right.
  pose proof (kept_trans _ _ _ _ Hk Hk') as Hkk.
  exists u, (2 * (2 * max_tries cfg) + 2), 2. split_and!; [|done|done|by eapply room_lookup; [..|apply (proj1 Hkk)|]].
  apply wind_cleanup_error. by rewrite (proj2 Hkk).
Qed.

Lemma cleanup_winding t u st rank (w : World) :
  t = ToNone \/ t = ToError -> 2 * (2 * max_tries cfg) + 1 < rank -> counters_ok u ->
  room 1 u (db_contents w) -> wp (updateCleanup_Handle t u st) (progress rank) w.
Proof.
  intros Ht Hr Hu Hroom. unfold updateCleanup_Handle, DeploymentLogger_Enable, next.
  apply wp_bind. eapply keeps_wp; [by apply (keeps_call _ _ (CLogEnable _))|]. intros _ w1 Hk1.
  apply wp_bind. eapply keeps_wp; [apply keeps_installer_indices|]. intros l w2 Hk2.
  apply wp_bind. eapply keeps_wp; [apply keeps_cleanup|]. intros lastError w3 Hk3.
  set (st' := match lastError with Some _ => _ | None => _ end).
  apply wp_bind, wp_SetNextState. intros w4 Hs4 Hd4 _ _ _.
  apply wp_bind. eapply keeps_wp.
  { apply keeps_pool_change; [done..|]. intros. apply deleteMaps_entry, state_key_pool. }
  intros _ w5 Hk5.
  apply wp_bind. eapply keeps_wp; [apply keeps_modify_ctx|]. intros _ w6 Hk6.
  apply wp_bind. eapply keeps_wp; [apply keeps_modify_ctx|]. intros _ w7 Hk7. apply wp_ret.
  right; right. pose proof (max_tries_range cfg).
  pose proof (kept_trans _ _ _ _ (kept_trans _ _ _ _ Hk5 Hk6) Hk7) as [Hdb Hst].
  exists u, (2 * tries_left (max_tries cfg) 0 0 + 3), 1. split_and!.
  - apply wind_report; [|unfold report_ok, tries_left; lia]. rewrite Hst, Hs4.
    destruct Ht as [-> | ->]; [by left|by right].
  - unfold tries_left. lia.
  - done.
  - eapply room_lookup; [done|done| |exact Hroom].
    rewrite Hdb. unfold db_contents at 1. rewrite Hd4. fold (db_contents w3).
    by rewrite (proj1 Hk3), (proj1 Hk2), (proj1 Hk1).
Qed.

(** One visit of the report state. *)
Lemma report_winding u st a b k (w : World) :
  report_ok (max_tries cfg) a b -> counters_ok u -> room k u (db_contents w) -> 0 <= k ->
  wp (updateStatusReport_Handle u st a b)
    (progress (2 * tries_left (max_tries cfg) a b + 3)) w.
Proof.
  intros Hab Hu Hroom Hk. pose proof (max_tries_range cfg) as Hmt.
  unfold updateStatusReport_Handle, DeploymentLogger_Enable, DeploymentLogger_Disable, next.
  apply wp_bind. eapply (keeps_wp _ (state_key u)); [by apply (keeps_call _ _ (CLogEnable _))|].
  intros _ w1 Hk1.
  apply wp_bind. eapply wp_mono; [apply (wp_sendDeploymentStatus only_finishes (state_key u)); done|done|].
  intros [[u' a'] err] w2 (Hk2 & x & err' & Hx & [= -> -> ->]).
  set (u' := set_StatusReportRetryAttempts x u).
  assert (int64 (a + 1) = a + 1) as ->.
  { apply int64_id. unfold report_ok, tries_left, int64_min, int64_max in *. lia. }
  assert (counters_ok u') as Hu' by (by split; [apply Hu|]).
  assert (forall w' : World, db_contents w' !! state_key u = db_contents w2 !! state_key u ->
    room 0 u' (db_contents w')) as Hroom'.
  { intros w' Hw'. eapply (room_lookup _ u); [done|done| |eapply room_mono; [|exact Hroom]; lia].
    by rewrite Hw', (proj1 Hk2), (proj1 Hk1). }
  apply wp_bind, wp_SetNextState. intros w3 Hs3 Hd3 _ _ _.
  assert (db_contents w3 = db_contents w2) as Hc3 by (unfold db_contents; by rewrite Hd3).
  destruct err' as [e|].
  - destruct (fatal e); apply wp_ret; [by right; left|]. right; right.
    do 3 eexists. split_and!; [apply wind_retry| |exact Hu'|apply Hroom'; by rewrite Hc3].
    + by rewrite Hs3.
    + intros ?. unfold report_ok, tries_left in *. lia.
    + destruct (a + 1 <? max_tries cfg) eqn:?; b2p; unfold tries_left in *; lia.
  - apply wp_bind.
    apply (wp_mono only_finishes only_finishes _ (fun r w4 => kept (state_key u) w3 w4 /\
      ((exists e, r = (b, Some e) /\ fatal e = true) \/ r = (b, None) \/ r.1 = int64 (b + 1))));
      [|done|].
    { case_bool_decide; [|apply wp_ret; split; [by split|auto]].
      eapply wp_mono; [apply (wp_sendDeploymentLogs only_finishes (state_key u)); done|done|]. naive_solver. }
    intros [b' err] w4 [Hk4 Hr].
    apply wp_bind, wp_SetNextState. intros w5 Hs5 Hd5 _ _ _.
    assert (db_contents w5 = db_contents w4) as Hc5 by (unfold db_contents; by rewrite Hd5).
    destruct err as [e|].
    + destruct (fatal e) eqn:Hf; apply wp_ret; [by right; left|]. right; right.
      destruct Hr as [(? & [= -> ->] & ?)|[[=]|Hb]]; [congruence|]. cbn in Hb. subst b'.
      assert (int64 (b + 1) = b + 1) as ->.
      { apply int64_id. unfold report_ok, int64_min, int64_max in *. lia. }
      do 3 eexists. split_and!; [apply wind_retry| |exact Hu'|].
      * by rewrite Hs5.
      * intros ?. unfold report_ok, tries_left in *. lia.
      * destruct (b + 1 <? max_tries cfg) eqn:?; b2p; unfold tries_left, report_ok in *; lia.
      * apply Hroom'. by rewrite Hc5, (proj1 Hk4), Hc3.
    + apply wp_bind, (wp_call _ CLogDisable); [done|]. intros _ w6 _. apply wp_ret. by right; left.
Qed.

Lemma retry_winding from to u rank k (w : World) :
  winding from to u rank k ->
  (exists r u' st n, to = updateStatusReportRetryState r u' st n) ->
  w_state w = to -> counters_ok u -> room 0 u (db_contents w) ->
  wp (Handle cfg matcher to) (progress rank) w.
Proof.
  intros Hw (r & u' & st & n & Hto) Hs Hu Hroom. destruct Hw; simplify_eq.
  cbn [Handle]. unfold updateStatusReportRetry_Handle, Wait, next.
  destruct (n <? max_tries cfg) eqn:Hn; b2p; [|apply wp_ret; by right; left].
  apply wp_bind, (wp_call _ (CWait _)); [done|]. intros o w' Hsame. apply wp_ret.
  assert (winding (w_state w') (updateStatusReportState u' st a b) u'
    (2 * tries_left (max_tries cfg) a b + 3) 0) as Hnext.
  { rewrite (same_state _ _ Hsame), Hs. by eapply wind_report_again; [|auto]. }
  destruct o; [right; right..|by left; eauto]; do 3 eexists; (split_and!; [exact Hnext|lia|done|]);
    by rewrite (same_contents _ _ Hsame).
Qed.

Lemma Handle_winding from to u rank k (w : World) :
  winding from to u rank k -> w_state w = to -> counters_ok u ->
  room (Z.max 0 (k - 1)) u (db_contents w) -> wp (Handle cfg matcher to) (progress rank) w.
Proof.
  intros Hw Hs Hu Hroom. pose proof (max_tries_range cfg) as Hmt.
  destruct Hw as [u Hf|u Hf|u st Hf|u st Hf|u st a b Hf Hab|u st a b r u' st' n Hf Hab|u st a b n Hf Hab];
    cbn [Handle].
  - unfold updateAfterFirstCommit_Handle, next.
    apply wp_bind. eapply (keeps_wp _ (state_key u)); [apply keeps_installer_indices|]. intros l w1 Hk1.
    apply wp_bind. eapply (keeps_wp _ (state_key u)); [apply keeps_commit_rest|]. intros e w2 Hk2.
    pose proof (kept_trans _ _ _ _ Hk1 Hk2) as Hk.
    destruct e as [e|]; cbn [HandleError].
    + eapply wind_committed_error; [|done| |exact Hk|left; by rewrite Hs]; [lia|].
      by eapply room_mono; [|exact Hroom].
    + apply wp_ret. right; right. do 3 eexists. split_and!; [apply wind_after| |done|].
      * by rewrite (proj2 Hk), Hs.
      * lia.
      * eapply room_lookup; [done|done|apply (proj1 Hk)|exact Hroom].
  - unfold updateAfterCommit_Handle, next, NewUpdateCleanupState. rewrite bool_decide_true by done.
    apply wp_ret. right; right. do 3 eexists. split_and!; [apply wind_cleanup| |done|exact Hroom].
    + by right.
    + lia.
  - apply cleanup_winding; [by left|lia|done|exact Hroom].
  - apply cleanup_winding; [by right|lia|done|exact Hroom].
  - by eapply report_winding.
  - by eapply report_winding.
  - apply (retry_winding from _ u _ 0 w (wind_retry _ from u st a b n Hf Hab)); by eauto.
Qed.

(** ** Scripts on the way *)

Hypothesis error_scripts_succeed : forall action ignore report d,
  (env_step (CExecuteAll "Error" action ignore report) d).1 = None.

Lemma run_scripts_kept t action ignore report key (w : World) :
  t = ToNone \/ getName t action = EmptyString \/ t = ToError ->
  wp (run_scripts t action ignore report) (fun err w' => err = None /\ kept key w w') w.
Proof.
  intros Ht. unfold run_scripts. case_bool_decide as Hn; [by apply wp_ret|].
  case_bool_decide as He; [by apply wp_ret|].
  destruct Ht as [Ht|[Ht| ->]]; [done..|].
  apply wp_bind. change (getName ToError action) with "Error".
  apply (wp_call_env _ (CExecuteAll _ _ _ _)); [done|]. intros w' Hs. rewrite error_scripts_succeed. apply wp_ret.
  split; [done|]. split; [by rewrite (same_contents _ _ Hs)|apply (same_state _ _ Hs)].
Qed.

Lemma winding_update from to u rank k : winding from to u rank k -> state_Update to = Some u.
Proof. by destruct 1. Qed.

Lemma winding_enter from to u rank k : winding from to u rank k ->
  state_Transition to = ToNone \/ getName (state_Transition to) "Enter" = EmptyString \/
  state_Transition to = ToError.
Proof. destruct 1; cbn; auto. Qed.

Lemma winding_counted from to u rank k : winding from to u rank k ->
  (if counts_as_loop from to then 1 else 0) <= k /\
  k - (if counts_as_loop from to then 1 else 0) >= Z.max 0 (k - 1).
Proof.
  destruct 1; unfold counts_as_loop; cbn [PermitLooping]; try (destruct (negb _); lia).
  - subst. cbn. lia.
  - cbn. lia.
Qed.

Lemma silent_spec s : silent s = true ->
  state_Transition s = ToNone \/ getName (state_Transition s) "Leave" = EmptyString \/
  state_Transition s = ToError.
Proof. unfold silent. intros [Hs|Hs]%orb_true_iff; b2p; auto. Qed.

(** ** Turns *)

Lemma winding_leave from to u rank k : winding from to u rank k ->
  IsToError (state_Transition to) && negb (IsToError (state_Transition from)) = false ->
  silent from = true \/ state_Transition from = ToError \/
  (exists st, from = updateAfterCommitState u /\ to = updateCleanupState ToNone u st /\
     rank = 2 * (2 * max_tries cfg) + 3 /\ k = 2).
Proof.
  destruct 1 as [u Hf|u Hf|u st [Hf| ->]|u st [Hf| ->]|u st a b [Hf|Hf] Hab
    |u st a b r u' st' n -> Hab|u st a b n Hf Hab]; intros He; eauto 10; discriminate.
Qed.

Lemma leave_winding from to u rank k report (w : World) :
  winding from to u rank k -> w_state w = from -> counters_ok u -> room k u (db_contents w) ->
  wp (leave from to report)
    (fun r w' => r.2 = None /\ kept (state_key u) w w' \/
       exists s, r.2 = Some s /\ progress rank s w') w.
Proof.
  intros Hw Hs Hu Hroom. unfold leave. destruct (shouldTransit from to);
    [|apply wp_ret; left; by repeat split].
  destruct (IsToError (state_Transition to) && negb (IsToError (state_Transition from))) eqn:He.
  - apply wp_bind. unfold Transition_Error.
    eapply (keeps_wp _ (state_key u)); [|intros e w' Hk; apply wp_ret; by left].
    unfold run_scripts. case_bool_decide; [apply keeps_ret|].
    case_bool_decide; [apply keeps_ret|].
    apply keeps_bind; [by apply (keeps_call _ _ (CExecuteAll _ _ _ _))|intros; apply keeps_ret].
  - apply wp_bind. unfold Transition_Leave.
    destruct (winding_leave _ _ _ _ _ Hw He) as [Hf|[Hf|(st & Hfrom & -> & -> & ->)]].
    + eapply wp_mono; [by apply (run_scripts_kept _ _ _ _ (state_key u)), silent_spec|done|].
      intros e w' [-> Hk]. apply wp_ret. by left.
    + eapply wp_mono; [apply (run_scripts_kept _ _ _ _ (state_key u)); by auto|done|].
      intros e w' [-> Hk]. apply wp_ret. by left.
    + rewrite Hfrom. cbn [state_Transition].
      eapply (keeps_wp _ (state_key u)).
      { unfold run_scripts. case_bool_decide; [apply keeps_ret|].
        case_bool_decide; [apply keeps_ret|].
        apply keeps_bind; [by apply (keeps_call _ _ (CExecuteAll _ _ _ _))|intros; apply keeps_ret]. }
      intros [e|] w' Hk; [|apply wp_ret; by left].
      apply wp_bind. cbn [HandleError].
      eapply wp_mono;
        [eapply (wind_committed_error u (2 * (2 * max_tries cfg) + 3)); [|done|exact Hroom|exact Hk|]|done|].
      * lia.
      * right. by rewrite Hs.
      * intros s w2 Hp. apply wp_ret. right. by exists s.
Qed.

Lemma transition_winding from to u rank k (w : World) :
  winding from to u rank k -> w_state w = from -> counters_ok u -> room k u (db_contents w) ->
  wp (transitionState cfg matcher to) (progress rank) w.
Proof.
  intros Hw Hs Hu Hroom. unfold transitionState. apply wp_bind, wp_GetCurrentState. rewrite Hs.
  apply wp_bind. eapply wp_mono; [by eapply leave_winding|done|].
  intros [report out] w1 [[Hout Hk1]|(s & Hout & Hp)]; cbn in Hout; subst out;
    [|by apply wp_ret].
  apply wp_bind, wp_SetNextState. intros w2 Hs2 Hd2 _ _ _.
  destruct (winding_counted _ _ _ _ _ Hw) as [Hc1 Hc2].
  apply wp_bind. unfold store_transition. rewrite (winding_update _ _ _ _ _ Hw).
  apply wp_bind. eapply wp_mono; [apply (store_state_room only_finishes _ _ _ k); [done..|]|done|].
  { eapply room_lookup; [done|done| |exact Hroom].
    unfold db_contents. rewrite Hd2. apply (proj1 Hk1). }
  intros err w3 (-> & Hs3 & Hroom3). apply wp_ret.
  unfold enter_and_handle. apply wp_bind.
  apply (wp_mono only_finishes only_finishes _ (fun err w4 => err = None /\ kept (state_key u) w3 w4));
    [|done|].
  { destruct (shouldTransit from to); [|by apply wp_ret].
    eapply run_scripts_kept, winding_enter, Hw. }
  intros e w4 [-> Hk4]. eapply Handle_winding; [exact Hw| |done|].
  - by rewrite (proj2 Hk4), Hs3.
  - eapply room_lookup; [done|done|apply (proj1 Hk4)|].
    eapply room_mono; [|exact Hroom3]. lia.
Qed.

Lemma keeps_receive_maps k l : k <> UpdateControlMaps ->
  keeps (DB := DB) (D := D) only_finishes k (receive_maps cfg l).
Proof.
  intros Hk. induction l; cbn [receive_maps]; [apply keeps_ret|].
  apply keeps_bind; [|done]. unfold receive_map. apply keeps_pool_change; [done..|].
  intros. by apply SetUpdateControlMap_entry.
Qed.

Lemma winding_unforced from to u rank k tick : winding from to u rank k ->
  (match forced tick with
   | Some n => if can_be_forced to then (n, false) else (to, true)
   | None => (to, true)
   end) = (to, true).
Proof. intros Hw. destruct (forced tick); [|done]. by destruct Hw. Qed.

Lemma winding_rank from to u rank k : winding from to u rank k -> 1 <= rank.
Proof.
  pose proof (max_tries_range cfg). destruct 1; unfold tries_left; try lia. destruct (_ <? _); lia.
Qed.

Lemma turn_winding tick to u rank k (w : World) :
  winding (w_state w) to u rank k -> counters_ok u -> room k u (db_contents w) ->
  wp (turn cfg matcher tick to)
    (fun o w' => o = Stopped \/ o = Continue idleState \/
       exists s, o = Continue s /\ progress rank (s, false) w') w.
Proof.
  intros Hw Hu Hroom. unfold turn.
  apply wp_bind. eapply keeps_wp; [apply keeps_receive_maps, state_key_pool|].
  intros _ w1 Hk1. rewrite (winding_unforced _ _ _ _ _ _ Hw).
  apply wp_bind.
  assert (wp (match to with
              | inventoryUpdateState => t ← now; modify_ctx (set_lastInventoryUpdateAttempt t)
              | updateCheckState => t ← now; modify_ctx (set_lastUpdateCheckAttempt t)
              | _ => mret ()
              end) (fun _ w2 => w2 = w1) w1) as Hmatch by (destruct Hw; by apply wp_ret).
  eapply wp_mono; [exact Hmatch|done|]. intros _ w2 ->.
  apply wp_bind. eapply wp_mono; [eapply transition_winding|done|].
  - exact Hw.
  - apply (proj2 Hk1).
  - done.
  - by eapply room_lookup; [..|apply (proj1 Hk1)|].
  - intros [s c] w2 Hp. apply wp_ret.
    destruct Hp as [[Hc [u' Hs]]|[Hs|(u' & r' & k' & Hw' & Hp)]]; cbn in *.
    + left. subst c. by destruct s.
    + subst s. destruct (c || stop tick); auto.
    + destruct (c || stop tick) eqn:Hst; [left; by destruct Hw'|]. right; right.
      exists s. split; [by destruct Hw'|]. right; right. cbn. eauto 10.
Qed.

Lemma loop_winding n : forall ticks to u rank k (w : World),
  winding (w_state w) to u rank k -> counters_ok u -> room k u (db_contents w) ->
  rank <= Z.of_nat n -> (n <= length ticks)%nat ->
  exists j, (j <= n)%nat /\
    wp (loop cfg matcher (take j ticks) to) (fun o _ => o = Continue idleState \/ o = Stopped) w.
Proof.
  induction n as [|n IH]; intros ticks to u rank k w Hw Hu Hroom Hr Hlen.
  { apply winding_rank in Hw. lia. }
  destruct ticks as [|tick ticks]; cbn in Hlen; [lia|].
  pose proof (turn_winding tick _ _ _ _ _ Hw Hu Hroom) as Ht.
  destruct Ht as (l & Hl & HE & Ho).
  destruct (turn cfg matcher tick to w) as [o w1] eqn:Hturn. cbn in *.
  assert (forall j, wp (match o with Continue s => loop cfg matcher (take j ticks) s | o => mret o end)
      (fun o _ => o = Continue idleState \/ o = Stopped) w1 ->
    wp (loop cfg matcher (take (S j) (tick :: ticks)) to)
      (fun o _ => o = Continue idleState \/ o = Stopped) w) as Hstep.
  { intros j Hj. cbn [take loop]. apply wp_bind. exists l. by rewrite Hturn. }
  destruct Ho as [-> |[-> |(s & -> & Hp)]].
  - exists 1%nat. split; [lia|]. apply Hstep, wp_ret. auto.
  - exists 1%nat. split; [lia|]. apply Hstep. cbn [take loop]. apply wp_ret. auto.
  - destruct Hp as [[[=] _]|[Hs|(u' & r' & k' & Hw' & Hr' & Hu' & Hroom')]]; cbn in *.
    + subst s. exists 1%nat. split; [lia|]. apply Hstep. cbn [take loop]. apply wp_ret. auto.
    + destruct (IH ticks s u' r' k' w1) as (j & Hj & Hloop); [done..|lia|lia|].
      exists (S j). split; [lia|]. by apply Hstep.
Qed.
End winding.

(** ** Properties *)

(** C3: a committed update finishes.  Once the first payload is committed (the
    state after the first commit is entered from the commit state or by a
    restart), the loop is idle, or was asked to stop, after at most 49 turns,
    whatever the server, the installers, the clock and the other scripts do;
    until then the installers are asked for nothing but commits and cleanup: no
    rollback, no reboot, no new installation.  The store is one that works, with
    room for four more counted stores, and the scripts of the Error state
    succeed. *)
Theorem committed_update_finishes {DB D} `{ReliableStore DB} `{Env D} `{SortMaps}
    cfg matcher ticks u (w : World DB D)
    (Hscripts : forall action ignore report d,
       (env_step (CExecuteAll "Error" action ignore report) d).1 = None)
    (Hfrom : silent (w_state w) = true)
    (Hcounters : counters_ok u)
    (Hroom : room 4 u (db_contents w))
    (Hticks : (49 <= length ticks)%nat) :
  exists j o w', (j <= 49)%nat /\
    loop cfg matcher (take j ticks) (updateAfterFirstCommitState u) w = (o, w') /\
    (o = Continue idleState \/ o = Stopped) /\
    exists l, w_log w' = l ++ w_log w /\ Forall only_finishes l.
Proof.
  pose proof (max_tries_range cfg) as Hmt.
  destruct (loop_winding cfg matcher Hscripts 49 ticks (updateAfterFirstCommitState u) u
    (2 * (2 * max_tries cfg) + 5) 4 w) as (j & Hj & l & Hl & HE & Ho);
    [by apply wind_first|done..|lia|done|].
  exists j. destruct (loop _ _ _ _ w) as [o w']. eauto 10.
Qed.

Lemma committed_update_finishes_witness :
  exists j o w', (j <= 49)%nat /\
    loop (D := ()) (H1 := fixed_env happy) example_cfg no_wildcards
      (take j (replicate 49 quiet_tick)) (updateAfterFirstCommitState example_update)
      (example_world (updateCommitState example_update 0)) = (o, w') /\
    (o = Continue idleState \/ o = Stopped).
Proof.
  destruct (committed_update_finishes (D := ()) (H2 := fixed_env happy) example_cfg no_wildcards
    (replicate 49 quiet_tick) example_update
    (example_world (updateCommitState example_update 0)))
    as (j & o & w' & Hj & Hl & Ho & _).
  - reflexivity.
  - vm_compute. reflexivity.
  - split; split; vm_compute; discriminate.
  - vm_compute. discriminate.
  - vm_compute. lia.
  - exists j, o, w'. split; [exact Hj|]. split; [exact Hl|exact Ho].
Defined.

(** Without the condition on the Error scripts it does not hold: the cleanup
    state inherits [updateState.HandleError], so when the leave script of the
    commit fails and then the enter script of Error, the committed artifact is
    rolled back. *)
Example rollback_after_commit :
  let '(o, w) := run (with_script "ArtifactCommit" "Leave" (with_script "Error" "Enter" happy))
    8 (updateAfterRebootState example_update) (NewUpdateCommitState example_update) in
  db_contents w !! ArtifactNameKey = Some "release-2_INCONSISTENT" /\
  take 2 (installer_ops (w_log w)) = [(0, OpCommitUpdate); (0, OpRollback)]%nat.
Proof. vm_compute. by split. Qed.
