(* ===== verification/Aborted.v ===== *)
(** * Aborted: deployments the server no longer wants

    While the server answers every status report with one of the codes that mean
    that the deployment is aborted, the handlers that would act on the device
    give up before they do. *)

From S2P Require Import Prelude Json Store StateData DataStore Client ControlMap ControlMapPool.
From S2P Require Import States World Controller Handlers Mender Triples Recovery Scenario.
From S2P Require Import WrapUp.
Import MapStore.

Open Scope Z_scope.

(** The answers that abort a deployment. *)
Definition aborting (r : result Z) : Prop :=
  r = Ok StatusConflict \/ r = Ok StatusNotFound \/ r = Ok StatusGone.

(** The states that would go on with a deployment. *)
Definition proceeds (s : State) : option UpdateInfo :=
  match s with
  | updateFetchState u | updateStoreState u | updateInstallState u | updateCommitState u _
  | updateRebootState u => Some u
  | _ => None
  end.

(** Where they go when they give up. *)
Definition gives_up (u : UpdateInfo) (s : State) : Prop :=
  s = NewUpdateStatusReportState u StatusFailure \/
  exists u', ID u' = ID u /\
    (s = updateRollbackState u' \/ exists e, s = updateErrorState e u').

(** No installer operation, no payload written, no reboot. *)
Definition no_action (e : Event) : Prop :=
  match e with Ev c _ _ => is_action c = false | EvDB _ => True end.

#[export] Instance no_action_predicate : ActionPredicate no_action.
Proof. by split. Qed.

Section aborted.
Context {DB D : Type} `{StoreLaws DB} `{Env D} `{SortMaps} (cfg : Config).
Variable matcher : list string -> list string -> result (list string).
Hypothesis server_aborts : forall id st d, aborting (env_step (CReportStatus id st) d).1.

Notation World := (World DB D).
Notation wp := (wp (DB := DB) (D := D) no_action).

Lemma aborting_fatal r : aborting r -> exists e,
  match Report r with
  | None => None
  | Some err =>
      if bool_decide (Cause err = ErrDeploymentAborted) then Some (NewFatalError err)
      else Some (NewTransientError err)
  end = Some (NewFatalError e).
Proof. intros [-> | [-> | ->]]; by eexists. Qed.

Lemma wp_ReportUpdateStatus u st Q (w : World) :
  (forall e w', Q (Some (NewFatalError e)) w') -> wp (ReportUpdateStatus u st) Q w.
Proof.
  intros HQ. unfold ReportUpdateStatus. apply wp_bind.
  apply (wp_call_env _ (CReportStatus _ _)); [done|]. intros w' _.
  destruct (aborting_fatal _ (server_aborts (ID u) st (w_env w))) as [e He].
  change (answer (CReportStatus (ID u) st)) with (result Z) in *. rewrite He. by apply wp_ret.
Qed.

Lemma wp_updateState_HandleError u u' e (w : World) : ID u' = ID u ->
  wp (updateState_HandleError u' e) (fun r _ => gives_up u r.1) w.
Proof.
  intros Hid. unfold updateState_HandleError, next, setBrokenArtifactFlag.
  case_bool_decide; [apply wp_ret; right; eauto|].
  apply wp_bind, wp_bind, wp_db_op; [done|]. intros ? w' _ _. apply wp_ret, wp_ret. right; eauto 10.
Qed.

Lemma wp_log (c : Call) (Q : answer c -> World -> Prop) w :
  is_action c = false -> (forall a w', Q a w') -> wp (call c) Q w.
Proof. intros Hc HQ. by apply wp_call. Qed.

Lemma proceeds_gives_up s u (w : World) : proceeds s = Some u ->
  wp (Handle cfg matcher s) (fun r _ => gives_up u r.1) w.
Proof.
  destruct s; intros [= ->]; cbn [Handle].
  - unfold updateFetch_Handle, DeploymentLogger_Enable, next.
    apply wp_bind, (wp_log (CLogEnable _)); [done|]. intros [?|] w1; [apply wp_ret; by left|].
    apply wp_bind, wp_ReportUpdateStatus. intros e w2. cbn. apply wp_ret. by left.
  - unfold updateStore_Handle, DeploymentLogger_Enable, next.
    apply wp_bind, (wp_log (CLogEnable _)); [done|]. intros [?|] w1; [apply wp_ret; by left|].
    apply wp_bind, wp_ReportUpdateStatus. intros e w2. cbn. apply wp_ret. by left.
  - unfold updateInstall_Handle, DeploymentLogger_Enable, next.
    apply wp_bind, (wp_log (CLogEnable _)); [done|].
    intros [?|] w1; [apply wp_ret; right; eauto 10|].
    apply wp_bind, wp_ReportUpdateStatus. intros e w2. cbn. by apply wp_updateState_HandleError.
  - unfold updateCommit_Handle, DeploymentLogger_Enable, sendDeploymentStatus.
    apply wp_bind, (wp_log (CLogEnable _)); [done|]. intros _ w1.
    apply wp_bind, (wp_log CCheckRootfsScriptsVersion); [done|].
    intros [?|] w2; [by apply wp_updateState_HandleError|].
    apply wp_bind, (wp_log CClearAuthorization); [done|]. intros _ w3.
    apply wp_bind, wp_bind, wp_ReportUpdateStatus. intros e w4. apply wp_ret.
    apply wp_bind, wp_SetNextState. intros w5 _ _ _ _ _. cbn. by apply wp_updateState_HandleError.
  - unfold updateReboot_Handle, DeploymentLogger_Enable, next.
    apply wp_bind, (wp_log (CLogEnable _)); [done|]. intros _ w1.
    apply wp_bind, wp_ReportUpdateStatus. intros e w2. cbn. apply wp_ret. right; eauto.
Qed.
End aborted.

(** ** Properties *)

(** C6: an aborted deployment touches nothing.  While the server answers status
    reports with 409, 404 or 410, none of the states that fetch, store, install,
    reboot or commit calls an installer operation, writes a payload or reboots;
    each goes to the final report, to the rollback, or to the error state of the
    same deployment. *)
Theorem aborted_deployment_stops {DB D} `{StoreLaws DB} `{Env D} `{SortMaps} cfg matcher s u
    (w : World DB D)
    (Haborts : forall id st d, aborting (env_step (CReportStatus id st) d).1)
    (Hs : proceeds s = Some u) :
  let '((s', _), w') := Handle cfg matcher s w in
  gives_up u s' /\ exists l, w_log w' = l ++ w_log w /\ Forall no_action l.
Proof.
  destruct (proceeds_gives_up cfg matcher Haborts s u w Hs) as (l & Hl & HE & Hg).
  destruct (Handle cfg matcher s w) as [[s' b] w']. eauto.
Qed.

Lemma aborted_deployment_stops_witness :
  let '((s', _), w') := Handle (D := ()) (H1 := fixed_env (with_report (Ok 409) happy))
    example_cfg no_wildcards (updateInstallState example_update)
    (example_world (updateInstallState example_update)) in
  gives_up example_update s' /\
  exists l, w_log w' = l ++ [] /\ Forall no_action l.
Proof.
  apply (aborted_deployment_stops (D := ()) (H1 := fixed_env (with_report (Ok 409) happy))
    example_cfg no_wildcards (updateInstallState example_update) example_update
    (example_world (updateInstallState example_update))).
  - intros. by left.
  - reflexivity.
Defined.
