(* ===== verification/Depends.v ===== *)
(** * Depends: the dependency check of an artifact

    [verifyArtifactDependencies] against its meaning: every dependency but the
    device type is provided with an accepted value, whatever the order in which
    the map of dependencies is visited. *)

From S2P Require Import Prelude Json Store StateData DataStore Client ControlMap ControlMapPool.
From S2P Require Import States World Controller Handlers Scenario.
Import MapStore.

Open Scope Z_scope.

(** ** The meaning *)

(** A dependency accepts a value: one of the listed strings (with nothing but
    strings before it in a list of any type), or the string itself. *)
Definition accepts (d : Depend) (p : string) : Prop :=
  match d with
  | DependInterfaces l => exists before after, l = (Some <$> before) ++ Some p :: after
  | DependStrings l => p ∈ l
  | DependString s => p = s
  | DependOther => False
  end.

Definition satisfied (provides : gmap string string) (kd : string * Depend) : Prop :=
  kd.1 = "device_type" \/ exists p, provides !! kd.1 = Some p /\ accepts kd.2 p.

Lemma ElemInInterfaces_spec l p :
  ElemInInterfaces l p = Ok true <->
  exists before after, l = (Some <$> before) ++ Some p :: after.
Proof.
  induction l as [|[x|] l IH]; cbn.
  - split; [done|]. intros (b & a & Hl). by destruct b.
  - case_bool_decide as Hx; [split; [intros _|done]|rewrite IH; split].
    + subst. by exists [], l.
    + intros (b & a & ->). by exists (x :: b), a.
    + intros ([|y b] & a & [= -> Hl]); [done|]. eauto.
  - split; [done|]. intros (b & a & Hl). by destruct b.
Qed.

Lemma ElemInSlice_spec l p : ControlMap.ElemInSlice l p = true <-> p ∈ l.
Proof.
  unfold ControlMap.ElemInSlice. split.
  - intros Hl. by b2p.
  - intros Hp. by rewrite ?bool_decide_true.
Qed.

Lemma depend_satisfied_spec key d p : depend_satisfied key d p = None <-> accepts d p.
Proof.
  destruct d as [l|l|s|]; cbn.
  - rewrite <- ElemInInterfaces_spec. by destruct (ElemInInterfaces l p) as [[]|].
  - rewrite <- ElemInSlice_spec. by destruct (ControlMap.ElemInSlice l p).
  - case_bool_decide; naive_solver.
  - done.
Qed.

(** The error of a dependency that is not satisfied. *)
Definition depends_error (key : string) (e : error) : Prop :=
  e = errDependencyNotSatisfied key \/ e = errInvalidDependsType key.

Lemma depend_satisfied_error key d p e : depend_satisfied key d p = Some e -> depends_error key e.
Proof.
  unfold depends_error. destruct d as [l|l|s|]; cbn; repeat case_match; naive_solver.
Qed.

Lemma verify_spec depends provides :
  match verifyArtifactDependencies depends provides with
  | None => Forall (satisfied provides) depends
  | Some e => exists kd, kd ∈ depends /\ ~ satisfied provides kd /\ depends_error kd.1 e
  end.
Proof.
  induction depends as [|[key d] depends IH]; cbn; [constructor|].
  assert (satisfied provides (key, d) ->
    match verifyArtifactDependencies depends provides with
    | Some e => exists kd, kd ∈ (key, d) :: depends /\ ~ satisfied provides kd /\
                  depends_error kd.1 e
    | None => Forall (satisfied provides) ((key, d) :: depends)
    end) as Hstep.
  { intros Hs. destruct (verifyArtifactDependencies depends provides) as [e|].
    - destruct IH as (kd & Hin & Hkd). exists kd. split; [by apply list_elem_of_further|done].
    - by constructor. }
  case_bool_decide as Hkey; [apply Hstep; by left|].
  destruct (provides !! key) as [p|] eqn:Hp.
  - destruct (depend_satisfied key d p) as [e|] eqn:Hd.
    + exists (key, d). split; [apply list_elem_of_here|]. split.
      * intros [?|(p' & Hp' & Ha)]; [done|]. cbn in Hp', Ha. rewrite Hp in Hp'. injection Hp' as <-.
        apply (depend_satisfied_spec key) in Ha. congruence.
      * by eapply depend_satisfied_error.
    + apply Hstep. right. exists p. split; [done|]. by apply (depend_satisfied_spec key).
  - exists (key, d). split; [apply list_elem_of_here|]. split; [|by left].
    intros [?|(p' & Hp' & _)]; [done|]. cbn in Hp'. congruence.
Qed.

(** ** Properties *)

(** The dependency check accepts an artifact exactly when every dependency
    other than the device type is provided by the installed artifact with a value
    the dependency accepts; otherwise the error names a dependency that is not.
    Whether it accepts does not depend on the order of the visit. *)
Theorem verifyArtifactDependencies_spec depends provides :
  (verifyArtifactDependencies depends provides = None <-> Forall (satisfied provides) depends) /\
  (forall e, verifyArtifactDependencies depends provides = Some e ->
     exists key d, (key, d) ∈ depends /\ ~ satisfied provides (key, d) /\ depends_error key e) /\
  (forall depends', depends ≡ₚ depends' ->
     is_Some (verifyArtifactDependencies depends provides) <->
     is_Some (verifyArtifactDependencies depends' provides)).
Proof.
  assert (forall l, verifyArtifactDependencies l provides = None <->
    Forall (satisfied provides) l) as Hnone.
  { intros l. pose proof (verify_spec l provides) as Hs.
    destruct (verifyArtifactDependencies l provides) as [e|]; [|done].
    split; [done|]. intros Hall. destruct Hs as (kd & Hin & Hn & _).
    rewrite Forall_forall in Hall. by apply Hall in Hin. }
  split; [apply Hnone|]. split.
  - intros e He. pose proof (verify_spec depends provides) as Hs. rewrite He in Hs.
    destruct Hs as ([key d] & ?). eauto.
  - intros l' Hl. rewrite <- !not_eq_None_Some, !Hnone. by rewrite Hl.
Qed.

(** ** The provides of an artifact without a name

    [maybeVerifyArtifactDependsAndProvides] wraps a nil error when the provides
    have no [artifact_name], so the artifact is let through, and what it
    provides and clears is dropped. *)
Example nameless_artifact_is_let_through :
  take_provides example_update
    (mkHeaders "release-2" [] (Ok None) (Ok (Some {["rootfs-image.version" := "2"]}))
       (Some ["rootfs-image.*"])) = (example_update, None).
Proof. vm_compute. reflexivity. Qed.
