(* ===== verification/Commit.v ===== *)
(** * Commit: the new artifact in the database

    The handler of the commit state against its contract: the database takes the
    new artifact's name and provides in one transaction with the state, after the
    first payload is committed, or keeps the old ones. *)

From S2P Require Import Prelude Json Store StateData DataStore Client ControlMap ControlMapPool.
From S2P Require Import States World Controller Handlers Mender Triples Recovery Scenario.
From S2P Require Import Restart.
Import MapStore.

Open Scope Z_scope.

(** The first payload was committed between [w] and [w']. *)
Definition payload_committed {DB D} (w w' : World DB D) : Prop :=
  exists l1 l2 db, w_log w' = l1 ++ Ev (CInstaller 0 OpCommitUpdate) None db :: l2 ++ w_log w.

(** What the database says of the installed artifact. *)
Definition artifact_entries (db : gmap string string) : option string * option string * option string :=
  (db !! ArtifactNameKey, db !! ArtifactGroupKey, db !! ArtifactTypeInfoProvidesKey).

(** The database describes the new artifact, over [before]. *)
Definition describes wildcard_matches (u : UpdateInfo) (before after : gmap string string) : Prop :=
  let clears := ClearsArtifactProvides (artifact u) in
  let keep k := negb (cleared wildcard_matches clears k) in
  after !! ArtifactNameKey = Some (ArtifactName (artifact u)) /\
  after !! ArtifactGroupKey =
    (if bool_decide (ArtifactGroup (artifact u) = EmptyString)
     then if keep "artifact_group" then before !! ArtifactGroupKey else None
     else Some (ArtifactGroup (artifact u))) /\
  forall k, stored_provides after !! k =
    match default ∅ (TypeInfoProvides (artifact u)) !! k with
    | Some v => Some v
    | None => if keep k then stored_provides before !! k else None
    end.

Lemma payload_committed_ext {DB D} (w w1 w2 : World DB D) :
  payload_committed w w1 -> ext w1 w2 -> payload_committed w w2.
Proof.
  intros (l1 & l2 & db & Hl) [l Hl']. exists (l ++ l1), l2, db. by rewrite Hl', Hl, <- app_assoc.
Qed.

Definition event_db (e : Event) : gmap string string :=
  match e with Ev _ _ db => db | EvDB db => db end.

Section commit.
Context {DB D : Type} `{StoreLaws DB} `{Env D}.
Variable matcher : list string -> list string -> result (list string).
Variable wildcard_matches : string -> string -> bool.
Hypothesis Hmatch : matcher_ok matcher wildcard_matches.

Notation World := (World DB D).

(** The database has switched: it names the update in the commit state and
    describes its artifact. *)
Definition switched (u : UpdateInfo) (before db : gmap string string) : Prop :=
  describes wildcard_matches u before db /\
  exists u', ID u' = ID u /\ artifact u' = artifact u /\ records db u' MenderStateUpdateCommit.

(** Old entries, all of the new ones, or a flag. *)
Definition old_or_new (u : UpdateInfo) (before db : gmap string string) : Prop :=
  artifact_entries db = artifact_entries before \/ switched u before db \/ flagged u db.

(** The outcome of the handler, from the world it started in. *)
Definition commit_outcome (u : UpdateInfo) (w : World) (s : State) (w' : World) : Prop :=
  let before := db_contents w in
  let after := db_contents w' in
  (exists u', s = updateAfterFirstCommitState u' /\ ID u' = ID u /\ artifact u' = artifact u /\
     records after u' MenderStateUpdateCommit /\ describes wildcard_matches u before after /\
     (w_installers w = [] \/ payload_committed w w')) \/
  ((forall u', s <> updateAfterFirstCommitState u') /\ old_or_new u before after).

Section events.
Variable u : UpdateInfo.
Variable before : gmap string string.

Definition commit_event (e : Event) : Prop := old_or_new u before (event_db e).

Notation wp := (wp (DB := DB) (D := D) commit_event).

Lemma old_event c a db : artifact_entries db = artifact_entries before -> commit_event (Ev c a db).
Proof. by left. Qed.

(** The flag is set, or the write failed. *)
Lemma wp_flag_or_not Q (w : World) :
  old_or_new u before (db_contents w) ->
  (forall w', old_or_new u before (db_contents w') -> Q () w') ->
  wp (setBrokenArtifactFlag (ArtifactName (artifact u))) Q w.
Proof.
  intros Hw HQ. unfold setBrokenArtifactFlag.
  set (n := ArtifactName (artifact u) +:+ BrokenArtifactSuffix).
  assert (forall (db : DB) e db', contents db = db_contents w -> WriteAll ArtifactNameKey n db = (e, db') ->
    old_or_new u before (contents db')) as Hflag.
  { intros db [e|] db' Hdb Hwr.
    - by rewrite (WriteAll_err _ _ _ _ _ Hwr), Hdb.
    - right. right. unfold flagged. by rewrite (WriteAll_ok _ _ _ _ Hwr), lookup_insert_eq. }
  apply wp_bind, wp_db_op; [intros e db Hwr; by apply (Hflag _ _ _ eq_refl Hwr)|].
  intros e w' Hwr _. apply wp_ret, HQ. by apply (Hflag _ _ _ eq_refl Hwr).
Qed.

Lemma commit_store_outcome (u' : UpdateInfo) (db db' : DB) err :
  ID u' = ID u -> artifact u' = artifact u ->
  contents db = before -> HasDBSchemaUpdate u' = false ->
  StoreStateDataAndTransaction db (mkStateData 0 MenderStateUpdateCommit u') true
    (Some (CommitArtifactData matcher (ArtifactName (artifact u')) (ArtifactGroup (artifact u'))
       (TypeInfoProvides (artifact u')) (ClearsArtifactProvides (artifact u')))) = (err, db') ->
  (err <> None /\ contents db' = before) \/
  (records (contents db') u' MenderStateUpdateCommit /\ describes wildcard_matches u before (contents db') /\
   (err = None \/ err = Some MaximumStateDataStoreCountExceeded)).
Proof.
  intros Hid Ha Hdb Hs Hst.
  pose proof (StoreStateDataAndTransaction_outcome db
    (mkStateData 0 MenderStateUpdateCommit u') true
    (Some (CommitArtifactData matcher (ArtifactName (artifact u')) (ArtifactGroup (artifact u'))
       (TypeInfoProvides (artifact u')) (ClearsArtifactProvides (artifact u'))))) as Ho.
  rewrite Hst in Ho. cbn [updateInfo] in Ho. rewrite Hdb in Ho.
  destruct Ho as [[He Hc]|(txn & txn1 & c & Ht & Hf & Hc & ->)]; [by left|]. right.
  apply (CommitArtifactData_spec _ _ Hmatch) in Hf as (Hn & Hg & Hp & _).
  unfold state_key, uncommitted_cleared in Hc. rewrite Hs in Hc.
  split_and!.
  - exists (next_store_count true c). split; [intros _; apply int64_range|].
    rewrite Hc. unfold state_key. by rewrite Hs, lookup_insert_eq.
  - unfold describes. rewrite Hc, <- Ht, <- Ha. split_and!.
    + by rewrite lookup_insert_ne, lookup_delete_ne by done.
    + by rewrite lookup_insert_ne, lookup_delete_ne by done.
    + intros k. rewrite <- Hp. unfold stored_provides at 1.
      by rewrite lookup_insert_ne, lookup_delete_ne by done.
  - unfold count_error. destruct (store_count_exceeded c); auto.
Qed.

(** Giving up: the entries are the old ones, or the artifact is flagged. *)
Lemma wp_give_up u' e (w w0 : World) :
  artifact u' = artifact u -> db_contents w = before -> db_contents w0 = before ->
  wp (updateState_HandleError u' e) (fun r w' => commit_outcome u w0 r.1 w') w.
Proof.
  intros Ha Hc Hc0. unfold updateState_HandleError, next. rewrite Ha. case_bool_decide.
  - apply wp_ret. right. split; [done|]. left. by rewrite Hc, Hc0.
  - apply wp_bind, wp_flag_or_not; [left; by rewrite Hc|]. intros w' Hw'. apply wp_ret.
    right. split; [done|]. by rewrite Hc0.
Qed.

Lemma wp_simple_call c Q (w : World) :
  db_contents w = before -> (forall a w', same w w' -> ext w w' -> Q a w') -> wp (call c) Q w.
Proof.
  intros Hc HQ. apply wp_call_log; [intros a; apply old_event; by rewrite Hc|].
  intros a w' Hs Hl. apply HQ; [done|]. by eexists [_].
Qed.

(** From the commit of the first payload on. *)
Lemma wp_commit_rest u' n (w w0 : World) :
  ID u' = ID u -> artifact u' = artifact u -> db_contents w = before -> db_contents w0 = before ->
  w_installers w0 = [] \/ payload_committed w0 w ->
  wp (_ ← SetNextState (updateCommitState (set_HasDBSchemaUpdate false u') n);
      err ← commit_store matcher (set_HasDBSchemaUpdate false u');
      match err with
      | Some err =>
          handleStateDataError
            (updateErrorState (NewTransientError err) (set_HasDBSchemaUpdate false u')) false
            (set_HasDBSchemaUpdate false u') err
      | None => next (updateAfterFirstCommitState (set_HasDBSchemaUpdate false u'))
      end) (fun r w' => commit_outcome u w0 r.1 w') w.
Proof.
  intros Hid Ha Hc Hc0 Hi. set (uf := set_HasDBSchemaUpdate false u').
  apply wp_ext. apply wp_bind, wp_SetNextState. intros w1 _ Hd1 _ _ _.
  assert (contents (w_db w1) = before) as Hc1 by (rewrite <- Hc; unfold db_contents; by rewrite Hd1).
  pose proof (fun db err => commit_store_outcome uf (w_db w1) db err Hid Ha Hc1 eq_refl) as Hout.
  assert (forall db, records (contents db) uf MenderStateUpdateCommit ->
    describes wildcard_matches u before (contents db) -> old_or_new u before (contents db)) as Hnew
    by (intros db ??; right; left; split; [done|]; by exists uf).
  apply wp_bind. unfold commit_store. apply wp_db_op.
  { intros err db Hst. destruct (Hout _ _ Hst) as [[_ Hdb]|(Hr & Hdesc & _)]; [|by apply Hnew].
    left. cbn [event_db]. by rewrite Hdb. }
  intros err w2 Hst _. specialize (Hout _ _ Hst).
  assert (old_or_new u before (db_contents w2)) as Hw2
    by (destruct Hout as [[_ Hdb]|(Hr & Hdesc & _)]; [left; unfold db_contents; by rewrite Hdb|by apply Hnew]).
  destruct err as [err|].
  - unfold handleStateDataError. case_bool_decide.
    + change (artifact uf) with (artifact u'). rewrite Ha. apply wp_bind, wp_flag_or_not; [done|].
      intros w3 Hw3. apply wp_ret. intros _.
      right. split; [done|]. by rewrite Hc0.
    + apply wp_ret. intros _. right. split; [done|]. by rewrite Hc0.
  - destruct Hout as [[? _]|(Hr & Hdesc & _)]; [done|]. apply wp_ret. intros Hext. left. exists uf.
    split_and!; [done..| |].
    + by rewrite Hc0.
    + destruct Hi as [?|Hi]; [by left|right; by eapply payload_committed_ext].
Qed.

End events.

Notation wp u w := (wp (DB := DB) (D := D) (commit_event u (db_contents w))).

Lemma wp_updateCommit_Handle u n (w : World) :
  wp u w (updateCommit_Handle matcher u n) (fun r w' => commit_outcome u w r.1 w') w.
Proof.
  unfold updateCommit_Handle, DeploymentLogger_Enable, sendDeploymentStatus, ReportUpdateStatus.
  apply wp_bind, (wp_simple_call _ _ (CLogEnable _)); [done|]. intros _ w1 Hw1 Hx1.
  assert (db_contents w1 = db_contents w) as Hc1 by (by rewrite (same_contents _ _ Hw1)).
  apply wp_bind, (wp_simple_call _ _ CCheckRootfsScriptsVersion); [done|]. intros err w2 Hw2 Hx2.
  assert (db_contents w2 = db_contents w) as Hc2 by (by rewrite (same_contents _ _ Hw2)).
  destruct err as [err|]; [by apply wp_give_up|].
  apply wp_bind, (wp_simple_call _ _ CClearAuthorization); [done|]. intros _ w3 Hw3 Hx3.
  assert (db_contents w3 = db_contents w) as Hc3 by (by rewrite (same_contents _ _ Hw3)).
  apply wp_bind, wp_bind, wp_bind, (wp_simple_call _ _ (CReportStatus _ _)); [done|]. intros a w4 Hw4 Hx4.
  apply wp_ret, wp_ret.
  assert (db_contents w4 = db_contents w) as Hc4 by (by rewrite (same_contents _ _ Hw4)).
  assert (w_installers w4 = w_installers w) as Hi4.
  { by rewrite (same_installers _ _ Hw4), (same_installers _ _ Hw3), (same_installers _ _ Hw2),
      (same_installers _ _ Hw1). }
  assert (ext w w4) as Hx
    by (eapply ext_trans; [|done]; eapply ext_trans; [|done]; by eapply ext_trans).
  destruct (match Report a with Some _ => _ | None => _ end) as [merr|];
    apply wp_bind, wp_ext, wp_SetNextState; intros w5 _ Hd5 _ _ Hi5 Hx5.
  all: assert (db_contents w5 = db_contents w) as Hc5
    by (rewrite <- Hc4; unfold db_contents; by rewrite Hd5).
  { destruct (fatal merr); [by apply wp_give_up|]. apply wp_ret. right. split; [done|].
    left. by rewrite Hc5. }
  apply wp_bind, wp_GetInstallers. rewrite Hi5, Hi4.
  destruct (w_installers w) as [|i l] eqn:Hi.
  { apply wp_bind, wp_ret. apply wp_commit_rest; [done..|by left]. }
  apply wp_bind, (wp_call_log _ (CInstaller _ _)); [intros ?; apply old_event; by rewrite Hc5|].
  intros err w6 Hw6 Hl6.
  assert (db_contents w6 = db_contents w) as Hc6 by (by rewrite (same_contents _ _ Hw6)).
  destruct err as [err|]; [by apply wp_give_up|].
  apply wp_commit_rest; [done..|]. right.
  destruct (ext_trans _ _ _ Hx Hx5) as [l2 Hl2]. exists [], l2, (db_contents w5).
  by rewrite Hl6, Hl2.
Qed.
End commit.

(** ** Properties *)

(** C4: the commit state switches the database to the new artifact or leaves it
    alone, in one transaction, on any store, working or failing.  Of all the
    databases there are while it runs, one after each operation on the store and
    one at each call, and of the last one, each has the old entries of the
    installed artifact (name, group and provides), or all of the new ones, as the
    rules for cleared provides demand, together with the update in the commit
    state, or the artifact's name flagged as inconsistent.  When it goes on to the
    next state, the first payload was committed by its installer (unless there is
    none), and the database has the new entries and that update.  (The matcher of
    wildcards gives, of a list of names, those that match one of the patterns.) *)
Theorem updateCommit_all_or_nothing {DB D} `{StoreLaws DB} `{Env D}
    matcher wildcard_matches (Hmatch : matcher_ok matcher wildcard_matches) u n
    (w : World DB D) :
  let '((s, _), w') := updateCommit_Handle matcher u n w in
  (exists l, w_log w' = l ++ w_log w /\
     Forall (fun e => old_or_new wildcard_matches u (db_contents w) (event_db e)) l) /\
  commit_outcome wildcard_matches u w s w'.
Proof.
  destruct (wp_updateCommit_Handle matcher wildcard_matches Hmatch u n w) as (l & Hl & HE & HQ).
  destruct (updateCommit_Handle matcher u n w) as [[s b] w']. split; [by exists l|done].
Qed.

Lemma updateCommit_all_or_nothing_witness :
  let w := example_world (updateCommitState example_update 0) in
  let '((s, _), w') := updateCommit_Handle (D := ()) (H1 := fixed_env happy) exact_matcher
    example_update 0 w in
  (exists l, w_log w' = l ++ w_log w /\
     Forall (fun e => old_or_new String.eqb example_update (db_contents w) (event_db e)) l) /\
  commit_outcome String.eqb example_update w s w'.
Proof.
  apply (updateCommit_all_or_nothing (D := ()) (H1 := fixed_env happy) exact_matcher String.eqb).
  intros l ws r [= <-] k. rewrite list_elem_of_filter. tauto.
Defined.
