(* ===== verification/Boot.v ===== *)
(** * Boot: restarts and the counter of stored state data

    Every load of state data at a start counts against loops, so that a device
    that keeps rebooting in the middle of an update gives the update up.  The
    bootstrap of the database loads the state data once more, and drops the
    error. *)

From S2P Require Import Prelude Json Store StateData DataStore Client ControlMap ControlMapPool.
From S2P Require Import States World Controller Handlers Mender Triples Scenario.
Import MapStore.

Open Scope Z_scope.

(** The bootstrap finds an artifact in the database: a name, a group or provides. *)
Definition has_artifact (db : gmap string string) : Prop :=
  exists p, (LoadProvides_txn db).1 = (p, None) /\ p <> ∅.

(** The database holds state data of the current version with count [c], and an
    artifact. *)
Definition holds_count (c : Z) (db : gmap string string) : Prop :=
  (exists data sd, db !! StateDataKey = Some data /\ unmarshal_StateData data = Ok sd /\
     Version sd = 2 /\ store_count sd = c) /\
  has_artifact db.

(** What is found depends on the contents only, and not on the state data. *)
Lemma LoadProvides_txn_reliable {T : Type} `{ReliableTransaction T} (t : T) :
  (LoadProvides_txn t).1 = (LoadProvides_txn (contents t)).1.
Proof.
  unfold LoadProvides_txn, read_optional. rewrite !rel_ReadAll. cbn [ReadAll map_transaction contents map_transaction_laws].
  destruct (contents t !! ArtifactNameKey), (contents t !! ArtifactGroupKey),
    (contents t !! ArtifactTypeInfoProvidesKey) as [p|]; try done; cbv beta iota zeta;
    repeat (case_match; try done).
Qed.

Lemma has_artifact_insert data db : has_artifact db -> has_artifact (<[StateDataKey := data]> db).
Proof.
  intros (p & Hp & Hne). exists p. split; [|done]. rewrite <- Hp. unfold LoadProvides_txn, read_optional.
  cbn [ReadAll map_transaction]. rewrite !lookup_insert_ne by done.
  destruct (db !! ArtifactNameKey), (db !! ArtifactGroupKey),
    (db !! ArtifactTypeInfoProvidesKey) as [q|]; try done; cbv beta iota zeta;
    repeat (case_match; try done).
Qed.

Section boot.
Context {DB D : Type} `{ReliableStore DB} `{Env D}.
Variable matcher : list string -> list string -> result (list string).

Notation World := (World DB D).

(** A load returns an error exactly when the count is exceeded, and moves the
    count on. *)
Lemma LoadStateData_counts (db : DB) c : 0 <= c <= 30 -> holds_count c (contents db) ->
  exists sd db', LoadStateData db = (sd, count_error (30 <=? c), db') /\
    holds_count (if 30 <=? c then 1 else c + 1) (contents db').
Proof.
  intros Hc ((data & sd & Hd & Hu & Hv & Hsc) & Ha).
  destruct (LoadStateData_current db data sd Hd Hu Hv) as (db' & Hl & Hc').
  rewrite Hsc in Hl, Hc'. change (store_count_exceeded c) with (30 <=? c) in Hl.
  do 2 eexists. split; [exact Hl|]. rewrite Hc'. split; [|by apply has_artifact_insert].
  - rewrite lookup_insert_eq. do 2 eexists. split; [done|].
    split; [apply unmarshal_marshal_StateData|].
    + apply unmarshal_int_fields in Hu as (H1' & _ & H3'). split; [done|]. split; [|done].
      cbn. apply int64_range.
    + split; [done|]. cbn. unfold next_store_count, store_count_exceeded, MaximumStateDataStoreCount.
      destruct (30 <=? c); [done|]. apply int64_id. unfold int64_min, int64_max. lia.
Qed.

Lemma LoadProvides_nonempty (db : DB) c : holds_count c (contents db) ->
  exists p db', LoadProvides db = (p, None, db') /\ p <> ∅ /\ contents db' = contents db.
Proof.
  intros (_ & p & Hp & Hne). unfold LoadProvides.
  destruct (rel_ReadTransaction ∅ LoadProvides_txn db) as (t & s' & Ht & -> & Hs).
  rewrite LoadProvides_txn_reliable, Ht, Hp. by eauto.
Qed.

(** ** One boot *)

(** Up to the load of [initState]; the errors of the loads. *)
Definition boot (file : Bootstrap) : M DB D (option error) :=
  _ ← HandleBootstrapArtifact matcher file;
  r ← db_op LoadStateData;
  mret (r : StateData * option error).2.

Fixpoint boots (n : nat) (file : Bootstrap) : M DB D (list (option error)) :=
  match n with
  | O => mret []
  | S n => err ← boot file; errs ← boots n file; mret (err :: errs)
  end.

Definition one_more (c : Z) : Z := if 30 <=? c then 1 else c + 1.

Lemma one_more_range c : 0 <= c <= 30 -> 0 <= one_more c <= 30.
Proof. unfold one_more. destruct (Z.leb_spec 30 c); lia. Qed.

Lemma HandleBootstrapArtifact_counts file (w : World) c :
  0 <= c <= 30 -> holds_count c (db_contents w) ->
  exists w', HandleBootstrapArtifact matcher file w = (None, w') /\
    holds_count (one_more c) (db_contents w').
Proof.
  intros Hc Hw. destruct (LoadStateData_counts (w_db w) c Hc Hw) as (sd & db1 & Hl & Hc1).
  fold (one_more c) in Hc1.
  unfold HandleBootstrapArtifact, databaseInitialized, mbind, M_bind, mret, M_ret, db_op.
  rewrite Hl. unfold count_error. destruct (30 <=? c).
  - cbn. destruct (LoadProvides_nonempty db1 _ Hc1) as (p & db2 & Hp & Hne & Hc2). rewrite Hp.
    rewrite bool_decide_false by done. cbn. eexists. split; [reflexivity|].
    unfold db_contents. cbn. by rewrite Hc2.
  - cbn. eexists. split; [reflexivity|]. done.
Qed.

Lemma boot_counts file (w : World) c : 0 <= c <= 30 -> holds_count c (db_contents w) ->
  exists w', boot file w = (count_error (30 <=? one_more c), w') /\
    holds_count (one_more (one_more c)) (db_contents w').
Proof.
  intros Hc Hw. destruct (HandleBootstrapArtifact_counts file w c Hc Hw) as (w1 & Hb & Hc1).
  destruct (LoadStateData_counts (w_db w1) (one_more c)) as (sd & db2 & Hl & Hc2);
    [by apply one_more_range|done|].
  unfold boot, mbind, M_bind. rewrite Hb. unfold db_op. rewrite Hl. cbn.
  eexists. split; [reflexivity|]. done.
Qed.

Lemma boots_even n file : forall (w : World) c,
  0 <= c <= 30 -> Z.Even c -> holds_count c (db_contents w) ->
  (boots n file w).1 = replicate n None.
Proof.
  induction n as [|n IH]; intros w c Hc He Hw; [done|].
  destruct (boot_counts file w c Hc Hw) as (w1 & Hb & Hc1).
  cbn [boots replicate]. unfold mbind at 1, M_bind at 1. rewrite Hb.
  assert (30 <=? one_more c = false) as ->.
  { unfold one_more. destruct He as [k ->]. destruct (Z.leb_spec 30 (2 * k)); lia. }
  pose proof (IH w1 (one_more (one_more c))) as IH'. unfold mbind, M_bind.
  destruct (boots n file w1) as [errs w2]. cbn. f_equal. apply IH'; [| |done].
  - by apply one_more_range, one_more_range.
  - unfold one_more. destruct He as [k ->].
    destruct (Z.leb_spec 30 (2 * k)); [by exists 1|].
    destruct (Z.leb_spec 30 (2 * k + 1)); [lia|]. exists (k + 1). lia.
Qed.

Lemma boots_odd n file : forall (w : World) c,
  0 <= c <= 30 -> Z.Odd c -> holds_count c (db_contents w) -> 29 - c < 2 * Z.of_nat n ->
  Some MaximumStateDataStoreCountExceeded ∈ (boots n file w).1.
Proof.
  induction n as [|n IH]; intros w c Hc He Hw Hn; [destruct He; lia|].
  destruct (boot_counts file w c Hc Hw) as (w1 & Hb & Hc1).
  cbn [boots]. unfold mbind at 1, M_bind at 1. rewrite Hb.
  pose proof (IH w1 (one_more (one_more c))) as IH'. unfold mbind, M_bind.
  destruct (boots n file w1) as [errs w2]. cbn. unfold one_more in *. destruct He as [k ->].
  destruct (Z.leb_spec 30 (2 * k + 1)); [lia|].
  destruct (Z.leb_spec 30 (2 * k + 1 + 1)); [apply list_elem_of_here|].
  apply list_elem_of_further, IH'; [lia|exists (k + 1); lia|done|lia].
Qed.
End boot.

(** ** Properties *)


Definition crashed_db (c : Z) : gmap string string :=
  <[StateDataKey := marshal_StateData (mkStateData 2 MenderStateReboot
      (set_StateDataStoreCount c example_update))]> example_db.

