(* ===== verification/Names.v ===== *)
(** * Names: the name of the installed artifact

    Who writes the artifact's name during the state machine's work: only the
    commit, and the flag for an inconsistent artifact. *)

From S2P Require Import Prelude Json Store StateData DataStore Client ControlMap ControlMapPool.
From S2P Require Import States World Controller Handlers Mender Triples Scenario WrapUp.
Import MapStore.

Open Scope Z_scope.

Section names.
(** The value at the start, and the name a commit may write. *)
Variable name0 : option string.
Variable committed : option string.

Definition name_ok (db : gmap string string) : Prop :=
  db !! ArtifactNameKey = name0 \/
  (exists n, db !! ArtifactNameKey = Some (n +:+ BrokenArtifactSuffix)) \/
  is_Some committed /\ db !! ArtifactNameKey = committed.

(** Every database on the way is as it should be. *)
Definition names_ok (e : Event) : Prop :=
  match e with Ev _ _ db | EvDB db => name_ok db end.

Lemma name_ok_same db db' :
  db' !! ArtifactNameKey = db !! ArtifactNameKey -> name_ok db -> name_ok db'.
Proof. unfold name_ok. by intros ->. Qed.

Context {DB D : Type} `{StoreLaws DB} `{Env D} `{SortMaps} (cfg : Config).
Variable matcher : list string -> list string -> result (list string).

Notation M := (M DB D).

Definition named {A} (m : M A) : Prop := forall w, name_ok (db_contents w) ->
  wp names_ok m (fun _ w' => name_ok (db_contents w')) w.

Lemma named_ret {A} (a : A) : named (mret a).
Proof. intros w Hw. by apply wp_ret. Qed.
Lemma named_bind {A B} (m : M A) (f : A -> M B) :
  named m -> (forall a, named (f a)) -> named (m ≫= f).
Proof.
  intros Hm Hf w Hw. apply wp_bind. eapply wp_mono; [by apply Hm|done|].
  intros a w' Hw'. by apply Hf.
Qed.
Lemma named_call c : named (call c).
Proof.
  intros w Hw. apply wp_call; [done|]. intros a w' Hs. by rewrite (same_contents _ _ Hs).
Qed.
Lemma named_db_op {A} (f : DB -> A * DB) :
  (forall db, name_ok (contents db) -> name_ok (contents (f db).2)) -> named (db_op f).
Proof.
  intros Hf w Hw. apply wp_db_op.
  - intros a db Hdb. cbn. specialize (Hf _ Hw). by rewrite Hdb in Hf.
  - intros a w' Hdb _. specialize (Hf _ Hw). by rewrite Hdb in Hf.
Qed.
Lemma named_pool_op {A} (f : ControlMapPool -> DB -> A * ControlMapPool * DB) :
  (forall p db, contents (f p db).2 !! ArtifactNameKey = contents db !! ArtifactNameKey) ->
  named (pool_op f).
Proof.
  intros Hf w Hw. apply wp_pool_op.
  - intros a p db Hdb. cbn. eapply name_ok_same; [|exact Hw].
    unfold db_contents. by rewrite <- (Hf (w_pool w) (w_db w)), Hdb.
  - intros a w' Hdb _ _ _. eapply name_ok_same; [|exact Hw].
    unfold db_contents. by rewrite <- (Hf (w_pool w) (w_db w)), Hdb.
Qed.
Lemma named_db_read {A} (f : DB -> A) : named (db_read f).
Proof. intros w Hw. by apply wp_db_read. Qed.
Lemma named_get_ctx : named get_ctx.
Proof. intros w Hw. by apply wp_get_ctx. Qed.
Lemma named_get_pool : named get_pool.
Proof. intros w Hw. by apply wp_get_pool. Qed.
Lemma named_GetInstallers : named GetInstallers.
Proof. intros w Hw. by apply wp_GetInstallers. Qed.
Lemma named_GetCurrentState : named GetCurrentState.
Proof. intros w Hw. by apply wp_GetCurrentState. Qed.
Lemma named_modify_ctx f : named (modify_ctx f).
Proof. intros w Hw. apply wp_modify_ctx. intros w' _ Hd *. unfold db_contents. by rewrite Hd. Qed.
Lemma named_set_installers l : named (set_installers l).
Proof. intros w Hw. apply wp_set_installers. intros w' _ Hd *. unfold db_contents. by rewrite Hd. Qed.
Lemma named_SetNextState s : named (SetNextState s).
Proof. intros w Hw. apply wp_SetNextState. intros w' _ Hd *. unfold db_contents. by rewrite Hd. Qed.

(** *** The database operations *)

Lemma named_StoreStateData sd inc : named (db_op (fun db => StoreStateData db sd inc)).
Proof.
  apply named_db_op. intros db Hdb.
  pose proof (StoreStateDataAndTransaction_outcome db sd inc None) as Ho.
  unfold StoreStateData. destruct (StoreStateDataAndTransaction db sd inc None) as [err db'].
  cbn. destruct Ho as [[_ ->]|(txn & txn1 & c & Ht & -> & -> & _)]; [done|].
  eapply name_ok_same; [|exact Hdb]. unfold state_key, uncommitted_cleared. rewrite Ht.
  by destruct (HasDBSchemaUpdate _); rewrite lookup_insert_ne, ?lookup_delete_ne by done.
Qed.
Lemma named_LoadStateData : named (db_op LoadStateData).
Proof.
  apply named_db_op. intros db Hdb. unfold LoadStateData.
  destruct (WriteTransaction_spec (no_StateData, false) LoadStateData_txn db)
    as [e s1 H1'|t a e t1 s1 H1' H2' H3'|t a e t1 s1 H1' H2' H3'|t a t1 s1 H1' H2' H3'].
  1-3: try destruct a as [? []]; cbn; congruence.
  assert (name_ok (contents t1)) as Ht1.
  { unfold LoadStateData_txn in H2'. destruct (loadStateData t StateDataKey); [|done].
    destruct (migrate t _) as [sd [e|]]; [done|].
    match type of H2' with context [WriteAll ?k ?d t] =>
      destruct (WriteAll k d t) as [[e|] t2] eqn:Hw end; [done|].
    injection H2' as _ <-. rewrite (WriteAll_ok _ _ _ _ Hw), H1'.
    eapply name_ok_same; [|exact Hdb]. apply lookup_insert_ne.
    unfold state_key. by destruct (HasDBSchemaUpdate _). }
  destruct a as [? []]; cbn; by rewrite H3'.
Qed.
Lemma named_LoadProvides : named (db_op LoadProvides).
Proof.
  apply named_db_op. intros db Hdb. unfold LoadProvides.
  destruct (ReadTransaction_spec ∅ LoadProvides_txn db) as (e & a & s' & -> & Hs & _). cbn. by rewrite Hs.
Qed.
Lemma named_RemoveStateData : named RemoveStateData.
Proof.
  apply named_db_op. intros db Hdb. destruct (Remove StateDataKey db) as [[e|] db'] eqn:Hr; cbn.
  - by rewrite (Remove_err _ _ _ _ Hr).
  - rewrite (Remove_ok _ _ _ Hr). eapply name_ok_same; [|exact Hdb]. by apply lookup_delete_ne.
Qed.
Lemma named_setBrokenArtifactFlag n : named (setBrokenArtifactFlag n).
Proof.
  unfold setBrokenArtifactFlag. apply named_bind; [|intros; apply named_ret].
  apply named_db_op. intros db Hdb. destruct (WriteAll _ _ db) as [[e|] db'] eqn:Hr; cbn.
  - by rewrite (WriteAll_err _ _ _ _ _ Hr).
  - rewrite (WriteAll_ok _ _ _ _ Hr). right; left. exists n. by rewrite lookup_insert_eq.
Qed.
End names.

Create HintDb named.

Ltac named_step :=
  first
    [ solve [auto 2]
    | apply named_ret
    | match goal with |- named _ _ (call ?c) => apply (named_call _ _ c) end
    | apply named_StoreStateData | apply named_LoadStateData | apply named_LoadProvides
    | apply named_RemoveStateData | apply named_setBrokenArtifactFlag
    | apply named_db_read | apply named_get_ctx | apply named_get_pool
    | apply named_GetInstallers | apply named_GetCurrentState | apply named_modify_ctx
    | apply named_set_installers | apply named_SetNextState
    | solve [eauto 2 with named]
    | apply named_bind; [|intros ?]
    | match goal with
      | |- named _ _ (match ?x with _ => _ end) => destruct x
      | |- named _ _ (if ?x then _ else _) => destruct x
      end ].

Ltac named := repeat named_step.

Section named_handlers.
Variable name0 : option string.
Variable committed : option string.
Context {DB D : Type} `{StoreLaws DB} `{Env D} `{SortMaps} (cfg : Config).
Variable matcher : list string -> list string -> result (list string).

Notation named := (named (DB := DB) (D := D) name0 committed).

Lemma named_handleStateDataError s b u e : named (handleStateDataError s b u e).
Proof. unfold handleStateDataError. named. Qed.
Lemma named_HandleError s e : named (HandleError s e).
Proof.
  unfold HandleError, updateState_HandleError, committed_HandleError, next. destruct s; named.
Qed.
Lemma named_store_state n u i : named (store_state n u i).
Proof. apply named_StoreStateData. Qed.
Lemma named_pool_change (f : Z -> ControlMapPool -> DB -> ControlMapPool * DB) :
  (forall t p db, contents (f t p db).2 !! ArtifactNameKey = contents db !! ArtifactNameKey) ->
  named (pool_change f).
Proof.
  intros Hf. unfold pool_change, now. apply named_bind; [apply (named_call _ _ CNow)|]. intros t.
  apply named_pool_op. intros p db. specialize (Hf t p db). by destruct (f t p db).
Qed.
Lemma named_DeleteAllPriorities id : named (pool_change (fun t => DeleteAllPriorities t id)).
Proof. apply named_pool_change. intros. by apply saveToStore_entry. Qed.
Lemma named_ClearExpired : named (pool_change ClearExpired).
Proof. apply named_pool_change. intros. by apply saveToStore_entry. Qed.
Lemma named_QueryAndUpdate n : named (pool_query (fun t => QueryAndUpdate sort_maps t n)).
Proof.
  unfold pool_query, now. apply named_bind; [apply (named_call _ _ CNow)|]. intros t.
  apply named_pool_op. intros p db. unfold QueryAndUpdate.
  destruct (query_priorities _ _ _ _ _). by apply saveToStore_entry.
Qed.
Lemma named_HandleControlMap id cm : named (HandleControlMap cfg id cm).
Proof.
  pose proof named_DeleteAllPriorities. unfold HandleControlMap. destruct cm as [cm|]; [|named].
  destruct (_ && _); [named|]. apply named_bind; [|named].
  apply named_pool_change. intros. by apply saveToStore_entry.
Qed.
Lemma named_receive_maps l : named (receive_maps cfg l).
Proof.
  induction l; cbn [receive_maps]; [apply named_ret|]. apply named_bind; [|done].
  apply named_pool_change. intros. by apply SetUpdateControlMap_entry.
Qed.
Lemma named_for_each {A} l (f : nat -> M DB D (option A)) :
  (forall n, named (f n)) -> named (for_each l f).
Proof. intros. induction l; cbn [for_each]; named. Qed.
Lemma named_commit_rest l : forall e, named (commit_rest l e).
Proof. induction l; intros; cbn [commit_rest]; named. Qed.
Lemma named_run_all op l : forall e, named (run_all op l e).
Proof. induction l; intros; cbn [run_all]; named. Qed.
Lemma named_reboot_type_loop l : forall u, named (reboot_type_loop l u).
Proof. induction l; intros; cbn [reboot_type_loop]; named. Qed.
Lemma named_queryUpdateModuleReboot l : forall u, named (queryUpdateModuleReboot l u).
Proof. induction l; intros; cbn [queryUpdateModuleReboot]; named. Qed.
Lemma named_supports_rollback_loop l : forall u, named (supports_rollback_loop l u).
Proof. induction l; intros; cbn [supports_rollback_loop]; named. Qed.
Lemma named_reboot_loop custom bad r l :
  (forall n, named (custom n)) -> (forall e, named (bad e)) ->
  forall b, named (reboot_loop custom bad l r b).
Proof. intros ? ?. induction l; intros; cbn [reboot_loop]; named. Qed.
Lemma named_getNextState sd e : named (getNextState sd e).
Proof. unfold getNextState, updateState_HandleError, next. named. Qed.
Lemma named_sendDeploymentStatus u s t : named (sendDeploymentStatus u s t).
Proof. unfold sendDeploymentStatus, ReportUpdateStatus. named. Qed.
End named_handlers.

#[export] Hint Resolve named_handleStateDataError named_HandleError named_store_state
  named_DeleteAllPriorities named_ClearExpired named_QueryAndUpdate named_HandleControlMap
  named_receive_maps named_for_each named_commit_rest named_run_all named_reboot_type_loop
  named_queryUpdateModuleReboot named_supports_rollback_loop named_getNextState
  named_sendDeploymentStatus : named.

(** ** Handlers and transitions *)

(** The name a state may commit. *)
Definition commits (s : State) : option string :=
  match s with updateCommitState u _ => Some (ArtifactName (artifact u)) | _ => None end.

Section named_states.
Variable name0 : option string.
Variable committed : option string.
Context {DB D : Type} `{StoreLaws DB} `{Env D} `{SortMaps} (cfg : Config).
Variable matcher : list string -> list string -> result (list string).

Notation named := (named (DB := DB) (D := D) name0 committed).

Lemma named_commit_store u :
  committed = Some (ArtifactName (artifact u)) -> named (commit_store matcher u).
Proof.
  intros Hc. apply named_db_op. intros db Hdb.
  match goal with |- context [StoreStateDataAndTransaction db ?sd true ?f] =>
    pose proof (StoreStateDataAndTransaction_outcome db sd true f) as Ho;
    destruct (StoreStateDataAndTransaction db sd true f) as [err db'] end.
  cbn in *. destruct Ho as [[_ ->]|(txn & txn1 & c & _ & Hf & -> & _)]; [done|].
  apply CommitArtifactData_name in Hf. right; right. rewrite Hc. split; [done|].
  unfold state_key, uncommitted_cleared.
  by destruct (HasDBSchemaUpdate _); rewrite lookup_insert_ne, ?lookup_delete_ne by done.
Qed.

(** The report keeps the artifact of the update. *)
Lemma named_bind_report {B} u st n (f : UpdateInfo * Z * option menderError -> M DB D B) :
  (forall x t e, named (f (set_StatusReportRetryAttempts x u, t, e))) ->
  named (sendDeploymentStatus u st n ≫= f).
Proof.
  intros Hf w Hw. unfold sendDeploymentStatus. apply wp_bind, wp_bind.
  assert (named (ReportUpdateStatus u st)) as Hr by (unfold ReportUpdateStatus; named).
  eapply wp_mono; [by apply Hr|done|]. intros e w' Hw'. apply wp_ret.
  destruct e; by apply Hf.
Qed.

Lemma named_updateCommit u n : committed = Some (ArtifactName (artifact u)) ->
  named (updateCommit_Handle matcher u n).
Proof.
  intros Hc. unfold updateCommit_Handle, DeploymentLogger_Enable, next.
  assert (forall x, named (commit_store matcher
    (set_HasDBSchemaUpdate false (set_StatusReportRetryAttempts x u)))) as Hs.
  { intros x. by apply named_commit_store. }
  repeat first [apply named_bind_report; intros ? ? ?|named_step].
Qed.

Lemma named_Handle s :
  match s with updateCommitState _ _ => committed = commits s | _ => True end ->
  named (Handle cfg matcher s).
Proof.
  destruct s; intros Hc; cbn [Handle commits] in *.
  14: { by apply named_updateCommit. }
  all: unfold panic, init_Handle, idle_Handle, checkWait_Handle, inventoryUpdate_Handle,
      updateCheck_Handle, inventoryUpdateRetry_Handle, errorState_Handle, updateFetch_Handle,
      updateAfterStore_Handle, fetchStoreRetry_Handle, updatePreCommitStatusReportRetry_Handle,
      updateAfterCommit_Handle, updateStatusReport_Handle, updateStatusReportRetry_Handle,
      updateRebootPauseRequested_Handle, updateAfterReboot_Handle,
      updateAfterRollbackReboot_Handle, controlMap_Handle, fetchControlMap_Handle,
      fetchRetryControlMap_Handle, controlMapPause_Handle, updateStore_Handle,
      handleSupportsRollback, maybeVerifyArtifactDependsAndProvides, check_depends,
      verifyAndSetArtifactNameInProvides, GetCurrentArtifactName, getValueFromDatabaseKey,
      ReadArtifactHeaders, updateInstall_Handle, handleRebootType, updateError_Handle,
      updateCleanup_Handle, updateVerifyReboot_Handle, updateRollback_Handle,
      updateVerifyRollbackReboot_Handle, updateAfterFirstCommit_Handle, updateReboot_Handle,
      updateRollbackReboot_Handle, RefreshServerUpdateControlMap, RestoreInstallersFromTypeList,
      DeploymentLogger_Enable, DeploymentLogger_Disable, Wait, Wait_no_cancel,
      MultiplexWait, now, next, CheckUpdate, InventoryRefresh, GetProvides, ReportUpdateStatus,
      sendDeploymentLogs, UploadLog, for_installers, installer_indices, GetCurrentArtifactName,
      getValueFromDatabaseKey.
  all: repeat first [apply named_reboot_loop; intros ?|apply named_for_each; intros ?|named_step].
Qed.

Lemma named_transitionState s :
  match s with updateCommitState _ _ => committed = commits s | _ => True end ->
  named (transitionState cfg matcher s).
Proof.
  intros Hc. pose proof (named_Handle s Hc) as Hh.
  unfold transitionState, leave, store_transition, enter_and_handle, Transition_Error,
    Transition_Leave, Transition_Enter, run_scripts. named.
Qed.
End named_states.

(** ** Properties *)

(** C5: nobody else writes the artifact's name.  Throughout a state transition,
    in the database at each call and after each database operation, the name is
    the one before the transition, or some name flagged as inconsistent, or, if
    the transition goes to the commit state, the name of the update's artifact;
    whatever the environment does and however the store fails. *)
Theorem transition_keeps_artifact_name {DB D} `{StoreLaws DB} `{Env D} `{SortMaps}
    cfg matcher s (w : World DB D) :
  let '(_, w') := transitionState cfg matcher s w in
  let ok := name_ok (db_contents w !! ArtifactNameKey) (commits s) in
  ok (db_contents w') /\
  exists l, w_log w' = l ++ w_log w /\
    Forall (names_ok (db_contents w !! ArtifactNameKey) (commits s)) l.
Proof.
  destruct (named_transitionState (db_contents w !! ArtifactNameKey) (commits s) cfg matcher s)
    with (w := w) as (l & Hl & HE & HQ).
  - by destruct s.
  - by left.
  - destruct (transitionState cfg matcher s w) as [r w']. eauto.
Qed.
