(* ===== verification/Text.v ===== *)
(** * Text: the functions of strings and strconv that the agent uses

    Numbers in base 10 and 16, white space, splitting, suffixes, and the lines of
    bufio.Scanner with its limit.  White space is ASCII's: no other occurs in the
    files and paths the code reads. *)

From S2P Require Import Prelude.
From Stdlib Require Import Ascii.

Open Scope Z_scope.

(** ** Numbers (strconv) *)

Definition digit_val (c : ascii) : option Z :=
  let n := Z.of_nat (nat_of_ascii c) in
  if (48 <=? n) && (n <=? 57) then Some (n - 48)
  else if (97 <=? n) && (n <=? 102) then Some (n - 87)
  else if (65 <=? n) && (n <=? 70) then Some (n - 55)
  else None.

Fixpoint parse_digits (base acc : Z) (s : string) : option Z :=
  match s with
  | EmptyString => Some acc
  | String c s =>
      match digit_val c with
      | Some d => if d <? base then parse_digits base (acc * base + d) s else None
      | None => None
      end
  end.

(** An optional sign. *)
Definition take_sign (s : string) : Z * string :=
  match s with
  | String c rest =>
      if bool_decide (c = "-"%char) then (-1, rest)
      else if bool_decide (c = "+"%char) then (1, rest)
      else (1, s)
  | EmptyString => (1, s)
  end.

(** [strconv.ParseInt s base 64], for base 10 or 16: an optional sign, at least
    one digit, and a value that fits. *)
Definition ParseInt (base : Z) (s : string) : option Z :=
  let '(sign, digits) := take_sign s in
  match digits with
  | EmptyString => None
  | _ =>
      match parse_digits base 0 digits with
      | Some n => let z := sign * n in
                  if (int64_min <=? z) && (z <=? int64_max) then Some z else None
      | None => None
      end
  end.

Definition Atoi : string -> option Z := ParseInt 10.

Definition digit_char (upper : bool) (d : Z) : ascii :=
  ascii_of_nat (Z.to_nat (if d <? 10 then 48 + d else if upper then 55 + d else 87 + d)).

Fixpoint format_digits (fuel : nat) (base : Z) (upper : bool) (n : Z) (acc : string) : string :=
  match fuel with
  | O => acc
  | S fuel =>
      if n <? base then String (digit_char upper n) acc
      else format_digits fuel base upper (n / base) (String (digit_char upper (n mod base)) acc)
  end.

(** [strconv.FormatInt] ([upper] is false) and the verb [%X]: 64 digits are
    enough for 64 bits. *)
Definition FormatInt (base : Z) (upper : bool) (n : Z) : string :=
  if n <? 0 then String "-"%char (format_digits 64 base upper (- n) EmptyString)
  else format_digits 64 base upper n EmptyString.

Lemma digit_val_char upper d : 0 <= d < 16 -> digit_val (digit_char upper d) = Some d.
Proof.
  intros Hd. assert (d ∈ Z.of_nat <$> seq 0 16) as Hin.
  { apply list_elem_of_fmap. exists (Z.to_nat d). split; [lia|]. apply elem_of_seq. lia. }
  revert Hin. vm_compute (Z.of_nat <$> seq 0 16). intros Hin.
  destruct upper; repeat (apply elem_of_cons in Hin as [->|Hin]; [reflexivity|]);
    by apply elem_of_nil in Hin.
Qed.

Lemma parse_format_digits base upper fuel : 2 <= base <= 16 -> forall n acc,
  0 <= n < base ^ Z.of_nat fuel ->
  parse_digits base 0 (format_digits fuel base upper n acc) = parse_digits base n acc.
Proof.
  intros Hb. induction fuel as [|fuel IH]; intros n acc Hn.
  { cbn in *. by replace n with 0 by lia. }
  rewrite Nat2Z.inj_succ, Z.pow_succ_r in Hn by lia. cbn [format_digits].
  destruct (Z.ltb_spec n base).
  - cbn [parse_digits]. rewrite digit_val_char by lia.
    by destruct (Z.ltb_spec n base); [|lia].
  - pose proof (Z.mod_pos_bound n base ltac:(lia)).
    rewrite IH by (split; [apply Z.div_pos; lia|apply Z.div_lt_upper_bound; lia]).
    cbn [parse_digits]. rewrite digit_val_char by lia.
    destruct (Z.ltb_spec (n mod base) base); [|lia].
    by rewrite Z.mul_comm, <- Z.div_mod by lia.
Qed.

Lemma format_digits_head base upper fuel : 2 <= base <= 16 -> forall n acc, 0 <= n ->
  exists d s, 0 <= d < 16 /\ format_digits (S fuel) base upper n acc = String (digit_char upper d) s.
Proof.
  intros Hb. induction fuel as [|fuel IH]; intros n acc Hn.
  - cbn [format_digits]. destruct (Z.ltb_spec n base); [exists n; eauto with lia|].
    exists (n mod base). pose proof (Z.mod_pos_bound n base ltac:(lia)). eauto with lia.
  - cbn [format_digits]. destruct (Z.ltb_spec n base); [exists n; eauto with lia|].
    apply IH. by apply Z.div_pos; lia.
Qed.

(** Printing and parsing a number gives it back. *)
Lemma ParseInt_FormatInt base upper n : 2 <= base <= 16 -> 0 <= n <= int64_max ->
  ParseInt base (FormatInt base upper n) = Some n.
Proof.
  intros Hb Hn. unfold ParseInt, FormatInt. destruct (Z.ltb_spec n 0); [lia|].
  destruct (format_digits_head base upper 63 Hb n EmptyString) as (d & s & Hd & Hs); [lia|].
  rewrite Hs.
  assert (take_sign (String (digit_char upper d) s) = (1, String (digit_char upper d) s)) as ->.
  { pose proof (digit_val_char upper d Hd) as Hv. cbn [take_sign].
    rewrite !bool_decide_false; [done|..]; intros Hc; rewrite Hc in Hv; by vm_compute in Hv. }
  rewrite <- Hs, parse_format_digits; [|done|].
  - cbn [parse_digits]. rewrite Z.mul_1_l.
    destruct (Z.leb_spec int64_min n), (Z.leb_spec n int64_max); try done;
      unfold int64_min, int64_max in *; lia.
  - split; [lia|]. change (Z.of_nat 64) with 64.
    apply Z.lt_le_trans with (2 ^ 64); [unfold int64_max in Hn; lia|].
    apply Z.pow_le_mono_l. lia.
Qed.

(** ** Trimming and splitting (strings) *)

Definition is_space (c : ascii) : bool :=
  let n := nat_of_ascii c in ((9 <=? n) && (n <=? 13) || (n =? 32))%nat.

Definition is_digit (c : ascii) : bool :=
  let n := nat_of_ascii c in ((48 <=? n) && (n <=? 57))%nat.

Fixpoint TrimLeftFunc (p : ascii -> bool) (s : string) : string :=
  match s with
  | String c s' => if p c then TrimLeftFunc p s' else s
  | EmptyString => EmptyString
  end.

Fixpoint TrimRightFunc (p : ascii -> bool) (s : string) : string :=
  match s with
  | EmptyString => EmptyString
  | String c s =>
      let t := TrimRightFunc p s in
      if bool_decide (t = EmptyString) && p c then EmptyString else String c t
  end.

Definition TrimSpace (s : string) : string := TrimRightFunc is_space (TrimLeftFunc is_space s).

(** The words of a text; [cur] is the word being read. *)
Fixpoint fields_from (cur s : string) : list string :=
  match s with
  | EmptyString => if bool_decide (cur = EmptyString) then [] else [cur]
  | String c s =>
      if is_space c then
        if bool_decide (cur = EmptyString) then fields_from EmptyString s
        else cur :: fields_from EmptyString s
      else fields_from (cur +:+ String c EmptyString) s
  end.

Definition Fields (s : string) : list string := fields_from EmptyString s.

(** [strings.Split] at a character; [cur] is the piece being read. *)
Fixpoint split_from (c : ascii) (cur s : string) : list string :=
  match s with
  | EmptyString => [cur]
  | String x s =>
      if bool_decide (x = c) then cur :: split_from c EmptyString s
      else split_from c (cur +:+ String x EmptyString) s
  end.

Definition Split (s : string) (c : ascii) : list string := split_from c EmptyString s.

(** [strings.Join] *)
Fixpoint Join (l : list string) (sep : string) : string :=
  match l with
  | [] => EmptyString
  | [x] => x
  | x :: l => x +:+ sep +:+ Join l sep
  end.

Definition newline_char : ascii := ascii_of_nat 10.
Definition newline : string := String newline_char EmptyString.

(** [dropCR] of bufio: without a carriage return at the end. *)
Fixpoint dropCR (s : string) : string :=
  match s with
  | EmptyString => EmptyString
  | String c EmptyString => if bool_decide (c = ascii_of_nat 13) then EmptyString else s
  | String c s => String c (dropCR s)
  end.

(** [s[n:]] *)
Fixpoint drop_str (n : nat) (s : string) : string :=
  match n, s with
  | O, _ => s
  | S n, String _ s => drop_str n s
  | S _, EmptyString => EmptyString
  end.

Definition HasPrefix (s p : string) : bool := String.prefix p s.

Fixpoint Contains (s sub : string) : bool :=
  HasPrefix s sub || match s with String _ s => Contains s sub | EmptyString => false end.

Definition HasSuffix (s p : string) : bool :=
  (String.length p <=? String.length s)%nat &&
  bool_decide (drop_str (String.length s - String.length p) s = p).

Definition to_lower (c : ascii) : ascii :=
  let n := nat_of_ascii c in
  if ((65 <=? n) && (n <=? 90))%nat then ascii_of_nat (n + 32) else c.

Fixpoint ToLower (s : string) : string :=
  match s with
  | String c s => String (to_lower c) (ToLower s)
  | EmptyString => EmptyString
  end.

(** [path.Dir] of a clean path: what comes before the last slash. *)
Definition Dir (p : string) : string :=
  let d := TrimRightFunc (fun c => negb (bool_decide (c = "/"%char))) p in
  let d := TrimRightFunc (fun c => bool_decide (c = "/"%char)) d in
  if bool_decide (d = EmptyString) then (if HasPrefix p "/" then "/" else ".") else d.

(** [filepath.Join] of a clean directory other than the root, and a name. *)
Definition join_path (dir name : string) : string := dir +:+ "/" +:+ name.

(** ** Lemmas *)

Lemma app_cons_str c a b : String c a +:+ b = String c (a +:+ b).
Proof. reflexivity. Qed.

Lemma app_nil_str s : s +:+ EmptyString = s.
Proof. induction s as [|c s IH]; [done|]. by rewrite app_cons_str, IH. Qed.

Lemma app_assoc_str a b c : (a +:+ b) +:+ c = a +:+ b +:+ c.
Proof. induction a as [|x a IH]; [done|]. by rewrite !app_cons_str, IH. Qed.

Lemma length_app_str a b : String.length (a +:+ b) = (String.length a + String.length b)%nat.
Proof. induction a as [|x a IH]; [done|]. rewrite app_cons_str. cbn. by rewrite IH. Qed.

Lemma prefix_app p s : String.prefix p (p +:+ s) = true.
Proof.
  induction p as [|c p IH]; [by destruct s|]. rewrite app_cons_str. cbn.
  destruct (Ascii.ascii_dec c c); [exact IH|done].
Qed.

Lemma prefix_same_length (a b s : string) : HasPrefix s a = true -> HasPrefix s b = true ->
  String.length a = String.length b -> a = b.
Proof.
  unfold HasPrefix. revert b s. induction a as [|x a IH]; intros [|y b] [|c s]; cbn; try done.
  intros Ha Hb Hlen. repeat case_match; try done. subst. f_equal. apply (IH b s); [done..|congruence].
Qed.

Lemma HasPrefix_app_inv s a b : HasPrefix s (a +:+ b) = true -> HasPrefix s a = true.
Proof.
  unfold HasPrefix. revert s. induction a as [|x a IH]; intros [|c s]; try done.
  change (String x a +:+ b) with (String x (a +:+ b)). cbn. case_match; [apply IH|done].
Qed.

Lemma drop_str_app a b : drop_str (String.length a) (a +:+ b) = b.
Proof. by induction a. Qed.

(** All the characters of [s] satisfy [p]. *)
Fixpoint all_str (p : ascii -> bool) (s : string) : bool :=
  match s with EmptyString => true | String c s => p c && all_str p s end.

Lemma TrimRightFunc_all p s : all_str p s = true -> TrimRightFunc p s = EmptyString.
Proof.
  induction s as [|c s IH]; [done|]. cbn. intros [Hc Hs]%andb_true_iff.
  by rewrite (IH Hs), Hc, bool_decide_true.
Qed.

Lemma TrimRightFunc_stop p s c t : p c = false -> all_str p t = true ->
  TrimRightFunc p (s +:+ String c t) = s +:+ String c EmptyString.
Proof.
  intros Hc Ht. induction s as [|x s IH].
  - change (EmptyString +:+ String c t) with (String c t). cbn [TrimRightFunc].
    rewrite (TrimRightFunc_all _ _ Ht), Hc. by rewrite andb_false_r.
  - change (TrimRightFunc p (String x (s +:+ String c t)) = String x (s +:+ String c EmptyString)).
    cbn [TrimRightFunc]. rewrite IH. rewrite bool_decide_false; [done|]. by destruct s.
Qed.

Lemma TrimRightFunc_none p s : all_str (fun c => negb (p c)) s = true -> TrimRightFunc p s = s.
Proof.
  induction s as [|c s IH]; [done|]. cbn. intros [Hc Hs]%andb_true_iff.
  apply negb_true_iff in Hc. rewrite (IH Hs), Hc. by rewrite andb_false_r.
Qed.

Lemma all_str_impl (p q : ascii -> bool) s : (forall c, p c = true -> q c = true) ->
  all_str p s = true -> all_str q s = true.
Proof.
  intros Hpq. induction s as [|c s IH]; [done|]. cbn. intros [Hc Hs]%andb_true_iff.
  by rewrite (Hpq _ Hc), (IH Hs).
Qed.

Lemma all_str_app p a b : all_str p (a +:+ b) = all_str p a && all_str p b.
Proof. induction a as [|c a IH]; [done|]. rewrite app_cons_str. cbn. by rewrite IH, andb_assoc. Qed.

Lemma TrimLeftFunc_none p s : all_str (fun c => negb (p c)) s = true -> TrimLeftFunc p s = s.
Proof.
  destruct s as [|c s]; [done|]. cbn. intros [Hc _]%andb_true_iff.
  apply negb_true_iff in Hc. by rewrite Hc.
Qed.

Lemma dropCR_none s : all_str (fun c => negb (bool_decide (c = ascii_of_nat 13))) s = true ->
  dropCR s = s.
Proof.
  induction s as [|c s IH]; [done|]. cbn [all_str]. intros [Hc Hs]%andb_prop.
  cbn [dropCR]. destruct s; [by destruct (bool_decide _)|by rewrite (IH Hs)].
Qed.

(** A character of a word: neither white space nor an equals sign. *)
Definition word_char (c : ascii) : bool := negb (is_space c) && negb (bool_decide (c = "="%char)).

(** A word: what can be the value of a variable of the boot environment. *)
Definition word (s : string) : Prop := s <> EmptyString /\ all_str word_char s = true.

Lemma word_no_space s : word s -> all_str (fun c => negb (is_space c)) s = true.
Proof. intros [_ Hs]. revert Hs. apply all_str_impl. by intros c [Hc _]%andb_true_iff. Qed.

(** What [readFile] does to what [writeFile] wrote. *)
Lemma TrimSpace_line s : word s -> TrimSpace (s +:+ newline) = s.
Proof.
  intros Hw. pose proof (word_no_space s Hw) as Hs. destruct Hw as [Hne _].
  unfold TrimSpace. destruct s as [|c s]; [done|].
  assert (TrimLeftFunc is_space (String c s +:+ newline) = String c s +:+ newline) as ->.
  { rewrite app_cons_str. cbn [all_str] in Hs. apply andb_true_iff in Hs as [Hc%negb_true_iff _].
    cbn [TrimLeftFunc]. by rewrite Hc. }
  clear Hne. revert c Hs. induction s as [|x s IH]; intros c Hs.
  - cbn [all_str] in Hs. apply andb_true_iff in Hs as [Hc%negb_true_iff _].
    change (TrimRightFunc is_space (String c newline) = String c EmptyString).
    cbn [TrimRightFunc]. rewrite Hc. by rewrite andb_false_r.
  - cbn [all_str] in Hs. apply andb_true_iff in Hs as [Hc Hs]. specialize (IH x Hs).
    rewrite app_cons_str. cbn [TrimRightFunc]. by rewrite IH.
Qed.

Lemma digits_word s : s <> EmptyString -> all_str is_digit s = true -> word s.
Proof.
  intros Hne Hs. split; [done|]. revert Hs. apply all_str_impl. intros c.
  unfold is_digit, word_char, is_space. intros [Hl Hu]%andb_true_iff.
  apply Nat.leb_le in Hl, Hu. apply andb_true_iff. split; apply negb_true_iff.
  - apply orb_false_iff. split.
    + apply andb_false_iff. right. apply Nat.leb_gt. lia.
    + apply Nat.eqb_neq. lia.
  - apply bool_decide_eq_false_2. intros ->. vm_compute in Hu. lia.
Qed.

Lemma format_digits_all p base upper fuel : 2 <= base <= 16 ->
  (forall d, 0 <= d < base -> p (digit_char upper d) = true) -> forall n acc, 0 <= n ->
  all_str p acc = true -> all_str p (format_digits fuel base upper n acc) = true.
Proof.
  intros Hb Hp. induction fuel as [|fuel IH]; intros n acc Hn Hacc; [done|]. cbn [format_digits].
  destruct (Z.ltb_spec n base).
  - cbn [all_str]. by rewrite Hp, Hacc by lia.
  - apply IH; [by apply Z.div_pos; lia|]. cbn [all_str].
    rewrite Hp, Hacc; [done|]. apply Z.mod_pos_bound. lia.
Qed.

(** A property of the digits is decided by trying all of them. *)
Lemma all_digit_chars (p : ascii -> bool) base upper : 0 <= base ->
  forallb (fun n => p (digit_char upper (Z.of_nat n))) (seq 0 (Z.to_nat base)) = true ->
  forall d, 0 <= d < base -> p (digit_char upper d) = true.
Proof.
  intros Hb Hall d Hd. rewrite forallb_forall in Hall.
  rewrite <- (Z2Nat.id d) by lia. apply Hall. apply in_seq. lia.
Qed.

Lemma FormatInt_not_empty base upper n : 2 <= base <= 16 -> 0 <= n <= int64_max ->
  FormatInt base upper n <> EmptyString.
Proof. intros Hb Hn Hnil. pose proof (ParseInt_FormatInt base upper n Hb Hn) as Hp. by rewrite Hnil in Hp. Qed.

Lemma FormatInt_all p base upper n : 2 <= base <= 16 -> 0 <= n ->
  (forall d, 0 <= d < base -> p (digit_char upper d) = true) ->
  all_str p (FormatInt base upper n) = true.
Proof.
  intros Hb Hn Hp. unfold FormatInt. destruct (Z.ltb_spec n 0); [lia|]. by apply format_digits_all.
Qed.

Lemma FormatInt_digits n : 0 <= n -> all_str is_digit (FormatInt 10 false n) = true.
Proof. intros Hn. apply FormatInt_all; [lia|done|]. by apply all_digit_chars. Qed.

Lemma FormatInt_word base n : base = 10 \/ base = 16 -> 0 <= n <= int64_max -> word (FormatInt base (base =? 16) n).
Proof.
  intros Hb Hn. split; [apply FormatInt_not_empty; lia|].
  apply FormatInt_all; [lia|lia|]. destruct Hb as [-> | ->]; by apply (all_digit_chars word_char).
Qed.

(** ** Splitting *)

Definition no_char (c : ascii) (s : string) : bool := all_str (fun x => negb (bool_decide (x = c))) s.

Lemma no_char_cons c x s : no_char c (String x s) = true -> x <> c /\ no_char c s = true.
Proof.
  unfold no_char. cbn [all_str]. intros [Hx Hs]%andb_true_iff. split; [|done].
  apply negb_true_iff, bool_decide_eq_false_1 in Hx. done.
Qed.

Lemma split_from_app c a : forall cur b, no_char c a = true ->
  split_from c cur (a +:+ String c b) = (cur +:+ a) :: split_from c EmptyString b.
Proof.
  induction a as [|x a IH]; intros cur b Ha.
  - change (EmptyString +:+ String c b) with (String c b). cbn [split_from].
    by rewrite bool_decide_true, app_nil_str.
  - apply no_char_cons in Ha as [Hx Ha]. rewrite app_cons_str. cbn [split_from].
    rewrite bool_decide_false, IH by done. by rewrite app_assoc_str.
Qed.

Lemma split_from_none c a : forall cur, no_char c a = true -> split_from c cur a = [cur +:+ a].
Proof.
  induction a as [|x a IH]; intros cur Ha; cbn [split_from]; [by rewrite app_nil_str|].
  apply no_char_cons in Ha as [Hx Ha]. by rewrite bool_decide_false, IH, app_assoc_str.
Qed.

Lemma Split_app c a b : no_char c a = true -> Split (a +:+ String c b) c = a :: Split b c.
Proof. intros Ha. unfold Split. by rewrite split_from_app. Qed.

Lemma Split_none c a : no_char c a = true -> Split a c = [a].
Proof. intros Ha. unfold Split. by rewrite split_from_none. Qed.

Lemma no_char_app c a b : no_char c (a +:+ b) = no_char c a && no_char c b.
Proof. apply all_str_app. Qed.

(** ** Numbers of four digits *)

(** [fmt.Sprintf] with the verb %04d. *)
Definition pad4 (n : Z) : string :=
  let s := FormatInt 10 false n in
  String.concat EmptyString (repeat "0" (4 - String.length s)) +:+ s.

Lemma FormatInt_length n : 0 <= n <= 9999 -> (String.length (FormatInt 10 false n) <= 4)%nat.
Proof.
  intros Hn. unfold FormatInt. destruct (Z.ltb_spec n 0); [lia|]. cbn [format_digits].
  assert (0 <= n / 10 < 1000) as H1 by (split; [apply Z.div_pos|apply Z.div_lt_upper_bound]; lia).
  assert (0 <= n / 10 / 10 < 100) as H2 by (split; [apply Z.div_pos|apply Z.div_lt_upper_bound]; lia).
  assert (0 <= n / 10 / 10 / 10 < 10) as H3 by (split; [apply Z.div_pos|apply Z.div_lt_upper_bound]; lia).
  repeat (match goal with |- context [Z.ltb ?a ?b] => destruct (Z.ltb_spec a b) end; cbn; try lia).
Qed.

Lemma pad4_length n : 0 <= n <= 9999 -> String.length (pad4 n) = 4%nat.
Proof.
  intros Hn. pose proof (FormatInt_length n Hn) as Hl. unfold pad4. rewrite length_app_str.
  assert (forall k, (k <= 4)%nat -> String.length (String.concat EmptyString (repeat "0" k)) = k) as Hz.
  { intros k Hk. do 5 (destruct k as [|k]; [done|]). lia. }
  rewrite Hz by lia. lia.
Qed.

Lemma parse_zeros k s : (k <= 4)%nat ->
  parse_digits 10 0 (String.concat EmptyString (repeat "0" k) +:+ s) = parse_digits 10 0 s.
Proof. intros Hk. do 5 (destruct k as [|k]; [done|]). lia. Qed.

Lemma pad4_inj i j : 0 <= i <= 9999 -> 0 <= j <= 9999 -> pad4 i = pad4 j -> i = j.
Proof.
  intros Hi Hj Heq. apply (f_equal (parse_digits 10 0)) in Heq. unfold pad4 in Heq.
  rewrite !parse_zeros in Heq by lia.
  assert (forall n, 0 <= n <= 9999 -> parse_digits 10 0 (FormatInt 10 false n) = Some n) as Hp.
  { intros n Hn. unfold FormatInt. destruct (Z.ltb_spec n 0); [lia|]. by rewrite parse_format_digits by lia. }
  rewrite !Hp in Heq by done. congruence.
Qed.

Lemma ParseInt_pad4 n : 0 <= n <= 9999 -> ParseInt 10 (pad4 n) = Some n.
Proof.
  intros Hn. unfold ParseInt. assert (exists c s, pad4 n = String c s /\ is_digit c = true) as (c & s & Hs & Hc).
  { pose proof (pad4_length n Hn) as Hl. pose proof (FormatInt_digits n ltac:(lia)) as Hd.
    destruct (pad4 n) as [|c s] eqn:Hp; [done|]. exists c, s. split; [done|]. unfold pad4 in Hp.
    destruct (4 - String.length (FormatInt 10 false n))%nat as [|k].
    - change (String.concat EmptyString (repeat "0" 0) +:+ FormatInt 10 false n) with (FormatInt 10 false n) in Hp.
      rewrite Hp in Hd. cbn [all_str] in Hd. by apply andb_true_iff in Hd as [Hd _].
    - cbn [repeat] in Hp. destruct k; by injection Hp as <- _. }
  rewrite Hs. unfold take_sign.
  destruct (bool_decide_reflect (c = "-"%char)) as [->|_]; [done|].
  destruct (bool_decide_reflect (c = "+"%char)) as [->|_]; [done|].
  rewrite <- Hs. unfold pad4. rewrite parse_zeros by lia.
  assert (parse_digits 10 0 (FormatInt 10 false n) = Some n) as ->.
  { unfold FormatInt. destruct (Z.ltb_spec n 0); [lia|]. by rewrite parse_format_digits by lia. }
  replace (1 * n) with n by lia. assert ((int64_min <=? n) && (n <=? int64_max) = true) as ->; [|done].
  apply andb_true_iff. split; apply Z.leb_le; unfold int64_min, int64_max; lia.
Qed.

(** * Lines of a text, up to a length *)

(** bufio.MaxScanTokenSize: the buffer, which also has to hold the newline. *)
Definition MaxScanTokenSize : Z := 65536.

(** The lines; a last line without a newline counts when it is not empty. *)
Fixpoint raw_lines (cur s : string) : list string :=
  match s with
  | EmptyString => if bool_decide (cur = EmptyString) then [] else [cur]
  | String x s =>
      if bool_decide (x = newline_char) then cur :: raw_lines EmptyString s
      else raw_lines (cur +:+ String x EmptyString) s
  end.

Definition fits (line : string) : bool := Z.of_nat (String.length line) <? MaxScanTokenSize.

(** The lines before the first that does not fit, without a carriage return at
    their end, and whether there is one. *)
Fixpoint scan_tokens (lines : list string) : list string * bool :=
  match lines with
  | [] => ([], false)
  | line :: lines =>
      if fits line then let '(l, too_long) := scan_tokens lines in (dropCR line :: l, too_long)
      else ([], true)
  end.

Definition Scan (text : string) : list string * bool := scan_tokens (raw_lines EmptyString text).

(** ** Lines that were written are scanned *)

Definition no_newline (s : string) : bool := all_str (fun c => negb (bool_decide (c = newline_char))) s.
Definition no_return (s : string) : bool := all_str (fun c => negb (bool_decide (c = ascii_of_nat 13))) s.

(** A line as a writer should make it. *)
Definition clean_line (s : string) : bool := no_newline s && no_return s && fits s.

Definition write_lines (l : list string) : string := foldr (fun line rest => line +:+ newline +:+ rest) EmptyString l.

Lemma raw_lines_cons cur line rest : no_newline line = true ->
  raw_lines cur (line +:+ newline +:+ rest) = (cur +:+ line) :: raw_lines EmptyString rest.
Proof.
  revert cur. induction line as [|c line IH]; intros cur Hl.
  - rewrite app_nil_str. cbn. reflexivity.
  - cbn [no_newline all_str] in Hl. apply andb_true_iff in Hl as [Hc Hl].
    rewrite app_cons_str. cbn [raw_lines]. apply negb_true_iff in Hc. rewrite Hc, (IH _ Hl).
    by rewrite app_assoc_str.
Qed.

Lemma Scan_write_lines l : forallb clean_line l = true -> Scan (write_lines l) = (l, false).
Proof.
  unfold Scan. induction l as [|line l IH]; [done|]. cbn [forallb write_lines foldr].
  intros [Hl Hr]%andb_true_iff. unfold clean_line in Hl.
  apply andb_true_iff in Hl as [[Hn Hret]%andb_true_iff Hf].
  rewrite raw_lines_cons by done. cbn [scan_tokens]. change (EmptyString +:+ line) with line. rewrite Hf.
  unfold write_lines in IH. rewrite (IH Hr). by rewrite dropCR_none.
Qed.
