(* ===== verification/Os.v ===== *)
(** * Os: the operating system the installers run on

    The functions of the packages os, path/filepath and os/exec that the boot
    environment and the dual root file system installer call, as a class
    [Os]; what their documentation promises, as a class of laws [OsLaws];
    [SimOs], a file system in a map that satisfies the laws.  Programs are of
    the type [IO]: a state and a result that may be an error. *)

From S2P Require Import Prelude Text.

Open Scope Z_scope.

(** ** Programs that may fail *)

Definition IO (S A : Type) : Type := S -> result A * S.

#[export] Instance IO_ret S : MRet (IO S) := fun A a s => (Ok a, s).

(** [if err != nil { return err }] after the first program. *)
#[export] Instance IO_bind S : MBind (IO S) := fun A B k m s =>
  match m s with (Ok a, s) => k a s | (Err e, s) => (Err e, s) end.

Definition fail {S A} (e : error) : IO S A := fun s => (Err e, s).

(** The error of [m] as a value, for code that looks at it. *)
Definition try {S A} (m : IO S A) : IO S (result A) := fun s =>
  let '(r, s) := m s in (Ok r, s).

(** A value that depends on the state only. *)
Definition gets {S A} (f : S -> A) : IO S A := fun s => (Ok (f s), s).
Definition asks {S A} (f : S -> result A) : IO S A := fun s => (f s, s).

(** [errors.Wrap] of the error of [m]. *)
Definition wrap {S A} (msg : string) (m : IO S A) : IO S A := fun s =>
  match m s with (Err e, s) => (Err (EWrap msg e), s) | o => o end.

(** A loop over a list that stops at the first error. *)
Fixpoint for_each {S X} (f : X -> IO S unit) (l : list X) : IO S unit :=
  match l with
  | [] => mret ()
  | x :: l => f x ≫= fun _ => for_each f l
  end.

Section rules.
Context {S : Type}.

Lemma bind_ok {A B} (m : IO S A) (k : A -> IO S B) s r s' : (m ≫= k) s = (Ok r, s') ->
  exists a s1, m s = (Ok a, s1) /\ k a s1 = (Ok r, s').
Proof. unfold mbind, IO_bind. destruct (m s) as [[a|e] s1]; [eauto|done]. Qed.

Lemma bind_err {A B} (m : IO S A) (k : A -> IO S B) s e s' : (m ≫= k) s = (Err e, s') ->
  m s = (Err e, s') \/ exists a s1, m s = (Ok a, s1) /\ k a s1 = (Err e, s').
Proof. unfold mbind, IO_bind. destruct (m s) as [[a|e0] s1]; [eauto|intros [= -> ->]; auto]. Qed.

Lemma bind_run {A B} (m : IO S A) (k : A -> IO S B) s a s1 : m s = (Ok a, s1) -> (m ≫= k) s = k a s1.
Proof. unfold mbind, IO_bind. by intros ->. Qed.

Lemma bind_fail {A B} (m : IO S A) (k : A -> IO S B) s e s1 : m s = (Err e, s1) ->
  (m ≫= k) s = (Err e, s1).
Proof. unfold mbind, IO_bind. by intros ->. Qed.

Lemma wrap_inv {A} msg (m : IO S A) s r s' : wrap msg m s = (r, s') ->
  exists r0, m s = (r0, s') /\ match r0 with Ok a => r = Ok a | Err x => r = Err (EWrap msg x) end.
Proof. unfold wrap. destruct (m s) as [[a|x] s1]; intros [= <- <-]; by eexists. Qed.

Lemma wrap_ok {A} msg (m : IO S A) s a s' : wrap msg m s = (Ok a, s') -> m s = (Ok a, s').
Proof. unfold wrap. destruct (m s) as [[b|e] s1]; [done|by intros [=]]. Qed.

Lemma try_inv {A} (m : IO S A) s r s' : try m s = (r, s') ->
  exists r0, m s = (r0, s') /\ r = Ok r0.
Proof. unfold try. destruct (m s) as [r0 s1]. intros [= <- <-]. eauto. Qed.

(** [m] relates the state before to the state after by [R], whatever its result. *)
Definition steps (R : S -> S -> Prop) {A} (m : IO S A) : Prop :=
  forall s r s', m s = (r, s') -> R s s'.

Context (R : S -> S -> Prop) `{!PreOrder R}.

Lemma steps_ret {A} (a : A) : steps R (mret a).
Proof. intros s r s' [= <- <-]. reflexivity. Qed.

Lemma steps_fail {A} e : steps R (fail (A:=A) e).
Proof. intros s r s' [= <- <-]. reflexivity. Qed.

Lemma steps_gets {A} (f : S -> A) : steps R (gets f).
Proof. intros s r s' [= <- <-]. reflexivity. Qed.

Lemma steps_asks {A} (f : S -> result A) : steps R (asks f).
Proof. intros s r s' [= <- <-]. reflexivity. Qed.

Lemma steps_bind {A B} (m : IO S A) (k : A -> IO S B) :
  steps R m -> (forall a, steps R (k a)) -> steps R (m ≫= k).
Proof.
  intros Hm Hk s r s'. unfold mbind, IO_bind. destruct (m s) as [[a|e] s1] eqn:E.
  - intros Hr. transitivity s1; [exact (Hm _ _ _ E)|exact (Hk _ _ _ _ Hr)].
  - intros [= <- <-]. exact (Hm _ _ _ E).
Qed.

Lemma steps_try {A} (m : IO S A) : steps R m -> steps R (try m).
Proof. intros Hm s r s'. unfold try. destruct (m s) as [r0 s1] eqn:E. intros [= <- <-]. eauto. Qed.

Lemma steps_wrap {A} msg (m : IO S A) : steps R m -> steps R (wrap msg m).
Proof.
  intros Hm s r s'. unfold wrap. destruct (m s) as [[a|e] s1] eqn:E; intros [= <- <-]; eauto.
Qed.

Lemma steps_for_each {X} (f : X -> IO S unit) l :
  (forall x, In x l -> steps R (f x)) -> steps R (for_each f l).
Proof.
  induction l as [|x l IH]; intros Hf; [apply steps_ret|]. cbn [for_each].
  apply steps_bind; [apply Hf; by left|]. intros _. apply IH. intros y Hy. apply Hf. by right.
Qed.

End rules.

(** ** The interface *)

(** What [os.Stat] tells. *)
Record FileInfo := { is_device : bool; Dev : Z; Rdev : Z }.

(** A child process: its name, arguments, what is added to its environment, and
    its input. *)
Record Cmd := mkCmd {
  cmd_name : string;
  cmd_args : list string;
  cmd_env : list string;
  cmd_stdin : string
}.

Definition Command (name : string) (args : list string) : Cmd := mkCmd name args [] EmptyString.

(** The error of writing to a read-only file system. *)
Definition EROFS : error := EText "read-only file system".

(** A command that is in no directory of the path (exec.ErrNotFound). *)
Definition ErrNotFound : error := EText "executable file not found in $PATH".

(** [RunCmd] starts a process, waits for it and gives its output, or the error
    of starting it or of its exit status.  [ErrNotExist] is the error of a missing file ([os.IsNotExist]). *)
Class Os (D : Type) := {
  ReadFile : string -> D -> result string;
  Stat : string -> D -> result FileInfo;
  EvalSymlinks : string -> D -> result string;
  Readdirnames : string -> D -> result (list string);
  LookPath : string -> D -> result string;
  WriteFile : string -> string -> IO D unit;
  MkdirAll : string -> IO D unit;
  RemoveFile : string -> IO D unit;
  RunCmd : Cmd -> IO D string
}.

(** A path under a directory. *)
Definition under (dir p : string) : bool := HasPrefix p (dir +:+ "/").

Lemma under_join dir name : under dir (join_path dir name) = true.
Proof. unfold under, join_path, HasPrefix. rewrite <- app_assoc_str. apply prefix_app. Qed.

(** Two states in which all files outside [P] have the same contents ([files]
    are those one sees) and, unless it is in [P], the link to the root device
    leads to the same device. *)
Definition same_view {D} `{Os D} (files : D -> gmap string string) (P : string -> Prop)
    (d d' : D) : Prop :=
  (forall q, ~ P q -> files d' !! q = files d !! q) /\
  (~ P "/dev/root" -> EvalSymlinks "/dev/root" d' = EvalSymlinks "/dev/root" d).

(** What is documented of it.  A failed write may leave anything in its file.
    Mounting and unmounting change what is under the mount point only. *)
Class OsLaws (D : Type) `{Os D} := {
  files : D -> gmap string string;
  ReadFile_ok p d v : ReadFile p d = Ok v -> files d !! p = Some v;
  ReadFile_not_exist p d : ReadFile p d = Err ErrNotExist -> files d !! p = None;
  WriteFile_ok p v d d' : WriteFile p v d = (Ok (), d') -> files d' !! p = Some v;
  RemoveFile_ok p d d' : RemoveFile p d = (Ok (), d') -> files d' !! p = None;
  WriteFile_frame p v : steps (same_view files (fun q => q = p)) (WriteFile p v);
  RemoveFile_frame p : steps (same_view files (fun q => q = p)) (RemoveFile p);
  MkdirAll_frame p : steps (same_view files (fun _ => False)) (MkdirAll p);
  mount_frame dev m :
    steps (same_view files (fun q => under m q = true)) (RunCmd (Command "mount" [dev; m]));
  umount_frame m :
    steps (same_view files (fun q => under m q = true)) (RunCmd (Command "umount" [m]));
  remount_frame m :
    steps (same_view files (fun _ => False)) (RunCmd (Command "mount" ["-o"; "remount,rw"; m]));
  list_mounts_frame : steps (same_view files (fun _ => False)) (RunCmd (Command "mount" []))
}.

(** Files can be read back. *)
Class ReliableReads (D : Type) `{OsLaws D} : Prop :=
  ReadFile_files p d : ReadFile p d = match files d !! p with Some v => Ok v | None => Err ErrNotExist end.

(** ** Which files a program touches *)

Section frames.
Context `{OsLaws D}.

Definition same_outside (P : string -> Prop) : D -> D -> Prop := same_view files P.

#[export] Instance same_outside_preorder P : PreOrder (same_outside P).
Proof.
  split; [by intros d|]. intros a b c [Hab Lab] [Hbc Lbc]. split.
  - intros q Hq. by rewrite (Hbc q Hq), (Hab q Hq).
  - intros HP. by rewrite (Lbc HP), (Lab HP).
Qed.

(** [m] writes no file outside [P]. *)
Definition writes_only (P : string -> Prop) {A} (m : IO D A) : Prop := steps (same_outside P) m.

Lemma writes_only_weaken (P Q : string -> Prop) {A} (m : IO D A) :
  (forall q, P q -> Q q) -> writes_only P m -> writes_only Q m.
Proof.
  intros HPQ Hm d r d' Hr. destruct (Hm _ _ _ Hr) as [Hf Hl]. split; [intros q Hq; apply Hf|intros Hq; apply Hl]; auto.
Qed.

Lemma writes_WriteFile (P : string -> Prop) p v : P p -> writes_only P (WriteFile p v).
Proof. intros Hp. eapply writes_only_weaken, WriteFile_frame. by intros q ->. Qed.

Lemma writes_RemoveFile (P : string -> Prop) p : P p -> writes_only P (RemoveFile p).
Proof. intros Hp. eapply writes_only_weaken, RemoveFile_frame. by intros q ->. Qed.

Lemma writes_MkdirAll P p : writes_only P (MkdirAll p).
Proof. by eapply writes_only_weaken, MkdirAll_frame. Qed.

Lemma writes_mount (P : string -> Prop) dev m : (forall q, under m q = true -> P q) ->
  writes_only P (RunCmd (Command "mount" [dev; m])).
Proof. intros HP. eapply writes_only_weaken, mount_frame. exact HP. Qed.

Lemma writes_umount (P : string -> Prop) m : (forall q, under m q = true -> P q) ->
  writes_only P (RunCmd (Command "umount" [m])).
Proof. intros HP. eapply writes_only_weaken, umount_frame. exact HP. Qed.

Lemma writes_remount P m : writes_only P (RunCmd (Command "mount" ["-o"; "remount,rw"; m])).
Proof. by eapply writes_only_weaken, remount_frame. Qed.

End frames.

(** Splits a judgement about a program into those about its calls. *)
Ltac io_step :=
  lazymatch goal with
  | |- forall _, _ => intro
  | |- writes_only ?P ?m => change (steps (same_outside P) m)
  | |- steps _ (mret _) => apply steps_ret; apply _
  | |- steps _ (fail _) => apply steps_fail; apply _
  | |- steps _ (gets _) => apply steps_gets; apply _
  | |- steps _ (asks _) => apply steps_asks; apply _
  | |- steps _ (wrap _ _) => apply steps_wrap
  | |- steps _ (try _) => apply steps_try
  | |- steps _ (_ ≫= _) => apply steps_bind; [apply _| |]
  | |- steps _ (MkdirAll _) => apply writes_MkdirAll
  | |- steps _ (RunCmd (Command _ [_; "remount,rw"; _])) => apply writes_remount
  | |- steps _ (match _ with _ => _ end) => case_match
  end.

Ltac io_steps := repeat io_step.

(** ** A file system in a map *)

(** [sim_writes] says for each of the next writes whether it finds the file
    system read-only; [sim_run] answers a command
    line. *)
Record SimOs := {
  sim_files : gmap string string;
  sim_devices : gmap string FileInfo;
  sim_links : gmap string string;
  sim_writes : list bool;
  sim_run : gmap string (result string)
}.

Definition sim_write (p v : string) : IO SimOs unit := fun d =>
  let write w := {| sim_files := <[p := v]> (sim_files d); sim_devices := sim_devices d;
                    sim_links := sim_links d; sim_writes := w; sim_run := sim_run d |} in
  match sim_writes d with
  | true :: w => (Err (EWrap "write" EROFS),
                  {| sim_files := sim_files d; sim_devices := sim_devices d;
                     sim_links := sim_links d; sim_writes := w; sim_run := sim_run d |})
  | false :: w => (Ok (), write w)
  | [] => (Ok (), write [])
  end.

Definition sim_remove (p : string) : IO SimOs unit := fun d =>
  (Ok (), {| sim_files := delete p (sim_files d); sim_devices := sim_devices d;
             sim_links := sim_links d; sim_writes := sim_writes d; sim_run := sim_run d |}).

(** The script that switches the slot, which gets the two devices in its
    environment: like those of the repository, it records the number of the slot's
    partition, the slot and the flag in files. *)
Definition sim_slot_script (c : Cmd) (fs : gmap string string) : gmap string string :=
  match cmd_args c, cmd_env c with
  | [slot], [a; b] =>
      let device := if bool_decide (slot = "a") then a else b in
      let num := drop_str (String.length (TrimRightFunc is_digit device)) device in
      <["/data/ota/mender_boot_part" := num +:+ newline]>
        (<["/data/ota/current_slot" := slot +:+ newline]>
          (<["/data/ota/upgrade_available" := "1" +:+ newline]> fs))
  | _, _ => fs
  end.

Definition sim_command (c : Cmd) : IO SimOs string := fun d =>
  match sim_run d !! Join (cmd_name c :: cmd_args c) " " with
  | Some (Ok out) =>
      (Ok out, {| sim_files := sim_slot_script c (sim_files d); sim_devices := sim_devices d;
                  sim_links := sim_links d; sim_writes := sim_writes d; sim_run := sim_run d |})
  | Some (Err err) => (Err err, d)
  | None => (Err ErrNotExist, d)
  end.

Definition found {A} (o : option A) : result A :=
  match o with Some a => Ok a | None => Err ErrNotExist end.

#[export] Instance Sim_Os : Os SimOs := {
  ReadFile p d := found (sim_files d !! p);
  Stat p d := match sim_devices d !! p, sim_files d !! p with
              | Some i, _ => Ok i
              | None, Some _ => Ok {| is_device := false; Dev := 0; Rdev := 0 |}
              | None, None => Err ErrNotExist
              end;
  EvalSymlinks p d := match sim_links d !! p with Some q => Ok q | None => Ok p end;
  Readdirnames _ d := Ok [];
  LookPath p d := if decide (is_Some (sim_run d !! p)) then Ok p else Err ErrNotExist;
  WriteFile := sim_write;
  MkdirAll _ d := (Ok (), d);
  RemoveFile := sim_remove;
  RunCmd := sim_command
}.

#[export] Instance Sim_OsLaws : OsLaws SimOs.
Proof.
  refine {| files := sim_files |}.
  - intros p d v. cbn. by destruct (sim_files d !! p); intros [= ->].
  - intros p d. cbn. by destruct (sim_files d !! p).
  - intros p v d d'. cbn. unfold sim_write. destruct (sim_writes d) as [|[] w]; intros [= <-]; cbn;
      by rewrite lookup_insert_eq.
  - intros p d d' [= <-]. cbn. apply lookup_delete_eq.
  - intros p v d r d'. cbn. unfold sim_write.
    destruct (sim_writes d) as [|[] w]; intros [= <- <-]; split; try done; intros q Hq; cbn;
      by rewrite lookup_insert_ne by done.
  - intros p d r d' [= <- <-]. split; [|done]. intros q Hq. cbn. by rewrite lookup_delete_ne by done.
  - by intros p d r d' [= <- <-].
  - intros dev m d r d'. cbn. unfold sim_command. by destruct (sim_run d !! _) as [[]|]; intros [= <- <-].
  - intros m d r d'. cbn. unfold sim_command. by destruct (sim_run d !! _) as [[]|]; intros [= <- <-].
  - intros m d r d'. cbn. unfold sim_command. by destruct (sim_run d !! _) as [[]|]; intros [= <- <-].
  - intros d r d'. cbn. unfold sim_command. by destruct (sim_run d !! _) as [[]|]; intros [= <- <-].
Defined.

#[export] Instance Sim_ReliableReads : ReliableReads SimOs.
Proof. intros p d. cbn. by destruct (sim_files d !! p). Qed.
