(* ===== verification/Devices.v ===== *)
(** * Devices: names of partitions

    The functions of installer/dual_rootfs_device.go and installer/partitions.go
    that take names of block devices apart. *)

From S2P Require Import Prelude Text Os.
From Stdlib Require Import Ascii.

Open Scope Z_scope.

(** ** Numbers of partitions (dual_rootfs_device.go) *)

(** The loop over the characters of [device] from the index [i - 1] down. *)
Fixpoint extract_loop (device : string) (i : nat) : string :=
  match i with
  | O => EmptyString
  | S i =>
      match String.get i device with
      | Some c =>
          if is_digit c then extract_loop device i
          else if (i <? String.length device - 1)%nat then drop_str (S i) device
          else EmptyString
      | None => EmptyString
      end
  end.

Definition extractPartitionNumber (device : string) : string :=
  let device := TrimSpace device in extract_loop device (String.length device).

(** The decimal and the hexadecimal number of a partition. *)
Definition getPartitionImpl (partition : string) : result (string * string) :=
  let partitionNumberDecStr :=
    drop_str (String.length (TrimRightFunc is_digit partition)) partition in
  match Atoi partitionNumberDecStr with
  | Some partitionNumberDec => Ok (partitionNumberDecStr, FormatInt 16 true partitionNumberDec)
  | None => Err (EText ("Invalid partition: " +:+ partition))
  end.

(** ** Matching (partitions.go) *)

Definition checkBootEnvAndRootPartitionMatch (bootPartNum rootPart : string) : bool :=
  HasSuffix rootPart bootPartNum.

(** The first field of the line of [data] whose third field is the root. *)
Definition getRootCandidateFromMount (data : string) : string :=
  match list_find (fun line => Split line " " !! 2%nat = Some "/") (Split data newline_char) with
  | Some (_, line) => default EmptyString (head (Split line " "))
  | None => EmptyString
  end.

Definition resolvePathsInDirs : list string := ["/dev/disk/by-partuuid"; "/dev/disk/by-partlabel"].

Definition maybeResolveLink `{Os D} (unresolvedPath : string) (d : D) : string :=
  match EvalSymlinks unresolvedPath d with
  | Err _ => unresolvedPath
  | Ok resolvedPath =>
      if bool_decide (unresolvedPath = "/dev/root") ||
         bool_decide (Dir unresolvedPath ∈ resolvePathsInDirs)
      then resolvedPath else unresolvedPath
  end.

(** ** Devices with a number *)

(** A name that ends in a number, after a character that is not a digit;
    neither end is white space. *)
Definition numbered (device num : string) : Prop :=
  exists c pre, device = String c pre +:+ num /\ is_space c = false /\
    (exists p x, String c pre = p +:+ String x EmptyString /\ is_digit x = false) /\
    num <> EmptyString /\ all_str is_digit num = true.

Section numbered.
Context (p : string) (x : ascii) (num : string).
Context (Hx : is_digit x = false) (Hne : num <> EmptyString) (Hnum : all_str is_digit num = true).

Lemma get_app_right a b i : String.get (String.length a + i) (a +:+ b) = String.get i b.
Proof using. induction a as [|c a IH]; [done|exact IH]. Qed.

Lemma get_all pr s i c : all_str pr s = true -> String.get i s = Some c -> pr c = true.
Proof using.
  revert i. induction s as [|y s IH]; intros i; [destruct i; discriminate|].
  cbn [all_str]. intros [Hy Hs]%andb_true_iff. destruct i as [|i]; cbn.
  - by intros [= <-].
  - by apply IH.
Qed.

Lemma get_lt s i : (i < String.length s)%nat -> exists c, String.get i s = Some c.
Proof using.
  revert i. induction s as [|y s IH]; cbn; intros i Hi; [lia|].
  destruct i as [|i]; [by exists y|]. apply IH. lia.
Qed.

Lemma extract_loop_num j : (j <= String.length num)%nat ->
  extract_loop (p +:+ String x num) (S (String.length p) + j) = num.
Proof.
  induction j as [|j IH]; intros Hj.
  - rewrite Nat.add_0_r. cbn [extract_loop].
    pose proof (get_app_right p (String x num) 0) as Hg. rewrite Nat.add_0_r in Hg. rewrite Hg.
    cbn [String.get]. rewrite Hx, length_app_str.
    destruct num as [|c num']; [done|]. cbn [String.length].
    replace (String.length p <? _)%nat with true by (symmetry; apply Nat.ltb_lt; lia).
    change (String x (String c num')) with (String x EmptyString +:+ String c num').
    rewrite <- app_assoc_str.
    replace (S (String.length p)) with (String.length (p +:+ String x EmptyString)).
    + apply drop_str_app.
    + rewrite length_app_str. apply Nat.add_1_r.
  - destruct (get_lt num j ltac:(lia)) as [c Hc].
    replace (S (String.length p) + S j)%nat with (S (String.length p + S j)) by lia.
    cbn [extract_loop]. rewrite get_app_right. cbn [String.get]. rewrite Hc.
    rewrite (get_all _ _ _ _ Hnum Hc). etransitivity; [|apply IH; lia]. f_equal. lia.
Qed.

Lemma split_at : drop_str (String.length (TrimRightFunc is_digit (p +:+ String x num)))
  (p +:+ String x num) = num.
Proof.
  rewrite TrimRightFunc_stop by done.
  change (String x num) with (String x EmptyString +:+ num). rewrite <- app_assoc_str.
  apply drop_str_app.
Qed.

End numbered.

Lemma is_digit_not_space c : is_digit c = true -> is_space c = false.
Proof.
  unfold is_digit, is_space. intros [Hl Hu]%andb_true_iff. apply Nat.leb_le in Hl, Hu.
  apply orb_false_iff. split; [apply andb_false_iff; right; apply Nat.leb_gt|apply Nat.eqb_neq]; lia.
Qed.

Lemma TrimSpace_numbered device num : numbered device num -> TrimSpace device = device.
Proof.
  intros (c & pre & -> & Hc & _ & Hne & Hnum). unfold TrimSpace.
  rewrite app_cons_str. cbn [TrimLeftFunc]. rewrite Hc. rewrite <- app_cons_str.
  assert (exists s y, num = s +:+ String y EmptyString /\ is_space y = false) as (s & y & -> & Hy).
  { clear Hc. induction num as [|a num IH]; [done|]. cbn [all_str] in Hnum.
    apply andb_true_iff in Hnum as [Ha Hnum]. destruct num as [|b num].
    - exists EmptyString, a. auto using is_digit_not_space.
    - destruct IH as (s & y & Hs & Hy); [done|done|]. exists (String a s), y.
      by rewrite Hs, app_cons_str. }
  rewrite <- app_assoc_str. by rewrite TrimRightFunc_stop.
Qed.

(** The two ways to find the number agree. *)
Lemma extractPartitionNumber_numbered device num : numbered device num ->
  extractPartitionNumber device = num.
Proof.
  intros Hn. unfold extractPartitionNumber. rewrite (TrimSpace_numbered _ _ Hn).
  destruct Hn as (c & pre & -> & _ & (p & x & Hpx & Hx) & Hne & Hnum).
  rewrite Hpx, app_assoc_str, app_cons_str.
  change (EmptyString +:+ num) with num.
  rewrite length_app_str. cbn [String.length].
  replace (String.length p + S (String.length num))%nat
    with (S (String.length p) + String.length num)%nat by lia.
  by apply extract_loop_num.
Qed.

Lemma getPartitionImpl_numbered device n : 0 <= n <= int64_max ->
  numbered device (FormatInt 10 false n) ->
  getPartitionImpl device = Ok (FormatInt 10 false n, FormatInt 16 true n).
Proof.
  intros Hn (c & pre & -> & _ & (p & x & Hpx & Hx) & Hne & Hnum). unfold getPartitionImpl.
  rewrite Hpx, app_assoc_str, app_cons_str.
  change (EmptyString +:+ FormatInt 10 false n) with (FormatInt 10 false n).
  rewrite split_at by done. unfold Atoi. by rewrite ParseInt_FormatInt by lia.
Qed.

(** The match is by suffix: number 3 matches partition 13, and no number at all
    matches every device. *)
Example match_is_a_suffix :
  checkBootEnvAndRootPartitionMatch "3" "/dev/nvme0n1p13" = true /\
  checkBootEnvAndRootPartitionMatch EmptyString "/dev/nvme0n1p13" = true.
Proof. split; reflexivity. Qed.
