(* ===== verification/BootEnv.v ===== *)
(** * BootEnv: the boot environment as the installer sees it

    The interface [BootEnvReadWriter] of installer/bootenv.go as a class, with
    the two methods that dual_rootfs_device.go looks for by a type assertion,
    and what the installer relies on as a class of laws. *)

From S2P Require Import Prelude Text Os.

Open Scope Z_scope.

Notation BootVars := (gmap string string).

(** The methods of an environment [E] on a device [D]; an optional method is
    [None] when the type does not have it. *)
Class BootEnvReadWriter (E D : Type) := {
  ReadEnv : E -> list string -> IO D BootVars;
  WriteEnv : E -> BootVars -> IO D unit;
  ReconcileToBootedSlot' : E -> option (IO D unit);
  ClearDirectBootBackup' : E -> option (IO D unit)
}.

(** ** What it promises *)

(** The variables that decide about the next boot. *)
Definition boot_keys : list string := ["upgrade_available"; "bootcount"; "mender_boot_part"].

(** A write the installer makes: words, for keys of the environment, with the
    number of the partition in both bases. *)
Definition coherent (vars : BootVars) : Prop :=
  map_Forall (fun k v => word v /\ In k ("mender_boot_part_hex" :: boot_keys)) vars /\
  match vars !! "mender_boot_part", vars !! "mender_boot_part_hex" with
  | Some p, Some h => exists n, 0 <= n <= int64_max /\ p = FormatInt 10 false n /\ h = FormatInt 16 true n
  | None, None => True
  | _, _ => False
  end.

(** A [valid] environment answers with its variables, does not change them by
    answering, and has after a successful write what was written.  The optional
    methods leave the flags and the boot partition of a pending update alone. *)
Class BootEnvLaws (E D : Type) `{BootEnvReadWriter E D} := {
  valid : E -> Prop;
  env_var : E -> D -> string -> option string;
  ReadEnv_var e names d vars d' k : valid e -> ReadEnv e names d = (Ok vars, d') ->
    In k names -> vars !! k = env_var e d k;
  ReadEnv_frame e names d r d' k : valid e -> ReadEnv e names d = (r, d') ->
    env_var e d' k = env_var e d k;
  WriteEnv_var e vars d d' k : valid e -> coherent vars -> WriteEnv e vars d = (Ok (), d') ->
    In k boot_keys ->
    env_var e d' k = match vars !! k with Some v => Some v | None => env_var e d k end;
  Clear_frame e m d r d' k : valid e -> ClearDirectBootBackup' e = Some m -> m d = (r, d') ->
    In k boot_keys -> env_var e d' k = env_var e d k;
  Reconcile_frame e m d r d' k : valid e -> ReconcileToBootedSlot' e = Some m -> m d = (r, d') ->
    In k ["upgrade_available"; "bootcount"] -> env_var e d' k = env_var e d k
}.

(** Coherence is decided by evaluation. *)
Lemma coherent_flag v : word v -> coherent {["upgrade_available" := v]}.
Proof. intros Hv. split; [|done]. apply map_Forall_singleton. split; [done|]. cbn. tauto. Qed.
