(* ===== verification/FileBootEnv.v ===== *)
(** * FileBootEnv: the boot environment in files

    [FileBasedBootEnv] of installer/file_bootenv.go: the variables are files
    under /data/ota, the number of the partition to boot is copied to the boot
    partition, and on boards without a U-Boot environment the command line of
    the kernel is rewritten. *)

From S2P Require Import Prelude Text Os Devices BootEnv.
From Stdlib Require Import Ascii.

Open Scope Z_scope.

Definition DefaultSlotFile : string := "/data/ota/current_slot".
Definition DefaultBootCountFile : string := "/data/ota/boot_count".
Definition DefaultUpgradeAvailFile : string := "/data/ota/upgrade_available".
Definition DefaultMenderBootPartFile : string := "/data/ota/mender_boot_part".
Definition directBootPrevCmdline : string := "cmdline_prev.txt".

Record FileBasedBootEnv (D : Type) := {
  slotFile : string;
  bootCountFile : string;
  upgradeAvailFile : string;
  menderBootPartFile : string;
  rootfsPartA : string;
  rootfsPartB : string;
  detectFn : D -> result string
}.
Arguments slotFile {D} _.
Arguments bootCountFile {D} _.
Arguments upgradeAvailFile {D} _.
Arguments menderBootPartFile {D} _.
Arguments rootfsPartA {D} _.
Arguments rootfsPartB {D} _.
Arguments detectFn {D} _.

Section ops.
Context `{Os D}.

(** ** Files *)

Definition readFile (path defaultVal : string) (d : D) : result string :=
  match ReadFile path d with
  | Ok data => Ok (TrimSpace data)
  | Err e => if IsNotExist e then Ok defaultVal else Err e
  end.

(** [value, _ := f.readFile(path, defaultVal)] *)
Definition readFile_value (path defaultVal : string) (d : D) : string :=
  match readFile path defaultVal d with Ok v => v | Err _ => defaultVal end.

Definition maxRetries : nat := 15.

(** The attempts from number [i] on; [n] are left. *)
Fixpoint write_attempts (path content : string) (i n : nat) (lastErr : option error) : IO D unit :=
  match n with
  | O => match lastErr with Some e => fail e | None => mret () end
  | S n =>
      _ ← (if (0 <? i)%nat && (i mod 3 =? 0)%nat
           then try (RunCmd (Command "mount" ["-o"; "remount,rw"; "/data"]))
           else mret (Ok EmptyString));
      r ← try (WriteFile path (content +:+ newline));
      match r with
      | Ok _ => mret ()
      | Err e => if error_Is e EROFS then write_attempts path content (S i) n (Some e) else fail e
      end
  end.

Definition writeFile (path content : string) : IO D unit :=
  _ ← wrap "failed to create directory" (MkdirAll (Dir path));
  write_attempts path content 0 maxRetries None.

(** ** Mounts *)

(** The lines of /proc/self/mounts; none if it cannot be read. *)
Definition mountLines (d : D) : list string :=
  Split (match ReadFile "/proc/self/mounts" d with Ok s => s | Err _ => EmptyString end) newline_char.

Definition deviceAlreadyMounted (dev : string) (lines : list string) (d : D) : bool :=
  let resolve p := match EvalSymlinks p d with Ok q => q | Err _ => p end in
  let real := resolve dev in
  existsb (fun line =>
    match Fields line with
    | dev' :: _ :: _ => bool_decide (resolve dev' = real)
    | _ => false
    end) lines.

(** The partition number of what is mounted on the root. *)
Definition detectCurrentPartitionNumber (d : D) : result string :=
  match ReadFile "/proc/self/mounts" d with
  | Err e => Err (EWrap "failed to read /proc/self/mounts" e)
  | Ok data =>
      match list_find (fun line => Fields line !! 1%nat = Some "/") (Split data newline_char) with
      | Some (_, line) =>
          let device := default EmptyString (head (Fields line)) in
          let device :=
            if bool_decide (device = "/dev/root") then
              match EvalSymlinks device d with Ok resolved => resolved | Err _ => device end
            else device in
          Ok (extractPartitionNumber device)
      | None => Err (EText "could not detect current root partition")
      end
  end.

Definition NewFileBasedBootEnv (rootfsPartA rootfsPartB : string) : FileBasedBootEnv D := {|
  slotFile := DefaultSlotFile;
  bootCountFile := DefaultBootCountFile;
  upgradeAvailFile := DefaultUpgradeAvailFile;
  menderBootPartFile := DefaultMenderBootPartFile;
  rootfsPartA := rootfsPartA;
  rootfsPartB := rootfsPartB;
  detectFn := detectCurrentPartitionNumber
|}.

Definition bootMountPoints : list string := ["/mnt/boot"; "/boot/firmware"; "/boot"].

Definition bootDevices : list string :=
  ["/dev/disk/by-partlabel/boot"; "/dev/disk/by-label/boot"; "/dev/disk/by-label/BOOT";
   "/dev/mmcblk1p1"; "/dev/mmcblk0p1"; "/dev/sda1"].

Definition mounted_vfat (mount line : string) : bool :=
  match Fields line with
  | _ :: dir :: fs :: _ => bool_decide (dir = mount) && bool_decide (fs = "vfat")
  | _ => false
  end.

(** The first mount point at which a FAT file system is mounted. *)
Definition findMounted (lines : list string) (d : D) : option string :=
  snd <$> list_find (fun mount => is_ok (Stat mount d) && existsb (mounted_vfat mount) lines)
    bootMountPoints.

(** Tries to mount the candidates; the second result says if there was one. *)
Fixpoint tryMount (lines : list string) (devs : list string) (tried : bool) :
    IO D (option string * bool) :=
  match devs with
  | [] => mret (None, tried)
  | dev :: devs =>
      ok ← gets (fun d => is_ok (Stat dev d) && negb (deviceAlreadyMounted dev lines d));
      if ok : bool then
        r ← try (MkdirAll "/mnt/boot");
        match r with
        | Err _ => tryMount lines devs true
        | Ok _ =>
            r ← try (RunCmd (Command "mount" [dev; "/mnt/boot"]));
            match r with
            | Ok _ => mret (Some "/mnt/boot", true)
            | Err _ => tryMount lines devs true
            end
        end
      else tryMount lines devs tried
  end.

(** The directory of the boot partition, and where this call mounted it. *)
Definition findBootDir : IO D (string * string) :=
  lines ← gets mountLines;
  m ← gets (findMounted lines);
  match m with
  | Some dir => mret (dir, EmptyString)
  | None =>
      r ← tryMount lines bootDevices false;
      match r with
      | (Some dir, _) => mret (dir, dir)
      | (None, _) => mret (EmptyString, EmptyString)
      end
  end.

Definition uBootEnvWorks : IO D bool :=
  r ← gets (LookPath "fw_printenv");
  match r with
  | Err _ => mret false
  | Ok path => r ← try (RunCmd (Command path [])); mret (is_ok r)
  end.

(** ** The boot partition *)

Definition getDeviceForPartNum (f : FileBasedBootEnv D) (partNum : string) : string :=
  if bool_decide (extractPartitionNumber (rootfsPartA f) = partNum) then rootfsPartA f
  else if bool_decide (extractPartitionNumber (rootfsPartB f) = partNum) then rootfsPartB f
  else EmptyString.

(** The tokens of the command line with every [root=] replaced, and whether
    there was one. *)
Definition replace_root (newRootDev : string) (parts : list string) : list string * bool :=
  (map (fun p => if HasPrefix p "root=" then "root=" +:+ newRootDev else p) parts,
   existsb (fun p => HasPrefix p "root=") parts).

Definition updateBootCmdline (bootDir newRootDev : string) : IO D unit :=
  let cmdlinePath := join_path bootDir "cmdline.txt" in
  let prevPath := join_path bootDir directBootPrevCmdline in
  data ← gets (ReadFile cmdlinePath);
  match data with
  | Err _ => mret ()
  | Ok data =>
      let '(parts, changed) := replace_root newRootDev (Fields (TrimSpace data)) in
      if changed : bool then
        missing ← gets (fun d => match Stat prevPath d with Err e => IsNotExist e | Ok _ => false end);
        _ ← (if missing : bool then try (WriteFile prevPath data) else mret (Ok ()));
        _ ← try (WriteFile cmdlinePath (Join parts " " +:+ newline));
        mret ()
      else mret ()
  end.

Definition updateDirectBootSlot (bootDir newRootDev : string) : IO D unit :=
  updateBootCmdline bootDir newRootDev.

(** Writes the number to the file the boot loader reads, and the command line
    on boards that boot directly. *)
Definition writeBootFile (f : FileBasedBootEnv D) (bootDir partNum : string) : IO D unit :=
  let bootFile := join_path bootDir "mender_boot_part" in
  _ ← wrap "failed to write boot slot" (WriteFile bootFile (partNum +:+ newline));
  works ← uBootEnvWorks;
  if works : bool then mret ()
  else
    let newRootDev := getDeviceForPartNum f partNum in
    if bool_decide (newRootDev = EmptyString) then mret ()
    else updateDirectBootSlot (Dir bootFile) newRootDev.

Definition syncBootSlotToBootPartition (f : FileBasedBootEnv D) (partNum : string) : IO D unit :=
  lines ← gets mountLines;
  m ← gets (findMounted lines);
  match m with
  | Some bootDir => writeBootFile f bootDir partNum
  | None =>
      r ← tryMount lines bootDevices false;
      match r with
      | (Some bootDir, _) => writeBootFile f bootDir partNum
      | (None, false) => mret ()
      | (None, true) => fail (EText "could not find or mount boot partition for boot slot sync")
      end
  end.

(** ** Slots *)

Definition slotToPartitionNumber (f : FileBasedBootEnv D) (slot : string) : result string :=
  let slot := ToLower (TrimSpace slot) in
  if bool_decide (slot = "a") then Ok (extractPartitionNumber (rootfsPartA f))
  else if bool_decide (slot = "b") then Ok (extractPartitionNumber (rootfsPartB f))
  else Err (EText ("unknown slot: " +:+ slot)).

Definition partitionNumberToSlot (f : FileBasedBootEnv D) (partNum : string) : string :=
  if bool_decide (partNum = extractPartitionNumber (rootfsPartA f)) then "a"
  else if bool_decide (partNum = extractPartitionNumber (rootfsPartB f)) then "b"
  else EmptyString.

(** ** Variables *)

Definition readMenderBootPart (f : FileBasedBootEnv D) (d : D) : result string :=
  let fallback :=
    match readFile (slotFile f) EmptyString d with
    | Ok slot =>
        if bool_decide (slot = EmptyString) then detectCurrentPartitionNumber d
        else slotToPartitionNumber f slot
    | Err _ => detectCurrentPartitionNumber d
    end in
  match readFile (menderBootPartFile f) EmptyString d with
  | Ok content => if bool_decide (content = EmptyString) then fallback else Ok content
  | Err _ => fallback
  end.

Definition writeMenderBootPart (f : FileBasedBootEnv D) (partNum : string) : IO D unit :=
  _ ← writeFile (menderBootPartFile f) partNum;
  let slot := partitionNumberToSlot f partNum in
  _ ← (if bool_decide (slot = EmptyString) then mret (Ok ()) else try (writeFile (slotFile f) slot));
  wrap "failed to sync boot slot to boot partition" (syncBootSlotToBootPartition f partNum).

Definition readVar (f : FileBasedBootEnv D) (name : string) (d : D) : result string :=
  if bool_decide (name = "mender_boot_part") then readMenderBootPart f d
  else if bool_decide (name = "mender_boot_part_hex") then
    match readMenderBootPart f d with
    | Ok part =>
        match Atoi part with
        | Some partNum => Ok (FormatInt 16 false partNum)
        | None => Err (EText "strconv.Atoi: invalid syntax")
        end
    | Err e => Err e
    end
  else if bool_decide (name = "upgrade_available") then readFile (upgradeAvailFile f) "0" d
  else if bool_decide (name = "bootcount") then readFile (bootCountFile f) "0" d
  else if bool_decide (name = "mender_check_saveenv_canary") then Ok "0"
  else if bool_decide (name = "mender_saveenv_canary") then Ok "1"
  else Err (EText ("unknown variable: " +:+ name)).

Definition writeVar (f : FileBasedBootEnv D) (name value : string) : IO D unit :=
  if bool_decide (name = "mender_boot_part") then writeMenderBootPart f value
  else if bool_decide (name = "mender_boot_part_hex") then
    match ParseInt 16 value with
    | Some partNum => writeMenderBootPart f (FormatInt 10 false partNum)
    | None => fail (EText "strconv.ParseInt: invalid syntax")
    end
  else if bool_decide (name = "upgrade_available") then writeFile (upgradeAvailFile f) value
  else if bool_decide (name = "bootcount") then writeFile (bootCountFile f) value
  else mret ().

(** A variable that cannot be read is left out. *)
Definition FileBasedBootEnv_ReadEnv (f : FileBasedBootEnv D) (names : list string) : IO D BootVars :=
  gets (fun d => foldl (fun vars name =>
    match readVar f name d with Ok value => <[name := value]> vars | Err _ => vars end) ∅ names).

Definition writeOrder : list string :=
  ["mender_boot_part"; "mender_boot_part_hex"; "bootcount"; "upgrade_available"].

Definition writeOne (f : FileBasedBootEnv D) (nv : string * string) : IO D unit :=
  wrap ("failed to write " +:+ nv.1) (writeVar f nv.1 nv.2).

(** What is written, in this order: the keys of [writeOrder] that are given,
    then the others (Go's order of a map is not specified; the others are
    ignored by [writeVar]). *)
Definition in_write_order (vars : BootVars) : list (string * string) :=
  omap (fun name => pair name <$> vars !! name) writeOrder ++
  filter (fun nv => nv.1 ∉ writeOrder) (map_to_list vars).

Definition FileBasedBootEnv_WriteEnv (f : FileBasedBootEnv D) (vars : BootVars) : IO D unit :=
  for_each (writeOne f) (in_write_order vars).

(** ** After the boot *)

Definition ClearDirectBootBackup : IO D unit :=
  works ← uBootEnvWorks;
  if works : bool then mret ()
  else
    '(bootDir, mountedAt) ← findBootDir;
    if bool_decide (bootDir = EmptyString) then mret ()
    else
      let prevPath := join_path bootDir directBootPrevCmdline in
      present ← gets (fun d => is_ok (Stat prevPath d));
      _ ← (if present : bool then try (RemoveFile prevPath) else mret (Ok ()));
      if bool_decide (mountedAt = EmptyString) then mret ()
      else _ ← try (RunCmd (Command "umount" [mountedAt])); mret ().

Definition ReconcileToBootedSlot (f : FileBasedBootEnv D) : IO D unit :=
  ua ← gets (readFile_value (upgradeAvailFile f) "0");
  if bool_decide (ua = "1") then mret ()
  else
    detected ← gets (detectFn f);
    match detected with
    | Err _ => mret ()
    | Ok actualPart =>
        let slot := partitionNumberToSlot f actualPart in
        if bool_decide (slot = EmptyString) then mret ()
        else
          curPart ← gets (readFile_value (menderBootPartFile f) EmptyString);
          curSlot ← gets (readFile_value (slotFile f) EmptyString);
          if bool_decide (curPart = actualPart) && bool_decide (curSlot = slot) then mret ()
          else
            r ← try (writeFile (menderBootPartFile f) actualPart);
            match r with
            | Err _ => mret ()
            | Ok _ => _ ← try (writeFile (slotFile f) slot); mret ()
            end
    end.

#[export] Instance FileBased_BootEnvReadWriter : BootEnvReadWriter (FileBasedBootEnv D) D := {
  ReadEnv := FileBasedBootEnv_ReadEnv;
  WriteEnv := FileBasedBootEnv_WriteEnv;
  ReconcileToBootedSlot' f := Some (ReconcileToBootedSlot f);
  ClearDirectBootBackup' _ := Some ClearDirectBootBackup
}.

End ops.
