(* ===== verification/FileEnvLaws.v ===== *)
(** * FileEnvLaws: the boot environment in files keeps its contract

    Which files each operation of [FileBootEnv] writes, what they contain
    afterwards, and the instance of [BootEnvLaws].  The flag is written last. *)

From S2P Require Import Prelude Text Os Devices BootEnv FileBootEnv.

Open Scope Z_scope.

(** ** Paths *)

(** A path on a boot partition. *)
Definition boot_path (q : string) : Prop := exists m, In m bootMountPoints /\ under m q = true.

Section paths.
Context {D : Type}.

Definition state_files (f : FileBasedBootEnv D) : list string :=
  [upgradeAvailFile f; bootCountFile f; menderBootPartFile f; slotFile f].

(** The files of the state are different files, not on the boot partition, and
    none of those the program only reads. *)
Record wf_env (f : FileBasedBootEnv D) : Prop := {
  wf_nodup : NoDup (state_files f);
  wf_not_boot q : In q (state_files f) -> ~ boot_path q;
  wf_not_read q : In q (state_files f) -> q <> "/proc/self/mounts" /\ q <> "/dev/root"
}.

End paths.

Lemma boot_path_under m q : In m bootMountPoints -> under m q = true -> boot_path q.
Proof. unfold boot_path. eauto. Qed.

Lemma boot_path_cases q : boot_path q ->
  under "/mnt/boot" q = true \/ under "/boot/firmware" q = true \/ under "/boot" q = true.
Proof. intros (m & [<-|[<-|[<-|[]]]] & Hm); auto. Qed.

Lemma not_boot_path q : existsb (fun m => under m q) bootMountPoints = false -> ~ boot_path q.
Proof.
  intros E (m & Hin & Hm). assert (existsb (fun m => under m q) bootMountPoints = true) as Ht.
  { apply existsb_exists. eauto. }
  congruence.
Qed.

(** The files of [NewFileBasedBootEnv] are fine. *)
Lemma wf_NewFileBasedBootEnv `{Os D} a b : wf_env (NewFileBasedBootEnv (D:=D) a b).
Proof.
  split.
  - change (NoDup [DefaultUpgradeAvailFile; DefaultBootCountFile; DefaultMenderBootPartFile; DefaultSlotFile]).
    eapply bool_decide_eq_true_1. vm_compute. reflexivity.
  - intros q Hq. apply not_boot_path.
    by repeat destruct Hq as [<-|Hq].
  - intros q Hq. repeat destruct Hq as [<-|Hq]; done.
Qed.

(** fw_printenv is a program of the boot loader: without arguments it prints the
    environment and changes nothing. *)
Class PrintenvReads (D : Type) `{OsLaws D} : Prop :=
  printenv_frame path d r d' : LookPath "fw_printenv" d = Ok path ->
    RunCmd (Command path []) d = (r, d') -> same_view files (fun _ => False) d d'.

#[export] Instance Sim_PrintenvReads : PrintenvReads SimOs.
Proof. intros path d r d' _. cbn. unfold sim_command. by destruct (sim_run d !! _) as [[]|]; intros [= <- <-]. Qed.

Section laws.
Context `{PrintenvReads D}.
Implicit Types f : FileBasedBootEnv D.

(** ** What is written *)

Lemma writes_attempts (P : string -> Prop) path c : P path -> forall n i e,
  writes_only P (write_attempts path c i n e).
Proof.
  intros HP. induction n as [|n IH]; intros i e; cbn [write_attempts]; io_steps.
  - by apply writes_WriteFile.
  - apply IH.
Qed.

Lemma writes_writeFile (P : string -> Prop) path c : P path -> writes_only P (writeFile path c).
Proof. intros HP. unfold writeFile. io_steps. by apply writes_attempts. Qed.

Lemma writes_tryMount lines devs : forall tried, writes_only boot_path (tryMount lines devs tried).
Proof.
  induction devs as [|dev devs IH]; intros tried; cbn [tryMount]; io_steps; try apply IH.
  apply writes_mount. intros q Hq. eapply boot_path_under; [|exact Hq]. by left.
Qed.

(** The mount points are where the boot partition is looked for. *)
Lemma findMounted_point lines d m : findMounted lines d = Some m -> In m bootMountPoints.
Proof.
  unfold findMounted. destruct (list_find _ _) as [[i x]|] eqn:E; [|done]. intros [= <-].
  apply list_find_Some in E as (Hx & _). apply (proj1 (list_elem_of_In _ _)). eapply list_elem_of_lookup_2, Hx.
Qed.

Lemma tryMount_point lines devs : forall tried d m t d',
  tryMount lines devs tried d = (Ok (Some m, t), d') -> m = "/mnt/boot".
Proof.
  induction devs as [|dev devs IH]; intros tried d m t d'; cbn [tryMount]; [by intros [= ]|].
  intros (ok & d1 & _ & Hr)%bind_ok. destruct ok; [|eauto].
  apply bind_ok in Hr as ([] & d2 & _ & Hr); [|eauto].
  apply bind_ok in Hr as ([] & d3 & _ & Hr); [|eauto]. by injection Hr as [= <-].
Qed.

Lemma writes_uBootEnvWorks P : writes_only P uBootEnvWorks.
Proof.
  intros d r d'. unfold uBootEnvWorks.
  rewrite (bind_run _ _ _ (LookPath "fw_printenv" d) d) by done.
  destruct (LookPath "fw_printenv" d) as [path|e] eqn:E; [|intros [= <- <-]; reflexivity].
  unfold mbind, IO_bind, try. destruct (RunCmd (Command path []) d) as [r0 d1] eqn:Er.
  intros [= <- <-]. destruct (printenv_frame _ _ _ _ E Er) as [Hf Hl]. split; auto.
Qed.

Lemma writes_updateBootCmdline m dev : In m bootMountPoints ->
  writes_only boot_path (updateBootCmdline m dev).
Proof.
  intros Hm. unfold updateBootCmdline. io_steps;
    apply writes_WriteFile; eapply boot_path_under; eauto using under_join.
Qed.

Lemma writes_writeBootFile f m num : In m bootMountPoints -> writes_only boot_path (writeBootFile f m num).
Proof.
  intros Hm. unfold writeBootFile. io_steps.
  - apply writes_WriteFile. eapply boot_path_under; eauto using under_join.
  - apply writes_uBootEnvWorks.
  - unfold updateDirectBootSlot. replace (Dir (join_path m "mender_boot_part")) with m; [by apply writes_updateBootCmdline|].
    by repeat destruct Hm as [<-|Hm].
Qed.

Lemma writes_sync f num : writes_only boot_path (syncBootSlotToBootPartition f num).
Proof.
  intros d r d'. unfold syncBootSlotToBootPartition.
  rewrite (bind_run _ _ _ (mountLines d) d) by done.
  rewrite (bind_run _ _ _ (findMounted (mountLines d) d) d) by done.
  destruct (findMounted _ d) as [m|] eqn:Em.
  { eapply writes_writeBootFile. eauto using findMounted_point. }
  unfold mbind, IO_bind. destruct (tryMount _ _ _ d) as [[[[m|] t]|e] d1] eqn:Et.
  - intros Hr. transitivity d1; [exact (writes_tryMount _ _ _ _ _ _ Et)|].
    eapply writes_writeBootFile, Hr. rewrite (tryMount_point _ _ _ _ _ _ _ Et). by left.
  - assert (same_outside boot_path d d1) by exact (writes_tryMount _ _ _ _ _ _ Et).
    destruct t; by intros [= <- <-].
  - intros [= <- <-]. exact (writes_tryMount _ _ _ _ _ _ Et).
Qed.

Lemma writes_writeMenderBootPart f num :
  writes_only (fun q => q = menderBootPartFile f \/ q = slotFile f \/ boot_path q) (writeMenderBootPart f num).
Proof.
  unfold writeMenderBootPart. io_steps.
  - apply writes_writeFile. by left.
  - apply writes_writeFile. by right; left.
  - eapply writes_only_weaken, writes_sync. tauto.
Qed.

(** What a variable's write touches. *)
Definition var_files (f : FileBasedBootEnv D) (name q : string) : Prop :=
  if bool_decide (name = "upgrade_available") then q = upgradeAvailFile f
  else if bool_decide (name = "bootcount") then q = bootCountFile f
  else if bool_decide (name = "mender_boot_part") || bool_decide (name = "mender_boot_part_hex")
  then q = menderBootPartFile f \/ q = slotFile f \/ boot_path q
  else False.

Lemma writes_writeVar f name v : writes_only (var_files f name) (writeVar f name v).
Proof.
  unfold writeVar, var_files. repeat case_bool_decide; simplify_eq/=; io_steps;
    first [by apply writes_writeFile | apply writes_writeMenderBootPart].
Qed.

Lemma writes_writeOne f nv : writes_only (var_files f nv.1) (writeOne f nv).
Proof. unfold writeOne. io_steps. apply writes_writeVar. Qed.

(** ** What a successful write leaves *)

Lemma write_attempts_ok path c : forall n i e d d', (n = 0%nat -> e <> None) ->
  write_attempts path c i n e d = (Ok (), d') -> files d' !! path = Some (c +:+ newline).
Proof.
  induction n as [|n IH]; intros i e d d' Hn; cbn [write_attempts].
  { destruct e; [done|]. by destruct (Hn eq_refl). }
  intros (r0 & d0 & _ & Hr)%bind_ok. apply bind_ok in Hr as (r & d1 & Hw & Hr).
  unfold try in Hw. destruct (WriteFile path (c +:+ newline) d0) as [r' d2] eqn:E.
  injection Hw as <- <-. destruct r' as [[]|err].
  - injection Hr as <-. eauto using WriteFile_ok.
  - destruct (error_Is err EROFS); [|done]. by eapply IH, Hr.
Qed.

Lemma writeFile_ok path c d d' : writeFile path c d = (Ok (), d') ->
  files d' !! path = Some (c +:+ newline).
Proof. intros (a & d0 & _ & Hr)%bind_ok. by eapply write_attempts_ok, Hr. Qed.

(** The state's files are different. *)
Lemma state_files_ne (f : FileBasedBootEnv D) : wf_env f ->
  upgradeAvailFile f <> bootCountFile f /\ upgradeAvailFile f <> menderBootPartFile f /\
  upgradeAvailFile f <> slotFile f /\ bootCountFile f <> menderBootPartFile f /\
  bootCountFile f <> slotFile f /\ menderBootPartFile f <> slotFile f.
Proof.
  intros [Hnd _ _]. unfold state_files in Hnd.
  repeat (apply NoDup_cons in Hnd as [? Hnd]). set_solver.
Qed.

(** The boot partition was found and written, or the board has none: in [d], where
    the synchronisation looked, nothing was mounted and there was no device to
    mount. *)
Definition synced (partNum : string) (d d' : D) : Prop :=
  (exists m, In m bootMountPoints /\
     files d' !! join_path m "mender_boot_part" = Some (partNum +:+ newline)) \/
  (findMounted (mountLines d) d = None /\
   exists d1, tryMount (mountLines d) bootDevices false d = (Ok (None, false), d1)).

Lemma updateBootCmdline_keeps m m' dev : In m bootMountPoints ->
  writes_only (fun q => q <> join_path m' "mender_boot_part") (updateBootCmdline m dev) \/ m' <> m.
Proof.
  intros Hm. destruct (decide (m' = m)) as [->|]; [left|by right].
  unfold updateBootCmdline. io_steps; apply writes_WriteFile;
    by repeat destruct Hm as [<-|Hm].
Qed.

Lemma writeBootFile_ok f m num d d' : In m bootMountPoints ->
  writeBootFile f m num d = (Ok (), d') ->
  files d' !! join_path m "mender_boot_part" = Some (num +:+ newline).
Proof.
  intros Hm (a & d0 & Hw%wrap_ok & Hr)%bind_ok. destruct a. apply WriteFile_ok in Hw.
  rewrite <- Hw. clear Hw.
  assert (writes_only (fun q => q <> join_path m "mender_boot_part")
    (works ← uBootEnvWorks;
     if works : bool then mret ()
     else let newRootDev := getDeviceForPartNum f num in
       if bool_decide (newRootDev = EmptyString) then mret ()
       else updateDirectBootSlot (Dir (join_path m "mender_boot_part")) newRootDev)) as Hf.
  { cbn zeta. io_steps; [apply writes_uBootEnvWorks|]. unfold updateDirectBootSlot.
    replace (Dir (join_path m "mender_boot_part")) with m
      by (by repeat destruct Hm as [<-|Hm]).
    by destruct (updateBootCmdline_keeps m m (getDeviceForPartNum f num) Hm). }
  destruct (Hf _ _ _ Hr) as [Hq _]. apply Hq. tauto.
Qed.

Lemma sync_ok f num d d' : syncBootSlotToBootPartition f num d = (Ok (), d') -> synced num d d'.
Proof.
  unfold syncBootSlotToBootPartition.
  rewrite (bind_run _ _ _ (mountLines d) d) by done.
  rewrite (bind_run _ _ _ (findMounted (mountLines d) d) d) by done.
  destruct (findMounted _ d) as [m|] eqn:Em.
  { intros Hr. left. exists m. eauto using findMounted_point, writeBootFile_ok. }
  intros ([[m|] t] & d1 & Ht & Hr)%bind_ok.
  - left. pose proof (tryMount_point _ _ _ _ _ _ _ Ht) as ->. exists "/mnt/boot".
    split; [by left|]. eapply writeBootFile_ok, Hr. by left.
  - destruct t; [done|]. right. eauto.
Qed.

(** The state files of the number and the slot, before the synchronisation. *)
Definition record_slot (f : FileBasedBootEnv D) (partNum : string) : IO D unit :=
  _ ← writeFile (menderBootPartFile f) partNum;
  let slot := partitionNumberToSlot f partNum in
  _ ← (if bool_decide (slot = EmptyString) then mret (Ok ()) else try (writeFile (slotFile f) slot));
  mret ().

Lemma writeMenderBootPart_ok f num d d' : wf_env f -> writeMenderBootPart f num d = (Ok (), d') ->
  files d' !! menderBootPartFile f = Some (num +:+ newline) /\
  exists d1, record_slot f num d = (Ok (), d1) /\ syncBootSlotToBootPartition f num d1 = (Ok (), d') /\ synced num d1 d'.
Proof.
  intros Hwf ([] & d0 & Hw0 & Hr)%bind_ok. pose proof (writeFile_ok _ _ _ _ Hw0) as Hw.
  apply bind_ok in Hr as (r & d1 & Hs & Hr%wrap_ok).
  split.
  2: { exists d1. split; [|eauto using sync_ok]. unfold record_slot. rewrite (bind_run _ _ _ _ _ Hw0). cbn zeta.
       by rewrite (bind_run _ _ _ _ _ Hs). }
  destruct (writes_sync _ _ _ _ _ Hr) as [Hf _].
  rewrite Hf by (apply (wf_not_boot _ Hwf); cbn; tauto). rewrite <- Hw.
  enough (writes_only (fun q => q = slotFile f)
    (let slot := partitionNumberToSlot f num in
     if bool_decide (slot = EmptyString) then mret (Ok ()) else try (writeFile (slotFile f) slot))) as Hs'.
  { destruct (Hs' _ _ _ Hs) as [Hq _]. apply Hq. by destruct (state_files_ne _ Hwf) as (_&_&_&_&_&?). }
  cbn zeta. io_steps. by apply writes_writeFile.
Qed.

End laws.

(** ** The order of the writes *)

Section order.
Context `{PrintenvReads D}.
Implicit Types f : FileBasedBootEnv D.

Definition step_write (f : FileBasedBootEnv D) (vars : BootVars) (name : string) : IO D unit :=
  match vars !! name with Some v => writeOne f (name, v) | None => mret () end.

Lemma for_each_app {X} (g : X -> IO D unit) l1 l2 d :
  for_each g (l1 ++ l2) d = (for_each g l1 ≫= fun _ => for_each g l2) d.
Proof.
  revert d. induction l1 as [|x l1 IH]; intros d; [done|]. cbn [for_each app].
  unfold mbind, IO_bind in *. destruct (g x d) as [[[]|e] d1]; [apply IH|done].
Qed.

Lemma for_each_omap f vars l d :
  for_each (writeOne f) (omap (fun name => pair name <$> vars !! name) l) d =
  for_each (step_write f vars) l d.
Proof.
  revert d. induction l as [|x l IH]; intros d; [done|]. cbn [for_each].
  change (omap ?g (x :: l)) with (match g x with Some y => y :: omap g l | None => omap g l end).
  cbn beta. destruct (vars !! x) as [v|] eqn:E; cbn [fmap option_fmap option_map for_each].
  - replace (step_write f vars x) with (writeOne f (x, v)) by (unfold step_write; by rewrite E).
    unfold mbind, IO_bind. destruct (writeOne f (x, v) d) as [[[]|e] d1]; [apply IH|done].
  - replace (step_write f vars x) with (mret (M:=IO D) ()) by (unfold step_write; by rewrite E).
    exact (IH d).
Qed.

(** The variables outside [writeOrder] are ignored. *)
Lemma others_ignored f l d : (forall nv, In nv l -> nv.1 ∉ writeOrder) ->
  for_each (writeOne f) l d = (Ok (), d).
Proof.
  induction l as [|[n v] l IH]; intros Hl; [done|]. cbn [for_each].
  rewrite (bind_run _ _ _ () d).
  { apply IH. intros nv Hnv. apply Hl. by right. }
  assert (n ∉ writeOrder) as Hn by (apply (Hl (n, v)); by left).
  unfold writeOrder in Hn. rewrite !not_elem_of_cons in Hn. destruct Hn as (?&?&?&?&_).
  unfold writeOne, wrap, writeVar. cbn. by rewrite !bool_decide_false.
Qed.

Lemma WriteEnv_steps f vars d :
  FileBasedBootEnv_WriteEnv f vars d = for_each (step_write f vars) writeOrder d.
Proof.
  unfold FileBasedBootEnv_WriteEnv, in_write_order. rewrite for_each_app.
  unfold mbind, IO_bind. rewrite for_each_omap.
  destruct (for_each (step_write f vars) writeOrder d) as [[[]|e] d1]; [|done].
  apply others_ignored. intros nv Hnv. apply (proj2 (list_elem_of_In _ _)), list_elem_of_filter in Hnv.
  tauto.
Qed.

(** Which files are not touched by the other variables. *)
Lemma not_var_files f name : wf_env f -> name <> "upgrade_available" ->
  ~ var_files f name (upgradeAvailFile f).
Proof.
  intros Hwf Hn. unfold var_files. rewrite bool_decide_false by done.
  pose proof (state_files_ne _ Hwf) as (H1' & H2' & H3' & _).
  repeat case_match; try tauto. intros [?|[?|Hb]]; [done|done|].
  revert Hb. apply (wf_not_boot _ Hwf). cbn. tauto.
Qed.

Lemma step_write_ok f vars name v d d' : vars !! name = Some v ->
  step_write f vars name d = (Ok (), d') -> writeVar f name v d = (Ok (), d').
Proof. unfold step_write. intros ->. apply wrap_ok. Qed.

Lemma writes_step_write f vars name : writes_only (var_files f name) (step_write f vars name).
Proof. unfold step_write. case_match; [apply writes_writeOne|io_steps]. Qed.

Lemma step_keeps_flag f vars name d r d' : wf_env f -> name <> "upgrade_available" ->
  step_write f vars name d = (r, d') -> files d' !! upgradeAvailFile f = files d !! upgradeAvailFile f.
Proof.
  intros Hwf Hn Hr. destruct (writes_step_write _ _ _ _ _ _ Hr) as [Hq _]. apply Hq. by apply not_var_files.
Qed.

(** The boot files are kept by what is written after them. *)
Lemma synced_kept f num d1 d r d' (name : string) vars : wf_env f ->
  In name ["bootcount"; "upgrade_available"] -> step_write f vars name d = (r, d') ->
  synced num d1 d -> synced num d1 d'.
Proof.
  intros Hwf Hname Hr [(m & Hm & Hf)|]; [left|by right]. exists m. split; [done|]. rewrite <- Hf.
  destruct (writes_step_write _ _ _ _ _ _ Hr) as [Hq _]. apply Hq. intros Hv.
  assert (In (join_path m "mender_boot_part") (state_files f)) as Hin.
  { destruct Hname as [<-|[<-|[]]]; unfold var_files in Hv; cbn in Hv; rewrite Hv; cbn; tauto. }
  apply (wf_not_boot _ Hwf) in Hin. apply Hin. eapply boot_path_under; eauto using under_join.
Qed.

Lemma writeVar_hex f n : 0 <= n <= int64_max ->
  writeVar f "mender_boot_part_hex" (FormatInt 16 true n) = writeMenderBootPart f (FormatInt 10 false n).
Proof.
  intros Hn. change (writeVar f "mender_boot_part_hex" (FormatInt 16 true n)) with
    (match ParseInt 16 (FormatInt 16 true n) with
     | Some k => writeMenderBootPart f (FormatInt 10 false k)
     | None => fail (EText "strconv.ParseInt: invalid syntax")
     end).
  by rewrite ParseInt_FormatInt by lia.
Qed.

(** C10: A write of the boot environment in files never lets the flag
    upgrade_available get ahead of the boot partition: if the flag's file
    changed, even by a write that fails, then this same write had before, in this
    order, written the number, recorded the number asked for and its slot in the
    state files, synchronised it to the boot partition with success, and written
    the count.  The file of the boot partition has the number asked for at the end,
    unless the synchronisation, in the state it ran in, found no boot partition
    mounted and no device to mount.  (The files of the environment are different
    and not on the boot partition, and the number is given in decimal and in
    hexadecimal, as the installer gives it.) *)
Theorem flag_follows_sync f vars p d r d' : wf_env f -> coherent vars ->
  vars !! "mender_boot_part" = Some p ->
  FileBasedBootEnv_WriteEnv f vars d = (r, d') ->
  files d' !! upgradeAvailFile f <> files d !! upgradeAvailFile f ->
  exists d1 d2 d3 d4,
    step_write f vars "mender_boot_part" d = (Ok (), d1) /\
    record_slot f p d1 = (Ok (), d2) /\ syncBootSlotToBootPartition f p d2 = (Ok (), d3) /\
    step_write f vars "bootcount" d3 = (Ok (), d4) /\ step_write f vars "upgrade_available" d4 = (r, d') /\
    synced p d2 d'.
Proof.
  intros Hwf [_ Hc] Hp Hr Hne. rewrite Hp in Hc. destruct (vars !! "mender_boot_part_hex") as [h|] eqn:Eh; [|done].
  destruct Hc as (n & Hn & -> & ->). rewrite WriteEnv_steps in Hr. unfold writeOrder in Hr. cbn [for_each] in Hr.
  pose proof (fun name d r d' => step_keeps_flag f vars name d r d' Hwf) as Hflag.
  unfold mbind, IO_bind in Hr.
  destruct (step_write f vars "mender_boot_part" d) as [r1 d1] eqn:E1. pose proof (Hflag "mender_boot_part" _ _ _ ltac:(done) E1) as H1'.
  destruct r1 as [[]|e]; [|by (injection Hr as <- <-; destruct Hne)].
  destruct (step_write f vars "mender_boot_part_hex" d1) as [r2 d2] eqn:E2. pose proof (Hflag "mender_boot_part_hex" _ _ _ ltac:(done) E2) as H2'.
  destruct r2 as [[]|e]; [|by (injection Hr as <- <-; destruct Hne; rewrite H2')].
  destruct (step_write f vars "bootcount" d2) as [r3 d3] eqn:E3. pose proof (Hflag "bootcount" _ _ _ ltac:(done) E3) as H3'.
  destruct r3 as [[]|e]; [|by (injection Hr as <- <-; destruct Hne; rewrite H3', H2')].
  destruct (step_write f vars "upgrade_available" d3) as [r4 d4] eqn:E4.
  assert (r = r4 /\ d' = d4) as [-> ->] by (by destruct r4 as [[]|]; injection Hr as <- <-).
  apply (step_write_ok _ _ _ _ _ _ Eh) in E2. rewrite writeVar_hex in E2 by done.
  apply (writeMenderBootPart_ok _ _ _ _ Hwf) in E2 as (_ & ds & Hrec & Hsync & Hs).
  exists d1, ds, d2, d3. do 5 (split; [done|]).
  eapply (synced_kept f); [done|by right; left|exact E4|].
  eapply (synced_kept f); [done|by left|exact E3|done].
Qed.

End order.
