(* ===== verification/FileEnvVars.v ===== *)
(** * FileEnvVars: the variables of the boot environment in files

    What the variables are in terms of the files, the instance of
    [BootEnvLaws], and the reconciliation after a boot. *)

From S2P Require Import Prelude Text Os Devices BootEnv FileBootEnv FileEnvLaws.

Open Scope Z_scope.

Section vars.
Context `{PrintenvReads D} `{!ReliableReads D}.
Implicit Types f : FileBasedBootEnv D.

(** ** Reading *)

Lemma readFile_files path def d :
  readFile path def d = Ok (match files d !! path with Some c => TrimSpace c | None => def end).
Proof. unfold readFile. rewrite ReadFile_files. by destruct (files d !! path). Qed.

Lemma readFile_value_files path def d :
  readFile_value path def d = match files d !! path with Some c => TrimSpace c | None => def end.
Proof. unfold readFile_value. by rewrite readFile_files. Qed.

(** A variable as [ReadEnv] gives it. *)
Definition file_var f (d : D) (k : string) : option string :=
  match readVar f k d with Ok v => Some v | Err _ => None end.

Lemma file_var_flag f d : file_var f d "upgrade_available" =
  Some (match files d !! upgradeAvailFile f with Some c => TrimSpace c | None => "0" end).
Proof. unfold file_var. change (readVar f "upgrade_available" d) with (readFile (upgradeAvailFile f) "0" d). by rewrite readFile_files. Qed.

Lemma file_var_count f d : file_var f d "bootcount" =
  Some (match files d !! bootCountFile f with Some c => TrimSpace c | None => "0" end).
Proof. unfold file_var. change (readVar f "bootcount" d) with (readFile (bootCountFile f) "0" d). by rewrite readFile_files. Qed.

Lemma file_var_part f d : file_var f d "mender_boot_part" =
  match readMenderBootPart f d with Ok v => Some v | Err _ => None end.
Proof. reflexivity. Qed.

(** The files a variable is read from. *)
Definition read_files f (k : string) : list string :=
  if bool_decide (k = "upgrade_available") then [upgradeAvailFile f]
  else if bool_decide (k = "bootcount") then [bootCountFile f]
  else [menderBootPartFile f; slotFile f; "/proc/self/mounts"; "/dev/root"].

Lemma detect_same d d' : files d' !! "/proc/self/mounts" = files d !! "/proc/self/mounts" ->
  EvalSymlinks "/dev/root" d' = EvalSymlinks "/dev/root" d ->
  detectCurrentPartitionNumber d' = detectCurrentPartitionNumber d.
Proof.
  intros Hm Hl. unfold detectCurrentPartitionNumber. rewrite !ReadFile_files, Hm.
  destruct (files d !! _) as [data|]; [|done]. case_match; [|done]. destruct p as [i line]. cbn zeta.
  case_bool_decide as Hd; [|done]. by rewrite Hd, Hl.
Qed.

Lemma file_var_same f P d d' k : same_outside P d d' -> In k boot_keys ->
  (forall q, In q (read_files f k) -> ~ P q) -> file_var f d' k = file_var f d k.
Proof.
  intros [Hf Hl] Hk HP. destruct Hk as [<-|[<-|[<-|[]]]].
  - rewrite !file_var_flag, Hf; [done|]. apply HP. by left.
  - rewrite !file_var_count, Hf; [done|]. apply HP. by left.
  - rewrite !file_var_part. unfold readMenderBootPart. rewrite !readFile_files.
    rewrite (Hf (menderBootPartFile f)) by (apply HP; by left).
    rewrite (Hf (slotFile f)) by (apply HP; by right; left).
    rewrite (detect_same d d'); [done|apply Hf, HP; by do 2 right; left|].
    apply Hl, HP. by do 3 right; left.
Qed.

(** What a file with a line contains is the variable. *)
Definition var_file f (k : string) : string :=
  if bool_decide (k = "upgrade_available") then upgradeAvailFile f
  else if bool_decide (k = "bootcount") then bootCountFile f
  else menderBootPartFile f.

Lemma file_var_line f d k v : In k boot_keys -> word v ->
  files d !! var_file f k = Some (v +:+ newline) -> file_var f d k = Some v.
Proof.
  intros Hk Hv. destruct Hk as [<-|[<-|[<-|[]]]]; intros Hf;
    [change (var_file f _) with (upgradeAvailFile f) in Hf
    |change (var_file f _) with (bootCountFile f) in Hf
    |change (var_file f _) with (menderBootPartFile f) in Hf].
  - by rewrite file_var_flag, Hf, TrimSpace_line.
  - by rewrite file_var_count, Hf, TrimSpace_line.
  - rewrite file_var_part. unfold readMenderBootPart.
    rewrite (readFile_files (menderBootPartFile f)), Hf, TrimSpace_line by done.
    destruct Hv as [Hne _]. by rewrite bool_decide_false.
Qed.

Lemma read_not_boot f k q : wf_env f -> In k boot_keys -> In q (read_files f k) -> ~ boot_path q.
Proof.
  intros Hwf Hk Hq. destruct Hk as [<-|[<-|[<-|[]]]].
  - destruct Hq as [<-|[]]. apply (wf_not_boot _ Hwf). cbn. tauto.
  - destruct Hq as [<-|[]]. apply (wf_not_boot _ Hwf). cbn. tauto.
  - destruct Hq as [<-|[<-|[<-|[<-|[]]]]]; try (apply (wf_not_boot _ Hwf); cbn; tauto);
      by apply not_boot_path.
Qed.

(** ** Writing *)

(** The variable [k] changes when [name] is written. *)
Definition changes (name k : string) : bool :=
  bool_decide (name = k) ||
  bool_decide (name = "mender_boot_part_hex") && bool_decide (k = "mender_boot_part").

Ltac eval_changes :=
  repeat match goal with
  | |- context [changes ?a ?b] =>
      let v := eval vm_compute in (changes a b) in change (changes a b) with v
  end; cbv match.

Lemma not_read f name k : wf_env f -> In k boot_keys -> In name writeOrder -> changes name k = false ->
  forall q, In q (read_files f k) -> ~ var_files f name q.
Proof.
  intros Hwf Hk Hname Hch q Hq Hv.
  pose proof (state_files_ne _ Hwf) as (?&?&?&?&?&?).
  assert (forall x, In x (state_files f) -> x <> "/proc/self/mounts" /\ x <> "/dev/root") as Hr
    by exact (wf_not_read _ Hwf).
  assert (forall x, In x (state_files f) -> ~ boot_path x) as Hb by exact (wf_not_boot _ Hwf).
  unfold state_files in *.
  pose proof (Hr (upgradeAvailFile f) ltac:(cbn; tauto)). pose proof (Hr (bootCountFile f) ltac:(cbn; tauto)).
  pose proof (Hb (upgradeAvailFile f) ltac:(cbn; tauto)). pose proof (Hb (bootCountFile f) ltac:(cbn; tauto)).
  destruct Hk as [<-|[<-|[<-|[]]]]; destruct Hname as [<-|[<-|[<-|[<-|[]]]]]; try discriminate Hch;
    unfold var_files in Hv; cbn in Hv, Hq; naive_solver.
Qed.

Lemma writeVar_line f name v d d' : wf_env f -> In name boot_keys ->
  writeVar f name v d = (Ok (), d') -> files d' !! var_file f name = Some (v +:+ newline).
Proof.
  intros Hwf Hk. unfold writeVar, var_file.
  destruct Hk as [<-|[<-|[<-|[]]]]; cbn; [apply writeFile_ok..|].
  intros Hr. by apply writeMenderBootPart_ok in Hr as [? _].
Qed.

(** The value a step of [WriteEnv] leaves. *)
Lemma step_var f vars name k d d' : wf_env f -> coherent vars ->
  In k boot_keys -> In name writeOrder -> step_write f vars name d = (Ok (), d') ->
  file_var f d' k =
    if changes name k then match vars !! k with Some v => Some v | None => file_var f d k end
    else file_var f d k.
Proof.
  intros Hwf Hc Hk Hname Hr. pose proof Hc as [Hwords Hhex]. destruct (changes name k) eqn:Ech.
  2: { eapply (file_var_same f _ _ _ _ (writes_step_write _ _ _ _ _ _ Hr)); [done|]. by apply not_read. }
  assert (vars !! name = None -> vars !! k = None) as Hnone.
  { unfold changes in Ech. apply orb_true_iff in Ech as [Hb%bool_decide_eq_true_1|Ech]; [by subst|].
    apply andb_true_iff in Ech as [->%bool_decide_eq_true_1 ->%bool_decide_eq_true_1].
    intros Hn. rewrite Hn in Hhex. by destruct (vars !! "mender_boot_part"). }
  destruct (vars !! name) as [v|] eqn:Ev.
  2: { rewrite (Hnone eq_refl). unfold step_write in Hr. rewrite Ev in Hr. by injection Hr as ->. }
  apply (step_write_ok _ _ _ _ _ _ Ev) in Hr.
  unfold changes in Ech. apply orb_true_iff in Ech as [Hb%bool_decide_eq_true_1|Ech].
  - subst name. rewrite Ev. destruct (Hwords _ _ Ev) as [Hword _].
    exact (file_var_line _ _ _ _ Hk Hword (writeVar_line _ _ _ _ _ Hwf Hk Hr)).
  - apply andb_true_iff in Ech as [->%bool_decide_eq_true_1 ->%bool_decide_eq_true_1].
    rewrite Ev in Hhex. destruct (vars !! "mender_boot_part") as [p|] eqn:Ep; [|done].
    destruct Hhex as (n & Hn & -> & ->). rewrite writeVar_hex in Hr by done.
    destruct (writeMenderBootPart_ok _ _ _ _ Hwf Hr) as [Hf _].
    destruct (Hwords _ _ Ep) as [Hword _]. exact (file_var_line _ _ _ _ Hk Hword Hf).
Qed.

Lemma WriteEnv_file_var f vars d d' k : wf_env f -> coherent vars ->
  FileBasedBootEnv_WriteEnv f vars d = (Ok (), d') -> In k boot_keys ->
  file_var f d' k = match vars !! k with Some v => Some v | None => file_var f d k end.
Proof.
  intros Hwf Hc Hr Hk. rewrite WriteEnv_steps in Hr. unfold writeOrder in Hr. cbn [for_each] in Hr.
  apply bind_ok in Hr as ([] & d1 & Hp & Hr). apply bind_ok in Hr as ([] & d2 & Hh & Hr).
  apply bind_ok in Hr as ([] & d3 & Hb & Hr). apply bind_ok in Hr as ([] & d4 & Hu & [= <-]).
  rewrite (step_var _ _ "upgrade_available" _ _ _ Hwf Hc Hk ltac:(cbn; tauto) Hu),
    (step_var _ _ "bootcount" _ _ _ Hwf Hc Hk ltac:(cbn; tauto) Hb),
    (step_var _ _ "mender_boot_part_hex" _ _ _ Hwf Hc Hk ltac:(cbn; tauto) Hh),
    (step_var _ _ "mender_boot_part" _ _ _ Hwf Hc Hk ltac:(cbn; tauto) Hp).
  destruct Hk as [<-|[<-|[<-|[]]]]; eval_changes; by case_match.
Qed.

(** ** Reading several variables *)

Definition add_var f (d : D) (vars : BootVars) (name : string) : BootVars :=
  match readVar f name d with Ok value => <[name := value]> vars | Err _ => vars end.

Lemma add_var_lookup f d vars name k :
  add_var f d vars name !! k =
    if decide (name = k) then match file_var f d k with Some v => Some v | None => vars !! k end
    else vars !! k.
Proof.
  unfold add_var, file_var. case_decide as Hd.
  - subst. destruct (readVar f k d); [by rewrite lookup_insert_eq|done].
  - destruct (readVar f name d); [by rewrite lookup_insert_ne|done].
Qed.

Lemma add_vars_kept f d k names : forall vars : BootVars,
  vars !! k = file_var f d k -> foldl (add_var f d) vars names !! k = file_var f d k.
Proof.
  induction names as [|x names IH]; intros vars Hv; [done|]. cbn [foldl]. apply IH.
  rewrite add_var_lookup. case_decide; [|done]. by destruct (file_var f d k).
Qed.

Lemma add_vars_in f d k names : In k names -> forall vars : BootVars,
  vars !! k = None \/ vars !! k = file_var f d k -> foldl (add_var f d) vars names !! k = file_var f d k.
Proof.
  induction names as [|x names IH]; intros Hin vars Hv; [by destruct Hin|]. cbn [foldl].
  destruct (decide (x = k)) as [->|Hne].
  - apply add_vars_kept. rewrite add_var_lookup, decide_True by done.
    destruct (file_var f d k); [done|]. by destruct Hv.
  - destruct Hin as [|Hin]; [done|]. apply IH; [done|]. by rewrite add_var_lookup, decide_False.
Qed.

Lemma ReadEnv_file_var f names vars d d' k : FileBasedBootEnv_ReadEnv f names d = (Ok vars, d') ->
  In k names -> vars !! k = file_var f d k.
Proof. intros [= <- <-] Hin. apply (add_vars_in f d k names Hin ∅). by left. Qed.

(** ** After a boot *)

Lemma writes_findBootDir : writes_only boot_path findBootDir.
Proof. unfold findBootDir. io_steps. apply writes_tryMount. Qed.

Lemma findBootDir_point d dir at_ d' : findBootDir d = (Ok (dir, at_), d') ->
  (dir = EmptyString \/ In dir bootMountPoints) /\ (at_ = EmptyString \/ at_ = "/mnt/boot").
Proof.
  unfold findBootDir. rewrite (bind_run _ _ _ (mountLines d) d) by done.
  rewrite (bind_run _ _ _ (findMounted (mountLines d) d) d) by done.
  destruct (findMounted _ d) as [m|] eqn:Em.
  { intros [= <- <- <-]. split; [right; by eapply findMounted_point|by left]. }
  intros ([[m|] t] & d1 & Ht & [= <- <- <-])%bind_ok; [|split; by left].
  rewrite (tryMount_point _ _ _ _ _ _ _ Ht). split; [right; by left|by right].
Qed.

Lemma writes_ClearDirectBootBackup : writes_only boot_path ClearDirectBootBackup.
Proof.
  unfold ClearDirectBootBackup. io_step. io_step; [apply writes_uBootEnvWorks|]. io_step. io_step; [io_step|].
  intros d r d'. unfold mbind, IO_bind. destruct (findBootDir d) as [[[dir at_]|e] d1] eqn:Ef.
  2: { intros [= <- <-]. exact (writes_findBootDir _ _ _ Ef). }
  destruct (findBootDir_point _ _ _ _ Ef) as [Hdir Hat].
  intros Hr. transitivity d1; [exact (writes_findBootDir _ _ _ Ef)|]. clear Ef. revert d1 r d' Hr.
  enough (writes_only boot_path
    (if bool_decide (dir = EmptyString) then mret ()
     else
       present ← gets (fun d => is_ok (Stat (join_path dir directBootPrevCmdline) d));
       _ ← (if present : bool then try (RemoveFile (join_path dir directBootPrevCmdline)) else mret (Ok ()));
       if bool_decide (at_ = EmptyString) then mret ()
       else _ ← try (RunCmd (Command "umount" [at_])); mret ())) as Hw by exact Hw.
  case_bool_decide; [io_steps|]. destruct Hdir as [|Hdir]; [done|]. io_steps.
  - apply writes_RemoveFile. eapply boot_path_under; eauto using under_join.
  - apply writes_umount. intros q Hq. eapply boot_path_under, Hq.
    destruct Hat as [->| ->]; [by b2p|by left].
Qed.

Lemma writes_ReconcileToBootedSlot f :
  writes_only (fun q => q = menderBootPartFile f \/ q = slotFile f) (ReconcileToBootedSlot f).
Proof. unfold ReconcileToBootedSlot. io_steps; apply writes_writeFile; tauto. Qed.

(** ** The contract *)

#[export] Instance FileBased_BootEnvLaws : BootEnvLaws (FileBasedBootEnv D) D.
Proof.
  refine {| valid := wf_env; env_var := file_var |}.
  - intros f names d vars d' k _. apply ReadEnv_file_var.
  - by intros f names d r d' k _ [= <- <-].
  - intros f vars d d' k Hwf Hc Hr Hk. by apply WriteEnv_file_var.
  - intros f m d r d' k Hwf [= <-] Hr Hk.
    eapply (file_var_same f _ _ _ _ (writes_ClearDirectBootBackup _ _ _ Hr)); [done|].
    intros q Hq. by apply (read_not_boot f k).
  - intros f m d r d' k Hwf [= <-] Hr Hk.
    eapply (file_var_same f _ _ _ _ (writes_ReconcileToBootedSlot _ _ _ _ Hr)).
    + cbn in *. tauto.
    + pose proof (state_files_ne _ Hwf) as (?&?&?&?&?&_).
      destruct Hk as [<-|[<-|[]]]; intros q [<-|[]]; tauto.
Defined.

(** After a successful write of the boot environment in files, reading the
    variables gives what was written, and for the variables not written what
    they were; the two spellings of the partition's number do not disturb each
    other. *)
Theorem write_then_read f vars names d d' k : wf_env f -> coherent vars ->
  WriteEnv f vars d = (Ok (), d') -> In k names -> In k boot_keys ->
  exists read0 read1, ReadEnv f names d = (Ok read0, d) /\ ReadEnv f names d' = (Ok read1, d') /\
    read1 !! k = match vars !! k with Some v => Some v | None => read0 !! k end.
Proof.
  intros Hwf Hc Hr Hin Hk. do 2 eexists. split; [reflexivity|]. split; [reflexivity|].
  rewrite (ReadEnv_file_var f names _ d' d' k eq_refl Hin), (ReadEnv_file_var f names _ d d k eq_refl Hin).
  by apply WriteEnv_file_var.
Qed.

Lemma try_ok (m : IO D unit) d d1 : m d = (Ok (), d1) -> try m d = (Ok (Ok ()), d1).
Proof. unfold try. by intros ->. Qed.

(** What [ReconcileToBootedSlot] does when it does not return early. *)
Lemma Reconcile_run f d n d1 d2 :
  readFile_value (upgradeAvailFile f) "0" d <> "1" -> detectFn f d = Ok n ->
  partitionNumberToSlot f n <> EmptyString ->
  writeFile (menderBootPartFile f) n d = (Ok (), d1) ->
  writeFile (slotFile f) (partitionNumberToSlot f n) d1 = (Ok (), d2) ->
  ReconcileToBootedSlot f d =
    (Ok (), if bool_decide (readFile_value (menderBootPartFile f) EmptyString d = n) &&
               bool_decide (readFile_value (slotFile f) EmptyString d = partitionNumberToSlot f n)
            then d else d2).
Proof.
  intros Hu Hd Hs Hw1 Hw2. unfold ReconcileToBootedSlot.
  rewrite (bind_run _ _ d _ d) by reflexivity. rewrite (bool_decide_false _ Hu).
  rewrite (bind_run _ _ d _ d) by reflexivity. rewrite Hd. cbn zeta. rewrite (bool_decide_false _ Hs).
  rewrite (bind_run _ _ d _ d) by reflexivity. rewrite (bind_run _ _ d _ d) by reflexivity.
  destruct (_ && _); [done|]. rewrite (bind_run _ _ _ _ _ (try_ok _ _ _ Hw1)).
  by rewrite (bind_run _ _ _ _ _ (try_ok _ _ _ Hw2)).
Qed.

Lemma slot_word f n : partitionNumberToSlot f n <> EmptyString -> word (partitionNumberToSlot f n).
Proof. unfold partitionNumberToSlot. repeat case_bool_decide; done. Qed.

Lemma Reconcile_returns f d : exists d', ReconcileToBootedSlot f d = (Ok (), d').
Proof.
  unfold ReconcileToBootedSlot. rewrite (bind_run _ _ d _ d) by reflexivity.
  case_bool_decide; [by eexists|]. rewrite (bind_run _ _ d _ d) by reflexivity.
  destruct (detectFn f d) as [n|e]; [|by eexists]. cbn zeta. case_bool_decide; [by eexists|].
  rewrite (bind_run _ _ d _ d) by reflexivity. rewrite (bind_run _ _ d _ d) by reflexivity.
  destruct (_ && _); [by eexists|]. unfold mbind, IO_bind, try.
  destruct (writeFile (menderBootPartFile f) n d) as [[[]|e] d1]; [|by eexists].
  destruct (writeFile (slotFile f) _ d1) as [r d2]. by eexists.
Qed.

(** The record of the slot after the writes. *)
Lemma record_written f n d d1 d2 : wf_env f -> word n -> partitionNumberToSlot f n <> EmptyString ->
  writeFile (menderBootPartFile f) n d = (Ok (), d1) ->
  writeFile (slotFile f) (partitionNumberToSlot f n) d1 = (Ok (), d2) ->
  readFile_value (menderBootPartFile f) EmptyString d2 = n /\
  readFile_value (slotFile f) EmptyString d2 = partitionNumberToSlot f n.
Proof.
  intros Hwf Hn Hs Hw1 Hw2. rewrite !readFile_value_files.
  destruct (writes_writeFile (fun q => q = slotFile f) (slotFile f) _ eq_refl _ _ _ Hw2) as [Hf _].
  rewrite Hf by (destruct (state_files_ne _ Hwf) as (_&_&_&_&_&?); done).
  rewrite (writeFile_ok _ _ _ _ Hw1), (writeFile_ok _ _ _ _ Hw2).
  by rewrite (TrimSpace_line n Hn), (TrimSpace_line _ (slot_word _ _ Hs)).
Qed.

Lemma part_recorded f n d : word n -> readFile_value (menderBootPartFile f) EmptyString d = n ->
  file_var f d "mender_boot_part" = Some n.
Proof.
  intros [Hne _] Hr. rewrite file_var_part. unfold readMenderBootPart, readFile_value in *.
  rewrite readFile_files in *. rewrite Hr. by rewrite bool_decide_false.
Qed.

(** The reconciliation after a boot does nothing at all while an update is
    pending and writes nothing but the record of the slot otherwise; when its
    writes succeed, the record names the partition that runs afterwards, and
    doing it again changes nothing. *)
Theorem reconcile_follows_the_boot f d d' r : wf_env f -> ReconcileToBootedSlot f d = (r, d') ->
  same_outside (fun q => q = menderBootPartFile f \/ q = slotFile f) d d' /\
  (file_var f d "upgrade_available" = Some "1" -> d' = d) /\
  forall n d1 d2, file_var f d "upgrade_available" <> Some "1" ->
    word n -> partitionNumberToSlot f n <> EmptyString ->
    detectFn f d = Ok n -> detectFn f d' = Ok n ->
    writeFile (menderBootPartFile f) n d = (Ok (), d1) ->
    writeFile (slotFile f) (partitionNumberToSlot f n) d1 = (Ok (), d2) ->
    file_var f d' "mender_boot_part" = Some n /\
    readFile_value (slotFile f) EmptyString d' = partitionNumberToSlot f n /\
    ReconcileToBootedSlot f d' = (Ok (), d').
Proof.
  intros Hwf Hr. pose proof (writes_ReconcileToBootedSlot f _ _ _ Hr) as Hsame.
  split; [exact Hsame|]. rewrite file_var_flag, <- readFile_value_files. split.
  { intros [= Hu]. unfold ReconcileToBootedSlot in Hr. rewrite (bind_run _ _ d _ d) in Hr by reflexivity.
    rewrite Hu in Hr. by injection Hr. }
  intros n d1 d2 Hu Hn Hs Hd Hd' Hw1 Hw2. assert (readFile_value (upgradeAvailFile f) "0" d <> "1") as Hu' by congruence.
  rewrite (Reconcile_run f d n d1 d2 Hu' Hd Hs Hw1 Hw2) in Hr. injection Hr as _ Hr.
  assert (readFile_value (menderBootPartFile f) EmptyString d' = n /\
          readFile_value (slotFile f) EmptyString d' = partitionNumberToSlot f n) as [Hp Hslot].
  { destruct (_ && _) eqn:E; subst d'; [by b2p|]. exact (record_written f n d d1 d2 Hwf Hn Hs Hw1 Hw2). }
  split; [by apply part_recorded|]. split; [done|].
  assert (readFile_value (upgradeAvailFile f) "0" d' <> "1") as Hu2.
  { intros Hx. apply Hu'. rewrite <- Hx, !readFile_value_files. destruct Hsame as [Hf _].
    rewrite Hf; [done|]. pose proof (state_files_ne _ Hwf). tauto. }
  unfold ReconcileToBootedSlot.
  rewrite (bind_run _ _ d' _ d') by reflexivity. rewrite (bool_decide_false _ Hu2).
  rewrite (bind_run _ _ d' _ d') by reflexivity. rewrite Hd'. cbn zeta. rewrite (bool_decide_false _ Hs).
  rewrite (bind_run _ _ d' _ d') by reflexivity. rewrite (bind_run _ _ d' _ d') by reflexivity.
  by rewrite Hp, Hslot, !bool_decide_true by done.
Qed.

End vars.
