(* ===== verification/DualRootfs.v ===== *)
(** * DualRootfs: the installer for two root file systems

    [partitions] of installer/partitions.go, which finds the partition that
    runs, and [dualRootfsDeviceImpl] of installer/dual_rootfs_device.go, which
    makes the other one the one to boot, commits or goes back.  The boot
    environment is any instance of [BootEnvReadWriter]. *)

From S2P Require Import Prelude Text Os Devices BootEnv.

Open Scope Z_scope.

Record partitions := {
  rootfsPartA : string;
  rootfsPartB : string;
  active : string;
  inactive : string
}.

(** The object, with the system it works on. *)
Record dualRootfsDeviceImpl (D : Type) := mkDevice { parts : partitions; sys : D }.
Arguments mkDevice {D} _ _.
Arguments parts {D} _.
Arguments sys {D} _.

Definition RootPartitionDoesNotMatchMount : error :=
  EText "Can not match active partition and any of mounted devices.".
Definition ErrorNoMatchBootPartRootPart : error := EText "No match between boot and root partitions.".
Definition ErrorPartitionNumberNotSet : error :=
  EText "RootfsPartA and RootfsPartB settings are not both set.".
Definition ErrorPartitionNumberSame : error :=
  EText "RootfsPartA and RootfsPartB cannot be set to the same value.".
Definition ErrorPartitionNoMatchActive : error :=
  EText "Active root partition matches neither RootfsPartA nor RootfsPartB.".
Definition verifyRebootError : error := EText "Reboot to the new update failed.".
Definition verifyRollbackRebootError : error := EText "Reboot to the old update failed.".

Definition DefaultMaxBootRetries : Z := 3.
Definition switchBootSlotScript : string := "/usr/sbin/switch-boot-slot.sh".

Section ops.
Context `{Os D} `{!BootEnvReadWriter E D} (e : E).

Let M := IO (dualRootfsDeviceImpl D).

(** A call to the system. *)
Definition on_sys {A} (m : IO D A) : M A := fun s =>
  let '(r, d) := m (sys s) in (r, mkDevice (parts s) d).

Definition set_active (p : string) : M string := fun s =>
  (Ok p, mkDevice {| rootfsPartA := rootfsPartA (parts s); rootfsPartB := rootfsPartB (parts s);
                     active := p; inactive := inactive (parts s) |} (sys s)).

Definition set_inactive (p : string) : M string := fun s =>
  (Ok p, mkDevice {| rootfsPartA := rootfsPartA (parts s); rootfsPartB := rootfsPartB (parts s);
                     active := active (parts s); inactive := p |} (sys s)).

(** ** Finding the partition that runs (partitions.go) *)

(** The device file [dev] is the device of the root directory. *)
Definition isMountedRoot (dev : string) (root : FileInfo) (d : D) : bool :=
  match Stat dev d with
  | Err _ => false
  | Ok stat => is_device stat && (Rdev stat =? Dev root)
  end.

Definition getAllMountedDevices (devDir : string) (d : D) : result (list string) :=
  match Readdirnames devDir d with
  | Ok names => Ok (map (join_path devDir) names)
  | Err err => Err err
  end.

Definition getRootFromMountedDevices (rootChecker : string -> FileInfo -> D -> bool)
    (devices : list string) (root : FileInfo) (d : D) : result string :=
  match list_find (fun device => rootChecker device root d) devices with
  | Some (_, device) => Ok device
  | None => Err RootPartitionDoesNotMatchMount
  end.

Definition getBootEnvActivePartition : IO D string :=
  bootEnv ← wrap "No match between boot and root partitions." (ReadEnv e ["mender_boot_part"]);
  mret (default EmptyString (bootEnv !! "mender_boot_part")).

(** The last part of [getAndCacheActivePartition]: neither of the ways by the
    list of mounts gave the device. *)
Definition activeFromDevices (rootChecker : string -> FileInfo -> D -> bool)
    (getMountedDevices : string -> D -> result (list string))
    (rootDevice : FileInfo) (bootEnvBootPart : string) : M string :=
  mountedDevices ← asks (fun s => getMountedDevices "/dev" (sys s));
  found ← gets (fun s => getRootFromMountedDevices rootChecker mountedDevices rootDevice (sys s));
  match found with
  | Err err =>
      p ← gets parts;
      if checkBootEnvAndRootPartitionMatch bootEnvBootPart (rootfsPartA p) then set_active (rootfsPartA p)
      else if checkBootEnvAndRootPartitionMatch bootEnvBootPart (rootfsPartB p)
      then set_active (rootfsPartB p)
      else fail err
  | Ok activePartition =>
      if checkBootEnvAndRootPartitionMatch bootEnvBootPart activePartition
      then set_active activePartition
      else fail ErrorNoMatchBootPartRootPart
  end.

Definition getAndCacheActivePartition (rootChecker : string -> FileInfo -> D -> bool)
    (getMountedDevices : string -> D -> result (list string)) : M string :=
  mountData ← on_sys (RunCmd (Command "mount" []));
  let mountCandidate := getRootCandidateFromMount mountData in
  rootDevice ← asks (fun s => match Stat "/" (sys s) with
                              | Ok i => Ok i
                              | Err _ => Err (EText "Can not find root device")
                              end);
  bootEnvBootPart ← on_sys getBootEnvActivePartition;
  if bool_decide (mountCandidate = EmptyString)
  then activeFromDevices rootChecker getMountedDevices rootDevice bootEnvBootPart
  else
    mountCandidate ← gets (fun s => maybeResolveLink mountCandidate (sys s));
    isRoot ← gets (fun s => rootChecker mountCandidate rootDevice (sys s));
    if isRoot : bool then set_active mountCandidate
    else if checkBootEnvAndRootPartitionMatch bootEnvBootPart mountCandidate
    then set_active mountCandidate
    else activeFromDevices rootChecker getMountedDevices rootDevice bootEnvBootPart.

Definition GetActive : M string :=
  p ← gets parts;
  if bool_decide (active p = EmptyString)
  then getAndCacheActivePartition isMountedRoot getAllMountedDevices
  else mret (active p).

Definition getAndCacheInactivePartition : M string :=
  p ← gets parts;
  if bool_decide (rootfsPartA p = EmptyString) || bool_decide (rootfsPartB p = EmptyString)
  then fail ErrorPartitionNumberNotSet
  else if bool_decide (rootfsPartA p = rootfsPartB p) then fail ErrorPartitionNumberSame
  else
    active ← GetActive;
    resolved ← gets (fun s => maybeResolveLink active (sys s));
    if bool_decide (resolved = rootfsPartA p) then set_inactive (rootfsPartB p)
    else if bool_decide (resolved = rootfsPartB p) then set_inactive (rootfsPartA p)
    else fail ErrorPartitionNoMatchActive.

Definition GetInactive : M string :=
  p ← gets parts;
  if bool_decide (inactive p = EmptyString) then getAndCacheInactivePartition
  else mret (inactive p).

(** ** The installer (dual_rootfs_device.go) *)

(** [NewDualRootfsDevice]; [None] if the partitions are not configured. *)
Definition NewDualRootfsDevice (partA partB : string) (d : D) : option (dualRootfsDeviceImpl D) :=
  if bool_decide (partA = EmptyString) || bool_decide (partB = EmptyString) then None
  else Some (mkDevice {| rootfsPartA := maybeResolveLink partA d; rootfsPartB := maybeResolveLink partB d;
                         active := EmptyString; inactive := EmptyString |} d).

Definition getInactivePartition : M (string * string) :=
  r ← try GetInactive;
  match r with
  | Err err => fail (EWrap "Error obtaining inactive partition: " err)
  | Ok inactivePartition => asks (fun _ => getPartitionImpl inactivePartition)
  end.

Definition getActivePartition : M (string * string) :=
  r ← try GetActive;
  match r with
  | Err err => fail (EWrap "Error obtaining active partition: " err)
  | Ok activePartition => asks (fun _ => getPartitionImpl activePartition)
  end.

Definition HasUpdate : M bool :=
  env ← wrap "failed to read environment variable" (on_sys (ReadEnv e ["upgrade_available"]));
  mret (bool_decide (env !! "upgrade_available" = Some "1")).

(** The slot of the partition, for the script. *)
Definition slot_of (p : partitions) (partitionNumber : string) : string :=
  let partANum := extractPartitionNumber (rootfsPartA p) in
  let partBNum := extractPartitionNumber (rootfsPartB p) in
  if bool_decide (partitionNumber = partANum) then "a"
  else if bool_decide (partitionNumber = partBNum) then "b"
  else "b".

Definition switchBootSlot (partitionNumber : string) : M unit :=
  absent ← gets (fun s => match Stat switchBootSlotScript (sys s) with
                          | Err err => IsNotExist err
                          | Ok _ => false
                          end);
  if absent : bool then mret ()
  else
    p ← gets parts;
    _ ← wrap "switch-boot-slot.sh failed" (on_sys (RunCmd (mkCmd switchBootSlotScript
          [slot_of p partitionNumber]
          ["ROOTFS_A_PARTITION=" +:+ rootfsPartA p; "ROOTFS_B_PARTITION=" +:+ rootfsPartB p] EmptyString)));
    mret ().

Definition install_vars (dec hex : string) : BootVars :=
  <["upgrade_available" := "1"]> (<["mender_boot_part" := dec]>
    (<["mender_boot_part_hex" := hex]> {["bootcount" := "0"]})).

Definition InstallUpdate : M unit :=
  '(inactivePartition, inactivePartitionHex) ← getInactivePartition;
  _ ← on_sys (WriteEnv e (install_vars inactivePartition inactivePartitionHex));
  r ← try (switchBootSlot inactivePartition);
  match r with
  | Ok _ => mret ()
  | Err err =>
      _ ← try (on_sys (WriteEnv e {["upgrade_available" := "0"]}));
      fail (EWrap "failed to switch boot slot via switch-boot-slot.sh" err)
  end.

Definition rollback_vars (dec hex : string) : BootVars :=
  <["mender_boot_part" := dec]> (<["mender_boot_part_hex" := hex]> {["upgrade_available" := "0"]}).

Definition Rollback : M unit :=
  hasUpdate ← wrap "Could not determine whether device has an update" HasUpdate;
  if hasUpdate : bool then
    env ← on_sys (ReadEnv e ["mender_boot_part"]);
    match env !! "mender_boot_part" with
    | None => fail (EText "The bootloader environment does not have the 'mender_boot_part' set.")
    | Some value =>
        '(nextPartition, nextPartitionHex) ← getActivePartition;
        '(nextPartition, nextPartitionHex) ←
          (if bool_decide (value = nextPartition) then getInactivePartition
           else mret (nextPartition, nextPartitionHex));
        on_sys (WriteEnv e (rollback_vars nextPartition nextPartitionHex))
    end
  else mret ().

Definition CommitUpdate : M unit :=
  hasUpdate ← HasUpdate;
  if hasUpdate : bool then
    _ ← on_sys (WriteEnv e {["upgrade_available" := "0"]});
    match ClearDirectBootBackup' e with
    | Some clear => _ ← try (on_sys clear); mret ()
    | None => mret ()
    end
  else fail verifyRebootError.

Definition VerifyReboot : M unit :=
  hasUpdate ← HasUpdate;
  if hasUpdate : bool then mret () else fail verifyRebootError.

Definition VerifyRollbackReboot : M unit :=
  hasUpdate ← HasUpdate;
  if hasUpdate : bool then fail verifyRollbackRebootError else mret ().

(** The number of boots; 0 if it is not a number. *)
Definition boot_count (bootcount : option string) : Z :=
  match bootcount with Some s => default 0 (Atoi s) | None => 0 end.

Definition HandleBootCountFallback : M unit :=
  r ← try (on_sys (ReadEnv e ["upgrade_available"; "bootcount"]));
  match r with
  | Err _ => mret ()
  | Ok env =>
      if bool_decide (env !! "upgrade_available" = Some "1") then
        if boot_count (env !! "bootcount") <? DefaultMaxBootRetries then mret ()
        else
          _ ← try (on_sys (WriteEnv e (<["upgrade_available" := "0"]> {["bootcount" := "0"]})));
          mret ()
      else
        match ReconcileToBootedSlot' e with
        | Some reconcile => _ ← try (on_sys reconcile); mret ()
        | None => mret ()
        end
  end.

End ops.
