(* ===== verification/DualRootfsSpec.v ===== *)
(** * DualRootfsSpec: switching partitions, committing and going back

    The properties of [DualRootfs], for every boot environment that keeps the
    contract [BootEnvLaws]. *)

From S2P Require Import Prelude Text Os Devices BootEnv DualRootfs.

Open Scope Z_scope.

Section spec.
Context `{Os D} `{BootEnvLaws E D} (e : E) (Hvalid : valid e).
Implicit Types s : dualRootfsDeviceImpl D.

(** The variable [k], now. *)
Definition var s (k : string) : option string := env_var e (sys s) k.

(** ** Reading *)

Lemma on_sys_inv {A} (m : IO D A) s r s' : on_sys m s = (r, s') ->
  m (sys s) = (r, sys s') /\ parts s' = parts s.
Proof. unfold on_sys. destruct (m (sys s)) as [r0 d]. by intros [= -> <-]. Qed.

(** The same variables and the same partitions. *)
Definition unchanged s s' : Prop := parts s' = parts s /\ forall k, var s' k = var s k.

#[export] Instance unchanged_preorder : PreOrder unchanged.
Proof.
  split; [by intros s|]. intros a b c [Hp Hv] [Hp' Hv']. split; [congruence|].
  intros k. by rewrite Hv', Hv.
Qed.

Lemma ReadEnv_spec names s r s' : on_sys (ReadEnv e names) s = (r, s') ->
  unchanged s s' /\ forall vars k, r = Ok vars -> In k names -> vars !! k = var s k.
Proof.
  intros [Hr Hp]%on_sys_inv. split; [split; [done|]|].
  - intros k. by apply (ReadEnv_frame e names (sys s) r (sys s') k Hvalid).
  - intros vars k ->. by apply (ReadEnv_var e names (sys s) vars (sys s') k Hvalid).
Qed.

Lemma HasUpdate_spec s r s' : HasUpdate e s = (r, s') ->
  unchanged s s' /\ forall b, r = Ok b -> b = bool_decide (var s "upgrade_available" = Some "1").
Proof.
  unfold HasUpdate, mbind, IO_bind.
  destruct (wrap _ _ s) as [r0 s1] eqn:Er. apply wrap_inv in Er as (r1 & Er & Hr1).
  apply ReadEnv_spec in Er as [Hu Hv]. destruct r1 as [vars|x]; subst r0; intros [= <- <-].
  - split; [done|]. intros b [= <-]. by rewrite (Hv vars "upgrade_available" eq_refl (or_introl eq_refl)).
  - by split.
Qed.

(** A decision on the flag: [HasUpdate] and then one of two programs. *)
Lemma HasUpdate_cases {A} (k : bool -> IO (dualRootfsDeviceImpl D) A) s r s' :
  (HasUpdate e ≫= k) s = (r, s') ->
  exists s1, unchanged s s1 /\
    ((exists x, r = Err x /\ s' = s1) \/
     k (bool_decide (var s "upgrade_available" = Some "1")) s1 = (r, s')).
Proof.
  unfold mbind, IO_bind. destruct (HasUpdate e s) as [[b|x] s1] eqn:Er;
    apply HasUpdate_spec in Er as [Hu Hb]; intros Hr; exists s1; (split; [done|]).
  - right. by rewrite <- (Hb b eq_refl).
  - left. injection Hr as <- <-. eauto.
Qed.

(** ** Writing *)

Lemma WriteEnv_spec vars s s' k : coherent vars -> on_sys (WriteEnv e vars) s = (Ok (), s') ->
  In k boot_keys -> var s' k = match vars !! k with Some v => Some v | None => var s k end.
Proof. intros Hc [Hr _]%on_sys_inv Hk. by apply (WriteEnv_var e vars (sys s) (sys s') k). Qed.

Lemma word_0 : word "0".
Proof. by split. Qed.

Lemma word_1 : word "1".
Proof. by split. Qed.

(** The writes of the installer are coherent. *)
Definition env_entry (k v : string) : Prop := word v /\ In k ("mender_boot_part_hex" :: boot_keys).

Lemma entry_flag v : word v -> env_entry "upgrade_available" v.
Proof. intros Hv. split; [exact Hv|]. by right; left. Qed.

Lemma entry_count v : word v -> env_entry "bootcount" v.
Proof. intros Hv. split; [exact Hv|]. by do 2 right; left. Qed.

Lemma entry_part n : 0 <= n <= int64_max -> env_entry "mender_boot_part" (FormatInt 10 false n).
Proof. intros Hn. split; [exact (FormatInt_word 10 n (or_introl eq_refl) Hn)|]. by do 3 right; left. Qed.

Lemma entry_hex n : 0 <= n <= int64_max -> env_entry "mender_boot_part_hex" (FormatInt 16 true n).
Proof. intros Hn. split; [exact (FormatInt_word 16 n (or_intror eq_refl) Hn)|]. by left. Qed.

Lemma coherent_install n : 0 <= n <= int64_max ->
  coherent (install_vars (FormatInt 10 false n) (FormatInt 16 true n)).
Proof.
  intros Hn. split; [|by exists n]. unfold install_vars.
  apply map_Forall_insert_2; [exact (entry_flag _ word_1)|].
  apply map_Forall_insert_2; [exact (entry_part n Hn)|].
  apply map_Forall_insert_2; [exact (entry_hex n Hn)|].
  apply (proj2 (map_Forall_singleton _ _ _)). exact (entry_count _ word_0).
Qed.

Lemma coherent_rollback n : 0 <= n <= int64_max ->
  coherent (rollback_vars (FormatInt 10 false n) (FormatInt 16 true n)).
Proof.
  intros Hn. split; [|by exists n]. unfold rollback_vars.
  apply map_Forall_insert_2; [exact (entry_part n Hn)|].
  apply map_Forall_insert_2; [exact (entry_hex n Hn)|].
  apply (proj2 (map_Forall_singleton _ _ _)). exact (entry_flag _ word_0).
Qed.

Lemma coherent_clear : coherent (<["upgrade_available" := "0"]> {["bootcount" := "0"]}).
Proof.
  split; [|done]. apply map_Forall_insert_2; [exact (entry_flag _ word_0)|].
  apply (proj2 (map_Forall_singleton _ _ _)). exact (entry_count _ word_0).
Qed.

(** ** The partitions *)

(** The object knows that it runs on [a] and that the other one is [i]. *)
Definition knows s (a i : string) : Prop :=
  active (parts s) = a /\ inactive (parts s) = i /\ a <> EmptyString /\ i <> EmptyString.

Lemma GetActive_known s a i : knows s a i -> GetActive e s = (Ok a, s).
Proof.
  intros (Ha & _ & Hne & _). unfold GetActive. rewrite (bind_run _ _ s _ s) by reflexivity.
  by rewrite Ha, bool_decide_false.
Qed.

Lemma GetInactive_known s a i : knows s a i -> GetInactive e s = (Ok i, s).
Proof.
  intros (_ & Hi & _ & Hne). unfold GetInactive. rewrite (bind_run _ _ s _ s) by reflexivity.
  by rewrite Hi, bool_decide_false.
Qed.

(** A partition with the number [n]. *)
Definition partition_no (device : string) (n : Z) : Prop :=
  0 <= n <= int64_max /\ numbered device (FormatInt 10 false n).

Lemma getActivePartition_known s a i n : knows s a i -> partition_no a n ->
  getActivePartition e s = (Ok (FormatInt 10 false n, FormatInt 16 true n), s).
Proof.
  intros Hk [Hn Hnum]. unfold getActivePartition, try, mbind, IO_bind.
  rewrite (GetActive_known _ _ _ Hk). unfold asks. by rewrite (getPartitionImpl_numbered a n).
Qed.

(** Whatever [GetInactive] does to find it. *)
Lemma getInactivePartition_found s i n s1 : GetInactive e s = (Ok i, s1) -> partition_no i n ->
  getInactivePartition e s = (Ok (FormatInt 10 false n, FormatInt 16 true n), s1).
Proof.
  intros Hg [Hn Hnum]. unfold getInactivePartition, try, mbind, IO_bind.
  rewrite Hg. unfold asks. by rewrite (getPartitionImpl_numbered i n).
Qed.

(** ** Installing *)

(** The script, asked for a slot with the two devices in its environment, may write
    the boot environment: it sets the flag and the number of the slot's partition,
    whether it succeeds or fails halfway, and leaves what else the installer
    reads. *)
Class SwitchScript : Prop :=
  script_frame slot a b num d r d' k :
    numbered (if bool_decide (slot = "a") then a else b) num ->
    RunCmd (mkCmd switchBootSlotScript [slot] ["ROOTFS_A_PARTITION=" +:+ a; "ROOTFS_B_PARTITION=" +:+ b] EmptyString) d = (r, d') ->
    In k boot_keys ->
    env_var e d' k = env_var e d k \/
    (k = "upgrade_available" /\ env_var e d' k = Some "1") \/
    (k = "mender_boot_part" /\ env_var e d' k = Some num).

(** The two partitions are the configured ones. *)
Definition configured s (a i : string) : Prop :=
  (rootfsPartA (parts s) = a /\ rootfsPartB (parts s) = i) \/
  (rootfsPartA (parts s) = i /\ rootfsPartB (parts s) = a).

Lemma slot_of_configured s a i na ni : configured s a i -> partition_no a na -> partition_no i ni ->
  FormatInt 10 false na <> FormatInt 10 false ni ->
  (if bool_decide (slot_of (parts s) (FormatInt 10 false ni) = "a") then rootfsPartA (parts s) else rootfsPartB (parts s)) = i.
Proof.
  intros Hc [_ Ha] [_ Hi] Hne. unfold slot_of.
  destruct Hc as [[-> ->]|[-> ->]];
    rewrite (extractPartitionNumber_numbered _ _ Ha), (extractPartitionNumber_numbered _ _ Hi).
  - rewrite (bool_decide_false (FormatInt 10 false ni = _)) by congruence.
    by rewrite (bool_decide_true (FormatInt 10 false ni = _)).
  - by rewrite (bool_decide_true (FormatInt 10 false ni = _)).
Qed.

(** What the script leaves, when it is asked for the partition that the environment
    names and the flag is set: the same. *)
Lemma switchBootSlot_keeps `{!SwitchScript} s a i na ni r s' k : configured s a i ->
  partition_no a na -> partition_no i ni -> FormatInt 10 false na <> FormatInt 10 false ni ->
  var s "upgrade_available" = Some "1" -> var s "mender_boot_part" = Some (FormatInt 10 false ni) ->
  switchBootSlot (FormatInt 10 false ni) s = (r, s') -> In k boot_keys -> var s' k = var s k.
Proof.
  intros Hc Ha Hi Hne Hu Hp Hr Hk. unfold switchBootSlot in Hr. rewrite (bind_run _ _ s _ s) in Hr by reflexivity.
  revert Hr. case_match; [by intros [= <- <-]|]. rewrite (bind_run _ _ s _ s) by reflexivity.
  unfold mbind, IO_bind. destruct (wrap _ _ s) as [r0 s1] eqn:Ew.
  apply wrap_inv in Ew as (r1 & Ew & _). apply on_sys_inv in Ew as [Ew _].
  assert (var s1 k = var s k) as Hv.
  { pose proof (slot_of_configured s a i na ni Hc Ha Hi Hne) as Hslot.
    destruct (script_frame _ _ _ (FormatInt 10 false ni) _ _ _ k ltac:(rewrite Hslot; apply Hi) Ew Hk) as [?|[[-> Hx]|[-> Hx]]];
      [done|by rewrite Hu|by rewrite Hp]. }
  by destruct r0; intros [= <- <-].
Qed.

(** The variables right after the write of [InstallUpdate]. *)
Definition marked s n : Prop :=
  var s "upgrade_available" = Some "1" /\ var s "mender_boot_part" = Some (FormatInt 10 false n) /\
  var s "bootcount" = Some "0".

Lemma install_write s s' n : 0 <= n <= int64_max ->
  on_sys (WriteEnv e (install_vars (FormatInt 10 false n) (FormatInt 16 true n))) s = (Ok (), s') ->
  marked s' n.
Proof.
  intros Hn Hw. pose proof (fun k => WriteEnv_spec _ _ _ k (coherent_install n Hn) Hw) as Hs.
  split; [|split].
  - by rewrite (Hs "upgrade_available") by (by left).
  - by rewrite (Hs "mender_boot_part") by (by do 2 right; left).
  - by rewrite (Hs "bootcount") by (by right; left).
Qed.

(** The two ways [InstallUpdate] can end after the write. *)
Lemma InstallUpdate_inv s i n s1 r s' : GetInactive e s = (Ok i, s1) -> partition_no i n ->
  InstallUpdate e s = (r, s') ->
  (exists err s2, on_sys (WriteEnv e (install_vars (FormatInt 10 false n) (FormatInt 16 true n))) s1 = (Err err, s2) /\
     r = Err err /\ s' = s2) \/
  exists s2 rs s3, on_sys (WriteEnv e (install_vars (FormatInt 10 false n) (FormatInt 16 true n))) s1 = (Ok (), s2) /\
    switchBootSlot (FormatInt 10 false n) s2 = (rs, s3) /\
    match rs with
    | Ok _ => r = Ok () /\ s' = s3
    | Err err => exists rc, on_sys (WriteEnv e {["upgrade_available" := "0"]}) s3 = (rc, s') /\
        r = Err (EWrap "failed to switch boot slot via switch-boot-slot.sh" err)
    end.
Proof.
  intros Hg Hi. unfold InstallUpdate. rewrite (bind_run _ _ _ _ _ (getInactivePartition_found _ _ _ _ Hg Hi)).
  unfold mbind, IO_bind at 1. destruct (on_sys (WriteEnv e _) s1) as [[[]|err] s2] eqn:Ew.
  2: { intros [= <- <-]. left. eauto. }
  intros Hr. right. exists s2. unfold IO_bind, try in Hr.
  destruct (switchBootSlot _ s2) as [rs s3] eqn:Es. exists rs, s3. split; [done|]. split; [done|].
  destruct rs as [[]|err]; [by injection Hr as <- <-|].
  destruct (on_sys (WriteEnv e {["upgrade_available" := "0"]}) s3) as [rc s4] eqn:Ec.
  injection Hr as <- <-. by exists rc.
Qed.

(** A successful installation makes the inactive partition the one to boot:
    the environment names its number, announces the upgrade and starts counting
    boots from 0. *)
Lemma InstallUpdate_marks `{!SwitchScript} s a na i n s1 s' :
  GetInactive e s = (Ok i, s1) -> configured s1 a i -> partition_no a na -> partition_no i n ->
  FormatInt 10 false na <> FormatInt 10 false n -> InstallUpdate e s = (Ok (), s') -> marked s' n.
Proof.
  intros Hg Hconf Ha Hi Hne Hr. destruct (InstallUpdate_inv _ _ _ _ _ _ Hg Hi Hr) as [(err & s2 & _ & Hx & _)|Hok]; [done|].
  destruct Hok as (s2 & rs & s3 & Hw & Hs & Hrs). destruct rs as [u|err].
  2: { destruct Hrs as (rc & _ & Hx). done. }
  destruct Hrs as [_ ->]. destruct (install_write _ _ _ (proj1 Hi) Hw) as (Hu & Hp & Hb).
  assert (configured s2 a i) as Hc2 by (unfold configured; by rewrite (proj2 (on_sys_inv _ _ _ _ Hw))).
  pose proof (fun k => switchBootSlot_keeps _ _ _ _ _ _ _ k Hc2 Ha Hi Hne Hu Hp Hs) as Hk.
  unfold marked. rewrite !Hk; [done|..]; cbn; tauto.
Qed.

End spec.
