(* ===== verification/BootProtocol.v ===== *)
(** * BootProtocol: installing, committing and going back as a protocol

    What the operations of [DualRootfs] do to the boot variables, as steps of a
    small abstract machine, and what a rollback restores. *)

From S2P Require Import Prelude Text Os Devices BootEnv DualRootfs DualRootfsSpec.

Open Scope Z_scope.

Section protocol.
Context `{Os D} `{BootEnvLaws E D} (e : E) (Hvalid : valid e).
Implicit Types s : dualRootfsDeviceImpl D.

Notation var := (var e).
Notation unchanged := (unchanged e).

Lemma flag_key : In "upgrade_available" boot_keys.
Proof. by left. Qed.

Lemma count_key : In "bootcount" boot_keys.
Proof. by right; left. Qed.

Lemma part_key : In "mender_boot_part" boot_keys.
Proof. by do 2 right; left. Qed.

Lemma knows_unchanged s s' a i : unchanged s s' -> knows s a i -> knows s' a i.
Proof. intros [Hp _]. unfold knows. by rewrite Hp. Qed.

(** ** The configured partitions *)

Definition same_config s s' : Prop :=
  rootfsPartA (parts s') = rootfsPartA (parts s) /\ rootfsPartB (parts s') = rootfsPartB (parts s).

#[local] Instance same_config_preorder : PreOrder same_config.
Proof. split; [by split|]. intros a b c [? ?] [? ?]. split; congruence. Qed.

Lemma configured_same s s' a i : same_config s s' -> configured s a i -> configured s' a i.
Proof. intros [HA HB]. unfold configured. by rewrite HA, HB. Qed.

Lemma config_on_sys {A} (m : IO D A) : steps same_config (on_sys m).
Proof. intros s r s' Hr. apply on_sys_inv in Hr as [_ Hp]. by split; rewrite Hp. Qed.

Lemma config_GetInactive : steps same_config (GetInactive e).
Proof.
  assert (forall p, steps same_config (set_active (D := D) p)) as Ha by (by intros p s r s' [= <- <-]).
  assert (forall p, steps same_config (set_inactive (D := D) p)) as Hi by (by intros p s r s' [= <- <-]).
  unfold GetInactive, getAndCacheInactivePartition, GetActive, getAndCacheActivePartition, activeFromDevices.
  io_steps; first [apply config_on_sys|apply Ha|apply Hi].
Qed.

(** ** Going back *)

Lemma rollback_write s s' n : 0 <= n <= int64_max ->
  on_sys (WriteEnv e (rollback_vars (FormatInt 10 false n) (FormatInt 16 true n))) s = (Ok (), s') ->
  var s' "upgrade_available" = Some "0" /\ var s' "mender_boot_part" = Some (FormatInt 10 false n) /\
  var s' "bootcount" = var s "bootcount".
Proof.
  intros Hn Hw. pose proof (fun k => WriteEnv_spec e Hvalid _ _ _ k (coherent_rollback n Hn) Hw) as Hs.
  split; [|split].
  - by rewrite (Hs _ flag_key).
  - by rewrite (Hs _ part_key).
  - by rewrite (Hs _ count_key).
Qed.

(** A rollback that succeeds: nothing without an update; otherwise the number of
    the partition that is not the one to boot. *)
Lemma Rollback_outcome s s' a i na ni : knows s a i -> partition_no a na -> partition_no i ni ->
  Rollback e s = (Ok (), s') ->
  if bool_decide (var s "upgrade_available" = Some "1") then
    exists p, var s "mender_boot_part" = Some p /\
      var s' "upgrade_available" = Some "0" /\ var s' "bootcount" = var s "bootcount" /\
      var s' "mender_boot_part" =
        Some (FormatInt 10 false (if bool_decide (p = FormatInt 10 false na) then ni else na))
  else unchanged s s'.
Proof.
  intros Hk Hna Hni. unfold Rollback, mbind, IO_bind at 1.
  destruct (wrap _ (HasUpdate e) s) as [r0 s1] eqn:Ew.
  apply wrap_inv in Ew as (r1 & Ew & Hr1). apply (HasUpdate_spec e Hvalid) in Ew as [Hu Hb].
  destruct r1 as [b|x]; subst r0; [|done]. rewrite <- (Hb b eq_refl). destruct b.
  2: { by intros [= <-]. }
  unfold IO_bind at 1. destruct (on_sys (ReadEnv e _) s1) as [[vars|x] s2] eqn:Er; [|done].
  apply (ReadEnv_spec e Hvalid) in Er as [Hu2 Hv].
  assert (unchanged s s2) as Hs2 by (by transitivity s1).
  rewrite (Hv vars _ eq_refl (or_introl eq_refl)).
  rewrite (proj2 Hu). destruct (var s "mender_boot_part") as [p|] eqn:Ep; [|done].
  intros Hr. exists p. split; [done|]. unfold IO_bind at 1 in Hr.
  pose proof (knows_unchanged _ _ _ _ Hs2 Hk) as Hk2.
  rewrite (getActivePartition_known e s2 a i na Hk2 Hna) in Hr.
  assert (exists n, n = (if bool_decide (p = FormatInt 10 false na) then ni else na) /\
    on_sys (WriteEnv e (rollback_vars (FormatInt 10 false n) (FormatInt 16 true n))) s2 = (Ok (), s'))
    as (n & -> & Hw).
  { unfold IO_bind in Hr. destruct (bool_decide (p = FormatInt 10 false na)).
    - rewrite (getInactivePartition_found e s2 i ni s2 (GetInactive_known e _ _ _ Hk2) Hni) in Hr.
      eauto.
    - eauto. }
  apply rollback_write in Hw as (Hfu & Hfp & Hfb); [|by case_bool_decide; [apply Hni|apply Hna]].
  split; [done|]. split; [|done]. by rewrite Hfb, (proj2 Hs2).
Qed.

Lemma FormatInt_inj n m : 0 <= n <= int64_max -> 0 <= m <= int64_max ->
  FormatInt 10 false n = FormatInt 10 false m -> n = m.
Proof.
  intros Hn Hm Heq. pose proof (ParseInt_FormatInt 10 false n ltac:(lia) Hn) as Hp.
  rewrite Heq, ParseInt_FormatInt in Hp by lia. by injection Hp.
Qed.

Lemma FormatInt_ne a i na ni : partition_no a na -> partition_no i ni -> na <> ni ->
  FormatInt 10 false na <> FormatInt 10 false ni.
Proof. intros [Ha _] [Hi _] Hne Heq. apply Hne. by apply FormatInt_inj. Qed.


(** When the script that switches the boot loader fails, the installation
    fails and the flag is cleared, but the environment still names the inactive
    partition; a rollback then finds no update and leaves it so, although it
    succeeds. *)
Theorem failed_switch_keeps_new_partition `{!SwitchScript e} s s' a i na n s1 s2 s3 err :
  GetInactive e s = (Ok i, s1) -> configured s a i -> partition_no a na -> partition_no i n -> na <> n ->
  on_sys (WriteEnv e (install_vars (FormatInt 10 false n) (FormatInt 16 true n))) s1 = (Ok (), s2) ->
  switchBootSlot (FormatInt 10 false n) s2 = (Err err, s3) ->
  on_sys (WriteEnv e {["upgrade_available" := "0"]}) s3 = (Ok (), s') ->
  InstallUpdate e s = (Err (EWrap "failed to switch boot slot via switch-boot-slot.sh" err), s') /\
  var s' "upgrade_available" = Some "0" /\
  var s' "mender_boot_part" = Some (FormatInt 10 false n) /\
  forall s'' a b na nb, knows s' a b -> partition_no a na -> partition_no b nb ->
    Rollback e s' = (Ok (), s'') ->
    var s'' "mender_boot_part" = Some (FormatInt 10 false n).
Proof.
  intros Hg Hconf Ha Hi Hne Hw Hs Hc. pose proof (FormatInt_ne _ _ _ _ Ha Hi Hne) as Hnum.
  assert (configured s2 a i) as Hc2.
  { apply (configured_same s); [|done]. transitivity s1; [by eapply config_GetInactive|by eapply config_on_sys]. }
  destruct (install_write e Hvalid _ _ _ (proj1 Hi) Hw) as (Hu & Hp & _).
  pose proof (fun k => WriteEnv_spec e Hvalid _ _ _ k (coherent_flag _ word_0) Hc) as Hcv.
  assert (var s' "mender_boot_part" = Some (FormatInt 10 false n)) as Hp'.
  { rewrite (Hcv _ part_key). cbn.
    by rewrite (switchBootSlot_keeps e _ _ _ _ _ _ _ _ Hc2 Ha Hi Hnum Hu Hp Hs part_key). }
  assert (var s' "upgrade_available" = Some "0") as Hu' by (by rewrite (Hcv _ flag_key)).
  split; [|split; [done|split; [done|]]].
  - unfold InstallUpdate. rewrite (bind_run _ _ _ _ _ (getInactivePartition_found e _ _ _ _ Hg Hi)).
    rewrite (bind_run _ _ _ _ _ Hw). unfold mbind, IO_bind, try. by rewrite Hs, Hc.
  - intros s'' c b nc nb Hk Hcn Hb Hr.
    pose proof (Rollback_outcome _ _ _ _ _ _ Hk Hcn Hb Hr) as Ho. rewrite Hu' in Ho.
    rewrite bool_decide_false in Ho by done. by rewrite (proj2 Ho).
Qed.

(** ** Committing and verifying *)

Lemma CommitUpdate_inv s r s' : CommitUpdate e s = (r, s') ->
  (exists x, r = Err x /\ unchanged s s') \/
  var s "upgrade_available" = Some "1" /\ exists s1 rw s2,
    unchanged s s1 /\ on_sys (WriteEnv e {["upgrade_available" := "0"]}) s1 = (rw, s2) /\
    match rw with
    | Err x => r = Err x /\ s' = s2
    | Ok _ => r = Ok () /\ forall k, In k boot_keys -> var s' k = var s2 k
    end.
Proof.
  intros Hr. apply (HasUpdate_cases e Hvalid) in Hr as (s1 & Hu & [(x & -> & ->)|Hr]); [left; eauto|].
  destruct (decide (var s "upgrade_available" = Some "1")) as [Hf|Hf].
  2: { rewrite bool_decide_false in Hr by done. injection Hr as <- <-. left. eauto. }
  rewrite bool_decide_true in Hr by done. right. split; [done|].
  unfold mbind, IO_bind in Hr. destruct (on_sys (WriteEnv e _) s1) as [rw s2] eqn:Ew.
  exists s1, rw, s2. split; [done|]. split; [done|]. destruct rw as [u|x]; [|by injection Hr as <- <-].
  destruct (ClearDirectBootBackup' e) as [clear|] eqn:Ec; [|injection Hr as <- <-; done].
  unfold try in Hr. destruct (on_sys clear s2) as [rc s3] eqn:Eo. injection Hr as <- <-.
  split; [done|]. apply on_sys_inv in Eo as [Eo _]. intros k Hk.
  exact (Clear_frame e clear _ _ _ k Hvalid Ec Eo Hk).
Qed.

(** A commit succeeds only when an update is pending; it clears the flag and
    leaves the partition to boot and the count alone.  Without a pending update
    it fails and changes nothing. *)
Theorem CommitUpdate_clears_the_flag s r s' : CommitUpdate e s = (r, s') ->
  (var s "upgrade_available" <> Some "1" -> r <> Ok () /\ unchanged s s') /\
  (r = Ok () -> var s "upgrade_available" = Some "1" /\ var s' "upgrade_available" = Some "0" /\
     var s' "mender_boot_part" = var s "mender_boot_part" /\ var s' "bootcount" = var s "bootcount").
Proof.
  intros [(x & -> & Hu)|(Hf & s1 & rw & s2 & Hu & Hw & Hrw)]%CommitUpdate_inv; [by split|].
  split; [done|]. intros ->. destruct rw as [[]|x]; [|by destruct Hrw]. destruct Hrw as [_ Hk].
  pose proof (fun k => WriteEnv_spec e Hvalid _ _ _ k (coherent_flag _ word_0) Hw) as Hs.
  split; [done|]. rewrite (Hk _ flag_key), (Hk _ part_key), (Hk _ count_key).
  rewrite (Hs _ flag_key), (Hs _ part_key), (Hs _ count_key). cbn. by rewrite !(proj2 Hu).
Qed.

(** After a reboot exactly one of the two verifications can succeed: the one
    of the update while the flag is set, the one of the rollback otherwise; they
    change no variable. *)
Lemma verifications_exclude_each_other s r s' rb sb :
  VerifyReboot e s = (r, s') -> VerifyRollbackReboot e s = (rb, sb) ->
  unchanged s s' /\ unchanged s sb /\
  (r = Ok () -> var s "upgrade_available" = Some "1") /\
  (rb = Ok () -> var s "upgrade_available" <> Some "1") /\
  (forall b s1, HasUpdate e s = (Ok b, s1) ->
     (r = Ok () /\ rb = Err verifyRollbackRebootError) \/ (r = Err verifyRebootError /\ rb = Ok ())).
Proof.
  intros Hr Hrb. unfold VerifyReboot, VerifyRollbackReboot, mbind, IO_bind in Hr, Hrb.
  destruct (HasUpdate e s) as [[b|x] s1] eqn:Eh; apply (HasUpdate_spec e Hvalid) in Eh as [Hu Hb].
  2: { injection Hr as <- <-. injection Hrb as <- <-. split; [done|split; [done|]]. naive_solver. }
  rewrite (Hb b eq_refl) in Hr, Hrb. case_bool_decide; injection Hr as <- <-; injection Hrb as <- <-;
    (split; [done|split; [done|]]); naive_solver.
Qed.

(** ** The fallback at start-up *)

(** The fallback clears the flag and the count exactly when an upgrade is
    pending and the count of boots has reached the limit (a count that is no
    number is 0); a pending upgrade with fewer boots is left alone, and without
    one the flags do not change. *)
Theorem HandleBootCountFallback_spec s r s' : HandleBootCountFallback e s = (r, s') ->
  r = Ok () /\
  (var s "upgrade_available" <> Some "1" ->
     forall k, In k ["upgrade_available"; "bootcount"] -> var s' k = var s k) /\
  (var s "upgrade_available" = Some "1" -> boot_count (var s "bootcount") < DefaultMaxBootRetries ->
     unchanged s s') /\
  (var s "upgrade_available" = Some "1" -> DefaultMaxBootRetries <= boot_count (var s "bootcount") ->
     forall vars s1, on_sys (ReadEnv e ["upgrade_available"; "bootcount"]) s = (Ok vars, s1) ->
     forall s2, on_sys (WriteEnv e (<["upgrade_available" := "0"]> {["bootcount" := "0"]})) s1 = (Ok (), s2) ->
     var s' "upgrade_available" = Some "0" /\ var s' "bootcount" = Some "0" /\
     var s' "mender_boot_part" = var s "mender_boot_part").
Proof.
  unfold HandleBootCountFallback, mbind, IO_bind, try.
  destruct (on_sys (ReadEnv e _) s) as [rr s1] eqn:Er. pose proof Er as Er0.
  apply (ReadEnv_spec e Hvalid) in Er0 as [Hu Hv]. destruct rr as [vars|x].
  2: { intros [= <- <-]. split; [done|]. split; [by intros; apply Hu|].
       split; [done|]. intros _ _ vars s1' [=]. }
  rewrite (Hv vars "upgrade_available" eq_refl (or_introl eq_refl)).
  rewrite (Hv vars "bootcount" eq_refl (or_intror (or_introl eq_refl))).
  destruct (decide (var s "upgrade_available" = Some "1")) as [Hf|Hf].
  - rewrite bool_decide_true by done. destruct (Z.ltb_spec (boot_count (var s "bootcount")) DefaultMaxBootRetries).
    + intros [= <- <-]. split; [done|]. split; [done|]. split; [done|]. intros _ Hge. lia.
    + destruct (on_sys (WriteEnv e _) s1) as [rw s2] eqn:Ew. intros [= <- <-].
      split; [done|]. split; [done|]. split; [intros _ Hlt; lia|].
      intros _ _ vars' s1' [= <- <-] s2' Hw. rewrite Ew in Hw. injection Hw as -> <-.
      pose proof (fun k => WriteEnv_spec e Hvalid _ _ _ k coherent_clear Ew) as Hs.
      rewrite (Hs _ flag_key), (Hs _ part_key), (Hs _ count_key), <- (proj2 Hu).
      split; [reflexivity|split; reflexivity].
  - rewrite bool_decide_false by done. intros Hr.
    enough (r = Ok () /\ forall k, In k ["upgrade_available"; "bootcount"] -> var s' k = var s k) as [-> Hk]
      
      by (split; [done|]; split; [intros _; exact Hk|]; split; intros ?; contradiction).
    destruct (ReconcileToBootedSlot' e) as [m|] eqn:Em; [|injection Hr as <- <-; split; [done|]; intros k _; apply Hu].
    destruct (on_sys m s1) as [rm s2] eqn:Eo. injection Hr as <- <-. split; [done|].
    intros k Hk. apply on_sys_inv in Eo as [Eo _]. rewrite <- (proj2 Hu k).
    exact (Reconcile_frame e m _ _ _ k Hvalid Em Eo Hk).
Qed.

(** ** The protocol *)

(** No update, or one that is pending, and the partition to boot. *)
Inductive phase :=
  | Idle (part : option string)
  | Pending (part : option string).

Definition phase_of s : phase :=
  if bool_decide (var s "upgrade_available" = Some "1") then Pending (var s "mender_boot_part")
  else Idle (var s "mender_boot_part").

Inductive op := OpInstall | OpCommit | OpRollback | OpVerifyReboot | OpVerifyRollbackReboot.

Definition run_op (o : op) : IO (dualRootfsDeviceImpl D) unit :=
  match o with
  | OpInstall => InstallUpdate e
  | OpCommit => CommitUpdate e
  | OpRollback => Rollback e
  | OpVerifyReboot => VerifyReboot e
  | OpVerifyRollbackReboot => VerifyRollbackReboot e
  end.

(** What the operations mean on a device that runs on partition number [here],
    the other one being [there]. *)
Inductive boot_step (here there : string) : op -> phase -> phase -> Prop :=
  | step_install ph : boot_step here there OpInstall ph (Pending (Some there))
  | step_commit p : boot_step here there OpCommit (Pending p) (Idle p)
  | step_rollback_stay p : p <> here ->
      boot_step here there OpRollback (Pending (Some p)) (Idle (Some here))
  | step_rollback_return : boot_step here there OpRollback (Pending (Some here)) (Idle (Some there))
  | step_rollback_nothing p : boot_step here there OpRollback (Idle p) (Idle p)
  | step_verify p : boot_step here there OpVerifyReboot (Pending p) (Pending p)
  | step_verify_rollback p : boot_step here there OpVerifyRollbackReboot (Idle p) (Idle p).

(** Operations one after the other, all of which succeed. *)
Inductive run_ops : list op -> dualRootfsDeviceImpl D -> dualRootfsDeviceImpl D -> Prop :=
  | run_nil s : run_ops [] s s
  | run_cons o l s s1 s2 : run_op o s = (Ok (), s1) -> run_ops l s1 s2 -> run_ops (o :: l) s s2.

Inductive boot_steps (here there : string) : list op -> phase -> phase -> Prop :=
  | steps_nil ph : boot_steps here there [] ph ph
  | steps_cons o l p q r : boot_step here there o p q -> boot_steps here there l q r ->
      boot_steps here there (o :: l) p r.

Definition same_parts s s' : Prop := parts s' = parts s.

#[local] Instance same_parts_preorder : PreOrder same_parts.
Proof. split; [by intros s|]. intros a b c Hab Hbc. unfold same_parts in *. congruence. Qed.

Lemma parts_on_sys {A} (m : IO D A) : steps same_parts (on_sys m).
Proof. intros s r s' Hr. by apply on_sys_inv in Hr as [_ Hp]. Qed.

Lemma parts_switchBootSlot num : steps same_parts (switchBootSlot num).
Proof. unfold switchBootSlot. io_steps; apply parts_on_sys. Qed.

Lemma parts_CommitUpdate : steps same_parts (CommitUpdate e).
Proof. unfold CommitUpdate, HasUpdate. io_steps; apply parts_on_sys. Qed.

Lemma parts_HasUpdate : steps same_parts (HasUpdate e).
Proof. unfold HasUpdate. io_steps; apply parts_on_sys. Qed.

Lemma knows_same s s' a i : same_parts s s' -> knows s a i -> knows s' a i.
Proof. unfold same_parts, knows. by intros ->. Qed.

Lemma phase_unchanged s s' : unchanged s s' -> phase_of s' = phase_of s.
Proof. intros [_ Hv]. unfold phase_of. by rewrite !Hv. Qed.

Section refinement.
Context `{!SwitchScript e} (a i : string) (na ni : Z).
Context (Ha : partition_no a na) (Hi : partition_no i ni) (Hne : na <> ni).

Notation here := (FormatInt 10 false na).
Notation there := (FormatInt 10 false ni).

Lemma install_refines s s' : knows s a i -> configured s a i -> InstallUpdate e s = (Ok (), s') ->
  same_parts s s' /\ boot_step here there OpInstall (phase_of s) (phase_of s').
Proof.
  intros Hk Hconf Hr. pose proof (FormatInt_ne _ _ _ _ Ha Hi Hne) as Hnum.
  destruct (InstallUpdate_inv e _ _ _ _ _ _ (GetInactive_known e _ _ _ Hk) Hi Hr) as
    [(err & s2 & _ & Hx & _)|(s2 & rs & s3 & Hw & Hs & Hrs)]; [done|].
  destruct rs as [u|err]; [|by destruct Hrs as (rc & _ & Hx)]. destruct Hrs as [_ ->].
  destruct (install_write e Hvalid _ _ _ (proj1 Hi) Hw) as (Hu & Hp & _). split.
  - transitivity s2; [by eapply parts_on_sys|by eapply parts_switchBootSlot].
  - assert (configured s2 a i) as Hc2 by (unfold configured; by rewrite (parts_on_sys _ _ _ _ Hw)).
    unfold phase_of at 2.
    rewrite (switchBootSlot_keeps e _ _ _ _ _ _ _ _ Hc2 Ha Hi Hnum Hu Hp Hs flag_key), Hu.
    rewrite (switchBootSlot_keeps e _ _ _ _ _ _ _ _ Hc2 Ha Hi Hnum Hu Hp Hs part_key), Hp.
    rewrite bool_decide_true by done. constructor.
Qed.

Lemma rollback_refines s s' : knows s a i -> Rollback e s = (Ok (), s') ->
  same_parts s s' -> boot_step here there OpRollback (phase_of s) (phase_of s').
Proof.
  intros Hk Hr Hp. pose proof (Rollback_outcome _ _ _ _ _ _ Hk Ha Hi Hr) as Ho.
  destruct (decide (var s "upgrade_available" = Some "1")) as [Hf|Hf].
  - rewrite bool_decide_true in Ho by done. destruct Ho as (p & Hpv & Hu & _ & Hp').
    unfold phase_of. rewrite bool_decide_true by done. rewrite Hpv, Hu, Hp', (bool_decide_false (Some "0" = _)) by done.
    case_bool_decide as Heq; [subst p; constructor|by constructor].
  - rewrite bool_decide_false in Ho by done. rewrite (phase_unchanged _ _ Ho).
    unfold phase_of. rewrite bool_decide_false by done. constructor.
Qed.

Lemma commit_refines s s' : CommitUpdate e s = (Ok (), s') ->
  boot_step here there OpCommit (phase_of s) (phase_of s').
Proof.
  intros [(x & Hx & _)|(Hf & s1 & rw & s2 & Hu & Hw & Hrw)]%CommitUpdate_inv; [done|].
  destruct rw as [[]|x]; [|by destruct Hrw]. destruct Hrw as [_ Hk].
  pose proof (fun k => WriteEnv_spec e Hvalid _ _ _ k (coherent_flag _ word_0) Hw) as Hs.
  unfold phase_of. rewrite Hf, (Hk _ flag_key), (Hk _ part_key), (Hs _ flag_key), (Hs _ part_key).
  rewrite bool_decide_true by done. rewrite (bool_decide_false (_ = Some "1")) by done.
  change (({["upgrade_available" := "0"]} : BootVars) !! "mender_boot_part") with (@None string).
  rewrite (proj2 Hu). constructor.
Qed.

Lemma verify_refines (o : op) s s' : o = OpVerifyReboot \/ o = OpVerifyRollbackReboot ->
  run_op o s = (Ok (), s') -> unchanged s s' /\ boot_step here there o (phase_of s) (phase_of s').
Proof.
  intros Ho Hr. destruct Ho as [-> | ->]; apply (HasUpdate_cases e Hvalid) in Hr as (s1 & Hu & [(x & Hx & _)|Hr]); try done;
    case_bool_decide as Hf; try done; injection Hr as <-; (split; [done|]);
    rewrite (phase_unchanged _ _ Hu); unfold phase_of;
    [rewrite bool_decide_true by done|rewrite bool_decide_false by done]; constructor.
Qed.

Lemma parts_Rollback_known s r s' : knows s a i -> Rollback e s = (r, s') -> same_parts s s'.
Proof.
  intros Hk. unfold Rollback, mbind, IO_bind at 1.
  destruct (wrap _ (HasUpdate e) s) as [r0 s1] eqn:Ew.
  apply wrap_inv in Ew as (r1 & Ew & Hr1). apply (HasUpdate_spec e Hvalid) in Ew as [Hu _].
  assert (same_parts s s1) as Hp1 by apply Hu.
  destruct r0 as [b|x]; [|by intros [= <- <-]]. destruct b; [|by intros [= <- <-]].
  unfold IO_bind at 1. destruct (on_sys (ReadEnv e _) s1) as [rr s2] eqn:Er.
  assert (same_parts s s2) as Hp2 by (transitivity s1; [done|by eapply parts_on_sys]).
  destruct rr as [vars|x]; [|by intros [= <- <-]]. destruct (vars !! _); [|by intros [= <- <-]].
  unfold IO_bind at 1. rewrite (getActivePartition_known e s2 a i na (knows_same _ _ _ _ Hp2 Hk) Ha).
  unfold IO_bind. case_bool_decide.
  - rewrite (getInactivePartition_found e s2 i ni s2 (GetInactive_known e _ _ _ (knows_same _ _ _ _ Hp2 Hk)) Hi).
    intros Hr. transitivity s2; [done|exact (parts_on_sys _ _ _ _ Hr)].
  - intros Hr. transitivity s2; [done|exact (parts_on_sys _ _ _ _ Hr)].
Qed.

Lemma op_refines o s s' : knows s a i -> configured s a i -> run_op o s = (Ok (), s') ->
  same_parts s s' /\ boot_step here there o (phase_of s) (phase_of s').
Proof.
  intros Hk Hc Hr. destruct o; cbn [run_op] in Hr.
  - by apply install_refines.
  - split; [|by apply commit_refines]. by eapply parts_CommitUpdate.
  - assert (same_parts s s') as Hp by (by eapply parts_Rollback_known).
    split; [done|by apply rollback_refines].
  - destruct (verify_refines OpVerifyReboot _ _ (or_introl eq_refl) Hr) as [Hu Hs].
    split; [apply Hu|done].
  - destruct (verify_refines OpVerifyRollbackReboot _ _ (or_intror eq_refl) Hr) as [Hu Hs].
    split; [apply Hu|done].
Qed.

(** C11: The installer refines the protocol: any sequence of its operations that
    succeed, on one boot, is a sequence of steps of the abstract machine on the
    flag and the partition to boot.  The two configured partitions have different
    numbers and the installer has found which one runs; the script that switches
    the slot, if the board has it, may itself write the flag and the number of the
    slot's partition to the boot environment, as those of the repository do, and
    nothing else of what the installer reads. *)
Theorem installer_refines_protocol l s s' : knows s a i -> configured s a i -> run_ops l s s' ->
  boot_steps here there l (phase_of s) (phase_of s').
Proof.
  intros Hk Hc Hrun. revert Hk Hc. induction Hrun as [s|o l s s1 s2 Hr Hrun IH]; intros Hk Hc; [constructor|].
  destruct (op_refines o s s1 Hk Hc Hr) as [Hp Hs]. econstructor; [exact Hs|].
  apply IH; [by eapply knows_same|]. unfold configured. by rewrite Hp.
Qed.

End refinement.

(** ** Which partition is written *)

(** The partition an update is written to is one of the two configured ones
    and not the one the device runs on. *)
Theorem update_goes_to_the_other_partition s p s' : inactive (parts s) = EmptyString ->
  GetInactive e s = (Ok p, s') ->
  exists a s1, GetActive e s = (Ok a, s1) /\ p <> maybeResolveLink a (sys s1) /\
    ((maybeResolveLink a (sys s1) = rootfsPartA (parts s) /\ p = rootfsPartB (parts s)) \/
     (maybeResolveLink a (sys s1) = rootfsPartB (parts s) /\ p = rootfsPartA (parts s))).
Proof.
  intros Hin. unfold GetInactive. rewrite (bind_run _ _ s _ s) by reflexivity. rewrite Hin.
  rewrite bool_decide_true by done. unfold getAndCacheInactivePartition.
  rewrite (bind_run _ _ s _ s) by reflexivity. destruct (_ || _); [done|].
  case_bool_decide as Hne; [done|]. intros (a & s1 & Hga & Hr)%bind_ok.
  exists a, s1. split; [done|]. rewrite (bind_run _ _ s1 _ s1) in Hr by reflexivity.
  repeat case_bool_decide; [| |done]; injection Hr as <- _; split; auto; congruence.
Qed.

End protocol.
