(* ===== verification/BootScenario.v ===== *)
(** * BootScenario: the properties of the boot environment on a concrete device

    A simulated device with two root file systems on an SD card, the boot
    environment in files; every property of the boot environment and the
    installer is applied to it. *)

From S2P Require Import Prelude Text Os Devices BootEnv FileBootEnv FileEnvLaws FileEnvVars.
From S2P Require Import DualRootfs DualRootfsSpec BootProtocol.
From Stdlib Require Import Ascii.

Open Scope Z_scope.

Definition partA : string := "/dev/mmcblk0p2".
Definition partB : string := "/dev/mmcblk0p3".

(** It runs on partition 2. *)
Definition sim (files : gmap string string) (run : gmap string (result string)) : SimOs := {|
  sim_files := files;
  sim_devices := <["/" := {| is_device := false; Dev := 45826; Rdev := 0 |}]>
    {[partA := {| is_device := true; Dev := 5; Rdev := 45826 |}]};
  sim_links := ∅;
  sim_writes := [];
  sim_run := <["mount" := Ok "/dev/mmcblk0p2 on / type ext4 (rw,relatime)"]> run
|}.

Definition board : FileBasedBootEnv SimOs := NewFileBasedBootEnv partA partB.

Definition fresh (d : SimOs) : dualRootfsDeviceImpl SimOs :=
  mkDevice {| rootfsPartA := partA; rootfsPartB := partB; active := EmptyString; inactive := EmptyString |} d.

(** After a reboot onto partition 3. *)
Definition rebooted (d : SimOs) : dualRootfsDeviceImpl SimOs :=
  mkDevice {| rootfsPartA := partA; rootfsPartB := partB; active := partB; inactive := partA |} d.

(** The script that switches the slot is there. *)
Definition device0 : dualRootfsDeviceImpl SimOs :=
  fresh (sim {[switchBootSlotScript := "#!/bin/bash"]} {[switchBootSlotScript +:+ " b" := Ok "Switched to slot b"]}).
Definition known0 : dualRootfsDeviceImpl SimOs := snd (GetInactive board device0).
Definition installed : dualRootfsDeviceImpl SimOs := snd (InstallUpdate board device0).
Definition rolled_back : dualRootfsDeviceImpl SimOs := snd (Rollback board (rebooted (sys installed))).

Lemma board_wf : wf_env board.
Proof. apply wf_NewFileBasedBootEnv. Qed.

Lemma board_valid : valid (D:=SimOs) board.
Proof. exact board_wf. Qed.

Lemma word_digits num : num <> EmptyString -> all_str is_digit num = true -> word num.
Proof.
  intros Hne Hnum. split; [done|]. revert Hnum. apply all_str_impl. intros c Hc. unfold word_char.
  rewrite (is_digit_not_space _ Hc). cbn. apply negb_true_iff, bool_decide_eq_false. by intros ->.
Qed.

(** The script of the simulated system keeps the contract, and does write the boot
    environment of this board. *)
#[export] Instance Sim_SwitchScript : SwitchScript (D:=SimOs) board.
Proof.
  intros slot a b num d r d' k Hnum Hr Hk. cbn [RunCmd Sim_Os] in Hr. unfold sim_command in Hr.
  destruct (sim_run d !! _) as [[out|err]|]; injection Hr as <- <-; [|by left..].
  set (device := if bool_decide (slot = "a") then "ROOTFS_A_PARTITION=" +:+ a else "ROOTFS_B_PARTITION=" +:+ b).
  assert (drop_str (String.length (TrimRightFunc is_digit device)) device = num) as Hd.
  { assert (exists pre x, device = pre +:+ String x num /\ is_digit x = false) as (pre & x & -> & Hx).
    { unfold device. destruct Hnum as (c & pre & Hdev & _ & (p & x & Hpx & Hx) & _).
      rewrite Hpx, app_assoc_str in Hdev. case_bool_decide; rewrite Hdev.
      - exists ("ROOTFS_A_PARTITION=" +:+ p), x. by rewrite app_assoc_str.
      - exists ("ROOTFS_B_PARTITION=" +:+ p), x. by rewrite app_assoc_str. }
    destruct Hnum as (? & ? & _ & _ & _ & ? & ?). by apply split_at. }
  assert (word num) as Hw by (destruct Hnum as (? & ? & _ & _ & _ & ? & ?); by apply word_digits).
  destruct Hk as [<-|[<-|[<-|[]]]].
  - right. left. split; [done|]. apply (file_var_line board _ "upgrade_available" "1"); [by left|exact word_1|].
    cbn [sim_files files Sim_OsLaws]. unfold sim_slot_script. cbn [cmd_args cmd_env].
    change (var_file board "upgrade_available") with "/data/ota/upgrade_available".
    by rewrite !lookup_insert_ne, lookup_insert_eq by done.
  - left. etransitivity; [apply (file_var_count board)|]. symmetry. etransitivity; [apply (file_var_count board)|].
    cbn [sim_files files Sim_OsLaws]. unfold sim_slot_script. cbn [cmd_args cmd_env].
    by rewrite !lookup_insert_ne by done.
  - right. right. split; [done|]. apply (file_var_line board _ "mender_boot_part" num); [by do 2 right; left|done|].
    cbn [sim_files files Sim_OsLaws]. unfold sim_slot_script. cbn [cmd_args cmd_env]. fold device. rewrite Hd.
    by rewrite lookup_insert_eq.
Qed.

(** A device file with a number. *)
Lemma numbered_dev pre x num : is_digit x = false -> num <> EmptyString -> all_str is_digit num = true ->
  numbered ("/" +:+ pre +:+ String x num) num.
Proof.
  intros Hx Hne Hnum. exists "/"%char, (pre +:+ String x EmptyString). split.
  - rewrite (app_cons_str "/"%char (pre +:+ _)), app_assoc_str. reflexivity.
  - split; [done|]. split; [|done]. exists ("/" +:+ pre), x. done.
Qed.

Lemma partA_no : partition_no partA 2.
Proof. split; [split; reflexivity||discriminate|]. by apply (numbered_dev "dev/mmcblk0" "p" "2"). Qed.

Lemma partB_no : partition_no partB 3.
Proof. split; [split; reflexivity||discriminate|]. by apply (numbered_dev "dev/mmcblk0" "p" "3"). Qed.

(** The whole cycle: install, reboot, verify, roll back. *)
Example cycle :
  fst (InstallUpdate board device0) = Ok () /\
  var board installed "upgrade_available" = Some "1" /\
  var board installed "mender_boot_part" = Some "3" /\
  fst (VerifyReboot board (rebooted (sys installed))) = Ok () /\
  fst (Rollback board (rebooted (sys installed))) = Ok () /\
  var board rolled_back "upgrade_available" = Some "0" /\
  var board rolled_back "mender_boot_part" = Some "2".
Proof. vm_compute. repeat split. Qed.


(** ** Witnesses *)

(** A board whose boot loader is switched by a script, which fails. *)
Definition broken_script : dualRootfsDeviceImpl SimOs :=
  fresh (sim {[switchBootSlotScript := "#!/bin/sh"]}
    {[switchBootSlotScript +:+ " b" := Err (EText "exit status 1")]}).

Definition script_error : error := EWrap "switch-boot-slot.sh failed" (EText "exit status 1").
Definition broken_known : dualRootfsDeviceImpl SimOs := snd (GetInactive board broken_script).
Definition broken_marked : dualRootfsDeviceImpl SimOs :=
  snd (on_sys (WriteEnv board (install_vars "3" "3")) broken_known).
Definition broken_installed : dualRootfsDeviceImpl SimOs := snd (InstallUpdate board broken_script).

Lemma failed_switch_keeps_new_partition_witness :
  fst (InstallUpdate board broken_script) =
    Err (EWrap "failed to switch boot slot via switch-boot-slot.sh" script_error) /\
  var board (snd (Rollback board broken_installed)) "mender_boot_part" = Some "3".
Proof.
  destruct (failed_switch_keeps_new_partition board board_valid broken_script broken_installed partA partB 2 3
    broken_known broken_marked broken_marked script_error) as (Hr & _ & _ & Hp).
  - vm_compute. reflexivity.
  - left. split; reflexivity.
  - exact partA_no.
  - exact partB_no.
  - discriminate.
  - vm_compute. reflexivity.
  - vm_compute. reflexivity.
  - vm_compute. reflexivity.
  - split; [exact (f_equal fst Hr)|].
    apply (Hp _ partA partB 2 3).
    + vm_compute. repeat split; discriminate.
    + exact partA_no.
    + exact partB_no.
    + vm_compute. reflexivity.
Defined.

Lemma CommitUpdate_clears_the_flag_witness :
  var board (snd (CommitUpdate board (rebooted (sys installed)))) "upgrade_available" = Some "0" /\
  var board (snd (CommitUpdate board (rebooted (sys installed)))) "mender_boot_part" = Some "3".
Proof.
  destruct (CommitUpdate_clears_the_flag board board_valid (rebooted (sys installed)) (Ok ())
    (snd (CommitUpdate board (rebooted (sys installed))))) as [_ Hok].
  - vm_compute. reflexivity.
  - destruct (Hok eq_refl) as (_ & Hu & Hp & _). split; [exact Hu|].
    rewrite Hp. vm_compute. reflexivity.
Defined.

(** Three boots later. *)
Definition worn : dualRootfsDeviceImpl SimOs :=
  rebooted (sim (<[DefaultBootCountFile := "3" +:+ newline]> (sim_files (sys installed))) ∅).

Lemma HandleBootCountFallback_spec_witness :
  var board (snd (HandleBootCountFallback board worn)) "upgrade_available" = Some "0" /\
  var board (snd (HandleBootCountFallback board worn)) "bootcount" = Some "0" /\
  var board (snd (HandleBootCountFallback board worn)) "mender_boot_part" = Some "3".
Proof.
  destruct (HandleBootCountFallback_spec board board_valid worn (Ok ())
    (snd (HandleBootCountFallback board worn))) as (_ & _ & _ & Hc).
  - vm_compute. reflexivity.
  - assert (forall r s1, on_sys (ReadEnv board ["upgrade_available"; "bootcount"]) worn = (r, s1) ->
      exists vars, r = Ok vars /\ s1 = worn) as Hread.
    { intros r s1 [= <- <-]. eexists. split; reflexivity. }
    destruct (Hread _ _ (surjective_pairing _)) as (vars & Hvars & Hs1).
    destruct (Hc eq_refl ltac:(vm_compute; discriminate) vars worn) with
      (s2 := snd (on_sys (WriteEnv board (<["upgrade_available" := "0"]> {["bootcount" := "0"]})) worn))
      as (Hu & Hb & Hp).
    + rewrite (surjective_pairing (on_sys _ _)), Hvars, Hs1. reflexivity.
    + vm_compute. reflexivity.
    + split; [exact Hu|split; [exact Hb|]]. rewrite Hp. vm_compute. reflexivity.
Defined.

(** Install and roll back without a reboot. *)
Lemma installer_refines_protocol_witness :
  boot_steps "2" "3" [OpInstall; OpVerifyReboot; OpRollback; OpVerifyRollbackReboot]
    (Idle None) (Idle (Some "2")).
Proof.
  refine (installer_refines_protocol board board_valid partA partB 2 3 partA_no partB_no _
    [OpInstall; OpVerifyReboot; OpRollback; OpVerifyRollbackReboot] known0
    (snd (Rollback board (snd (InstallUpdate board known0)))) _ _ _).
  - discriminate.
  - vm_compute. repeat split; discriminate.
  - left. split; reflexivity.
  - econstructor; [vm_compute; reflexivity|]. econstructor; [vm_compute; reflexivity|].
    econstructor; [vm_compute; reflexivity|]. econstructor; [vm_compute; reflexivity|].
    apply run_nil.
Defined.

Lemma update_goes_to_the_other_partition_witness :
  exists a s1, GetActive board device0 = (Ok a, s1) /\ partB <> maybeResolveLink a (sys s1).
Proof.
  destruct (update_goes_to_the_other_partition board device0 partB known0) as (a & s1 & Ha & Hne & _).
  - reflexivity.
  - vm_compute. reflexivity.
  - exists a, s1. split; [exact Ha|exact Hne].
Defined.

(** The boot partition is mounted. *)
Definition with_boot : SimOs := {|
  sim_files := <["/proc/self/mounts" := "/dev/mmcblk0p1 /boot vfat rw 0 0" +:+ newline]>
    {["/boot" := EmptyString]};
  sim_devices := ∅; sim_links := ∅; sim_writes := []; sim_run := ∅
|}.

Lemma flag_follows_sync_witness :
  exists d2 d3, syncBootSlotToBootPartition board "3" d2 = (Ok (), d3) /\
    synced "3" d2 (snd (FileBasedBootEnv_WriteEnv board (install_vars "3" "3") with_boot)).
Proof.
  destruct (flag_follows_sync board (install_vars "3" "3") "3" with_boot (Ok ())
    (snd (FileBasedBootEnv_WriteEnv board (install_vars "3" "3") with_boot))) as (d1 & d2 & d3 & d4 & _ & _ & H3 & _ & _ & H6).
  - exact board_wf.
  - exact (coherent_install 3 (proj1 partB_no)).
  - reflexivity.
  - vm_compute. reflexivity.
  - vm_compute. discriminate.
  - exists d2, d3. split; [exact H3|exact H6].
Defined.

Lemma write_then_read_witness :
  exists read0 read1, ReadEnv board ["mender_boot_part"] with_boot = (Ok read0, with_boot) /\
    ReadEnv board ["mender_boot_part"] (snd (WriteEnv board (install_vars "3" "3") with_boot)) =
      (Ok read1, snd (WriteEnv board (install_vars "3" "3") with_boot)) /\
    read1 !! "mender_boot_part" = Some "3".
Proof.
  apply (write_then_read board (install_vars "3" "3") ["mender_boot_part"] with_boot _ "mender_boot_part").
  - exact board_wf.
  - exact (coherent_install 3 (proj1 partB_no)).
  - vm_compute. reflexivity.
  - left. reflexivity.
  - do 2 right. left. reflexivity.
Defined.

(** Partition 3 runs, the record says 2. *)
Definition stale : SimOs := {|
  sim_files := <["/proc/self/mounts" := "/dev/mmcblk0p3 / ext4 rw 0 0" +:+ newline]>
    {[DefaultMenderBootPartFile := "2" +:+ newline]};
  sim_devices := ∅; sim_links := ∅; sim_writes := []; sim_run := ∅
|}.

Lemma reconcile_follows_the_boot_witness :
  file_var board (snd (ReconcileToBootedSlot board stale)) "mender_boot_part" = Some "3" /\
  readFile_value DefaultSlotFile EmptyString (snd (ReconcileToBootedSlot board stale)) = "b".
Proof.
  destruct (reconcile_follows_the_boot board stale (snd (ReconcileToBootedSlot board stale)) (Ok ()))
    as (_ & _ & Hs).
  - exact board_wf.
  - vm_compute. reflexivity.
  - destruct (Hs "3" (snd (writeFile DefaultMenderBootPartFile "3" stale))
      (snd (writeFile DefaultSlotFile "b" (snd (writeFile DefaultMenderBootPartFile "3" stale))))) as (Hp & Hslot & _).
    + vm_compute. discriminate.
    + split; [discriminate|reflexivity].
    + vm_compute. discriminate.
    + vm_compute. reflexivity.
    + vm_compute. reflexivity.
    + vm_compute. reflexivity.
    + vm_compute. reflexivity.
    + split; [exact Hp|exact Hslot].
Defined.
