(* ===== verification/UBootEnv.v ===== *)
(** * UBootEnv: the boot environment of U-Boot

    [UBootEnv] of installer/bootenv.go: the variables are read and written by
    the boot loader's tools (fw_printenv, fw_setenv and the like), child
    processes whose documented behaviour is the class [FwTools].  With it the
    implementation keeps the contract [BootEnvLaws].

    At the end are concrete tools that keep their variables in a map.

    A scanner gives up on lines of more than 64 KiB; no variable is that long. *)

From S2P Require Import Prelude Text Os BootEnv.
From Stdlib Require Import Ascii.

Open Scope Z_scope.

Definition menderUBootSeparatorProbe : string := "mender_uboot_separator".
Definition uBootEnvStandardSeparator : string := "=".
Definition uBootEnvLegacySeparator : string := " ".

(** [root]: the process has the privileges of root, which only matters for the
    texts of errors. *)
Record UBootEnv := { setCommand : list string; getCommand : list string; root : bool }.

Definition NewEnvironment (root : bool) (setCmd getCmd : string) : UBootEnv := {|
  setCommand :=
    if bool_decide (setCmd = EmptyString)
    then ["grub-mender-grubenv-set"; "systemd-boot-setenv"; "fw_setenv"] else [setCmd];
  getCommand :=
    if bool_decide (getCmd = EmptyString)
    then ["grub-mender-grubenv-print"; "systemd-boot-printenv"; "fw_printenv"] else [getCmd];
  root := root
|}.

(** ** Texts of variables *)

(** The loop over the lines of the output. *)
Fixpoint parse_lines (lines : list string) (env_variables : BootVars) : result BootVars :=
  match lines with
  | [] => Ok env_variables
  | line :: lines =>
      let line := dropCR line in
      if bool_decide (line = EmptyString) then parse_lines lines env_variables
      else
        match Split line "=" with
        | [k; v] => parse_lines lines (<[k := v]> env_variables)
        | _ => Err (EText "Invalid bootloader variable or error: ")
        end
  end.

Definition parse_env (output : string) : result BootVars :=
  parse_lines (Split output newline_char) ∅.

(** The lines written to the tool. *)
Definition render (separator : string) (vars : list (string * string)) : string :=
  foldr (fun kv text => kv.1 +:+ separator +:+ kv.2 +:+ newline +:+ text) EmptyString vars.

Section ops.
Context `{Os D}.

(** The first of the executables that is found. *)
Fixpoint run_first (mk : string -> Cmd) (executables : list string) (failed : error -> error)
    (notFound : error) : IO D string :=
  match executables with
  | [] => fail notFound
  | executable :: rest =>
      r ← try (RunCmd (mk executable));
      match r with
      | Ok output => mret output
      | Err err => if error_Is err ErrNotFound then run_first mk rest failed notFound else fail (failed err)
      end
  end.

Definition getEnvironmentVariable (e : UBootEnv) (args : list string) : IO D BootVars :=
  output ← run_first (fun executable => Command executable args) (getCommand e) id
    (EWrap "Command to read boot environment not found." ErrNotFound);
  asks (fun _ => parse_env output).

Definition requires_root {A} (e : UBootEnv) (m : IO D A) : IO D A :=
  if root e then m else wrap "requires root privileges" m.

Definition writeEnvImpl (e : UBootEnv) (vars : BootVars) (separator : string) : IO D unit :=
  let input := render separator (map_to_list vars) in
  _ ← run_first (fun executable => mkCmd executable ["-s"; "-"] [] input) (setCommand e)
        (fun err => if root e then err else EWrap "requires root privileges" err)
        (EWrap "Command to write boot environment not found." ErrNotFound);
  mret ().

Definition canary_error : error :=
  EWrap "Failed mender_saveenv_canary check." (EText "mender_saveenv_canary variable could not be parsed").

Definition checkEnvCanary (e : UBootEnv) : IO D unit :=
  r ← try (getEnvironmentVariable e ["mender_check_saveenv_canary"]);
  match r with
  | Err _ => mret ()
  | Ok vars =>
      if bool_decide (vars !! "mender_check_saveenv_canary" = Some "1") then
        vars ← wrap "Failed mender_saveenv_canary check." (getEnvironmentVariable e ["mender_saveenv_canary"]);
        if bool_decide (vars !! "mender_saveenv_canary" = Some "1") then mret () else fail canary_error
      else mret ()
  end.

Definition UBootEnv_ReadEnv (e : UBootEnv) (names : list string) : IO D BootVars :=
  _ ← requires_root e (checkEnvCanary e);
  requires_root e (getEnvironmentVariable e names).

Definition probeSeparator (e : UBootEnv) : IO D string :=
  _ ← writeEnvImpl e {[menderUBootSeparatorProbe := "1"]} uBootEnvLegacySeparator;
  v ← UBootEnv_ReadEnv e [menderUBootSeparatorProbe];
  if bool_decide (v !! menderUBootSeparatorProbe = Some "1") then
    _ ← writeEnvImpl e {[menderUBootSeparatorProbe := EmptyString]} uBootEnvLegacySeparator;
    mret uBootEnvLegacySeparator
  else mret uBootEnvStandardSeparator.

Definition UBootEnv_WriteEnv (e : UBootEnv) (vars : BootVars) : IO D unit :=
  _ ← checkEnvCanary e;
  separator ← probeSeparator e;
  writeEnvImpl e vars separator.

#[export] Instance UBoot_BootEnvReadWriter : BootEnvReadWriter UBootEnv D := {
  ReadEnv := UBootEnv_ReadEnv;
  WriteEnv := UBootEnv_WriteEnv;
  ReconcileToBootedSlot' _ := None;
  ClearDirectBootBackup' _ := None
}.

End ops.

(** ** Reading what a tool prints *)

(** Texts that can be names and values of variables. *)
Definition plain (s : string) : Prop :=
  no_char newline_char s = true /\ no_char (ascii_of_nat 13) s = true /\ no_char "=" s = true.

Lemma parse_render l : Forall (fun kv => plain kv.1 /\ plain kv.2) l -> forall acc,
  parse_lines (Split (render "=" l) newline_char) acc = Ok (foldl (fun m kv => <[kv.1 := kv.2]> m) acc l).
Proof.
  induction 1 as [|[k v] l [Hk Hv] Hl IH]; intros acc; [done|].
  destruct Hk as (Hk1 & Hk2 & Hk3), Hv as (Hv1 & Hv2 & Hv3). cbn [fst snd] in *.
  assert (render "=" ((k, v) :: l) = (k +:+ "=" +:+ v) +:+ String newline_char (render "=" l)) as ->.
  { cbn [render foldr fst snd]. by rewrite !app_assoc_str. }
  rewrite Split_app by (by rewrite !no_char_app, Hk1, Hv1). cbn [parse_lines].
  assert (dropCR (k +:+ "=" +:+ v) = k +:+ "=" +:+ v) as ->.
  { apply dropCR_none. change (no_char (ascii_of_nat 13) (k +:+ "=" +:+ v) = true).
    by rewrite !no_char_app, Hk2, Hv2. }
  rewrite bool_decide_false by (by destruct k).
  change (k +:+ "=" +:+ v) with (k +:+ String "=" v). rewrite Split_app by done.
  rewrite Split_none by done. apply IH.
Qed.

(** ** The tools *)

(** The environment the tools work on, and whether they take a space between
    the name and the value (and not an equals sign). *)
Class FwEnv (D : Type) := { uvars : D -> BootVars; legacy : bool }.

Definition separator_of (is_legacy : bool) : string :=
  if is_legacy then uBootEnvLegacySeparator else uBootEnvStandardSeparator.

(** An empty value deletes the variable. *)
Definition set_var (vars u : BootVars) (k : string) : option string :=
  match vars !! k with
  | Some v => if bool_decide (v = EmptyString) then None else Some v
  | None => u !! k
  end.

(** The variables are words; the values may be empty. *)
Definition tool_vars (vars : BootVars) : Prop :=
  map_Forall (fun k v => word k /\ (v = EmptyString \/ word v)) vars.

(** What is documented of fw_printenv and fw_setenv: one prints the lines of the
    variables it is asked for; the other, with [-s -], applies all lines of its
    input or none, ignores lines in the other syntax, and the tools that take an
    equals sign have never stored the probe. *)
Record tools_ok `{Os D} `{!FwEnv D} (e : UBootEnv) : Prop := {
  print_frame x names d r d' : In x (getCommand e) -> RunCmd (Command x names) d = (r, d') ->
    uvars d' = uvars d;
  print_lines x names d out d' : In x (getCommand e) -> RunCmd (Command x names) d = (Ok out, d') ->
    exists l, out = render "=" l /\ Forall (fun kv => plain kv.1 /\ plain kv.2) l /\
      forall k, In k names -> foldl (fun m kv => <[kv.1 := kv.2]> m) (∅ : BootVars) l !! k = uvars d !! k;
  set_err x vars sep d err d' : In x (setCommand e) -> tool_vars vars ->
    RunCmd (mkCmd x ["-s"; "-"] [] (render sep (map_to_list vars))) d = (Err err, d') -> uvars d' = uvars d;
  set_ok x vars d out d' k : In x (setCommand e) -> tool_vars vars ->
    RunCmd (mkCmd x ["-s"; "-"] [] (render (separator_of legacy) (map_to_list vars))) d = (Ok out, d') ->
    uvars d' !! k = set_var vars (uvars d) k;
  set_other x vars d out d' : In x (setCommand e) -> tool_vars vars ->
    RunCmd (mkCmd x ["-s"; "-"] [] (render (separator_of (negb legacy)) (map_to_list vars))) d = (Ok out, d') ->
    uvars d' = uvars d;
  no_probe d : legacy = false -> uvars d !! menderUBootSeparatorProbe <> Some "1"
}.

Section tools.
Context `{Os D} `{!FwEnv D} (e : UBootEnv) (Ht : tools_ok e).

(** The executables that are not found change nothing; then one runs. *)
Lemma run_first_inv mk failed nf (R : D -> D -> Prop) `{!PreOrder R} l d r d' :
  (forall x, In x l -> forall d err d', RunCmd (mk x) d = (Err err, d') -> R d d') ->
  run_first mk l failed nf d = (r, d') ->
  (exists err, r = Err err /\ R d d') \/
  exists x d1 out, In x l /\ R d d1 /\ RunCmd (mk x) d1 = (Ok out, d') /\ r = Ok out.
Proof.
  revert d. induction l as [|x l IH]; intros d Hl; cbn [run_first].
  { intros [= <- <-]. left. eexists. by split. }
  unfold mbind, IO_bind, try. destruct (RunCmd (mk x) d) as [[out|err] d1] eqn:Ex.
  - intros [= <- <-]. right. exists x, d, out. split; [by left|]. split; [reflexivity|done].
  - assert (R d d1) as Hd by (eapply Hl, Ex; by left).
    destruct (error_Is err ErrNotFound); [|intros [= <- <-]; left; eauto].
    intros Hr. destruct (IH d1) as [(err' & -> & Hr1)|(y & d2 & out & Hy & Hr1 & Hrun & ->)].
    + intros y Hy. apply Hl. by right.
    + done.
    + left. exists err'. split; [done|]. by transitivity d1.
    + right. exists y, d2, out. split; [by right|]. split; [by transitivity d1|done].
Qed.

Definition same_uvars (d d' : D) : Prop := uvars d' = uvars d.

#[local] Instance same_uvars_preorder : PreOrder same_uvars.
Proof. split; [by intros d|]. intros a b c Hab Hbc. unfold same_uvars in *. congruence. Qed.

Lemma get_spec names d r d' : getEnvironmentVariable e names d = (r, d') ->
  same_uvars d d' /\ forall vars k, r = Ok vars -> In k names -> vars !! k = uvars d !! k.
Proof.
  unfold getEnvironmentVariable, mbind, IO_bind. destruct (run_first _ _ _ _ d) as [r0 d1] eqn:Er.
  apply (run_first_inv _ _ _ same_uvars) in Er; [|by intros x Hx d0 err d2 Hrun; eapply print_frame].
  destruct Er as [(err & -> & Hs)|(x & d2 & out & Hx & Hs & Hrun & ->)].
  { intros [= <- <-]. by split. }
  unfold asks. intros [= <- <-]. split.
  - transitivity d2; [done|]. by eapply print_frame.
  - intros vars k Hp Hk. destruct (print_lines e Ht _ _ _ _ _ Hx Hrun) as (l & -> & Hl & Hlook).
    unfold parse_env in Hp. rewrite (parse_render l Hl) in Hp. injection Hp as <-.
    by rewrite (Hlook k Hk), Hs.
Qed.

Lemma same_requires_root {A} (m : IO D A) : steps same_uvars m -> steps same_uvars (requires_root e m).
Proof. intros Hm. unfold requires_root. destruct (root e); [done|by apply steps_wrap]. Qed.

Lemma requires_root_ok {A} (m : IO D A) d a d' : requires_root e m d = (Ok a, d') -> m d = (Ok a, d').
Proof. unfold requires_root. destruct (root e); [done|apply wrap_ok]. Qed.

Lemma same_get names : steps same_uvars (getEnvironmentVariable e names).
Proof. intros d r d' Hr. by apply get_spec in Hr as [? _]. Qed.

Lemma same_canary : steps same_uvars (checkEnvCanary e).
Proof. unfold checkEnvCanary. io_steps; apply same_get. Qed.

Lemma same_ReadEnv names : steps same_uvars (UBootEnv_ReadEnv e names).
Proof.
  unfold UBootEnv_ReadEnv. io_steps; apply same_requires_root; [apply same_canary|apply same_get].
Qed.

Lemma ReadEnv_uvars names d vars d' k : UBootEnv_ReadEnv e names d = (Ok vars, d') -> In k names ->
  vars !! k = uvars d !! k.
Proof.
  intros ([] & d1 & Hc%requires_root_ok & Hg%requires_root_ok)%bind_ok Hk.
  apply same_canary in Hc. rewrite <- Hc. by apply (proj2 (get_spec _ _ _ _ Hg)).
Qed.

(** A write in the syntax of the tools, and one in the other. *)
Lemma write_own vars d d' k : tool_vars vars -> writeEnvImpl e vars (separator_of legacy) d = (Ok (), d') ->
  uvars d' !! k = set_var vars (uvars d) k.
Proof.
  intros Hv (out & d1 & Hr & [= <-])%bind_ok.
  apply (run_first_inv _ _ _ same_uvars) in Hr; [|by intros x Hx d0 err d2 Hrun; eapply set_err].
  destruct Hr as [(err & Hx & _)|(x & d2 & out' & Hx & Hs & Hrun & _)]; [done|].
  rewrite (set_ok e Ht _ _ _ _ _ k Hx Hv Hrun). by rewrite Hs.
Qed.

Lemma write_other vars d d' : tool_vars vars -> writeEnvImpl e vars (separator_of (negb legacy)) d = (Ok (), d') ->
  uvars d' = uvars d.
Proof.
  intros Hv (out & d1 & Hr & [= <-])%bind_ok.
  apply (run_first_inv _ _ _ same_uvars) in Hr; [|by intros x Hx d0 err d2 Hrun; eapply set_err].
  destruct Hr as [(err & Hx & _)|(x & d2 & out' & Hx & Hs & Hrun & _)]; [done|].
  rewrite (set_other e Ht _ _ _ _ _ Hx Hv Hrun). exact Hs.
Qed.

Lemma probe_vars v : v = EmptyString \/ word v -> tool_vars {[menderUBootSeparatorProbe := v]}.
Proof. intros Hv. apply (proj2 (map_Forall_singleton _ _ _)). split; [by split|done]. Qed.

(** The probe finds the syntax of the tools and leaves the other variables. *)
Lemma probe_spec d sep d' : probeSeparator e d = (Ok sep, d') ->
  sep = separator_of legacy /\ forall k, k <> menderUBootSeparatorProbe -> uvars d' !! k = uvars d !! k.
Proof.
  intros ([] & d1 & Hw & Hr)%bind_ok. apply bind_ok in Hr as (v & d2 & Hread & Hr).
  assert (v !! menderUBootSeparatorProbe = uvars d1 !! menderUBootSeparatorProbe) as Hv
    by (apply (ReadEnv_uvars _ _ _ _ _ Hread); by left).
  apply same_ReadEnv in Hread. destruct legacy eqn:El.
  - assert (forall k, uvars d1 !! k = set_var {[menderUBootSeparatorProbe := "1"]} (uvars d) k) as Hw1.
    { intros k. apply write_own; [apply probe_vars; right; by split|]. by rewrite El. }
    rewrite Hv, Hw1 in Hr. cbn in Hr. rewrite bool_decide_true in Hr by done.
    apply bind_ok in Hr as ([] & d3 & Hw' & [= <- <-]). split; [done|]. intros k Hk.
    assert (uvars d3 !! k = set_var {[menderUBootSeparatorProbe := EmptyString]} (uvars d2) k) as ->.
    { apply write_own; [apply probe_vars; by left|]. by rewrite El. }
    unfold set_var. rewrite lookup_singleton_ne by done. rewrite Hread, Hw1.
    unfold set_var. by rewrite lookup_singleton_ne by done.
  - assert (uvars d1 = uvars d) as Hw1 
      by (apply (write_other {[menderUBootSeparatorProbe := "1"]});
          [apply probe_vars; right; by split|by rewrite El]).
    rewrite Hv, bool_decide_false in Hr by exact (no_probe e Ht d1 El). injection Hr as <- <-.
    split; [done|]. intros k _. by rewrite Hread, Hw1.
Qed.

Lemma WriteEnv_uvars vars d d' k : tool_vars vars -> UBootEnv_WriteEnv e vars d = (Ok (), d') ->
  k <> menderUBootSeparatorProbe -> uvars d' !! k = set_var vars (uvars d) k.
Proof.
  intros Hv ([] & d1 & Hc & Hr)%bind_ok Hk. apply bind_ok in Hr as (sep & d2 & Hp & Hw).
  apply probe_spec in Hp as [-> Hp]. rewrite (write_own _ _ _ k Hv Hw).
  apply same_canary in Hc. unfold set_var. case_match; [done|]. by rewrite Hp, Hc.
Qed.

(** A successful write of U-Boot's environment has found out which syntax
    the tools take, and changes exactly the variables it was given (an empty
    value deletes) apart from the probe. *)
Theorem UBootEnv_WriteEnv_spec vars d d' : tool_vars vars -> UBootEnv_WriteEnv e vars d = (Ok (), d') ->
  forall k, k <> menderUBootSeparatorProbe -> uvars d' !! k = set_var vars (uvars d) k.
Proof. intros Hv Hr k Hk. by apply WriteEnv_uvars. Qed.

End tools.

(** U-Boot's environment keeps the contract of the interface. *)
#[export] Instance UBoot_BootEnvLaws `{Os D} `{!FwEnv D} : BootEnvLaws UBootEnv D.
Proof.
  refine {| valid := tools_ok; env_var e d k := uvars d !! k |}.
  - intros e names d vars d' k Ht Hr Hk. exact (ReadEnv_uvars e Ht names d vars d' k Hr Hk).
  - intros e names d r d' k Ht Hr. pose proof (same_ReadEnv e Ht names d r d' Hr) as Hs. unfold same_uvars in Hs. by rewrite Hs.
  - intros e vars d d' k Ht [Hwords _] Hr Hk.
    assert (tool_vars vars) as Hv.
    { intros i v Hi. destruct (Hwords i v Hi) as [Hw Hin]. split; [|by right].
      by repeat destruct Hin as [<-|Hin]. }
    rewrite (WriteEnv_uvars e Ht vars d d' k Hv Hr).
    + unfold set_var. destruct (vars !! k) as [v|] eqn:Ev; [|done].
      destruct (Hwords k v Ev) as [[Hne _] _]. by rewrite bool_decide_false.
    + destruct Hk as [<-|[<-|[<-|[]]]]; discriminate.
  - by intros e m d r d' k _ [=].
  - by intros e m d r d' k _ [=].
Defined.

(** ** Concrete tools *)

(** The device is the tools' storage. *)
Definition storage : Type := gmap string string.

(** Only plain lines are variables. *)
Definition plain_entry (kv : string * string) : Prop := plain kv.1 /\ plain kv.2.

#[export] Instance plain_entry_dec kv : Decision (plain_entry kv).
Proof. unfold plain_entry, plain. apply _. Defined.

Definition visible (d : storage) : BootVars := filter plain_entry (d : gmap string string).

Definition print_vars (names : list string) (d : storage) : string :=
  render "=" (omap (fun k => pair k <$> visible d !! k) names).

(** A line [name value]; an empty value deletes. *)
Definition set_line (d : storage) (line : string) : storage :=
  match Split line " " with
  | [k; v] => if bool_decide (v = EmptyString) then delete k (d : gmap string string) else <[k := v]> (d : gmap string string)
  | _ => d
  end.

Definition run_tool (c : Cmd) (d : storage) : result string * storage :=
  if bool_decide (cmd_name c = "fw_printenv") then (Ok (print_vars (cmd_args c) d), d)
  else if bool_decide (cmd_name c = "fw_setenv")
  then (Ok EmptyString, foldl set_line d (Split (cmd_stdin c) newline_char))
  else (Err ErrNotFound, d).

#[export] Instance storage_Os : Os storage := {
  ReadFile _ _ := Err ErrNotExist;
  Stat _ _ := Err ErrNotExist;
  EvalSymlinks p _ := Ok p;
  Readdirnames _ _ := Ok [];
  LookPath _ _ := Err ErrNotExist;
  WriteFile _ _ d := (Err ErrNotExist, d);
  MkdirAll _ d := (Ok (), d);
  RemoveFile _ d := (Ok (), d);
  RunCmd := run_tool
}.

#[export] Instance storage_FwEnv : FwEnv storage := { uvars := visible; legacy := true }.

Definition tools : UBootEnv := NewEnvironment true "fw_setenv" "fw_printenv".

Lemma word_plain s : word s -> plain s.
Proof.
  intros [_ Hs]. repeat split; (eapply all_str_impl; [|exact Hs]); intros c [Hc He]%andb_true_iff;
    apply negb_true_iff in Hc; apply negb_true_iff; [| |by apply negb_true_iff in He];
    apply bool_decide_eq_false_2; intros ->; by vm_compute in Hc.
Qed.

Lemma word_no_blank s : word s -> no_char " " s = true.
Proof.
  intros [_ Hs]. eapply all_str_impl; [|exact Hs]. intros c [Hc _]%andb_true_iff.
  apply negb_true_iff in Hc. apply negb_true_iff, bool_decide_eq_false_2. intros ->. by vm_compute in Hc.
Qed.

Definition word_entry (kv : string * string) : Prop := word kv.1 /\ (kv.2 = EmptyString \/ word kv.2).

Lemma tool_vars_list vars : tool_vars vars -> Forall word_entry (map_to_list vars).
Proof.
  intros Hv. apply Forall_forall. intros [k v] Hin. apply elem_of_map_to_list in Hin. by apply Hv.
Qed.

(** The value of an entry is a line without a blank. *)
Lemma entry_value v : v = EmptyString \/ word v -> no_char newline_char v = true /\ no_char " " v = true.
Proof. intros [->|Hv]; [done|]. split; [apply (word_plain v Hv)|by apply word_no_blank]. Qed.

(** The first line of a text of entries. *)
Lemma split_entry sep k v l : word k -> v = EmptyString \/ word v -> no_char newline_char sep = true ->
  Split (render sep ((k, v) :: l)) newline_char = (k +:+ sep +:+ v) :: Split (render sep l) newline_char.
Proof.
  intros Hk Hv Hsep. destruct (entry_value v Hv) as [Hn _].
  assert (render sep ((k, v) :: l) = (k +:+ sep +:+ v) +:+ String newline_char (render sep l)) as ->.
  { cbn [render foldr fst snd]. by rewrite !app_assoc_str. }
  apply Split_app. rewrite !no_char_app, Hn, Hsep. by rewrite (proj1 (word_plain k Hk)).
Qed.

(** Lines in the other syntax are ignored. *)
Lemma other_ignored l : Forall word_entry l -> forall d,
  foldl set_line d (Split (render "=" l) newline_char) = d.
Proof.
  induction 1 as [|[k v] l [Hk Hv] Hl IH]; intros d; [reflexivity|]. cbn [fst snd] in *.
  rewrite split_entry by done. cbn [foldl]. rewrite IH. unfold set_line.
  rewrite Split_none; [done|]. rewrite !no_char_app, (word_no_blank k Hk). by destruct (entry_value v Hv) as [_ ->].
Qed.

Definition set_entry (d : storage) (kv : string * string) : storage :=
  if bool_decide (kv.2 = EmptyString) then delete kv.1 (d : gmap string string) else <[kv.1 := kv.2]> (d : gmap string string).

Lemma set_rendered l : Forall word_entry l -> forall d,
  foldl set_line d (Split (render " " l) newline_char) = foldl set_entry d l.
Proof.
  induction 1 as [|[k v] l [Hk Hv] Hl IH]; intros d; [reflexivity|]. cbn [fst snd] in *.
  rewrite split_entry by done. cbn [foldl]. rewrite IH. f_equal. unfold set_line, set_entry. cbn [fst snd].
  change (k +:+ " " +:+ v) with (k +:+ String " " v).
  rewrite Split_app by by apply word_no_blank. by rewrite Split_none by by apply entry_value.
Qed.

Lemma set_entries_lookup l k : NoDup l.*1 -> forall d : storage,
  foldl set_entry d l !! k =
    match (list_to_map l : gmap string string) !! k with
    | Some v => if bool_decide (v = EmptyString) then None else Some v
    | None => (d : gmap string string) !! k
    end.
Proof.
  induction l as [|[x v] l IH]; intros Hnd d; [reflexivity|]. cbn [fmap list_fmap fst] in Hnd.
  apply NoDup_cons in Hnd as [Hx Hnd]. cbn [foldl]. rewrite IH by done. rewrite list_to_map_cons.
  unfold set_entry. cbn [fst snd]. destruct (decide (x = k)) as [->|Hne].
  - rewrite lookup_insert_eq. rewrite not_elem_of_list_to_map_1 by done.
    case_bool_decide; [by rewrite lookup_delete_eq|by rewrite lookup_insert_eq].
  - rewrite lookup_insert_ne by done. destruct (list_to_map l !! k); [done|].
    case_bool_decide; [by rewrite lookup_delete_ne|by rewrite lookup_insert_ne].
Qed.

Lemma lookup_visible (d : storage) k :
  visible d !! k = match (d : gmap string string) !! k with
                   | Some v => if decide (plain_entry (k, v)) then Some v else None
                   | None => None
                   end.
Proof.
  unfold visible. rewrite map_lookup_filter. destruct ((d : gmap string string) !! k) as [v|]; [|done].
  cbn. by repeat (case_guard || case_decide).
Qed.

Lemma printed_lines names (d : storage) k : In k names ->
  foldl (fun m kv => <[kv.1 := kv.2]> m) (∅ : BootVars) (omap (fun k => pair k <$> visible d !! k) names) !! k
  = visible d !! k.
Proof.
  assert (forall m : BootVars, (m !! k = None \/ m !! k = visible d !! k) -> In k names \/ m !! k = visible d !! k ->
    foldl (fun m kv => <[kv.1 := kv.2]> m) m (omap (fun k => pair k <$> visible d !! k) names) !! k = visible d !! k) as Hall.
  { induction names as [|x names IH]; intros m Hm Hin.
    - destruct Hin as [[]|Hin]. exact Hin.
    - change (omap ?g (x :: names)) with (match g x with Some y => y :: omap g names | None => omap g names end).
      cbn beta. destruct (decide (x = k)) as [->|Hne].
      + assert (m !! k = visible d !! k \/ is_Some (visible d !! k)) as Hk.
        { destruct Hm as [Hm|Hm]; [|by left]. destruct (visible d !! k); [by right|by left]. }
        destruct (visible d !! k) as [v|] eqn:Ex; cbn [fmap option_fmap option_map foldl fst snd].
        * apply IH; right; by rewrite lookup_insert_eq.
        * destruct Hk as [Hk|[? [=]]]. apply IH; by right.
      + assert (In k names \/ m !! k = visible d !! k) as Hin' by (destruct Hin as [[?|?]|?]; auto; done).
        destruct (visible d !! x) as [v|]; cbn [fmap option_fmap option_map foldl fst snd]; [|by apply IH].
        apply IH; by rewrite lookup_insert_ne. }
  intros Hk. apply Hall; [by left|by left].
Qed.

Lemma tools_are_ok : tools_ok tools.
Proof.
  split.
  - intros x names d r d' [<-|[]] [= <- <-]. reflexivity.
  - intros x names d out d' [<-|[]] [= <- <-]. eexists. split; [reflexivity|]. split.
    + apply Forall_forall. intros [k v] Hin. apply list_elem_of_omap in Hin as (x & _ & Hx).
      destruct (visible d !! x) as [w|] eqn:Ew; [|done]. injection Hx as <- <-.
      rewrite lookup_visible in Ew. destruct ((d : gmap string string) !! x) as [w'|]; [|done].
      destruct (decide (plain_entry (x, w'))) as [Hp|]; [|done]. injection Ew as ->. exact Hp.
    + intros k Hk. by apply printed_lines.
  - intros x vars sep d err d' [<-|[]] _ [=].
  - intros x vars d out d' k [<-|[]] Hv [= <- <-]. cbn [uvars storage_FwEnv].
    change (cmd_stdin _) with (render " " (map_to_list vars)).
    rewrite set_rendered by by apply tool_vars_list.
    rewrite !lookup_visible. rewrite set_entries_lookup by apply NoDup_fst_map_to_list.
    rewrite list_to_map_to_list. unfold set_var. destruct (vars !! k) as [v|] eqn:Ev; [|by rewrite lookup_visible].
    case_bool_decide; [done|]. rewrite decide_True; [done|].
    destruct (Hv k v Ev) as [Hk Hw]. split; [by apply word_plain|]. destruct Hw as [->|Hw]; [done|by apply word_plain].
  - intros x vars d out d' [<-|[]] Hv [= <- <-]. cbn [uvars storage_FwEnv].
    change (cmd_stdin _) with (render "=" (map_to_list vars)).
    by rewrite other_ignored by by apply tool_vars_list.
  - discriminate.
Qed.

Definition written : storage := snd (UBootEnv_WriteEnv tools {["upgrade_available" := "1"]} (∅ : storage)).

Lemma UBootEnv_WriteEnv_spec_witness : visible written !! "upgrade_available" = Some "1".
Proof.
  refine (UBootEnv_WriteEnv_spec tools tools_are_ok {["upgrade_available" := "1"]} (∅ : storage) written _ _
    "upgrade_available" _).
  - apply (proj2 (map_Forall_singleton _ _ _)). split; [|right]; by split.
  - vm_compute. reflexivity.
  - discriminate.
Defined.
