(* ===== verification/Manifest.v ===== *)
(** * Manifest: files the device describes itself with

    Reading one value of a manifest file (device/device.go), and loading the
    keys artifacts are verified with (conf/config.go). *)

From S2P Require Import Prelude Text Os.
From Stdlib Require Import Ascii.

(** [bufio.ScanLines] without the length limit: a last line without a newline counts when it is not empty. *)
Fixpoint scan_from (cur s : string) : list string :=
  match s with
  | EmptyString => if bool_decide (cur = EmptyString) then [] else [dropCR cur]
  | String x s =>
      if bool_decide (x = newline_char) then dropCR cur :: scan_from EmptyString s
      else scan_from (cur +:+ String x EmptyString) s
  end.

Definition ScanLines (s : string) : list string := scan_from EmptyString s.

(** [strings.SplitN(s, c, 2)] when there are two parts. *)
Fixpoint cut (c : ascii) (s : string) : option (string * string) :=
  match s with
  | EmptyString => None
  | String x s =>
      if bool_decide (x = c) then Some (EmptyString, s)
      else match cut c s with
           | Some (a, b) => Some (String x a, b)
           | None => None
           end
  end.

Definition errBrokenManifest : error := EText "Broken device manifest file".
Definition errMoreThanOne (dataType : string) : error :=
  EText ("More than one instance of " +:+ dataType +:+ " found in manifest file").

(** The loop over the lines. *)
Fixpoint manifest_lines (dataType : string) (lines : list string) (found : option string) :
    result string :=
  match lines with
  | [] => Ok (default EmptyString found)
  | line :: lines =>
      let line := TrimSpace line in
      if HasPrefix line "#" then manifest_lines dataType lines found
      else
        match cut "=" line with
        | None => Err errBrokenManifest
        | Some (k, v) =>
            if bool_decide (k = dataType) then
              match found with
              | Some _ => Err (errMoreThanOne dataType)
              | None => manifest_lines dataType lines (Some (TrimSpace v))
              end
            else manifest_lines dataType lines found
        end
  end.

Section manifest.
Context `{Os D}.

Definition GetManifestData (dataType manifestFile : string) : IO D string :=
  text ← asks (ReadFile manifestFile);
  asks (fun _ => manifest_lines dataType (ScanLines text) None).

(** The contents of the keys, in order. *)
Fixpoint read_keys (paths : list string) : IO D (list (string * string)) :=
  match paths with
  | [] => mret []
  | p :: paths =>
      key ← wrap "config: error reading configured artifact verify key" (asks (ReadFile p));
      out ← read_keys paths;
      mret ((p, key) :: out)
  end.

Definition GetVerificationKeys (ArtifactVerifyKeys : list string)
    (RequireArtifactVerification : bool) : IO D (list (string * string)) :=
  if bool_decide (ArtifactVerifyKeys = []) then
    if RequireArtifactVerification then
      fail (EText "config: RequireArtifactVerification is set but no keys are configured")
    else mret []
  else read_keys ArtifactVerifyKeys.

End manifest.

Example comments_and_spaces :
  manifest_lines "artifact_name" (ScanLines ("# a=b" +:+ newline +:+ " artifact_name= r=1 " +:+ newline)) None =
  Ok "r=1".
Proof. reflexivity. Qed.

(** A blank line is not a line with a value: the whole file is refused. *)
Example blank_line :
  manifest_lines "artifact_name" (ScanLines ("artifact_name=r1" +:+ newline +:+ newline)) None =
  Err errBrokenManifest.
Proof. reflexivity. Qed.
