(* ===== verification/Standalone.v ===== *)
(** * Standalone: installing from the command line

    The commands install, commit and rollback of app/standalone.go, which work
    without a server: the data of an artifact that waits for its commit is kept
    in the database (datastore/standalone_data.go).  Programs are those of
    [World]; the files of the device and the boot environment are read by
    programs of [Os], which touch the environment only ([env_op]). *)

From S2P Require Import Prelude Json Store StateData DataStore ControlMapPool.
From S2P Require Import States World Controller Text Os Manifest BootEnv DualRootfs.

Open Scope Z_scope.

(** ** The data of an artifact *)

(** Installers are known by their types, as in [World]. *)
Record standaloneData := mkStandalone {
  artifactName : string;
  artifactGroup : string;
  artifactTypeInfoProvides : option (gmap string string);
  artifactClearsProvides : option (list string);
  installers : list string
}.

Definition no_standaloneData : standaloneData := mkStandalone EmptyString EmptyString None None [].

Definition set_artifactName v sd := mkStandalone v (artifactGroup sd) (artifactTypeInfoProvides sd)
  (artifactClearsProvides sd) (installers sd).

(** [standaloneData.artifactName += conf.BrokenArtifactSuffix] *)
Definition mark_broken sd := set_artifactName (artifactName sd +:+ BrokenArtifactSuffix) sd.

Definition standalone_indices (sd : standaloneData) : list nat := seq 0 (length (installers sd)).

(** ** Its form in the database *)

Definition StandaloneStateDataVersion : Z := 1.

Module Saved.
Record StandaloneStateData := mkSaved {
  Version : Z;
  ArtifactName : string;
  ArtifactGroup : string;
  ArtifactTypeInfoProvides : option (gmap string string);
  ArtifactClearsProvides : option (list string);
  PayloadTypes : list string
}.

Definition no_StandaloneStateData : StandaloneStateData :=
  mkSaved 0 EmptyString EmptyString None None [].

Definition set_Version v s := mkSaved v (ArtifactName s) (ArtifactGroup s)
  (ArtifactTypeInfoProvides s) (ArtifactClearsProvides s) (PayloadTypes s).
Definition set_ArtifactName v s := mkSaved (Version s) v (ArtifactGroup s)
  (ArtifactTypeInfoProvides s) (ArtifactClearsProvides s) (PayloadTypes s).
Definition set_ArtifactGroup v s := mkSaved (Version s) (ArtifactName s) v
  (ArtifactTypeInfoProvides s) (ArtifactClearsProvides s) (PayloadTypes s).
Definition set_ArtifactTypeInfoProvides v s := mkSaved (Version s) (ArtifactName s)
  (ArtifactGroup s) v (ArtifactClearsProvides s) (PayloadTypes s).
Definition set_ArtifactClearsProvides v s := mkSaved (Version s) (ArtifactName s)
  (ArtifactGroup s) (ArtifactTypeInfoProvides s) v (PayloadTypes s).
Definition set_PayloadTypes v s := mkSaved (Version s) (ArtifactName s) (ArtifactGroup s)
  (ArtifactTypeInfoProvides s) (ArtifactClearsProvides s) v.

Definition fields : list (string * decoder StandaloneStateData) :=
  [("Version", on_field Version set_Version dec_int);
   ("ArtifactName", on_field ArtifactName set_ArtifactName dec_string);
   ("ArtifactGroup", on_field ArtifactGroup set_ArtifactGroup dec_string);
   ("ArtifactTypeInfoProvides",
      on_field ArtifactTypeInfoProvides set_ArtifactTypeInfoProvides dec_nilable_map);
   ("ArtifactClearsProvides",
      on_field ArtifactClearsProvides set_ArtifactClearsProvides dec_nilable_strings);
   ("PayloadTypes", on_field PayloadTypes set_PayloadTypes dec_strings)].

Definition encode (s : StandaloneStateData) : json :=
  JObj ([("Version", JNum (Version s)); ("ArtifactName", JStr (ArtifactName s));
         ("ArtifactGroup", JStr (ArtifactGroup s));
         ("ArtifactTypeInfoProvides", enc_nilable_map (ArtifactTypeInfoProvides s))] ++
        omitempty_strings "ArtifactClearsProvides" (ArtifactClearsProvides s) ++
        [("PayloadTypes", enc_strings (PayloadTypes s))]).

Definition marshal (s : StandaloneStateData) : string := marshal_text (encode s).
Definition unmarshal (data : string) : result StandaloneStateData :=
  StateData.unmarshal (dec_struct fields) no_StandaloneStateData data.
End Saved.

#[global] Arguments Saved.marshal : simpl never.
#[global] Arguments Saved.unmarshal : simpl never.

(** ** The rollback target *)

Record LstatMode := { is_regular : bool; executable : bool; is_symlink : bool }.

(** What the probe uses of ioutil and os. *)
Class ProbeOs (D : Type) := {
  TempDir : string -> IO D string;
  RemoveAll : string -> IO D unit;
  Lstat : string -> D -> result LstatMode
}.

Definition usable_init (r : result LstatMode) : bool :=
  match r with
  | Ok info => is_regular info && executable info || is_symlink info
  | Err _ => false
  end.

Section probe.
Context `{Os D} `{!ProbeOs D} `{!BootEnvReadWriter E D} (e : E).

Let P := IO (dualRootfsDeviceImpl D).

(** With the deferred calls: the partition is unmounted, then the directory
    removed. *)
Definition probe_partition (dev tmpDir : string) : IO D bool :=
  r ← try (RunCmd (Command "mount" ["-o"; "ro"; dev; tmpDir]));
  bootable ← match r with
             | Err _ => mret false
             | Ok _ =>
                 b ← gets (fun d => existsb (fun candidate =>
                            usable_init (Lstat (join_path tmpDir candidate) d))
                            ["sbin/init"; "init"; "bin/init"]);
                 _ ← try (RunCmd (Command "umount" [tmpDir]));
                 mret b
             end;
  _ ← try (RemoveAll tmpDir);
  mret bootable.

Definition inactivePartitionLooksBootable : P bool :=
  r ← try (GetInactive e);
  match r with
  | Err _ => mret true
  | Ok dev =>
      if bool_decide (dev = EmptyString) then mret true
      else
        t ← try (on_sys (TempDir "otapulse-rb-probe-"));
        match t with
        | Err _ => mret true
        | Ok tmpDir => on_sys (probe_partition dev tmpDir)
        end
  end.
End probe.

Definition ErrorNothingToCommit : error := EText "There is nothing to commit".
Definition ErrorManualRebootRequired : error := EText "Manual reboot required".
Definition errNoRollbackSupport : error := EText "No rollback support".
Definition errIncompatibleVersion : error := EText "Incompatible version stored in database.".
Definition errRollbackUndetermined : error := EText "Rollback support could not be determined".

(** What the commands use of the configuration; [DualRootfs] is the device's
    installer for two root file systems, with what it has found out so far. *)
Record DeviceConfig := {
  DeviceTypeFile : string;
  ArtifactVerifyKeys : list string;
  RequireArtifactVerification : bool;
  DeprecatedArtifactInfoFile : string;
  DualRootfs : option partitions
}.

Section standalone.
Context {DB D : Type} `{StoreLaws DB} `{Env D} `{Os D} `{!ProbeOs D}.
Context `{!BootEnvReadWriter E D} (e : E).
Variable device : DeviceConfig.
Variable matcher : list string -> list string -> result (list string).

Notation M := (M DB D).

(** A program of the operating system, run on the environment. *)
Definition env_op {A} (m : IO D A) : M (result A) := fun w =>
  let '(r, d) := m (w_env w) in
  (r, mkWorld (w_db w) d (w_ctx w) (w_pool w) (w_installers w) (w_state w) (w_log w)).

(** The same for one of the dual root file system. *)
Definition dual_op {A} (p : partitions) (m : IO (dualRootfsDeviceImpl D) A) : M (result A) :=
  env_op (fun d => let '(r, s) := m (mkDevice p d) in (r, sys s)).

(** ** Calls to the installers *)

Definition callErrorScript (state : string) : M () :=
  _ ← call (CExecuteAll state "Error" true None);
  mret ().

(** A loop that goes on after an error and returns the first one. *)
Fixpoint first_error (op : InstallerOp) (l : list nat) (firstErr : option error) :
    M (option error) :=
  match l with
  | [] => mret firstErr
  | n :: l =>
      err ← call (CInstaller n op);
      first_error op l (match firstErr with Some e => Some e | None => err end)
  end.

(** A loop that returns with the first error. *)
Definition until_error (op : InstallerOp) (l : list nat) : M (option error) :=
  World.for_each l (fun n => call (CInstaller n op)).

Fixpoint rollback_support (l : list nat) (support : string) : M (result bool) :=
  match l with
  | [] =>
      mret (if bool_decide (support = RollbackSupported) then Ok true
            else if bool_decide (support = RollbackNotSupported) then Ok false
            else Err errRollbackUndetermined)
  | n :: l =>
      s ← call (CSupportsRollback n);
      match (s : result bool) with
      | Err err => mret (Err err)
      | Ok s =>
          match SupportsRollback_Set (if s then RollbackSupported else RollbackNotSupported)
                  support with
          | Err err => mret (Err err)
          | Ok support => rollback_support l support
          end
      end
  end.

Definition determineRollbackSupport (installers : list string) : M (result bool) :=
  if bool_decide (installers = []) then mret (Ok false)
  else rollback_support (seq 0 (length installers)) RollbackSupportUnknown.

Fixpoint reboot_needed (l : list nat) : M (result bool) :=
  match l with
  | [] => mret (Ok false)
  | n :: l =>
      needed ← call (CNeedsReboot n);
      match (needed : result RebootAction) with
      | Err err => mret (Err err)
      | Ok NoReboot => reboot_needed l
      | Ok _ => mret (Ok true)
      end
  end.

Definition determineRebootNeeded (installers : list string) : M (result bool) :=
  reboot_needed (seq 0 (length installers)).

(** ** Cleaning up and failing *)

Definition cleanup_txn (sd : standaloneData) (txn : Txn) : () * option error * Txn :=
  match Remove StandaloneStateKey txn with
  | (Some err, txn) => ((), Some err, txn)
  | (None, txn) =>
      if bool_decide (artifactName sd = EmptyString) then ((), None, txn)
      else
        let '(err, txn) := CommitArtifactData matcher (artifactName sd) (artifactGroup sd)
                             (artifactTypeInfoProvides sd) (artifactClearsProvides sd) txn in
        ((), err, txn)
  end.

Definition doStandaloneCleanup (sd : standaloneData) : M (option error) :=
  firstErr ← first_error OpCleanup (standalone_indices sd) None;
  err ← db_op (fun db => let '(_, err, db) := WriteTransaction () (cleanup_txn sd) db in (err, db));
  mret (match firstErr with Some err => Some err | None => err end).

Definition doStandaloneRollbackState (sd : standaloneData) : M (option error) :=
  firstErr ← call (CExecuteAll "ArtifactRollback" "Enter" false None);
  firstErr ← first_error OpRollback (standalone_indices sd) firstErr;
  err ← call (CExecuteAll "ArtifactRollback" "Leave" false None);
  mret (match (firstErr : option error) with Some err => Some err | None => err end).

Definition doStandaloneFailureStatesRollback (sd : standaloneData) : M (bool * option error) :=
  r ← determineRollbackSupport (installers sd);
  match r with
  | Err err => mret (false, Some err)
  | Ok true => err ← doStandaloneRollbackState sd; mret (true, err)
  | Ok false => mret (false, None)
  end.

Definition doStandaloneFailureStatesFailure (sd : standaloneData) : M (option error) :=
  firstErr ← call (CExecuteAll "ArtifactFailure" "Enter" true None);
  firstErr ← first_error OpFailure (standalone_indices sd) firstErr;
  err ← call (CExecuteAll "ArtifactFailure" "Leave" true None);
  mret (match (firstErr : option error) with Some err => Some err | None => err end).

(** The name to commit in the end; empty keeps the old one. *)
Definition failure_name (sd : standaloneData) (rollback failure rollbackSupport : bool)
    (firstErr : option error) : standaloneData :=
  if bool_decide (is_Some firstErr) || failure && (negb rollback || negb rollbackSupport)
  then mark_broken sd
  else if rollback || negb failure then set_artifactName EmptyString sd
  else sd.

(** Returns the changed data as well. *)
Definition doStandaloneFailureStates (sd : standaloneData) (rollback failure cleanup : bool) :
    M (option error * standaloneData) :=
  r ← (if rollback then doStandaloneFailureStatesRollback sd else mret (false, None));
  let '(rollbackSupport, firstErr) := r in
  err ← (if failure then doStandaloneFailureStatesFailure sd else mret None);
  let firstErr := match firstErr with Some e => Some e | None => err end in
  let sd := failure_name sd rollback failure rollbackSupport firstErr in
  if cleanup then
    err ← doStandaloneCleanup sd;
    mret (match firstErr with Some e => Some e | None => err end, sd)
  else mret (firstErr, sd).

(** The error path of a state: its error scripts, the failure states with
    clean-up, and the error. *)
Definition fail_state {A} (scripts : option string) (sd : standaloneData) (rollback failure : bool)
    (err : error) : M (result A) :=
  _ ← match scripts with Some state => callErrorScript state | None => mret () end;
  _ ← doStandaloneFailureStates sd rollback failure true;
  mret (Err err).

(** ** The data in the database *)

Definition saved (sd : standaloneData) : Saved.StandaloneStateData :=
  Saved.mkSaved StandaloneStateDataVersion (artifactName sd) (artifactGroup sd)
    (artifactTypeInfoProvides sd) (artifactClearsProvides sd) (installers sd).

Definition storeStandaloneData (sd : standaloneData) : M (option error) :=
  db_op (WriteAll StandaloneStateKey (Saved.marshal (saved sd))).

(** Whether an installation from before the database waits for its commit. *)
Definition pre_database_check : IO (dualRootfsDeviceImpl D) unit :=
  r ← try (VerifyReboot e);
  match r with
  | Err _ => fail ErrorNothingToCommit
  | Ok _ =>
      bootable ← inactivePartitionLooksBootable e;
      if bootable : bool then mret () else fail ErrorNothingToCommit
  end.

Definition handlePreDatabaseRestore : M (result standaloneData) :=
  match DualRootfs device with
  | None => mret (Err ErrorNothingToCommit)
  | Some p =>
      r ← dual_op p pre_database_check;
      match r with
      | Err err => mret (Err err)
      | Ok _ =>
          name ← env_op (GetManifestData "artifact_name" (DeprecatedArtifactInfoFile device));
          match name with
          | Err err => mret (Err err)
          | Ok name =>
              r ← call (CCreateInstallersFromList ["rootfs-image"]);
              let '(installers, err) := r : list string * option error in
              mret match err with
                   | Some err => Err err
                   | None => Ok (mkStandalone name EmptyString None None installers)
                   end
          end
      end
  end.

Definition restoreStandaloneData : M (result standaloneData) :=
  r ← db_read (ReadAll StandaloneStateKey);
  match r with
  | Err err => if IsNotExist err then handlePreDatabaseRestore else mret (Err err)
  | Ok data =>
      match Saved.unmarshal data with
      | Err err => mret (Err err)
      | Ok stateData =>
          if Saved.Version stateData =? StandaloneStateDataVersion then
            r ← call (CCreateInstallersFromList (Saved.PayloadTypes stateData));
            let '(installers, err) := r : list string * option error in
            mret match err with
                 | Some err => Err err
                 | None => Ok (mkStandalone (Saved.ArtifactName stateData) (Saved.ArtifactGroup stateData)
                                 (Saved.ArtifactTypeInfoProvides stateData)
                                 (Saved.ArtifactClearsProvides stateData) installers)
                 end
          else mret (Err errIncompatibleVersion)
      end
  end.

(** ** Committing *)

Definition doStandaloneCommitStates (sd : standaloneData) : M (option error) :=
  err ← call (CExecuteAll "ArtifactCommit" "Enter" false None);
  match (err : option error) with
  | Some err =>
      r ← fail_state (A:=()) (Some "ArtifactCommit") sd true true err;
      mret (err_of r)
  | None =>
      err ← until_error OpCommitUpdate (standalone_indices sd);
      match (err : option error) with
      | Some err =>
          r ← fail_state (A:=()) (Some "ArtifactCommit") sd true true err;
          mret (err_of r)
      | None =>
          errorToReturn ← call (CExecuteAll "ArtifactCommit" "Leave" false None);
          sd ← match (errorToReturn : option error) with
               | Some _ => _ ← callErrorScript "ArtifactCommit"; mret (mark_broken sd)
               | None => mret sd
               end;
          err ← doStandaloneCleanup sd;
          mret (match (errorToReturn : option error) with Some err => Some err | None => err end)
      end
  end.

Definition DoStandaloneCommit : M (option error) :=
  r ← restoreStandaloneData;
  match r with
  | Err err => mret (Some err)
  | Ok sd => doStandaloneCommitStates sd
  end.

(** ** Rolling back *)

Definition rollback_restored (sd : standaloneData) : M (option error) :=
  firstErr ← doStandaloneRollbackState sd;
  sd ← match firstErr with
       | None => mret (set_artifactName EmptyString sd)
       | Some _ => r ← doStandaloneFailureStates sd false true false; mret r.2
       end;
  err ← doStandaloneCleanup sd;
  mret (match firstErr with Some err => Some err | None => err end).

Definition DoStandaloneRollback : M (option error) :=
  r ← restoreStandaloneData;
  match r with
  | Err err => mret (Some err)
  | Ok sd =>
      support ← determineRollbackSupport (installers sd);
      match support with
      | Err err => mret (Some err)
      | Ok false => mret (Some errNoRollbackSupport)
      | Ok true => rollback_restored sd
      end
  end.

(** ** Installing *)

(** What the headers say, without the name and the group among the provides. *)
Definition take_headers (installers : list string) (installer : ArtifactHeaders)
    (provides : option (gmap string string)) : standaloneData :=
  match provides with
  | None => mkStandalone (GetArtifactName installer) EmptyString None None installers
  | Some p =>
      let p := delete "artifact_name" p in
      match p !! "artifact_group" with
      | Some grp => mkStandalone (GetArtifactName installer) grp
                      (Some (delete "artifact_group" p)) None installers
      | None => mkStandalone (GetArtifactName installer) EmptyString (Some p) None installers
      end
  end.

Definition set_artifactClearsProvides v sd := mkStandalone (artifactName sd) (artifactGroup sd)
  (artifactTypeInfoProvides sd) v (installers sd).

(** The dependencies against what the device provides. *)
Definition depends_met (depends : option (list (string * Depend))) : M (option error) :=
  match depends with
  | None => mret None
  | Some depends =>
      p ← GetProvides;
      let '(currentProvides, err) := p : gmap string string * option error in
      match err with
      | Some err => mret (Some err)
      | None =>
          p ← verifyAndSetArtifactNameInProvides currentProvides;
          let '(currentProvides, err) := p : gmap string string * option error in
          match err with
          | Some err => mret (Some err)
          | None => mret (verifyArtifactDependencies depends currentProvides)
          end
      end
  end.

Definition store_payloads (sd : standaloneData) : M (result standaloneData) :=
  err ← call CStorePayloads;
  match (err : option error) with
  | Some err => fail_state (Some "Download") sd false false err
  | None =>
      err ← call (CExecuteAll "Download" "Leave" false None);
      match (err : option error) with
      | Some err => fail_state (Some "Download") sd false false err
      | None => mret (Ok sd)
      end
  end.

(** From the headers on. *)
Definition download_artifact (installers : list string) (installer : ArtifactHeaders) :
    M (result standaloneData) :=
  match GetArtifactProvides installer with
  | Err err => mret (Err err)
  | Ok provides =>
      let sd := take_headers installers installer provides in
      match GetArtifactDepends installer with
      | Err err => mret (Err err)
      | Ok depends =>
          err ← depends_met depends;
          match err with
          | Some err => mret (Err err)
          | None =>
              store_payloads (set_artifactClearsProvides (GetArtifactClearsProvides installer) sd)
          end
      end
  end.

Definition doStandaloneInstallStatesDownload : M (result standaloneData) :=
  dt ← env_op (GetManifestData "device_type" (DeviceTypeFile device));
  match dt with
  | Err err => mret (Err err)
  | Ok _ =>
      err ← call (CExecuteAll "Download" "Enter" false None);
      match (err : option error) with
      | Some err => _ ← callErrorScript "Download"; mret (Err err)
      | None =>
          verifyKeys ← env_op (GetVerificationKeys (ArtifactVerifyKeys device)
                                (RequireArtifactVerification device));
          match verifyKeys with
          | Err err => fail_state (Some "Download") no_standaloneData false false err
          | Ok _ =>
              r ← call CReadArtifactHeaders;
              let '(installers, installer) := r : list string * result ArtifactHeaders in
              match installer with
              | Err err =>
                  fail_state (Some "Download")
                    (mkStandalone EmptyString EmptyString None None installers) false false err
              | Ok installer => download_artifact installers installer
              end
          end
      end
  end.

(** The state ArtifactInstall. *)
Definition install_payloads (sd : standaloneData) : M (option error) :=
  err ← call (CExecuteAll "ArtifactInstall" "Enter" false None);
  match (err : option error) with
  | Some err => mret (Some err)
  | None =>
      err ← until_error OpInstallUpdate (standalone_indices sd);
      match (err : option error) with
      | Some err => mret (Some err)
      | None => call (CExecuteAll "ArtifactInstall" "Leave" false None)
      end
  end.

(** The end of an installation: the data is stored, and committed at once when
    there is no way back. *)
Definition finish_install (sd : standaloneData) (rollbackSupport rebootNeeded rebootExitCode : bool) :
    M (option error) :=
  err ← storeStandaloneData sd;
  match err with
  | Some err => mret (Some err)
  | None =>
      err ← (if rollbackSupport then mret None else DoStandaloneCommit);
      match err with
      | Some err => mret (Some err)
      | None => mret (if rebootNeeded && rebootExitCode then Some ErrorManualRebootRequired else None)
      end
  end.

Definition install_downloaded (sd : standaloneData) (rebootExitCode : bool) : M (option error) :=
  support ← determineRollbackSupport (installers sd);
  match support with
  | Err err => r ← fail_state (A:=()) None sd false false err; mret (err_of r)
  | Ok rollbackSupport =>
      err ← install_payloads sd;
      match err with
      | Some err => r ← fail_state (A:=()) (Some "ArtifactInstall") sd true true err; mret (err_of r)
      | None =>
          needed ← determineRebootNeeded (installers sd);
          match needed with
          | Err err => r ← fail_state (A:=()) None sd true true err; mret (err_of r)
          | Ok rebootNeeded => finish_install sd rollbackSupport rebootNeeded rebootExitCode
          end
      end
  end.

Definition doStandaloneInstallStates (rebootExitCode : bool) : M (option error) :=
  r ← doStandaloneInstallStatesDownload;
  match r with
  | Err err => mret (Some err)
  | Ok sd => install_downloaded sd rebootExitCode
  end.

(** FetchUpdateFromFile of installer/installer.go, as the size of the image. *)
Definition FetchUpdateFromFile (opened : option error) (size : result Z) : result Z :=
  match opened with
  | Some err => Err (EText "Not able to open image file")
  | None => match size with Err err => Err (EText "Unable to stat() file") | Ok n => Ok n end
  end.

(** The command: [api_client] is the error of making a client, [downloaded] and
    [from_file] are the sizes of the image that is fetched, or the errors.  The
    image itself is read by the installation from the environment. *)
Definition DoStandaloneInstall (updateURI : string) (api_client : option error) (downloaded from_file : result Z)
    (rebootExitCode : bool) : M (option error) :=
  let remote := HasPrefix updateURI "http:" || HasPrefix updateURI "https:" in
  match remote, api_client with
  | true, Some _ => mret (Some (EText "Can not initialize client for performing network update."))
  | _, _ =>
      match (if remote then downloaded else from_file) with
      | Err err => mret (Some (EWrap "Error while installing Artifact from command line" err))
      | Ok _ => doStandaloneInstallStates rebootExitCode
      end
  end.

End standalone.
