(* ===== verification/History.v ===== *)
(** * History: reasoning about what a program calls, and in which order

    [hwp m Q w l]: run from [w] with the history [l] so far, newest first, [m]
    ends with a result, a world and a history that satisfy [Q].  Unlike [wp],
    the postcondition sees the whole history, so that statements about the order
    of calls can be made. *)

From S2P Require Import Prelude Store StateData DataStore ControlMapPool.
From S2P Require Import States World Controller Triples Text Os Standalone.

Open Scope Z_scope.

(** ** Looking at a history *)

(** The database an event has recorded. *)
Definition event_db (e : Event) : gmap string string :=
  match e with Ev _ _ db | EvDB db => db end.

(** The calls, oldest first. *)
Fixpoint calls_of (l : list Event) : list Call :=
  match l with
  | [] => []
  | Ev c _ _ :: l => calls_of l ++ [c]
  | EvDB _ :: l => calls_of l
  end.

Lemma calls_of_app l1 l2 : calls_of (l1 ++ l2) = calls_of l2 ++ calls_of l1.
Proof.
  induction l1 as [|[c a db|db] l1 IH]; cbn; [by rewrite app_nil_r| |done].
  by rewrite IH, app_assoc.
Qed.

(** The calls of one operation of the installers [idx], with their answers, and
    the database meanwhile. *)
Fixpoint op_events (op : InstallerOp) (idx : list nat) (answers : list (option error))
    (db : gmap string string) : list Event :=
  match idx, answers with
  | n :: idx, a :: answers => op_events op idx answers db ++ [Ev (CInstaller n op) a db]
  | _, _ => []
  end.

Lemma op_events_cons op n idx a answers db :
  op_events op (n :: idx) (a :: answers) db =
  op_events op idx answers db ++ [Ev (CInstaller n op) a db].
Proof. done. Qed.

Lemma calls_of_op_events op idx answers db : length answers = length idx ->
  calls_of (op_events op idx answers db) = (fun n => CInstaller n op) <$> idx.
Proof.
  revert answers. induction idx as [|n idx IH]; intros [|a answers] Hlen; try done.
  injection Hlen as Hlen. rewrite op_events_cons, calls_of_app, IH by done. done.
Qed.

Lemma elem_of_op_events op idx answers db e : e ∈ op_events op idx answers db ->
  exists n a, e = Ev (CInstaller n op) a db /\ n ∈ idx /\ a ∈ answers.
Proof.
  revert answers. induction idx as [|n idx IH]; intros [|a answers];
    try (cbn; intros He; by apply not_elem_of_nil in He).
  rewrite op_events_cons. intros [He|He%list_elem_of_singleton]%elem_of_app.
  - destruct (IH _ He) as (m & b & -> & Hm & Hb). exists m, b. set_solver.
  - subst e. exists n, a. set_solver.
Qed.

Lemma op_events_db op idx answers db : Forall (fun e => event_db e = db) (op_events op idx answers db).
Proof. apply Forall_forall. intros e (n & a & -> & _)%elem_of_op_events. done. Qed.

Lemma op_events_answered op idx answers db n : length answers = length idx -> n ∈ idx ->
  exists a, a ∈ answers /\ Ev (CInstaller n op) a db ∈ op_events op idx answers db.
Proof.
  revert answers. induction idx as [|m idx IH]; intros [|a answers] Hlen Hn; try done.
  - by apply not_elem_of_nil in Hn.
  - injection Hlen as Hlen. rewrite op_events_cons. apply elem_of_cons in Hn as [->|Hn].
    + exists a. split; [apply list_elem_of_here|]. apply elem_of_app. right. by apply list_elem_of_singleton.
    + destruct (IH answers Hlen Hn) as (b & Hb & He). exists b.
      split; [by apply list_elem_of_further|]. apply elem_of_app. by left.
Qed.

(** ** The judgement *)

Section hwp.
Context {DB D : Type} `{StoreLaws DB} `{Env D}.

Notation M := (M DB D).
Notation World := (World DB D).

Definition hwp {A} (m : M A) (Q : A -> World -> list Event -> Prop) (w : World) (l : list Event) : Prop :=
  exists l1, w_log (m w).2 = l1 ++ w_log w /\ Q (m w).1 (m w).2 (l1 ++ l).

Lemma hwp_ret {A} (a : A) Q w l : Q a w l -> hwp (mret a) Q w l.
Proof. intros HQ. by exists []. Qed.

Lemma run_bind {A B} (m : M A) (f : A -> M B) w a w' : m w = (a, w') -> (m ≫= f) w = f a w'.
Proof. unfold mbind, M_bind. by intros ->. Qed.

Lemma hwp_bind {A B} (m : M A) (f : A -> M B) Q w l :
  hwp m (fun a w' l' => hwp (f a) Q w' l') w l -> hwp (m ≫= f) Q w l.
Proof.
  intros (l1 & Hl1 & l2 & Hl2 & HQ). unfold hwp, mbind, M_bind.
  destruct (m w) as [a w1]. cbn in *. exists (l2 ++ l1). by rewrite Hl2, Hl1, <- !app_assoc.
Qed.

Lemma hwp_mono {A} (m : M A) (Q Q' : A -> World -> list Event -> Prop) w l :
  hwp m Q w l -> (forall a w' l', Q a w' l' -> Q' a w' l') -> hwp m Q' w l.
Proof. intros (l1 & Hl1 & HQ) Himp. exists l1. auto. Qed.

Lemma hwp_call c Q w l :
  (forall a w', same w w' -> Q a w' (Ev c a (db_contents w) :: l)) -> hwp (call c) Q w l.
Proof.
  intros HQ. unfold hwp, call. destruct (env_step c (w_env w)) as [a d].
  exists [Ev c a (db_contents w)]. split; [done|]. by apply HQ.
Qed.

Lemma hwp_db_op {A} (f : DB -> A * DB) Q w l :
  (forall a w', f (w_db w) = (a, w_db w') -> Q a w' (EvDB (db_contents w') :: l)) ->
  hwp (db_op f) Q w l.
Proof.
  intros HQ. unfold hwp, db_op. destruct (f (w_db w)) as [a db] eqn:Hf.
  exists [EvDB (contents db)]. split; [done|].
  by apply (HQ a (mkWorld db (w_env w) (w_ctx w) (w_pool w) (w_installers w) (w_state w) _)).
Qed.

Lemma hwp_db_read {A} (f : DB -> A) Q w l : Q (f (w_db w)) w l -> hwp (db_read f) Q w l.
Proof. intros HQ. by exists []. Qed.

Lemma hwp_env_op {A} (m : IO D A) Q w l :
  (forall r w', m (w_env w) = (r, w_env w') -> w_db w' = w_db w -> Q r w' l) -> hwp (env_op m) Q w l.
Proof.
  intros HQ. unfold hwp, env_op. destruct (m (w_env w)) as [r d] eqn:Hm.
  exists []. split; [done|]. by apply HQ.
Qed.

(** From the judgement to the run itself. *)
Lemma hwp_run {A} (m : M A) Q w : hwp m Q w [] ->
  forall a w', m w = (a, w') -> exists l, w_log w' = l ++ w_log w /\ Q a w' l.
Proof. intros (l & Hl & HQ) a w' Hm. rewrite Hm in Hl, HQ. exists l. by rewrite app_nil_r in HQ. Qed.

(** *** The loops over the installers *)

(** The first of the errors. *)
Definition or_error (e1 e2 : option error) : option error :=
  match e1 with Some e => Some e | None => e2 end.

Lemma hwp_first_error op idx acc w l Q :
  (forall answers w', length answers = length idx -> same w w' ->
     Q (foldl or_error acc answers) w' (op_events op idx answers (db_contents w) ++ l)) ->
  hwp (first_error op idx acc) Q w l.
Proof.
  revert acc w l. induction idx as [|n idx IH]; intros acc w l HQ; cbn [first_error].
  - apply hwp_ret. by apply (HQ []).
  - apply hwp_bind, (hwp_call (CInstaller n op)). intros a w1 Hs1. apply IH. intros answers w' Hlen Hs.
    rewrite (same_contents _ _ Hs1).
    replace (op_events op idx answers (db_contents w) ++ Ev (CInstaller n op) a (db_contents w) :: l)
      with (op_events op (n :: idx) (a :: answers) (db_contents w) ++ l)
      by (by rewrite op_events_cons, <- app_assoc).
    change (match acc with Some e => Some e | None => a end) with (or_error acc a).
    apply (HQ (a :: answers)); [by cbn; f_equal|].
    destruct Hs1, Hs; split; congruence.
Qed.

Lemma hwp_until_error op idx w l Q :
  (forall w', same w w' ->
     Q None w' (op_events op idx (replicate (length idx) None) (db_contents w) ++ l)) ->
  (forall err k w', (k < length idx)%nat -> same w w' ->
     Q (Some err) w' (op_events op (take (S k) idx) (replicate k None ++ [Some err]) (db_contents w) ++ l)) ->
  hwp (until_error op idx) Q w l.
Proof.
  unfold until_error. revert w l Q. induction idx as [|n idx IH]; intros w l Q HN HS; cbn [World.for_each].
  - apply hwp_ret. apply HN. by split.
  - apply hwp_bind, (hwp_call (CInstaller n op)). intros [err|] w1 Hs1.
    + apply hwp_ret. apply (HS err 0%nat); [cbn; lia|done].
    + assert (forall w', same w1 w' -> same w w') as Htrans
        by (intros w' []; destruct Hs1; split; congruence).
      apply IH; rewrite (same_contents _ _ Hs1).
      * intros w' Hs. specialize (HN w' (Htrans _ Hs)). cbn [length replicate] in HN.
        by rewrite op_events_cons, <- app_assoc in HN.
      * intros err k w' Hk Hs. specialize (HS err (S k) w' ltac:(cbn; lia) (Htrans _ Hs)).
        cbn [take replicate app] in HS. by rewrite op_events_cons, <- app_assoc in HS.
Qed.

End hwp.

Lemma foldl_or_error acc answers : foldl or_error acc answers = None <->
  acc = None /\ Forall (fun a => a = None) answers.
Proof.
  revert acc. induction answers as [|a answers IH]; intros acc; cbn; [by split; [|intros []]|].
  rewrite IH, Forall_cons. destruct acc, a; cbn; naive_solver.
Qed.

(** Steps through a program; stops where a lemma about a part is needed. *)
Ltac hstep :=
  lazymatch goal with
  | |- hwp (mret _) _ _ _ => apply hwp_ret
  | |- hwp (_ ≫= _) _ _ _ => apply hwp_bind
  | |- hwp (call ?c) _ _ _ => apply (hwp_call c); let a := fresh "a" in let w := fresh "w" in
      let Hs := fresh "Hs" in intros a w Hs
  end.
