(* ===== verification/StandaloneStore.v ===== *)
(** * StandaloneStore: an artifact that waits for its commit

    The data that the command install leaves in the database is what the
    commands commit and rollback, later and in another process, work with. *)

From S2P Require Import Prelude Json Store StateData DataStore ControlMapPool.
From S2P Require Import States World Controller Triples Text Os Manifest BootEnv DualRootfs.
From S2P Require Import Standalone History.

Open Scope Z_scope.

(** ** The text *)

(** [omitempty] turns an empty list into none. *)
Definition nonempty (l : option (list string)) : option (list string) :=
  match l with Some [] => None | l => l end.

Lemma saved_roundtrip (s : Saved.StandaloneStateData) : int64_ok (Saved.Version s) ->
  Saved.unmarshal (Saved.marshal s) =
  Ok (Saved.set_ArtifactClearsProvides (nonempty (Saved.ArtifactClearsProvides s)) s).
Proof.
  intros Hv. destruct s as [v n g p c t]. unfold Saved.unmarshal, unmarshal, Saved.marshal.
  rewrite unmarshal_marshal_text. unfold Saved.encode. cbn [dec_struct app]. cbn in Hv.
  do 3 dec_member.
  erewrite dec_members_cons; [|reflexivity|apply (on_field_ok _ _ _ _ _ p)].
  - cbn [Saved.ArtifactClearsProvides Saved.PayloadTypes].
    destruct c as [[|c cs]|]; cbn [omitempty_strings app].
    + by dec_member.
    + erewrite dec_members_cons; [|reflexivity|apply on_field_ok, (dec_enc_nilable_strings (Some (c :: cs)))].
      by dec_member.
    + by dec_member.
  - destruct p as [p|]; [|done]. apply dec_enc_map.
Qed.

(** The data as it is read back, with the installers made from the types. *)
Definition restored (sd : standaloneData) (installers : list string) : standaloneData :=
  mkStandalone (artifactName sd) (artifactGroup sd) (artifactTypeInfoProvides sd)
    (nonempty (artifactClearsProvides sd)) installers.

Section stored.
Context {DB D : Type} `{StoreLaws DB} `{Env D} `{Os D} `{!ProbeOs D}.
Context `{!BootEnvReadWriter E D} (e : E).
Variable device : DeviceConfig.
Variable matcher : list string -> list string -> result (list string).

Notation M := (M DB D).
Notation World := (World DB D).

(** ** Runs, taken apart *)

Lemma run_bind_inv {A B} (m : M A) (f : A -> M B) w r w' : (m ≫= f) w = (r, w') ->
  exists a w1, m w = (a, w1) /\ f a w1 = (r, w').
Proof. unfold mbind, M_bind. destruct (m w) as [a w1]. eauto. Qed.

Lemma call_inv c (w w' : World) a : call c w = (a, w') ->
  db_contents w' = db_contents w /\ w_log w' = Ev c a (db_contents w) :: w_log w.
Proof. unfold call. destruct (env_step c (w_env w)) as [a0 d]. by intros [= -> <-]. Qed.

Ltac call_inv H :=
  match type of H with call ?c ?w = (?a, ?w') => apply (call_inv c w w' a) in H end.

Lemma first_error_inv op idx acc (w w' : World) err : first_error op idx acc w = (err, w') ->
  db_contents w' = db_contents w /\ (err = None -> acc = None).
Proof.
  revert acc w. induction idx as [|n idx IH]; intros acc w; cbn [first_error]; [by intros [= -> <-]|].
  intros (a & w1 & Hc & [Hd Hn]%IH)%run_bind_inv. call_inv Hc. destruct Hc as [Hc _]. split; [congruence|].
  intros Hnone. specialize (Hn Hnone). by destruct acc.
Qed.

Lemma until_error_inv op idx (w w' : World) err : until_error op idx w = (err, w') ->
  db_contents w' = db_contents w.
Proof.
  unfold until_error. revert w. induction idx as [|n idx IH]; intros w; cbn [World.for_each]; [by intros [= _ <-]|].
  intros ([err1|] & w1 & Hc & Hr)%run_bind_inv; call_inv Hc; destruct Hc as [Hc _]; [by injection Hr as _ <-|].
  apply IH in Hr. congruence.
Qed.

Lemma fail_state_result {A} scripts sd rollback failure err (w : World) :
  (fail_state (A:=A) matcher scripts sd rollback failure err w).1 = Err err.
Proof.
  destruct (fail_state (A:=A) matcher scripts sd rollback failure err w) as [r w'] eqn:Hr.
  apply run_bind_inv in Hr as ([] & w1 & _ & (r2 & w2 & _ & [= <- _])%run_bind_inv). done.
Qed.

Lemma fail_command_result scripts sd rollback failure err (w w' : World) r :
  (r ← fail_state (A:=()) matcher scripts sd rollback failure err; mret (err_of r)) w = (r, w') ->
  r = Some err.
Proof.
  intros (r0 & w1 & Hr & [= <- _])%run_bind_inv.
  pose proof (fail_state_result (A:=()) scripts sd rollback failure err w) as He. by rewrite Hr in He; cbn in He; subst.
Qed.

(** ** Storing and restoring *)

Definition waiting (sd : standaloneData) (m : gmap string string) : Prop :=
  m !! StandaloneStateKey = Some (Saved.marshal (saved sd)).

Lemma store_waiting sd (w w1 : World) : storeStandaloneData sd w = (None, w1) ->
  db_contents w1 = <[StandaloneStateKey := Saved.marshal (saved sd)]> (db_contents w).
Proof.
  unfold storeStandaloneData, db_op. destruct (WriteAll _ _ (w_db w)) as [err db] eqn:Hw.
  intros [= -> <-]. by apply WriteAll_ok in Hw.
Qed.

(** Restoring either cannot read the database or makes the installers. *)
Lemma restore_waiting sd (w w1 : World) r : waiting sd (db_contents w) ->
  restoreStandaloneData e device w = (r, w1) -> db_contents w1 = db_contents w /\
  ((exists err, ReadAll StandaloneStateKey (w_db w) = Err err /\ r = Err err) \/
   exists ins err, r = match err with Some err => Err err | None => Ok (restored sd ins) end /\
     w_log w1 = Ev (CCreateInstallersFromList (installers sd)) (ins, err) (db_contents w) :: w_log w).
Proof.
  intros Hw (r0 & w0 & [= <- <-] & Hr)%run_bind_inv. destruct (ReadAll _ (w_db w)) as [data|err] eqn:Hread.
  - apply ReadAll_ok in Hread. fold (db_contents w) in Hread. rewrite Hw in Hread. injection Hread as <-.
    rewrite saved_roundtrip in Hr by (split; vm_compute; discriminate).
    apply run_bind_inv in Hr as ([ins err] & w2 & Hc & [= <- <-]).
    call_inv Hc. destruct Hc as [Hc Hl]. split; [done|]. right. by exists ins, err.
  - destruct (IsNotExist err) eqn:He; [|injection Hr as <- <-; split; [done|left; eauto]].
    pose proof (ReadAll_not_exist _ _ _ Hread He) as Hn. fold (db_contents w) in Hn. by rewrite Hw in Hn.
Qed.

(** ** A commit that succeeds *)

Lemma cleanup_success sd (w w' : World) : doStandaloneCleanup matcher sd w = (None, w') ->
  artifactName sd <> EmptyString ->
  exists txn txn' : Txn, contents txn = delete StandaloneStateKey (db_contents w) /\
    CommitArtifactData matcher (artifactName sd) (artifactGroup sd) (artifactTypeInfoProvides sd)
      (artifactClearsProvides sd) txn = (None, txn') /\
    db_contents w' = contents txn'.
Proof.
  intros (err & w1 & [Hw1 _]%first_error_inv & (err2 & w2 & Hr2 & [= Hn <-])%run_bind_inv)%run_bind_inv Hne.
  destruct err; [done|]. subst err2. unfold db_op in Hr2.
  destruct (WriteTransaction_spec () (cleanup_txn matcher sd) (w_db w1))
    as [x s1 H1'|t a x t1 s1 H1' H2' H3'|t a x t1 s1 H1' H2' H3'|t [] t1 s1 H1' H2' H3']; [done..|].
  injection Hr2 as <-. unfold cleanup_txn in H2'.
  destruct (Remove StandaloneStateKey t) as [[x|] t2] eqn:Hrem; [done|]. apply Remove_ok in Hrem.
  rewrite bool_decide_false in H2' by done.
  destruct (CommitArtifactData _ _ _ _ _ t2) as [x t3] eqn:Hcom. injection H2' as -> ->.
  exists t2, t1. split; [|by split]. rewrite Hrem, H1'. by rewrite <- Hw1.
Qed.

Lemma commit_success sd (w w' : World) : doStandaloneCommitStates matcher sd w = (None, w') ->
  exists w1, db_contents w1 = db_contents w /\ doStandaloneCleanup matcher sd w1 = (None, w').
Proof.
  intros (err & w1 & Hc & Hr)%run_bind_inv. call_inv Hc. destruct Hc as [Hw1 _].
  destruct err as [err|]; [by apply fail_command_result in Hr|].
  apply run_bind_inv in Hr as (err & w2 & Hw2%until_error_inv & Hr).
  destruct err as [err|]; [by apply fail_command_result in Hr|].
  apply run_bind_inv in Hr as (err & w3 & Hc & Hr). call_inv Hc. destruct Hc as [Hw3 _].
  apply run_bind_inv in Hr as (sd' & w4 & Hsd' & (err4 & w5 & Hr & [= He <-])%run_bind_inv).
  destruct err as [err|]; [done|]. injection Hsd' as <- <-. subst err4.
  exists w3. split; [congruence|done].
Qed.
End stored.

(** ** The properties *)

(** The data of an artifact that is installed and waits for its commit is
    read back as it was, in the same or a later process: restoring makes the
    installers of the stored types and gives the stored name, group and provides
    with them; only an empty list of provides to clear comes back as no list. *)
Theorem store_then_restore {DB D : Type} `{ReliableStore DB} `{Env D} `{Os D} `{!ProbeOs D}
    `{!BootEnvReadWriter E D} (e : E) (device : DeviceConfig) sd (w w1 w2 : World DB D) err
    (Hstore : storeStandaloneData sd w = (err, w1)) (Hlater : db_contents w2 = db_contents w1) :
  err = None /\
  exists ins cerr w3,
    restoreStandaloneData e device w2 =
      (match cerr with Some err => Err err | None => Ok (restored sd ins) end, w3) /\
    w_log w3 = Ev (CCreateInstallersFromList (installers sd)) (ins, cerr) (db_contents w2) :: w_log w2 /\
    db_contents w3 = db_contents w2.
Proof.
  assert (err = None) as ->.
  { unfold storeStandaloneData, db_op in Hstore.
    destruct (rel_write StandaloneStateKey (Saved.marshal (saved sd)) (w_db w)) as (db & Hw & _).
    rewrite Hw in Hstore. by injection Hstore. }
  split; [done|]. apply store_waiting in Hstore.
  assert (waiting sd (db_contents w2)) as Hwait.
  { unfold waiting. by rewrite Hlater, Hstore, lookup_insert_eq. }
  destruct (restoreStandaloneData e device w2) as [r w3] eqn:Hr.
  destruct (restore_waiting e device sd w2 w3 r Hwait Hr) as [Hdb [(x & Hread & _)|(ins & cerr & -> & Hl)]].
  - rewrite rel_ReadAll in Hread. fold (db_contents w2) in Hread. by rewrite Hwait in Hread.
  - by exists ins, cerr, w3.
Qed.

(** C16: a commit that succeeds, in any later process, of an artifact that the
    command install left waiting publishes exactly that artifact: its name, its
    group and its provides, merged with those it does not clear; nothing waits
    any more, and nothing else of the database has changed since before it was
    stored. *)
Theorem commit_publishes_waiting_artifact {DB D : Type} `{StoreLaws DB} `{Env D} `{Os D} `{!ProbeOs D}
    `{!BootEnvReadWriter E D} (e : E) (device : DeviceConfig)
    matcher wildcard_matches (Hmatch : matcher_ok matcher wildcard_matches)
    sd (w w1 w2 w3 : World DB D) (Hname : artifactName sd <> EmptyString)
    (Hstore : storeStandaloneData sd w = (None, w1)) (Hlater : db_contents w2 = db_contents w1)
    (Hcommit : DoStandaloneCommit e device matcher w2 = (None, w3)) :
  let before := db_contents w in
  let after := db_contents w3 in
  let keep k := negb (cleared wildcard_matches (nonempty (artifactClearsProvides sd)) k) in
  after !! ArtifactNameKey = Some (artifactName sd) /\
  after !! ArtifactGroupKey =
    (if bool_decide (artifactGroup sd = EmptyString)
     then if keep "artifact_group" then before !! ArtifactGroupKey else None
     else Some (artifactGroup sd)) /\
  (forall k, stored_provides after !! k =
     match default ∅ (artifactTypeInfoProvides sd) !! k with
     | Some v => Some v
     | None => if keep k then stored_provides before !! k else None
     end) /\
  after !! StandaloneStateKey = None /\
  (forall k, k ∉ [ArtifactNameKey; ArtifactGroupKey; ArtifactTypeInfoProvidesKey; StandaloneStateKey] ->
     after !! k = before !! k).
Proof.
  apply store_waiting in Hstore.
  assert (waiting sd (db_contents w2)) as Hwait.
  { unfold waiting. by rewrite Hlater, Hstore, lookup_insert_eq. }
  apply run_bind_inv in Hcommit as (r & w4 & Hr & Hcommit).
  apply (restore_waiting e device sd w2 w4 r Hwait) in Hr as [Hdb [(x & _ & ->)|(ins & [x|] & -> & _)]]; [done..|].
  apply commit_success in Hcommit as (w5 & Hw5 & (txn & txn' & Ht & Hcom & Hw3)%cleanup_success); [|done].
  assert (contents txn = delete StandaloneStateKey (db_contents w)) as Ht'.
  { rewrite Ht, Hw5, Hdb, Hlater, Hstore. by rewrite delete_insert_eq. }
  destruct (CommitArtifactData_spec _ _ Hmatch _ _ _ _ _ _ Hcom) as (Hn & Hg & Hp & Ho).
  cbn zeta. rewrite Hw3. unfold stored_provides in *. rewrite Ht' in *.
  rewrite !lookup_delete_ne in * by done. split_and!; [done|exact Hg| | |].
  - exact Hp.
  - rewrite Ho by set_solver. apply lookup_delete_eq.
  - intros k Hk. rewrite Ho by set_solver. apply lookup_delete_ne. set_solver.
Qed.
