(* ===== verification/StandaloneSpec.v ===== *)
(** * StandaloneSpec: what the commands do to the database and the payloads *)

From S2P Require Import Prelude Json Store StateData DataStore ControlMapPool.
From S2P Require Import States World Controller Triples Text Os Manifest BootEnv DualRootfs.
From S2P Require Import Standalone History StandaloneStore.

Open Scope Z_scope.

(** ** The name of the installed artifact *)

Section names.
Context {DB D : Type} `{StoreLaws DB} `{Env D} `{Os D} `{!ProbeOs D}.
Context `{!BootEnvReadWriter E D} (e : E).
Variable device : DeviceConfig.
Variable matcher : list string -> list string -> result (list string).
(** The name before the command. *)
Variable name0 : option string.

(** [source l types name]: the history [l] accounts for an artifact [name] with
    payloads of these types. *)
Variable source : list Event -> list string -> string -> Prop.
Hypothesis source_app : forall l1 l types name, source l types name -> source (l1 ++ l) types name.

Notation M := (M DB D).
Notation World := (World DB D).

Definition name_kept (ev : Event) : Prop := event_db ev !! ArtifactNameKey = name0.

(** So far the name is as it was, and only calls that satisfy [P] were made. *)
Definition quiet (P : Call -> Prop) (w : World) (l : list Event) : Prop :=
  db_contents w !! ArtifactNameKey = name0 /\
  Forall (fun ev => name_kept ev /\ match ev with Ev c _ _ => P c | EvDB _ => True end) l.

Definition calm (P : Call -> Prop) {A} (m : M A) : Prop := forall w l, quiet P w l ->
  hwp m (fun _ w' l' => quiet P w' l') w l.

Lemma calm_ret P {A} (a : A) : calm P (mret a).
Proof. intros w l Hq. by apply hwp_ret. Qed.

Lemma calm_bind P {A B} (m : M A) (f : A -> M B) :
  calm P m -> (forall a, calm P (f a)) -> calm P (m ≫= f).
Proof.
  intros Hm Hf w l Hq. apply hwp_bind. eapply hwp_mono; [exact (Hm _ _ Hq)|]. intros a w' l'. apply Hf.
Qed.

(** A part that keeps the name, and then the rest. *)
Lemma hwp_after P {A B} (m : M A) (f : A -> M B) Q w l : quiet P w l -> calm P m ->
  (forall a w' l', quiet P w' l' -> hwp (f a) Q w' l') -> hwp (m ≫= f) Q w l.
Proof.
  intros Hq Hm Hf. apply hwp_bind. eapply hwp_mono; [exact (Hm _ _ Hq)|]. intros a w' l'. apply Hf.
Qed.

Lemma quiet_same P w w' l : same w w' -> quiet P w l -> quiet P w' l.
Proof. intros Hs [Hn Hl]. split; [by rewrite (same_contents _ _ Hs)|done]. Qed.

Lemma quiet_event P c a w l : P c -> quiet P w l -> quiet P w (Ev c a (db_contents w) :: l).
Proof. intros HP [Hn Hl]. split; [done|]. by constructor. Qed.

Lemma quiet_ops (P : Call -> Prop) op idx answers w l : (forall n, P (CInstaller n op)) -> quiet P w l ->
  quiet P w (op_events op idx answers (db_contents w) ++ l).
Proof.
  intros HP [Hn Hl]. split; [done|]. apply Forall_app. split; [|done].
  apply Forall_forall. intros ev (n & a & -> & _)%elem_of_op_events. by split.
Qed.

Lemma quiet_weaken (P Q : Call -> Prop) w l : (forall c, P c -> Q c) -> quiet P w l -> quiet Q w l.
Proof.
  intros HPQ [Hn Hl]. split; [done|]. eapply Forall_impl; [exact Hl|]. intros [] []; split; auto.
Qed.

Lemma calm_call (P : Call -> Prop) c : P c -> calm P (call c).
Proof.
  intros HP w l Hq. apply hwp_call. intros a w' Hs. eapply quiet_same; [exact Hs|]. by apply quiet_event.
Qed.

Lemma calm_env_op P {A} (m : IO D A) : calm P (env_op m).
Proof.
  intros w l [Hn Hl]. apply hwp_env_op. intros r w' _ Hdb. split; [|done]. unfold db_contents. by rewrite Hdb.
Qed.

Lemma calm_db_read P {A} (f : DB -> A) : calm P (db_read f).
Proof. intros w l Hq. by apply hwp_db_read. Qed.

Lemma calm_db_op P {A} (f : DB -> A * DB) :
  (forall db, contents (f db).2 !! ArtifactNameKey = contents db !! ArtifactNameKey) ->
  calm P (db_op f).
Proof.
  intros Hf w l [Hn Hl]. apply hwp_db_op. intros a w' Hdb.
  assert (db_contents w' !! ArtifactNameKey = name0) as Hn'.
  { unfold db_contents. rewrite <- Hn. specialize (Hf (w_db w)). by rewrite Hdb in Hf. }
  split; [done|]. by constructor.
Qed.

Lemma calm_WriteAll P k v : k <> ArtifactNameKey -> calm P (db_op (WriteAll k v)).
Proof.
  intros Hk. apply calm_db_op. intros db. destruct (WriteAll k v db) as [[err|] db'] eqn:Hw; cbn.
  - by rewrite (WriteAll_err _ _ _ _ _ Hw).
  - by rewrite (WriteAll_ok _ _ _ _ Hw), lookup_insert_ne.
Qed.

Lemma calm_LoadProvides P : calm P GetProvides.
Proof.
  apply calm_db_op. intros db. unfold LoadProvides.
  destruct (ReadTransaction_spec ∅ LoadProvides_txn db) as (x & a & s' & -> & Hs & _). cbn. by rewrite Hs.
Qed.

Lemma calm_first_error (P : Call -> Prop) op idx acc :
  (forall n, P (CInstaller n op)) -> calm P (first_error op idx acc).
Proof.
  intros HP w l Hq. apply hwp_first_error. intros answers w' _ Hs.
  eapply quiet_same; [exact Hs|]. by apply quiet_ops.
Qed.

Lemma calm_until_error (P : Call -> Prop) op idx :
  (forall n, P (CInstaller n op)) -> calm P (until_error op idx).
Proof.
  intros HP w l Hq. apply hwp_until_error; intros; (eapply quiet_same; [eassumption|]); by apply quiet_ops.
Qed.

(** Splits a judgement about a program into those about its calls. *)
Ltac keep_step :=
  lazymatch goal with
  | |- forall _, _ => intro
  | |- calm _ (mret _) => apply calm_ret
  | |- calm _ (_ ≫= _) => apply calm_bind
  | |- calm _ (call ?c) => apply (calm_call _ c)
  | |- calm _ (env_op _) => apply calm_env_op
  | |- calm _ (dual_op _ _) => apply calm_env_op
  | |- calm _ (db_read _) => apply calm_db_read
  | |- calm _ GetProvides => apply calm_LoadProvides
  | |- calm _ (first_error _ _ _) => apply calm_first_error
  | |- calm _ (until_error _ _) => apply calm_until_error
  | |- calm _ (db_op (WriteAll StandaloneStateKey _)) => apply calm_WriteAll
  | |- calm _ (match _ with _ => _ end) => case_match
  end.

Ltac keep := repeat keep_step.

(** No payload is rolled back. *)
Definition no_rollback (c : Call) : Prop := forall n, c <> CInstaller n OpRollback.
Definition any_call (c : Call) : Prop := True.

Lemma calm_callErrorScript (P : Call -> Prop) state :
  (forall s a i r, P (CExecuteAll s a i r)) -> calm P (callErrorScript state).
Proof. intros HP. unfold callErrorScript. keep. auto. Qed.

Lemma calm_determineRollbackSupport (P : Call -> Prop) l : (forall n, P (CSupportsRollback n)) ->
  calm P (determineRollbackSupport l).
Proof.
  intros HP. unfold determineRollbackSupport. case_match; [keep|]. generalize RollbackSupportUnknown as s.
  induction (seq 0 (length l)) as [|n idx IH]; intros s; cbn [rollback_support]; keep; auto.
Qed.

Lemma calm_determineRebootNeeded (P : Call -> Prop) l : (forall n, P (CNeedsReboot n)) ->
  calm P (determineRebootNeeded l).
Proof.
  intros HP. unfold determineRebootNeeded.
  induction (seq 0 (length l)) as [|n idx IH]; cbn [reboot_needed]; keep; auto.
Qed.

Lemma calm_RollbackState sd : calm any_call (doStandaloneRollbackState sd).
Proof. unfold doStandaloneRollbackState. keep; done. Qed.

Lemma calm_FailureStatesRollback sd : calm any_call (doStandaloneFailureStatesRollback sd).
Proof.
  unfold doStandaloneFailureStatesRollback. keep; [by apply calm_determineRollbackSupport|].
  apply calm_RollbackState.
Qed.

Lemma calm_FailureStatesFailure sd : calm any_call (doStandaloneFailureStatesFailure sd).
Proof. unfold doStandaloneFailureStatesFailure. keep; done. Qed.

(** *** The transaction at the end *)

Definition sourced (sd : standaloneData) (l : list Event) : Prop :=
  exists types, source l types (artifactName sd).

(** The installers of [sd] were made in this run, from the types of the
    artifact with its name. *)
Definition made (sd : standaloneData) (l : list Event) : Prop :=
  exists types db, Ev (CCreateInstallersFromList types) (installers sd, None) db ∈ l /\
    source l types (artifactName sd).

(** Every installer was committed, after it was made. *)
Definition all_committed (sd : standaloneData) (l : list Event) : Prop :=
  Forall (fun ev => match ev with Ev c _ _ => no_rollback c | EvDB _ => True end) l /\
  made sd l /\
  forall n, (n < length (installers sd))%nat -> exists db, Ev (CInstaller n OpCommitUpdate) None db ∈ l.

(** The name may have changed with the last event, to a name that may be
    written. *)
Definition name_outcome (w : World) (l : list Event) : Prop :=
  Forall name_kept (tail l) /\
  (db_contents w !! ArtifactNameKey = name0 \/
   (exists sd, db_contents w !! ArtifactNameKey = Some (artifactName sd +:+ BrokenArtifactSuffix) /\
      sourced sd l) \/
   exists sd, db_contents w !! ArtifactNameKey = Some (artifactName sd) /\ all_committed sd l).

Lemma sourced_app sd l1 l : sourced sd l -> sourced sd (l1 ++ l).
Proof. intros [types Hs]. exists types. by apply source_app. Qed.

Lemma made_app sd l1 l : made sd l -> made sd (l1 ++ l).
Proof.
  intros (types & db & Hl & Hs). exists types, db. split; [apply elem_of_app; by right|by apply source_app].
Qed.

Lemma made_sourced sd l : made sd l -> sourced sd l.
Proof. intros (types & db & _ & Hs). by exists types. Qed.

Lemma quiet_outcome P w l : quiet P w l -> name_outcome w l.
Proof.
  intros [Hn Hl]. split; [|by left].
  assert (Forall name_kept l) as Hk by (eapply Forall_impl; [exact Hl|]; by intros ev []).
  destruct Hk; cbn; [constructor|done].
Qed.

(** What a clean-up may write for [sd]. *)
Definition may_commit (sd : standaloneData) (l : list Event) : Prop :=
  artifactName sd = EmptyString \/
  (exists sd0, artifactName sd = artifactName sd0 +:+ BrokenArtifactSuffix /\ sourced sd0 l) \/
  all_committed sd l.

Lemma cleanup_txn_name sd (txn txn' : Txn) : cleanup_txn matcher sd txn = ((), None, txn') ->
  contents txn' !! ArtifactNameKey =
    if bool_decide (artifactName sd = EmptyString) then contents txn !! ArtifactNameKey
    else Some (artifactName sd).
Proof.
  unfold cleanup_txn. destruct (Remove StandaloneStateKey txn) as [[err|] t1] eqn:Hr; [done|].
  case_bool_decide.
  - intros [= <-]. by rewrite (Remove_ok _ _ _ Hr), lookup_delete_ne.
  - destruct (CommitArtifactData _ _ _ _ _ t1) as [err t2] eqn:Hc. intros [= -> ->].
    by apply CommitArtifactData_name in Hc.
Qed.

Definition cleanup_store (sd : standaloneData) (db : DB) : option error * DB :=
  let '(_, err, db) := WriteTransaction () (cleanup_txn matcher sd) db in (err, db).

Lemma cleanup_store_name sd db err db' : cleanup_store sd db = (err, db') ->
  contents db' !! ArtifactNameKey = contents db !! ArtifactNameKey \/
  artifactName sd <> EmptyString /\ contents db' !! ArtifactNameKey = Some (artifactName sd).
Proof.
  unfold cleanup_store.
  destruct (WriteTransaction_spec () (cleanup_txn matcher sd) db)
    as [x s1 H1'|t a x t1 s1 H1' H2' H3'|t a x t1 s1 H1' H2' H3'|t [] t1 s1 H1' H2' H3'];
    intros [= <- <-]; [left; congruence..|].
  apply cleanup_txn_name in H2'. rewrite H1' in H2'. rewrite H3', H2'. case_bool_decide; auto.
Qed.

Lemma all_committed_app sd l1 l :
  Forall (fun ev => match ev with Ev c _ _ => no_rollback c | EvDB _ => True end) l1 ->
  all_committed sd l -> all_committed sd (l1 ++ l).
Proof.
  intros Hl1 (Hno & Hm & Hops). split; [by apply Forall_app|]. split; [by apply made_app|].
  intros n Hn. destruct (Hops n Hn) as [db' Hdb]. exists db'. apply elem_of_app. by right.
Qed.

Lemma ops_no_rollback op idx answers db : op <> OpRollback ->
  Forall (fun ev => match ev with Ev c _ _ => no_rollback c | EvDB _ => True end)
    (op_events op idx answers db).
Proof. intros Hop. apply Forall_forall. intros ev (n & a & -> & _)%elem_of_op_events m. congruence. Qed.

Lemma hwp_cleanup sd w l : quiet any_call w l -> may_commit sd l ->
  hwp (doStandaloneCleanup matcher sd) (fun _ w' l' => name_outcome w' l') w l.
Proof.
  intros Hq Hmay. unfold doStandaloneCleanup. apply hwp_bind, hwp_first_error.
  intros answers w1 _ Hs. apply hwp_bind, hwp_db_op. intros err w2 Hdb.
  change (cleanup_store sd (w_db w1) = (err, w_db w2)) in Hdb. apply hwp_ret.
  set (l1 := op_events _ _ _ _ ++ l).
  assert (quiet any_call w1 l1) as [Hn Hl].
  { eapply quiet_same; [exact Hs|]. by apply quiet_ops. }
  split; [eapply Forall_impl; [exact Hl|]; by intros ev []|].
  destruct (cleanup_store_name _ _ _ _ Hdb) as [He|[Hne He]]; [left; by rewrite <- Hn|right].
  destruct Hmay as [Hem|[[sd0 [Hn' Hsrc]]|Hall]]; [done| |right].
  { left. exists sd0. split; [by rewrite <- Hn'|]. by apply (sourced_app sd0 [_]), sourced_app. }
  exists sd. split; [done|]. apply (all_committed_app sd [_]); [by repeat constructor|].
  apply all_committed_app; [by apply ops_no_rollback|done].
Qed.

(** *** The failure states *)

Lemma failure_name_may_commit sd rollback failure support err l :
  (rollback || failure || bool_decide (is_Some err) = true -> sourced sd l) ->
  may_commit (failure_name sd rollback failure support err) l.
Proof.
  intros Hs. unfold failure_name. destruct (bool_decide (is_Some err)), rollback, failure, support; cbn in *;
    try (right; left; exists sd; split; [done|auto]); by left.
Qed.

(** The history only grows. *)
Lemma hwp_grows {A} (m : M A) Q w l : hwp m Q w l ->
  hwp m (fun a w' l' => Q a w' l' /\ exists l1, l' = l1 ++ l) w l.
Proof. intros (l1 & Hl1 & HQ). exists l1. eauto. Qed.

Lemma hwp_after_grows P {A B} (m : M A) (f : A -> M B) Q w l : quiet P w l -> calm P m ->
  (forall a w' l1, quiet P w' (l1 ++ l) -> hwp (f a) Q w' (l1 ++ l)) -> hwp (m ≫= f) Q w l.
Proof.
  intros Hq Hm Hf. apply hwp_bind. eapply hwp_mono; [apply hwp_grows; exact (Hm _ _ Hq)|].
  intros a w' l' [Hq' [l1 ->]]. by apply Hf.
Qed.

Lemma hwp_FailureStates sd rollback failure cleanup w l : quiet any_call w l ->
  (rollback || failure = true -> sourced sd l) ->
  hwp (doStandaloneFailureStates matcher sd rollback failure cleanup)
    (fun r w' l' => name_outcome w' l' /\ (cleanup = false -> quiet any_call w' l' /\ may_commit r.2 l')) w l.
Proof.
  intros Hq Hsrc. unfold doStandaloneFailureStates.
  apply hwp_bind. eapply hwp_mono; [apply hwp_grows|].
  { instantiate (1 := fun r w' l' => quiet any_call w' l' /\ (rollback = false -> r.2 = None)).
    destruct rollback; [|by apply hwp_ret].
    eapply hwp_mono; [by apply calm_FailureStatesRollback|]. by intros. }
  intros [support firstErr] w1 l1 [[Hq1 Hr] [l1' ->]]. apply hwp_bind. eapply hwp_mono; [apply hwp_grows|].
  { instantiate (1 := fun err w' l' => quiet any_call w' l' /\ (failure = false -> err = None)).
    destruct failure; [|by apply hwp_ret].
    eapply hwp_mono; [by apply calm_FailureStatesFailure|]. by intros. }
  intros err w2 l2 [[Hq2 Hf] [l2' ->]]. cbn zeta.
  assert (may_commit (failure_name sd rollback failure support
    (match firstErr with Some e => Some e | None => err end)) (l2' ++ l1' ++ l)) as Hmay.
  { apply failure_name_may_commit. intros Hcase. apply sourced_app, sourced_app, Hsrc.
    cbn in Hr. destruct rollback, failure; try done. by rewrite (Hr eq_refl), (Hf eq_refl) in Hcase. }
  destruct cleanup.
  - apply hwp_bind. eapply hwp_mono; [by apply hwp_cleanup|]. intros err' w3 l3 Ho. by apply hwp_ret.
  - apply hwp_ret. split; [by eapply quiet_outcome|]. by intros _.
Qed.

Lemma hwp_fail_state {A} scripts sd rollback failure err w l : quiet any_call w l ->
  (rollback || failure = true -> sourced sd l) ->
  hwp (fail_state (A:=A) matcher scripts sd rollback failure err)
    (fun r w' l' => name_outcome w' l' /\ r = Err err) w l.
Proof.
  intros Hq Hsrc. unfold fail_state. apply (hwp_after_grows any_call); [done| |].
  { destruct scripts; [by apply calm_callErrorScript|apply calm_ret]. }
  intros _ w1 l1 Hq1. apply hwp_bind. eapply hwp_mono; [apply hwp_FailureStates; [done|]|].
  - intros Hc. by apply sourced_app, Hsrc.
  - intros r w2 l2 [Ho _]. by apply hwp_ret.
Qed.

(** *** The commands *)

(** The name in the file from before the database, when an installation from
    then waits for its commit. *)
Definition pre_database_name (name : string) (d : D) : Prop :=
  exists p d1 d2, DualRootfs device = Some p /\
    (let '(r, s) := pre_database_check e (mkDevice p d) in (r, sys s)) = (Ok (), d1) /\
    GetManifestData "artifact_name" (DeprecatedArtifactInfoFile device) d1 = (Ok name, d2).

(** The artifact that waits for its commit: the one in the database, or one
    from before there was a database. *)
Definition waiting (db : gmap string string) (d : D) (types : list string) (name : string) : Prop :=
  match db !! StandaloneStateKey with
  | Some data => exists st, Saved.unmarshal data = Ok st /\ Saved.Version st = StandaloneStateDataVersion /\
                   types = Saved.PayloadTypes st /\ name = Saved.ArtifactName st
  | None => types = ["rootfs-image"] /\ pre_database_name name d
  end.

Definition restorable (w : World) (l : list Event) : Prop :=
  forall types name, waiting (db_contents w) (w_env w) types name -> source l types name.

(** Making the installers of [sd]: the answer is an event. *)
Lemma hwp_create (mk : list string -> standaloneData) types name w l :
  (forall l, installers (mk l) = l) -> (forall l, artifactName (mk l) = name) ->
  source l types name -> quiet no_rollback w l ->
  hwp (r ← call (CCreateInstallersFromList types);
       let '(ins, err) := r : list string * option error in
       mret match err with Some err => Err err | None => Ok (mk ins) end)
    (fun r w' l' => quiet no_rollback w' l' /\ forall sd, r = Ok sd -> made sd l') w l.
Proof.
  intros Hmk Hname Hsrc Hq. hstep. hstep. destruct a as [ins err]. hstep. split.
  - eapply quiet_same; [exact Hs|]. by apply quiet_event.
  - intros sd. destruct err as [|]; [done|]. intros [= <-]. exists types, (db_contents w). rewrite Hmk, Hname.
    split; [apply elem_of_cons; by left|by apply (source_app [_])].
Qed.

Lemma hwp_no_data (m : M (result standaloneData)) err w l : m = mret (Err err) -> quiet no_rollback w l ->
  hwp m (fun r w' l' => quiet no_rollback w' l' /\ forall sd, r = Ok sd -> made sd l') w l.
Proof. intros -> Hq. by hstep. Qed.

Lemma quiet_env P w w' l : w_db w' = w_db w -> quiet P w l -> quiet P w' l.
Proof. intros Hdb [Hn Hl]. split; [|done]. unfold db_contents. by rewrite Hdb. Qed.

Lemma hwp_pre_database w l : quiet no_rollback w l ->
  (forall name, pre_database_name name (w_env w) -> source l ["rootfs-image"] name) ->
  hwp (handlePreDatabaseRestore e device)
    (fun r w' l' => quiet no_rollback w' l' /\ forall sd, r = Ok sd -> made sd l') w l.
Proof.
  intros Hq Hsrc. unfold handlePreDatabaseRestore.
  destruct (DualRootfs device) as [p|] eqn:Hp; [|by eapply hwp_no_data].
  apply hwp_bind, hwp_env_op. intros r w1 Hr Hdb1. apply (quiet_env _ _ _ _ Hdb1) in Hq.
  destruct r as [[]|]; [|by eapply hwp_no_data].
  apply hwp_bind, hwp_env_op. intros r w2 Hr2 Hdb2. apply (quiet_env _ _ _ _ Hdb2) in Hq.
  destruct r as [name|]; [|by eapply hwp_no_data].
  apply (hwp_create (fun ins => mkStandalone _ _ _ _ ins) _ name); [done..| |done].
  apply Hsrc. by exists p, (w_env w1), (w_env w2).
Qed.

Lemma hwp_restore w l : quiet no_rollback w l -> restorable w l ->
  hwp (restoreStandaloneData e device)
    (fun r w' l' => quiet no_rollback w' l' /\ forall sd, r = Ok sd -> made sd l') w l.
Proof.
  intros Hq Hsrc. unfold restoreStandaloneData. apply hwp_bind, hwp_db_read.
  destruct (ReadAll StandaloneStateKey (w_db w)) as [data|err] eqn:Hread.
  - apply ReadAll_ok in Hread. destruct (Saved.unmarshal data) as [st|] eqn:Hst; [|by eapply hwp_no_data].
    destruct (Z.eqb_spec (Saved.Version st) StandaloneStateDataVersion) as [Hv|]; [|by eapply hwp_no_data].
    apply (hwp_create (fun ins => mkStandalone _ _ _ _ ins) _ (Saved.ArtifactName st)); [done..| |done].
    apply Hsrc. unfold waiting, db_contents. rewrite Hread. eauto.
  - destruct (IsNotExist err) eqn:He; [|by eapply hwp_no_data].
    apply ReadAll_not_exist in Hread; [|done]. apply hwp_pre_database; [done|].
    intros name Hname. apply Hsrc. unfold waiting, db_contents. by rewrite Hread.
Qed.

Lemma quiet_all_committed sd w l : quiet no_rollback w l -> made sd l ->
  (forall n, (n < length (installers sd))%nat -> exists db, Ev (CInstaller n OpCommitUpdate) None db ∈ l) ->
  all_committed sd l.
Proof. intros [_ Hl] Hm Hn. split; [|done]. eapply Forall_impl; [exact Hl|]. by intros ev []. Qed.

(** The error path of a command. *)
Lemma hwp_fail_command scripts sd rollback failure err w l : quiet any_call w l ->
  (rollback || failure = true -> sourced sd l) ->
  hwp (r ← fail_state (A:=()) matcher scripts sd rollback failure err; mret (err_of r))
    (fun _ w' l' => name_outcome w' l') w l.
Proof.
  intros Hq Hs. apply hwp_bind. eapply hwp_mono; [by apply hwp_fail_state|]. intros r w' l' [Ho _]. by hstep.
Qed.

Lemma quiet_any w l P : quiet P w l -> quiet any_call w l.
Proof. by apply quiet_weaken. Qed.

Lemma hwp_commit_ops sd w l : quiet no_rollback w l -> made sd l ->
  hwp (until_error OpCommitUpdate (standalone_indices sd))
    (fun err w' l' => quiet no_rollback w' l' /\ made sd l' /\ (err = None -> all_committed sd l')) w l.
Proof.
  intros Hq Hm. apply hwp_until_error.
  - intros w' Hs.
    assert (quiet no_rollback w' (op_events OpCommitUpdate (standalone_indices sd)
      (replicate (length (standalone_indices sd)) None) (db_contents w) ++ l)) as Hq'.
    { eapply quiet_same; [exact Hs|]. by apply quiet_ops. }
    split; [done|]. split; [by apply made_app|]. intros _. eapply quiet_all_committed; [exact Hq'|by apply made_app|].
    intros n Hn. destruct (op_events_answered OpCommitUpdate (standalone_indices sd)
      (replicate (length (standalone_indices sd)) None) (db_contents w) n) as (a & Ha & He).
    + apply length_replicate.
    + apply elem_of_seq. lia.
    + apply elem_of_replicate in Ha as [-> _]. exists (db_contents w). apply elem_of_app. by left.
  - intros err k w' _ Hs. split; [eapply quiet_same; [exact Hs|]; by apply quiet_ops|].
    split; [by apply made_app|done].
Qed.

Lemma hwp_commit_states sd w l : quiet no_rollback w l -> made sd l ->
  hwp (doStandaloneCommitStates matcher sd) (fun _ w' l' => name_outcome w' l') w l.
Proof.
  intros Hq Hm. unfold doStandaloneCommitStates. hstep. hstep.
  match goal with |- context [Ev ?c ?a ?db] => set (ev := Ev c a db) end.
  assert (quiet no_rollback w0 (ev :: l)) as Hq1.
  { eapply quiet_same; [exact Hs|]. by apply quiet_event. }
  apply (made_app sd [ev]) in Hm. cbn [app] in Hm.
  destruct a as [err|].
  { apply hwp_fail_command; [eapply quiet_any, Hq1|]. intros _. by apply made_sourced. }
  apply hwp_bind. eapply hwp_mono; [by apply hwp_commit_ops|].
  intros err w2 l2 (Hq2 & Hm2 & Hall). destruct err as [err|].
  { apply hwp_fail_command; [eapply quiet_any, Hq2|]. intros _. by apply made_sourced. }
  specialize (Hall eq_refl). hstep. hstep.
  match goal with |- context [Ev ?c ?a ?db] => set (ev2 := Ev c a db) end.
  assert (quiet any_call w1 (ev2 :: l2)) as Hq3.
  { apply (quiet_any _ _ no_rollback). eapply quiet_same; [exact Hs0|]. by apply quiet_event. }
  assert (all_committed sd (ev2 :: l2)) as Hall'.
  { apply (all_committed_app sd [_]); [|done]. repeat constructor. by intros n. }
  apply (made_app sd [ev2]), made_sourced in Hm2. cbn [app] in Hm2.
  apply hwp_bind. destruct a as [err|]; [apply (hwp_after_grows any_call); [done|by apply calm_callErrorScript|]|hstep].
  - intros _ w3 l3 Hq4. hstep. apply hwp_bind. eapply hwp_mono.
    { apply hwp_cleanup; [done|]. right; left. exists sd. split; [done|]. by apply sourced_app. }
    intros err2 w4 l4 Ho. by hstep.
  - apply hwp_bind. eapply hwp_mono; [apply hwp_cleanup; [done|by right; right]|].
    intros err2 w4 l4 Ho. by hstep.
Qed.

Lemma hwp_commit w l : quiet no_rollback w l -> restorable w l ->
  hwp (DoStandaloneCommit e device matcher) (fun _ w' l' => name_outcome w' l') w l.
Proof.
  intros Hq Hsrc. unfold DoStandaloneCommit. apply hwp_bind. eapply hwp_mono; [by apply hwp_restore|].
  intros [sd|err] w1 l1 [Hq1 Hm]; [|hstep; by eapply quiet_outcome]. apply hwp_commit_states; auto.
Qed.

Lemma hwp_rollback w l : quiet no_rollback w l -> restorable w l ->
  hwp (DoStandaloneRollback e device matcher) (fun _ w' l' => name_outcome w' l') w l.
Proof.
  intros Hq Hsrc. unfold DoStandaloneRollback. apply hwp_bind. eapply hwp_mono; [by apply hwp_restore|].
  intros [sd|err] w1 l1 [Hq1 Hm]; [|hstep; by eapply quiet_outcome].
  specialize (Hm _ eq_refl). apply made_sourced in Hm.
  apply (hwp_after_grows no_rollback); [done|by apply calm_determineRollbackSupport|].
  intros [[]|err] w2 l2 Hq2; [|hstep; by eapply quiet_outcome..].
  unfold rollback_restored. apply (hwp_after_grows any_call); [by eapply quiet_any|apply calm_RollbackState|].
  intros err w3 l3 Hq3. apply hwp_bind. destruct err as [err|].
  - apply hwp_bind. eapply hwp_mono.
    { apply hwp_FailureStates; [done|]. intros _. by apply sourced_app, sourced_app. }
    intros r w4 l4 [_ Hr].
    destruct (Hr eq_refl) as [Hq4 Hmay]. hstep. apply hwp_bind.
    eapply hwp_mono; [by apply hwp_cleanup|]. intros; by hstep.
  - hstep. apply hwp_bind. eapply hwp_mono; [apply hwp_cleanup; [done|by left]|]. intros; by hstep.
Qed.

(** *** Installing *)

(** The headers were read from the artifact, and [sd] has its name and the
    types of its payloads. *)
Definition from_headers (sd : standaloneData) (l : list Event) : Prop :=
  exists headers db, Ev CReadArtifactHeaders (installers sd, Ok headers) db ∈ l /\
    artifactName sd = GetArtifactName headers.

Definition downloaded (r : result standaloneData) (w : World) (l : list Event) : Prop :=
  match r with Ok sd => quiet no_rollback w l /\ from_headers sd l | Err _ => name_outcome w l end.

Lemma from_headers_app sd l1 l : from_headers sd l -> from_headers sd (l1 ++ l).
Proof. intros (h & db & Hl & Hn). exists h, db. split; [apply elem_of_app; by right|done]. Qed.

Lemma take_headers_name ins headers provides :
  artifactName (take_headers ins headers provides) = GetArtifactName headers /\
  installers (take_headers ins headers provides) = ins.
Proof. unfold take_headers. by repeat case_match. Qed.

Lemma calm_depends_met depends : calm no_rollback (depends_met depends).
Proof. unfold depends_met, verifyAndSetArtifactNameInProvides, GetCurrentArtifactName, getValueFromDatabaseKey. keep. Qed.

Lemma hwp_download_failed scripts sd err w l : quiet no_rollback w l ->
  hwp (fail_state matcher scripts sd false false err) downloaded w l.
Proof.
  intros Hq. eapply hwp_mono; [eapply hwp_fail_state; [eapply quiet_any, Hq|done]|]. by intros r w' l' [Ho ->].
Qed.

Lemma hwp_no_download (err : error) w l : quiet no_rollback w l ->
  hwp (mret (Err err) : M _) downloaded w l.
Proof. intros Hq. hstep. by eapply quiet_outcome. Qed.

(** Steps over a call and keeps the name. *)
Ltac quiet_call :=
  lazymatch goal with
  | |- hwp (call ?c ≫= _) _ _ _ => apply (hwp_after_grows no_rollback); [done|by apply (calm_call _ c)|]
  end.

Lemma hwp_store_payloads sd w l : quiet no_rollback w l -> from_headers sd l ->
  hwp (store_payloads matcher sd) downloaded w l.
Proof.
  intros Hq Hsd. unfold store_payloads. quiet_call. intros [err|] w1 l1 Hq1; [by apply hwp_download_failed|].
  quiet_call. intros [err|] w2 l2 Hq2; [by apply hwp_download_failed|]. hstep.
  split; [done|]. by apply from_headers_app, from_headers_app.
Qed.

Lemma hwp_download_artifact ins headers w l : quiet no_rollback w l ->
  (exists db, Ev CReadArtifactHeaders (ins, Ok headers) db ∈ l) ->
  hwp (download_artifact matcher ins headers) downloaded w l.
Proof.
  intros Hq [db Hl]. unfold download_artifact.
  destruct (GetArtifactProvides headers) as [provides|]; [|by apply hwp_no_download].
  destruct (GetArtifactDepends headers); [|by apply hwp_no_download].
  apply (hwp_after_grows no_rollback); [done|apply calm_depends_met|].
  intros [err|] w1 l1 Hq1; [by apply hwp_no_download|]. apply hwp_store_payloads; [done|].
  apply from_headers_app. destruct (take_headers_name ins headers provides) as [Hname Hins].
  exists headers, db. cbn. by rewrite Hname, Hins.
Qed.

Lemma hwp_download w l : quiet no_rollback w l ->
  hwp (doStandaloneInstallStatesDownload device matcher) downloaded w l.
Proof.
  intros Hq. unfold doStandaloneInstallStatesDownload.
  apply (hwp_after no_rollback); [done|apply calm_env_op|].
  intros [dt|err] w1 l1 Hq1; [|by apply hwp_no_download].
  quiet_call. intros [err|] w2 l2 Hq2.
  { apply (hwp_after no_rollback); [done|by apply calm_callErrorScript|]. intros. by apply hwp_no_download. }
  apply (hwp_after no_rollback); [done|apply calm_env_op|].
  intros [keys|err] w3 l3 Hq3; [|by apply hwp_download_failed].
  hstep. hstep. assert (quiet no_rollback w0 (Ev CReadArtifactHeaders a (db_contents w3) :: l3)) as Hq4.
  { eapply quiet_same; [exact Hs|]. by apply (quiet_event _ CReadArtifactHeaders). }
  destruct a as [ins [headers|err]]; [|by apply hwp_download_failed].
  apply hwp_download_artifact; [done|]. eexists. apply elem_of_cons. by left.
Qed.

Lemma calm_install_payloads sd : calm no_rollback (install_payloads sd).
Proof. unfold install_payloads. keep; done. Qed.

Lemma saved_restorable sd w l : source l (installers sd) (artifactName sd) ->
  db_contents w !! StandaloneStateKey = Some (Saved.marshal (saved sd)) -> restorable w l.
Proof.
  intros Hsrc Hd types name. unfold waiting. rewrite Hd. intros (st & Hst & _ & -> & ->).
  rewrite saved_roundtrip in Hst by done. by injection Hst as <-.
Qed.

(** What the history tells of an installation. *)
Definition sources_headers : Prop := forall sd l, from_headers sd l -> source l (installers sd) (artifactName sd).

Lemma hwp_finish_install sd support needed code w l : sources_headers ->
  quiet no_rollback w l -> from_headers sd l ->
  hwp (finish_install e device matcher sd support needed code) (fun _ w' l' => name_outcome w' l') w l.
Proof.
  intros Hsrc Hq Hsd. unfold finish_install, storeStandaloneData.
  apply hwp_bind, hwp_db_op. intros err w1 Hw.
  assert (quiet no_rollback w1 (EvDB (db_contents w1) :: l)) as Hq1.
  { destruct Hq as [Hn Hl]. assert (db_contents w1 !! ArtifactNameKey = name0) as Hn'.
    { unfold db_contents. rewrite <- Hn. destruct err as [err|].
      - by rewrite (WriteAll_err _ _ _ _ _ Hw).
      - by rewrite (WriteAll_ok _ _ _ _ Hw), lookup_insert_ne. }
    split; [done|]. by constructor. }
  destruct err as [err|]; [hstep; by eapply quiet_outcome|].
  apply hwp_bind. eapply hwp_mono.
  { instantiate (1 := fun _ w' l' => name_outcome w' l').
    destruct support; [hstep; by eapply quiet_outcome|]. apply hwp_commit; [done|].
    apply (saved_restorable sd); [apply (source_app [_]); by apply Hsrc|].
    unfold db_contents. by rewrite (WriteAll_ok _ _ _ _ Hw), lookup_insert_eq. }
  intros [err|] w2 l2 Ho; by hstep.
Qed.

Lemma hwp_install_downloaded sd code w l : sources_headers -> quiet no_rollback w l -> from_headers sd l ->
  hwp (install_downloaded e device matcher sd code) (fun _ w' l' => name_outcome w' l') w l.
Proof.
  intros Hsrc Hq Hsd. unfold install_downloaded.
  apply (hwp_after_grows no_rollback); [done|by apply calm_determineRollbackSupport|].
  intros [support|err] w1 l1 Hq1; [|by apply hwp_fail_command; [eapply quiet_any, Hq1|]].
  apply (from_headers_app _ l1) in Hsd.
  apply (hwp_after_grows no_rollback); [done|apply calm_install_payloads|].
  intros err w2 l2 Hq2. apply (from_headers_app _ l2) in Hsd.
  assert (sourced sd (l2 ++ l1 ++ l)) as Hs by (eexists; by apply Hsrc).
  destruct err as [err|]; [apply hwp_fail_command; [eapply quiet_any, Hq2|done]|].
  apply (hwp_after_grows no_rollback); [done|by apply calm_determineRebootNeeded|].
  intros [needed|err] w3 l3 Hq3.
  - apply hwp_finish_install; [done..|]. by apply from_headers_app.
  - apply hwp_fail_command; [eapply quiet_any, Hq3|]. intros _. by apply sourced_app.
Qed.

Lemma hwp_install code w l : sources_headers -> quiet no_rollback w l ->
  hwp (doStandaloneInstallStates e device matcher code) (fun _ w' l' => name_outcome w' l') w l.
Proof.
  intros Hsrc Hq. unfold doStandaloneInstallStates. apply hwp_bind. eapply hwp_mono; [by apply hwp_download|].
  intros [sd|err] w1 l1 Hd; [destruct Hd; by apply hwp_install_downloaded|by hstep].
Qed.

End names.

(** ** The property *)

Section property.
Context {DB D : Type} `{StoreLaws DB} `{Env D} `{Os D} `{!ProbeOs D}.
Context `{!BootEnvReadWriter E D} (e : E).
Variable device : DeviceConfig.
Variable matcher : list string -> list string -> result (list string).

(** The commands, each a process of its own. *)
Inductive command : Type := CmdInstall (rebootExitCode : bool) | CmdCommit | CmdRollback.

Definition run_command (cmd : command) : M DB D (option error) :=
  match cmd with
  | CmdInstall rebootExitCode => doStandaloneInstallStates e device matcher rebootExitCode
  | CmdCommit => DoStandaloneCommit e device matcher
  | CmdRollback => DoStandaloneRollback e device matcher
  end.

(** Where the name comes from: the headers of the artifact that is installed,
    or what waited for its commit when the command began. *)
Definition name_source (cmd : command) (w : World DB D) (l : list Event) (types : list string)
    (name : string) : Prop :=
  match cmd with
  | CmdInstall _ => exists headers db, Ev CReadArtifactHeaders (types, Ok headers) db ∈ l /\
                      name = GetArtifactName headers
  | CmdCommit | CmdRollback => waiting e device (db_contents w) (w_env w) types name
  end.

Lemma name_source_app cmd w l1 l types name :
  name_source cmd w l types name -> name_source cmd w (l1 ++ l) types name.
Proof.
  destruct cmd; [|done..]. intros (h & db & Hl & Hn). exists h, db. split; [apply elem_of_app; by right|done].
Qed.

(** C14: whatever the installers, the scripts, the store and the boot environment
    answer, a command that installs, commits or rolls back without a server
    changes the name of the installed artifact with its last action only, so
    that a command killed before has changed nothing; and it leaves the name as
    it was, or flags the artifact at hand as inconsistent, or writes its name
    after it has committed each of its payloads without rolling back any.  The
    artifact at hand is the one whose headers the installation has read, or the
    one that waited for its commit when the command began: the data of the
    database with the types of its payloads or, without any, the name in the file
    from before the database with the one payload of a root file system. *)
Theorem command_names_what_it_committed cmd (w : World DB D) :
  exists l, w_log (run_command cmd w).2 = l ++ w_log w /\
    name_outcome (db_contents w !! ArtifactNameKey) (name_source cmd w) (run_command cmd w).2 l.
Proof.
  assert (hwp (run_command cmd)
    (fun _ w' l' => name_outcome (db_contents w !! ArtifactNameKey) (name_source cmd w) w' l') w []) as Hr.
  { pose proof (name_source_app cmd w) as Happ.
    destruct cmd; [apply hwp_install|apply hwp_commit|apply hwp_rollback]; try done; try (by split).
    1: intros sd l (headers & db & Hl & Hn); by exists headers, db.
    all: by intros types name Hw. }
  apply (hwp_run _ _ _ Hr (run_command cmd w).1). by destruct (run_command cmd w).
Qed.

End property.
