(* ===== verification/StandaloneUndo.v ===== *)
(** * StandaloneUndo: what happens after a failure

    A state ArtifactInstall or ArtifactCommit of the command line that fails is
    undone: every payload is rolled back, told of the failure and cleaned up. *)

From S2P Require Import Prelude Json Store StateData DataStore ControlMapPool.
From S2P Require Import States World Controller Triples Text Os Manifest BootEnv DualRootfs.
From S2P Require Import Standalone History.

Open Scope Z_scope.

(** ** The calls *)

Definition on_all (op : InstallerOp) (idx : list nat) : list Call := (fun n => CInstaller n op) <$> idx.

(** Scripts around the calls to all the installers. *)
Definition around (state : string) (ignore : bool) (calls : list Call) : list Call :=
  [CExecuteAll state "Enter" ignore None] ++ calls ++ [CExecuteAll state "Leave" ignore None].

Definition undo_calls (state : string) (idx : list nat) : list Call :=
  [CExecuteAll state "Error" true None] ++
  (CSupportsRollback <$> idx) ++
  around "ArtifactRollback" false (on_all OpRollback idx) ++
  around "ArtifactFailure" true (on_all OpFailure idx) ++
  on_all OpCleanup idx.

(** Each payload says that it can be rolled back. *)
Definition says_supported (ev : Event) : Prop :=
  match ev with
  | Ev c a _ =>
      match c return answer c -> Prop with
      | CSupportsRollback _ => fun a => a = Ok true
      | _ => fun _ => True
      end a
  | EvDB _ => True
  end.

(** Rolling back and the failure states went well. *)
Definition undone (ev : Event) : Prop :=
  match ev with
  | Ev c a _ =>
      match c return answer c -> Prop with
      | CInstaller _ op => fun a => op = OpRollback \/ op = OpFailure -> a = None
      | CExecuteAll state _ _ _ =>
          fun a => state = "ArtifactRollback" \/ state = "ArtifactFailure" -> a = None
      | _ => fun _ => True
      end a
  | EvDB _ => True
  end.

Section undo.
Context {DB D : Type} `{ReliableStore DB} `{Env D} `{Os D} `{!ProbeOs D}.
Context `{!BootEnvReadWriter E D} (e : E).
Variable device : DeviceConfig.
Variable matcher : list string -> list string -> result (list string).

Notation M := (M DB D).
Notation World := (World DB D).

Lemma same_trans (w1 w2 w3 : World) : same w1 w2 -> same w2 w3 -> same w1 w3.
Proof. intros [] []. split; congruence. Qed.

(** A part that changes nothing but the history: what it adds is [evs]. *)
Definition adds {A} (m : M A) (R : A -> list Event -> Prop) : Prop := forall w l Q,
  (forall a evs w', same w w' -> R a evs -> Q a w' (evs ++ l)) -> hwp m Q w l.

Lemma adds_call c : adds (call c) (fun a evs => exists db, evs = [Ev c a db]).
Proof. intros w l Q HQ. apply hwp_call. intros a w' Hs. apply (HQ a [_]); eauto. Qed.

Lemma adds_ret {A} (a : A) : adds (mret a) (fun b evs => b = a /\ evs = []).
Proof. intros w l Q HQ. apply hwp_ret. by apply (HQ a []). Qed.

Lemma adds_bind {A B} (m : M A) (f : A -> M B) R1 R2 : adds m R1 -> (forall a, adds (f a) (R2 a)) ->
  adds (m ≫= f) (fun b evs => exists a evs1 evs2, evs = evs2 ++ evs1 /\ R1 a evs1 /\ R2 a b evs2).
Proof.
  intros Hm Hf w l Q HQ. apply hwp_bind, Hm. intros a evs1 w1 Hs1 H1'. apply Hf. intros b evs2 w2 Hs2 H2'.
  rewrite app_assoc. apply HQ; [by eapply same_trans|]. exists a, evs1, evs2. auto.
Qed.

Lemma adds_weaken {A} (m : M A) (R R' : A -> list Event -> Prop) : adds m R ->
  (forall a evs, R a evs -> R' a evs) -> adds m R'.
Proof. intros Hm HR w l Q HQ. apply Hm. auto. Qed.

Lemma adds_first_error op idx acc : adds (first_error op idx acc)
  (fun err evs => exists answers db, length answers = length idx /\
     err = foldl or_error acc answers /\ evs = op_events op idx answers db).
Proof. intros w l Q HQ. apply hwp_first_error. intros answers w' Hlen Hs. apply HQ; eauto 6. Qed.

(** *** The parts *)

Lemma Forall_op_events (P : Event -> Prop) op idx answers db : length answers = length idx ->
  Forall P (op_events op idx answers db) ->
  forall a, a ∈ answers -> exists n, P (Ev (CInstaller n op) a db).
Proof.
  revert answers. induction idx as [|n idx IH]; intros [|a answers] Hlen Hall b Hb; try done;
    [by apply not_elem_of_nil in Hb|].
  injection Hlen as Hlen. rewrite op_events_cons in Hall. apply Forall_app in Hall as [Hall Hn].
  apply elem_of_cons in Hb as [->|Hb]; [exists n; by inversion Hn|by apply (IH answers)].
Qed.

Lemma adds_around state ignore op idx :
  (state = "ArtifactRollback" \/ state = "ArtifactFailure") -> (op = OpRollback \/ op = OpFailure) ->
  adds (firstErr ← call (CExecuteAll state "Enter" ignore None);
        firstErr ← first_error op idx firstErr;
        err ← call (CExecuteAll state "Leave" ignore None);
        mret (match (firstErr : option error) with Some err => Some err | None => err end))
    (fun err evs => calls_of evs = around state ignore (on_all op idx) /\
       (Forall undone evs -> err = None)).
Proof.
  intros Hst Hop. eapply adds_weaken.
  { apply adds_bind; [apply (adds_call (CExecuteAll _ _ _ _))|]. intros a1.
    apply adds_bind; [apply adds_first_error|]. intros a2.
    apply adds_bind; [apply (adds_call (CExecuteAll _ _ _ _))|]. intros a3. apply adds_ret. }
  cbn beta. intros err evs (a1 & ? & evs1 & -> & (db1 & ->) & a2 & ? & evs2 & -> &
    (answers & db2 & Hlen & -> & ->) & a3 & ? & ? & -> & (db3 & ->) & -> & ->). split.
  - cbn [app calls_of]. rewrite calls_of_app, calls_of_op_events by done. reflexivity.
  - cbn [app]. intros [Hleave [Hops [Henter _]%Forall_cons]%Forall_app]%Forall_cons.
    assert (foldl or_error a1 answers = None) as ->; [|by apply Hleave].
    apply foldl_or_error. split; [by apply Henter|]. apply Forall_forall. intros a Ha.
    destruct (Forall_op_events _ _ _ _ _ Hlen Hops a Ha) as [n Hn]. by apply Hn.
Qed.

Lemma adds_RollbackState sd : adds (doStandaloneRollbackState sd)
  (fun err evs => calls_of evs = around "ArtifactRollback" false (on_all OpRollback (standalone_indices sd)) /\
     (Forall undone evs -> err = None)).
Proof. apply adds_around; auto. Qed.

Lemma adds_FailureStatesFailure sd : adds (doStandaloneFailureStatesFailure sd)
  (fun err evs => calls_of evs = around "ArtifactFailure" true (on_all OpFailure (standalone_indices sd)) /\
     (Forall undone evs -> err = None)).
Proof. apply adds_around; auto. Qed.

(** Asking for the support changes nothing, whatever the answers. *)
Lemma adds_any_support idx support : adds (rollback_support idx support) (fun _ _ => True).
Proof.
  revert support. induction idx as [|n idx IH]; intros support; cbn [rollback_support].
  - by eapply adds_weaken; [apply adds_ret|].
  - eapply adds_weaken.
    + apply adds_bind; [apply (adds_call (CSupportsRollback n))|]. intros a.
      instantiate (1 := fun _ _ _ => True). repeat case_match; try apply IH;
        by eapply adds_weaken; [apply adds_ret|].
    + done.
Qed.

Lemma adds_rollback_support idx support :
  support = RollbackSupported \/ support = RollbackSupportUnknown /\ idx <> [] ->
  adds (rollback_support idx support)
    (fun r evs => Forall says_supported evs -> calls_of evs = CSupportsRollback <$> idx /\ r = Ok true).
Proof.
  revert support. induction idx as [|n idx IH]; intros support Hsup; cbn [rollback_support].
  - destruct Hsup as [->|[_ ?]]; [|done]. eapply adds_weaken; [apply adds_ret|]. by intros r evs [-> ->].
  - eapply adds_weaken.
    { apply adds_bind; [apply (adds_call (CSupportsRollback n))|]. intros a.
      instantiate (1 := fun a r evs => a = Ok true -> Forall says_supported evs ->
        calls_of evs = CSupportsRollback <$> idx /\ r = Ok true).
      destruct a as [[]|err].
      - assert (SupportsRollback_Set RollbackSupported support = Ok RollbackSupported) as ->
          by (by destruct Hsup as [->|[-> _]]).
        eapply adds_weaken; [apply IH; by left|]. auto.
      - eapply adds_weaken; [|by instantiate (1 := fun _ _ => True)].
        case_match; [apply adds_any_support|by eapply adds_weaken; [apply adds_ret|]].
      - by eapply adds_weaken; [apply adds_ret|]. }
    cbn beta. intros r evs (a & evs1 & evs2 & -> & [db ->] & Hr) [Hall [Ha _]%Forall_cons]%Forall_app.
    destruct (Hr Ha Hall) as [Hc ->]. by rewrite calls_of_app, Hc.
Qed.

Lemma adds_FailureStatesRollback sd : installers sd <> [] ->
  adds (doStandaloneFailureStatesRollback sd)
    (fun r evs => Forall says_supported evs ->
       calls_of evs = (CSupportsRollback <$> standalone_indices sd) ++
         around "ArtifactRollback" false (on_all OpRollback (standalone_indices sd)) /\
       r.1 = true /\ (Forall undone evs -> r.2 = None)).
Proof.
  intros Hne. unfold doStandaloneFailureStatesRollback, determineRollbackSupport.
  rewrite bool_decide_false by done. eapply adds_weaken.
  { apply adds_bind; [apply adds_rollback_support; right; split; [done|]|].
    - by destruct (installers sd).
    - intros r. instantiate (1 := fun r r' evs => r = Ok true ->
        calls_of evs = around "ArtifactRollback" false (on_all OpRollback (standalone_indices sd)) /\
        r'.1 = true /\ (Forall undone evs -> r'.2 = None)).
      destruct r as [[]|err]; [|by eapply adds_weaken; [apply adds_ret|]..].
      eapply adds_weaken; [apply adds_bind; [apply adds_RollbackState|intros a; apply adds_ret]|].
      intros r' evs (a & evs1 & evs2 & -> & [Hc Hu] & -> & ->) _. auto. }
  cbn beta. intros r evs (a & evs1 & evs2 & -> & Hs & Hr) [_ Hall]%Forall_app.
  destruct (Hs Hall) as [Hc ->]. destruct (Hr eq_refl) as (Hc2 & Ht & Hu).
  rewrite calls_of_app, Hc, Hc2. split; [done|]. split; [done|]. intros [Hu2 _]%Forall_app. auto.
Qed.

Lemma cleanup_keeps_name sd db : artifactName sd = EmptyString ->
  forall u err db', WriteTransaction () (cleanup_txn matcher sd) db = (u, err, db') ->
  err = None /\ contents db' = delete StandaloneStateKey (contents db).
Proof.
  intros Hem u err db'. destruct (rel_WriteTransaction () (cleanup_txn matcher sd) db) as (t & s' & Ht & -> & Hc).
  destruct (rel_remove StandaloneStateKey t) as (t' & Hr & Ht').
  unfold cleanup_txn in *. rewrite Hr, bool_decide_true in * by done. intros [= _ <- <-]. cbn in Hc.
  split; [done|]. by rewrite Hc, Ht', Ht.
Qed.

Lemma indices_failure_name sd rollback failure support err :
  standalone_indices (failure_name sd rollback failure support err) = standalone_indices sd.
Proof. unfold failure_name. by repeat case_match. Qed.

(** The failure states of an artifact with payloads, with clean-up. *)
Lemma hwp_undo sd w l : installers sd <> [] ->
  hwp (doStandaloneFailureStates matcher sd true true true) (fun _ w' l' => exists evs, l' = evs ++ l /\
    (Forall says_supported evs ->
     calls_of evs = (CSupportsRollback <$> standalone_indices sd) ++
       around "ArtifactRollback" false (on_all OpRollback (standalone_indices sd)) ++
       around "ArtifactFailure" true (on_all OpFailure (standalone_indices sd)) ++
       on_all OpCleanup (standalone_indices sd) /\
     (Forall undone evs -> db_contents w' = delete StandaloneStateKey (db_contents w)))) w l.
Proof.
  intros Hne. unfold doStandaloneFailureStates, doStandaloneCleanup.
  apply hwp_bind, (adds_FailureStatesRollback sd Hne). intros [support firstErr] evs1 w1 Hs1 H1'.
  apply hwp_bind, adds_FailureStatesFailure. intros err evs2 w2 Hs2 [Hc2 Hu2].
  cbn zeta. apply hwp_bind, hwp_bind, adds_first_error.
  intros err3 evs3 w3 Hs3 (answers & db & Hlen & -> & ->). apply hwp_bind, hwp_db_op. intros err4 w4 Hdb.
  hstep. hstep.
  eexists (EvDB _ :: op_events OpCleanup _ answers db ++ evs2 ++ evs1). split; [cbn [app]; by rewrite <- !app_assoc|].
  intros [_ [_ [_ Hsup]%Forall_app]%Forall_app]%Forall_cons. destruct (H1' Hsup) as (Hc1 & Ht & Hu1).
  cbn in Ht, Hu1. subst support. split.
  - cbn [calls_of]. rewrite !calls_of_app, Hc1, Hc2, calls_of_op_events by done.
    rewrite indices_failure_name. by rewrite <- !app_assoc.
  - intros [_ [_ [Hud2 Hud1]%Forall_app]%Forall_app]%Forall_cons.
    rewrite (Hu1 Hud1), (Hu2 Hud2) in Hdb.
    destruct (WriteTransaction () _ (w_db w3)) as [[u e4] db4] eqn:Hw. injection Hdb as -> ->.
    apply cleanup_keeps_name in Hw as [_ Hw]; [|done]. unfold db_contents. rewrite Hw.
    by rewrite (same_db _ _ Hs3), (same_db _ _ Hs2), (same_db _ _ Hs1).
Qed.

(** With the error scripts before. *)
Lemma hwp_fail_undo {A} state sd err w l : installers sd <> [] ->
  hwp (fail_state (A:=A) matcher (Some state) sd true true err) (fun r w' l' => r = Err err /\
    exists evs, l' = evs ++ l /\
    (Forall says_supported evs ->
     calls_of evs = undo_calls state (standalone_indices sd) /\
     (Forall undone evs -> db_contents w' = delete StandaloneStateKey (db_contents w)))) w l.
Proof.
  intros Hne. unfold fail_state, callErrorScript. hstep. hstep. hstep. hstep. hstep.
  eapply hwp_mono; [by apply hwp_undo|]. intros r w2 l2 (evs & -> & Hevs). hstep. split; [done|].
  eexists (evs ++ [_]). split; [by rewrite <- app_assoc|]. intros [Hsup _]%Forall_app.
  destruct (Hevs Hsup) as [Hc Hdb]. split; [by rewrite calls_of_app, Hc|].
  intros [Hu _]%Forall_app. by rewrite (Hdb Hu), (same_contents _ _ Hs).
Qed.

Lemma adds_same {A} (m : M A) R w a w' : adds m R -> m w = (a, w') -> db_contents w' = db_contents w.
Proof.
  intros Hm Hr. destruct (Hm w [] (fun _ w' _ => same w w')) as (l & _ & Hs); [done|].
  rewrite Hr in Hs. by apply same_contents.
Qed.

(** What is done before a state fails. *)
Lemma adds_until_error op idx : adds (until_error op idx) (fun _ _ => True).
Proof. intros w l Q HQ. apply hwp_until_error; intros; by apply HQ. Qed.

Lemma adds_install_payloads sd : adds (install_payloads sd) (fun _ _ => True).
Proof.
  unfold install_payloads. eapply adds_weaken; [|done]. apply adds_bind; [apply (adds_call (CExecuteAll _ _ _ _))|].
  instantiate (1 := fun _ _ _ => True). intros [err|]; [by eapply adds_weaken; [apply adds_ret|]|].
  eapply adds_weaken; [|done]. apply adds_bind; [apply adds_until_error|].
  instantiate (1 := fun _ _ _ => True). intros [err|]; [by eapply adds_weaken; [apply adds_ret|]|].
  by eapply adds_weaken; [apply (adds_call (CExecuteAll _ _ _ _))|].
Qed.

Lemma determineRollbackSupport_same ins w r w1 : determineRollbackSupport ins w = (Ok r, w1) ->
  db_contents w1 = db_contents w /\ (r = true -> ins <> []).
Proof.
  unfold determineRollbackSupport. case_bool_decide as Hins; [intros [= <- <-]; by split|].
  intros Hr. split; [|done]. by eapply adds_same; [apply adds_any_support|].
Qed.

(** ** The property *)

(** C15: when the state ArtifactInstall of the command line fails, for an
    artifact that can be rolled back, the command returns its error, and if the
    payloads still say that they can be rolled back, then whatever else they
    answer it runs the error scripts, rolls back every payload, tells each of
    the failure and cleans each up, in this order and nothing else; and if that
    goes well, the database is what it was before, without a waiting artifact. *)
Theorem failed_install_is_undone sd rebootExitCode (w w1 w2 : World) err
    (Hsupport : determineRollbackSupport (installers sd) w = (Ok true, w1))
    (Hfail : install_payloads sd w1 = (Some err, w2)) :
  exists l w', install_downloaded e device matcher sd rebootExitCode w = (Some err, w') /\
    w_log w' = l ++ w_log w2 /\
    (Forall says_supported l ->
     calls_of l = undo_calls "ArtifactInstall" (standalone_indices sd) /\
     (Forall undone l -> db_contents w' = delete StandaloneStateKey (db_contents w))).
Proof.
  destruct (determineRollbackSupport_same _ _ _ _ Hsupport) as [Hdb1 Hne]. specialize (Hne eq_refl).
  pose proof (adds_same _ _ _ _ _ (adds_install_payloads sd) Hfail) as Hdb2.
  destruct (hwp_fail_undo (A:=()) "ArtifactInstall" sd err w2 [] Hne) as (l & Hl & Hr & evs & Hevs & Hundo).
  rewrite !app_nil_r in Hevs. subst l.
  destruct (fail_state (A:=()) matcher (Some "ArtifactInstall") sd true true err w2) as [r w'] eqn:Hw'.
  cbn in Hl, Hr, Hundo. subst r. exists evs, w'. split.
  - unfold install_downloaded. rewrite (run_bind _ _ _ _ _ Hsupport). cbn beta match.
    rewrite (run_bind _ _ _ _ _ Hfail). cbn beta match. by rewrite (run_bind _ _ _ _ _ Hw').
  - split; [done|]. intros Hsup. destruct (Hundo Hsup) as [Hc Hdb]. split; [done|].
    intros Hu. by rewrite (Hdb Hu), Hdb2, Hdb1.
Qed.

End undo.
