(* ===== verification/StandaloneScenario.v ===== *)
(** * StandaloneScenario: the commands on a concrete device *)

From S2P Require Import Prelude Json Store StateData DataStore ControlMap ControlMapPool Client.
From S2P Require Import States World Controller Scenario Triples Text Os Manifest BootEnv FileBootEnv.
From S2P Require Import DualRootfs BootScenario Standalone History StandaloneSpec.
From S2P Require Import StandaloneUndo StandaloneStore.
Import MapStore.

Open Scope Z_scope.

#[export] Instance Sim_ProbeOs : ProbeOs SimOs := {
  TempDir prefix d := (Ok ("/tmp/" +:+ prefix +:+ "1"), d);
  RemoveAll _ d := (Ok (), d);
  Lstat p d := match sim_files d !! p with
               | Some _ => Ok {| is_regular := true; executable := true; is_symlink := false |}
               | None => Err ErrNotExist
               end
}.

Definition answers (f : forall c, answer c) : Env SimOs := fun c d => (f c, d).

Definition tool_config : DeviceConfig := {|
  DeviceTypeFile := "/var/lib/mender/device_type";
  ArtifactVerifyKeys := [];
  RequireArtifactVerification := false;
  DeprecatedArtifactInfoFile := "/etc/mender/artifact_info";
  DualRootfs := None
|}.

Definition tool_world (db : gmap string string) : World (gmap string string) SimOs :=
  mkWorld db (sim {["/var/lib/mender/device_type" := "device_type=qemux86-64" +:+ newline]} ∅)
    empty_context (mkPool [] 3600) [] idleState [].

Definition command_line (f : forall c, answer c) (cmd : command) (w : World (gmap string string) SimOs) :
    option error * World (gmap string string) SimOs :=
  run_command (H1 := answers f) board tool_config no_wildcards cmd w.

(** The same device, later. *)
Definition later (w : World (gmap string string) SimOs) : World (gmap string string) SimOs :=
  tool_world (db_contents w).

(** Install, and in another process commit, or roll back. *)
Example install_and_then :
  let '(r, w) := command_line happy (CmdInstall true) (tool_world example_db) in
  let '(rc, wc) := command_line happy CmdCommit (later w) in
  let '(rr, wr) := command_line happy CmdRollback (later w) in
  (r, rc, rr) = (None, None, None) /\
  db_contents w !! ArtifactNameKey = Some "release-1" /\
  db_contents wc !! ArtifactNameKey = Some "release-2" /\ db_contents wc !! StandaloneStateKey = None /\
  db_contents wr !! ArtifactNameKey = Some "release-1" /\ db_contents wr !! StandaloneStateKey = None.
Proof. vm_compute. repeat split. Qed.

(** Without a way back, an installation commits at once. *)
Definition no_way_back (c : Call) : answer c :=
  match c with CSupportsRollback _ => Ok false | CNeedsReboot _ => Ok RebootRequired | c => happy c end.

Example install_without_rollback :
  let '(r, w) := command_line no_way_back (CmdInstall true) (tool_world example_db) in
  r = Some ErrorManualRebootRequired /\ db_contents w !! ArtifactNameKey = Some "release-2".
Proof. vm_compute. by split_and!. Qed.

(** A commit with nothing installed. *)
Example nothing_to_commit :
  (command_line happy CmdCommit (tool_world example_db)).1 = Some ErrorNothingToCommit.
Proof. reflexivity. Qed.

(** ** Witnesses *)

Definition waiting_artifact : standaloneData :=
  mkStandalone "release-2" EmptyString (Some {["rootfs-image.version" := "2"]}) (Some []) ["rootfs-image"].

Definition install_error : error := EText "no space left on device".

(** The installation fails. *)
Module Broken.
#[local] Instance env : Env SimOs := answers (with_installer OpInstallUpdate (Some install_error) happy).

Definition start : World (gmap string string) SimOs := tool_world example_db.
Definition asked := (determineRollbackSupport ["rootfs-image"] start).2.
Definition failed := (install_payloads waiting_artifact asked).2.
Definition final := (install_downloaded board tool_config no_wildcards waiting_artifact true start).2.
Definition undo_log : list Event := take (length (w_log final) - length (w_log failed)) (w_log final).

Lemma failed_install_is_undone_witness :
  install_downloaded board tool_config no_wildcards waiting_artifact true start = (Some install_error, final) /\
  db_contents final = example_db.
Proof.
  destruct (failed_install_is_undone board tool_config no_wildcards waiting_artifact true start asked failed
    install_error) as (l & w' & Hr & Hl & Hundo).
  - vm_compute. reflexivity.
  - vm_compute. reflexivity.
  - assert (w' = final) as -> by (unfold final; by rewrite Hr). split; [exact Hr|].
    assert (w_log final = undo_log ++ w_log failed) as Hl' by (vm_compute; reflexivity).
    rewrite Hl' in Hl. apply app_inv_tail in Hl. subst l.
    destruct Hundo as [_ Hdb]; [vm_compute; by repeat constructor|].
    rewrite Hdb by (vm_compute; by repeat constructor). vm_compute. reflexivity.
Defined.
End Broken.

(** The newest event, when installers were made. *)
Definition last_created (l : list Event) : option (list string * option error) :=
  match l with
  | Ev c a _ :: _ =>
      match c return answer c -> option (list string * option error) with
      | CCreateInstallersFromList _ => fun a => Some a
      | _ => fun _ => None
      end a
  | _ => None
  end.

(** All goes well. *)
Module Good.
#[local] Instance env : Env SimOs := answers happy.

Definition start : World (gmap string string) SimOs := tool_world example_db.
Definition stored := (storeStandaloneData waiting_artifact start).2.
Definition committed := (DoStandaloneCommit board tool_config exact_matcher stored).2.

Lemma store_then_restore_witness :
  (restoreStandaloneData board tool_config stored).1 =
    Ok (mkStandalone "release-2" EmptyString (Some {["rootfs-image.version" := "2"]}) None ["rootfs-image"]).
Proof.
  destruct (store_then_restore board tool_config waiting_artifact start stored stored None)
    as (_ & ins & cerr & w3 & Hr & Hl & _).
  - vm_compute. reflexivity.
  - reflexivity.
  - rewrite Hr. assert (w3 = (restoreStandaloneData board tool_config stored).2) as -> by by rewrite Hr.
    apply (f_equal last_created) in Hl. vm_compute in Hl. by injection Hl as <- <-.
Defined.

Lemma commit_publishes_waiting_artifact_witness :
  db_contents committed !! ArtifactNameKey = Some "release-2" /\
  stored_provides (db_contents committed) !! "rootfs-image.version" = Some "2" /\
  db_contents committed !! StandaloneStateKey = None.
Proof.
  destruct (commit_publishes_waiting_artifact board tool_config exact_matcher String.eqb)
    with (sd := waiting_artifact) (w := start) (w1 := stored) (w2 := stored)
         (w3 := committed)
    as (Hn & _ & Hp & Hs & _).
  - intros l ws r [= <-] k. rewrite list_elem_of_filter. tauto.
  - discriminate.
  - vm_compute. reflexivity.
  - reflexivity.
  - vm_compute. reflexivity.
  - split; [exact Hn|]. split; [|exact Hs].
    etransitivity; [exact (Hp "rootfs-image.version")|]. vm_compute. reflexivity.
Defined.
End Good.
