(* ===== verification/StateScripts.v ===== *)
(** * StateScripts: running the scripts of a state

    The launcher of statescript/executor.go: which files of the script
    directories belong to a state and an action, and running them with retries;
    and the store of statescript/store.go, which puts the scripts of an artifact
    into their directory. *)

From S2P Require Import Prelude Text Os.
From Stdlib Require Import Ascii.

Open Scope Z_scope.

(** ** The system *)

Record Script := mkScript { script_name : string; mode : Z }.

(** How a process ended: with an exit status, by a signal, or it did not start. *)
Inductive Exec : Type := Exited (status : Z) | Signaled | NotRun (err : error).

(** [Run] starts a program whose process group is killed after the given time,
    reads its standard error to the end and waits for it.  A process that has
    left the group (with setsid, as a daemon does) is not killed, and while it
    keeps the standard error open the reading goes on: [None] is a run that does
    not return.  [Now] is the monotonic clock; times are in nanoseconds.  [ReportSubState]
    tells the server.  [OpenNew] creates a file that must not exist. *)
Class ScriptOs (D : Type) := {
  ReadDir : string -> D -> result (list Script);
  Run : string -> Z -> D -> option (Exec * D);
  Now : D -> Z;
  Sleep : Z -> D -> D;
  ReportSubState : string -> IO D unit;
  RemoveAllFiles : string -> IO D unit;
  OpenNew : string -> IO D unit;
  CopyTo : string -> string -> IO D unit;
  SyncFile : string -> IO D unit
}.

(** A directory is read in the order of the names; the clock does not go back,
    and sleeping takes at least the time given. *)
Class ScriptOsLaws (D : Type) `{ScriptOs D} : Prop := {
  ReadDir_sorted p d l : ReadDir p d = Ok l ->
    StronglySorted (fun a b => String.ltb (script_name a) (script_name b) = true) l;
  Now_Run p t d r d' : Run p t d = Some (r, d') -> Now d <= Now d';
  Now_Sleep t d : Now d + t <= Now (Sleep t d)
}.

(** What happened, newest first; [Hung] is the start of a program the agent
    then waits for without end. *)
Inductive ScriptEvent : Type :=
  | Executed (path : string) (ret : Z)
  | Hung (path : string)
  | Slept (d : Z)
  | Reported (subState : string).

Record Sys (D : Type) := mkSys { os : D; happened : list ScriptEvent }.
Arguments mkSys {D} _ _.
Arguments os {D} _.
Arguments happened {D} _.

(** ** The launcher *)

Definition exitRetryLater : Z := 21.
Definition Second : Z := 1000000000.
Definition defaultStateScriptRetryInterval : Z := 60 * Second.
Definition defaultStateScriptRetryTimeout : Z := 30 * 60 * Second.
Definition defaultStateScriptTimeout : Z := 3600 * Second.

Record Launcher := {
  ArtScriptsPath : string;
  RootfsScriptsPath : string;
  SupportedScriptVersions : list Z;
  Timeout : Z;
  RetryInterval : Z;
  RetryTimeout : Z
}.

Definition getRetryInterval (l : Launcher) : Z :=
  if RetryInterval l =? 0 then defaultStateScriptRetryInterval else int64 (RetryInterval l * Second).
Definition getRetryTimeout (l : Launcher) : Z :=
  if RetryTimeout l =? 0 then defaultStateScriptRetryTimeout else int64 (RetryTimeout l * Second).
Definition getTimeout (l : Launcher) : Z :=
  if Timeout l =? 0 then defaultStateScriptTimeout else int64 (Timeout l * Second).

(** *** Versions (store.go) *)

Definition errVersionParse : error := EText "readVersionParseError".

Definition readVersion (data : string) : result Z :=
  match Atoi (TrimSpace data) with
  | Some version => Ok version
  | None => Err errVersionParse
  end.

Definition errUnsupportedVersion : error := EText "statescript: unsupported scripts version".

Definition matchVersion (actual : Z) (supported : list Z) (hasScripts : bool) : option error :=
  if negb hasScripts then None
  else if existsb (Z.eqb actual) supported then None
  else Some errUnsupportedVersion.

(** *** Which scripts *)

Definition is_letter (c : ascii) : bool :=
  let n := nat_of_ascii c in ((65 <=? n) && (n <=? 90) || (97 <=? n) && (n <=? 122))%nat.

(** [\s] of package regexp. *)
Definition re_space (c : ascii) : bool :=
  let n := nat_of_ascii c in ((n =? 9) || (n =? 10) || (n =? 12) || (n =? 13) || (n =? 32))%nat.

(** The longest prefix of letters, and the rest. *)
Fixpoint span_letters (s : string) : string * string :=
  match s with
  | String c s' =>
      if is_letter c then let '(a, b) := span_letters s' in (String c a, b) else (EmptyString, s)
  | EmptyString => (EmptyString, EmptyString)
  end.

Definition actions : list string := ["Enter"; "Leave"; "Error"].

(** Whether the expression ([A-Za-z]+)_(Enter|Leave|Error)_[0-9][0-9](_\S+)? matches the
    whole name: the groups of letters hold no underscore, so that a match is
    unique. *)
Definition script_format (name : string) : bool :=
  let '(st, rest) := span_letters name in
  let '(act, rest2) := span_letters (drop_str 1 rest) in
  negb (bool_decide (st = EmptyString)) && HasPrefix rest "_" && bool_decide (act ∈ actions) &&
  match rest2 with
  | String c0 (String d1 (String d2 rest3)) =>
      bool_decide (c0 = "_"%char) && is_digit d1 && is_digit d2 &&
      match rest3 with
      | EmptyString => true
      | String c1 descr =>
          bool_decide (c1 = "_"%char) && negb (bool_decide (descr = EmptyString)) &&
          all_str (fun c => negb (re_space c)) descr
      end
  | _ => false
  end.

(** The name is one for the state and the action, by the words it contains. *)
Definition name_contains (state action name : string) : bool :=
  Contains name (state +:+ "_") && Contains name action.

Definition wanted (state action : string) (s : Script) : bool :=
  name_contains state action (script_name s) && script_format (script_name s).

Definition scripts_dir (l : Launcher) (state : string) : string :=
  if bool_decide (state ∈ ["Idle"; "Sync"; "Download"]) then RootfsScriptsPath l else ArtScriptsPath l.

Section launcher.
Context `{Os D} `{!ScriptOs D}.

Definition CheckRootfsScriptsVersion (l : Launcher) (d : D) : option error :=
  match ReadDir (RootfsScriptsPath l) d with
  | Err err =>
      if IsNotExist err then None
      else Some (EWrap "statescript: can not read rootfs scripts directory" err)
  | Ok [] => None
  | Ok _ =>
      match ReadFile (join_path (RootfsScriptsPath l) "version") d with
      | Err err =>
          if IsNotExist err then Some (EText "statescript: The statescript version file is missing.")
          else Some (EWrap "statescript" err)
      | Ok data =>
          match readVersion data with
          | Err _ => Some (EText "statescript: Failed to parse the version file")
          | Ok ver =>
              if existsb (Z.eqb ver) (SupportedScriptVersions l) then None
              else Some errUnsupportedVersion
          end
      end
  end.

(** The loop over the files of the directory. *)
Fixpoint get_files (sDir state action : string) (files : list Script) (version : Z) (d : D) :
    result (Z * list Script) :=
  match files with
  | [] => Ok (version, [])
  | file :: files =>
      version ← (if bool_decide (script_name file = "version") then
                   match ReadFile (join_path sDir "version") d with
                   | Err err => Err (EWrap "statescript" err)
                   | Ok data =>
                       match readVersion data with
                       | Err err => Err (EWrap "statescript" err)
                       | Ok v => Ok v
                       end
                   end
                 else Ok version);
      r ← get_files sDir state action files version d;
      Ok (r.1, if wanted state action file then file :: r.2 else r.2)
  end.

Definition get (l : Launcher) (state action : string) (d : D) : result (list Script * string) :=
  let sDir := scripts_dir l state in
  match ReadDir sDir d with
  | Err err =>
      if IsNotExist err then Ok ([], EmptyString)
      else Err (EWrap "statescript: can not read scripts directory" err)
  | Ok files =>
      r ← get_files sDir state action files 0 d;
      match matchVersion r.1 (SupportedScriptVersions l) (negb (bool_decide (r.2 = []))) with
      | Some err => Err err
      | None => Ok (r.2, sDir)
      end
  end.

(** *** Running one script *)

Definition retCode (r : Exec) : Z :=
  match r with Exited status => status | Signaled => -1 | NotRun _ => -1 end.

(** [None] when the reading of the standard error does not end. *)
Definition execute (path : string) (timeout : Z) (s : Sys D) : option Z * Sys D :=
  match Run path timeout (os s) with
  | Some (r, d) => (Some (retCode r), mkSys d (Executed path (retCode r) :: happened s))
  | None => (None, mkSys (os s) (Hung path :: happened s))
  end.

Definition sleep (t : Z) (s : Sys D) : Sys D := mkSys (Sleep t (os s)) (Slept t :: happened s).

Definition errRetryTimeLimit : error := EText "statescript: retry time-limit exceeded".
Definition errExecuting (path : string) : error := EText ("statescript: error executing " +:+ path).

(** The loop; [None] when it does not end: the fuel runs out, or a run hangs
    (and [Hung] is what happened last).  Otherwise the error. *)
Fixpoint attempts (fuel : nat) (l : Launcher) (path : string) (timeout iet : Z) (ignoreError : bool)
    (s : Sys D) : option (option error) * Sys D :=
  match fuel with
  | O => (None, s)
  | S fuel =>
      let '(ret, s) := execute path timeout s in
      match ret with
      | None => (None, s)
      | Some ret =>
          if ret =? 0 then (Some None, s)
          else if ret =? exitRetryLater then
            if Now (os s) - iet <=? getRetryTimeout l
            then attempts fuel l path timeout iet ignoreError (sleep (getRetryInterval l) s)
            else (Some (if ignoreError then None else Some errRetryTimeLimit), s)
          else (Some (if ignoreError then None else Some (errExecuting path)), s)
      end
  end.

Definition executeScript (fuel : nat) (l : Launcher) (dir : string) (timeout : Z) (ignoreError : bool)
    (script : Script) (s : Sys D) : option (option error) * Sys D :=
  attempts fuel l (join_path dir (script_name script)) timeout (Now (os s)) ignoreError s.

(** *** Running all *)

(** The mask of the three execute permissions, 0111. *)
Definition execBits : Z := 73.
Definition is_executable (s : Script) : bool := negb (Z.land (mode s) execBits =? 0).

Definition errNotExecutable (path : string) : error :=
  EText ("statescript: script is not executable: " +:+ path).

(** An error of the report is only logged. *)
Definition report_status (report : bool) (subState : string) (s : Sys D) : Sys D :=
  if report then mkSys (ReportSubState subState (os s)).2 (Reported subState :: happened s) else s.

Fixpoint run_all_scripts (fuel : nat) (l : Launcher) (dir : string) (ignoreError report : bool)
    (scr : list Script) (s : Sys D) : option (option error) * Sys D :=
  match scr with
  | [] => (Some None, s)
  | script :: scr =>
      if is_executable script then
        let s := report_status report ("Executing script: " +:+ script_name script) s in
        let '(r, s) := executeScript fuel l dir (getTimeout l) ignoreError script s in
        match r with
        | None => (None, s)
        | Some execErr =>
            let s := report_status report ("finished executing script: " +:+ script_name script) s in
            match execErr with
            | Some err => (Some (Some err), s)
            | None => run_all_scripts fuel l dir ignoreError report scr s
            end
        end
      else if ignoreError then run_all_scripts fuel l dir ignoreError report scr s
      else (Some (Some (errNotExecutable (join_path dir (script_name script)))), s)
  end.

Definition ExecuteAll (fuel : nat) (l : Launcher) (state action : string) (ignoreError report : bool)
    (s : Sys D) : option (option error) * Sys D :=
  match get l state action (os s) with
  | Err err => (Some (if ignoreError then None else Some err), s)
  | Ok (scr, dir) => run_all_scripts fuel l dir ignoreError report scr s
  end.

(** ** The store of scripts (store.go) *)

Record ScriptStore := NewStore { location : string }.

Definition IsAbs (p : string) : bool := HasPrefix p "/".

Definition errInvalidPath : error := EText "Invalid scripts directory path".
Definition errUnsafeName : error := EText "statescript: rejecting unsafe script name".

Definition Clear (st : ScriptStore) : IO D unit :=
  if bool_decide (location st = EmptyString) then mret ()
  else if bool_decide (location st = "/") || negb (IsAbs (location st)) then fail errInvalidPath
  else
    r ← try (RemoveAllFiles (location st));
    match r with
    | Ok _ => MkdirAll (location st)
    | Err err => if IsNotExist err then MkdirAll (location st) else fail err
    end.

(** [strings.ContainsAny(name, "/\")] *)
Definition has_separator (name : string) : bool :=
  negb (all_str (fun c => negb (bool_decide (c = "/"%char)) && negb (bool_decide (c = ascii_of_nat 92))) name).

Definition unsafe_name (name : string) : bool :=
  bool_decide (name = EmptyString) || has_separator name || Contains name "..".

(** [filepath.Join] of a clean directory and a name without a separator. *)
Definition join_name (dir name : string) : string :=
  if bool_decide (name = ".") then dir else join_path dir name.

Definition StoreScript (st : ScriptStore) (r name : string) : IO D unit :=
  if unsafe_name name then fail errUnsafeName
  else
    let sLocation := join_name (location st) name in
    _ ← wrap "statescript: can not create script file" (OpenNew sLocation);
    _ ← wrap "statescript: can not write script file" (CopyTo sLocation r);
    wrap "statescript: can not sync script file" (SyncFile sLocation).

Definition storeVersion (st : ScriptStore) (ver : Z) : IO D unit :=
  StoreScript st (FormatInt 10 false ver) "version".

Definition Finalize (st : ScriptStore) (ver : Z) : IO D unit :=
  if bool_decide (location st = EmptyString) then mret () else storeVersion st ver.

End launcher.

(** The description of a script is searched for the action, too. *)
Example description_selects :
  wanted "Idle" "Enter" (mkScript "Idle_Enter_00" 493) = true /\
  wanted "Idle" "Error" (mkScript "Idle_Enter_00" 493) = false /\
  wanted "Idle" "Error" (mkScript "Idle_Enter_00_Error-handler" 493) = true.
Proof. by repeat split. Qed.
