(* ===== verification/StateScriptsSpec.v ===== *)
(** * StateScriptsSpec: which scripts run, in which order, and for how long *)

From S2P Require Import Prelude Text Os StateScripts.
From Stdlib Require Import Ascii.

Open Scope Z_scope.

(** ** Looking at what happened *)

(** The executions, oldest first. *)
Fixpoint executions (evs : list ScriptEvent) : list (string * Z) :=
  match evs with
  | [] => []
  | Executed path ret :: evs => executions evs ++ [(path, ret)]
  | _ :: evs => executions evs
  end.

Lemma executions_app e1 e2 : executions (e1 ++ e2) = executions e2 ++ executions e1.
Proof.
  induction e1 as [|[path ret|path|t|sub] e1 IH]; cbn; [by rewrite app_nil_r| |done..].
  by rewrite IH, app_assoc.
Qed.

(** The exit codes of one script that asked for [k] retries and ended with
    [ret], or did not end. *)
Definition retries (k : nat) (ret : option Z) : list Z := replicate k exitRetryLater ++ option_list ret.

Definition tagged (path : string) (codes : list Z) : list (string * Z) := (fun ret => (path, ret)) <$> codes.

Lemma tagged_app path c1 c2 : tagged path (c1 ++ c2) = tagged path c1 ++ tagged path c2.
Proof. apply fmap_app. Qed.

(** The fuel that is enough for a script. *)
Definition enough (l : Launcher) : nat := Z.to_nat (getRetryTimeout l / getRetryInterval l) + 2.

Section spec.
Context `{Os D} `{ScriptOsLaws D}.
Implicit Types s : Sys D.

(** ** One script *)

Section script.
Variable l : Launcher.
Hypothesis interval_pos : 0 < getRetryInterval l.

Lemma retries_fit k : Z.of_nat k * getRetryInterval l <= getRetryTimeout l + getRetryInterval l ->
  (k < enough l)%nat.
Proof.
  intros Hk. unfold enough. assert (Z.of_nat k <= getRetryTimeout l / getRetryInterval l + 1); [|lia].
  replace (getRetryTimeout l / getRetryInterval l + 1)
    with ((getRetryTimeout l + 1 * getRetryInterval l) / getRetryInterval l) by (rewrite Z.div_add; lia).
  apply Z.div_le_lower_bound; lia.
Qed.

(** What one script has done, with its exit codes: the last one is none, and
    there is no result, when the script hangs. *)
Record script_run (ignoreError : bool) (path : string) (n : nat) (ret : option Z)
    (evs : list ScriptEvent) (r : option (option error)) : Prop := {
  run_executions : executions evs = tagged path (retries n ret);
  run_result : match ret with
               | Some ret => exists err, r = Some err /\ (err = None <-> ret = 0 \/ ignoreError = true)
               | None => r = None /\ head evs = Some (Hung path)
               end
}.

Lemma failed_result ret ignoreError err : ret <> 0 ->
  exists err' : option error, Some (if ignoreError : bool then None else Some err) = Some err' /\
    (err' = None <-> ret = 0 \/ ignoreError = true).
Proof.
  intros Hret. eexists. split; [reflexivity|]. destruct ignoreError; split; auto; try done. by intros [?|?].
Qed.

(** A script that has asked for [k] retries so far may ask for as many more as
    intervals fit into the rest of the time. *)
Lemma attempts_spec m k path timeout iet ignoreError s :
  iet + Z.of_nat k * getRetryInterval l <= Now (os s) ->
  Z.of_nat k * getRetryInterval l <= getRetryTimeout l + getRetryInterval l ->
  (enough l <= m + k)%nat ->
  exists n ret evs s' r,
    (forall fuel, (enough l <= fuel + k)%nat ->
       attempts fuel l path timeout iet ignoreError s = (r, s')) /\
    happened s' = evs ++ happened s /\ script_run ignoreError path n ret evs r /\
    (k + n < enough l)%nat.
Proof.
  revert k s. induction m as [|m IH]; intros k s Hnow Hk Hm; pose proof (retries_fit k Hk) as Hlt; [lia|].
  assert (forall P : nat -> Prop, (forall fuel, (enough l <= fuel + S k)%nat -> P (S fuel)) ->
    forall fuel, (enough l <= fuel + k)%nat -> P fuel) as Hfuel.
  { intros P HP [|fuel] Hf; [lia|]. apply HP. lia. }
  cbn [attempts] in *. destruct (Run path timeout (os s)) as [[x d]|] eqn:Hrun.
  2:{ exists 0%nat, None, [Hung path]. eexists _, None. split.
      { apply Hfuel. intros fuel _. cbn [attempts]. unfold execute. by rewrite Hrun. }
      split_and!; [reflexivity| |lia]. by split. }
  pose proof (Now_Run _ _ _ _ _ Hrun) as Hclock. remember (retCode x) as ret eqn:Hx.
  destruct (Z.eqb_spec ret 0) as [Hret|Hret].
  { exists 0%nat, (Some ret), [Executed path ret]. eexists _, _. split.
    { apply Hfuel. intros fuel _. cbn [attempts]. unfold execute. rewrite Hrun, <- Hx. by rewrite Hret. }
    split_and!; [reflexivity| |lia]. split; [done|]. exists None. by split; [|split; [left|]]. }
  destruct (Z.eqb_spec ret exitRetryLater) as [Hret2|Hret2];
    [destruct (Z.leb_spec (Now d - iet) (getRetryTimeout l)) as [Hin|Hin]|].
  - pose proof (Now_Sleep (getRetryInterval l) d) as Hs.
    destruct (IH (S k) (sleep (getRetryInterval l) (mkSys d (Executed path ret :: happened s))))
      as (n & ret' & evs & s' & r & Hr & Hh & [He Hres] & Hn); [cbn; nia|nia|lia|].
    exists (S n), ret', (evs ++ [Slept (getRetryInterval l); Executed path ret]), s', r. split.
    { apply Hfuel. intros fuel Hf. cbn [attempts]. unfold execute. rewrite Hrun, <- Hx. cbn [os].
      rewrite (proj2 (Z.eqb_neq _ _) Hret), (proj2 (Z.eqb_eq _ _) Hret2), (proj2 (Z.leb_le _ _) Hin). by apply Hr. }
    split; [rewrite Hh; by rewrite <- app_assoc|]. split; [|lia]. split.
    { rewrite executions_app, He. cbn. by rewrite Hret2. }
    destruct ret'; [done|]. destruct Hres as [-> Hhd]. by destruct evs.
  - exists 0%nat, (Some ret), [Executed path ret]. eexists _, _. split.
    { apply Hfuel. intros fuel _. cbn [attempts]. unfold execute. rewrite Hrun, <- Hx. cbn [os].
      rewrite (proj2 (Z.eqb_neq _ _) Hret), (proj2 (Z.eqb_eq _ _) Hret2), (proj2 (Z.leb_gt _ _) Hin). reflexivity. }
    split_and!; [reflexivity| |lia]. split; [done|]. by apply failed_result.
  - exists 0%nat, (Some ret), [Executed path ret]. eexists _, _. split.
    { apply Hfuel. intros fuel _. cbn [attempts]. unfold execute. rewrite Hrun, <- Hx.
      rewrite (proj2 (Z.eqb_neq _ _) Hret), (proj2 (Z.eqb_neq _ _) Hret2). reflexivity. }
    split_and!; [reflexivity| |lia]. split; [done|]. by apply failed_result.
Qed.

End script.

(** The seconds of the configuration fit a duration. *)
Definition seconds_ok (t : Z) : Prop := 0 <= t <= 9223372036.

Lemma getRetryInterval_pos l : seconds_ok (RetryInterval l) -> 0 < getRetryInterval l.
Proof.
  intros [H1' H2']. unfold getRetryInterval. destruct (Z.eqb_spec (RetryInterval l) 0); [done|].
  rewrite int64_id; unfold Second, int64_min, int64_max; lia.
Qed.

Lemma getRetryTimeout_nonneg l : seconds_ok (RetryTimeout l) -> 0 <= getRetryTimeout l.
Proof.
  intros [H1' H2']. unfold getRetryTimeout. destruct (Z.eqb_spec (RetryTimeout l) 0); [done|].
  rewrite int64_id; unfold Second, int64_min, int64_max; lia.
Qed.

Definition retry_config (l : Launcher) : Prop := seconds_ok (RetryInterval l) /\ seconds_ok (RetryTimeout l).

Lemma executeScript_run l dir timeout ignoreError script s : retry_config l ->
  exists n ret evs s' r, script_run ignoreError (join_path dir (script_name script)) n ret evs r /\
    Z.of_nat n <= getRetryTimeout l / getRetryInterval l + 1 /\
    happened s' = evs ++ happened s /\
    forall fuel, (enough l <= fuel)%nat ->
      executeScript fuel l dir timeout ignoreError script s = (r, s').
Proof.
  intros [Hi%getRetryInterval_pos Ht%getRetryTimeout_nonneg].
  destruct (attempts_spec l Hi (enough l) 0 (join_path dir (script_name script)) timeout (Now (os s))
    ignoreError s) as (n & ret & evs & s' & r & Hr & Hh & Hrun & Hn); [lia..|].
  exists n, ret, evs, s', r. split; [done|]. split.
  - unfold enough in Hn. pose proof (Z.div_pos (getRetryTimeout l) (getRetryInterval l)). lia.
  - split; [done|]. intros fuel Hfuel. apply Hr. lia.
Qed.

(** ** All the scripts *)

Definition path_of (dir : string) (script : Script) : string := join_path dir (script_name script).

(** One entry of a run: the script, its retries and its last exit code, none
    when it hangs. *)
Definition entry : Type := Script * nat * option Z.
Definition entry_script (e : entry) : Script := e.1.1.
Definition entry_trace (dir : string) (e : entry) : list (string * Z) :=
  tagged (path_of dir e.1.1) (retries e.1.2 e.2).
Definition entry_bounded (l : Launcher) (e : entry) : Prop :=
  Z.of_nat e.1.2 <= getRetryTimeout l / getRetryInterval l + 1.

(** The run goes on after an entry: the script has ended, and has succeeded
    unless errors are ignored. *)
Definition goes_on (ignoreError : bool) (e : entry) : Prop :=
  exists ret, e.2 = Some ret /\ (ret = 0 \/ ignoreError = true).
Definition hangs (e : entry) : Prop := e.2 = None.

(** The scripts to be executed: a script that is not executable is passed over
    when errors are ignored. *)
Definition to_execute (ignoreError : bool) (scr : list Script) : list Script :=
  if ignoreError then filter (fun script => is_executable script = true) scr else scr.

(** A run over the scripts [todo]: one after the other from the first on; each
    entry but the last went well; it ends early only before a script that
    cannot be executed, or with an entry after which it does not go on.  The
    result is no error exactly if all went well, and there is none exactly if
    the last entry hangs. *)
Record complete (ignoreError : bool) (todo : list Script) (runs : list entry)
    (r : option (option error)) : Prop := {
  complete_prefix : (entry_script <$> runs) `prefix_of` todo;
  complete_executable : Forall (fun script => is_executable script = true) (entry_script <$> runs);
  complete_before k e : runs !! k = Some e -> (S k < length runs)%nat -> goes_on ignoreError e;
  complete_next script : Forall (goes_on ignoreError) runs -> todo !! length runs = Some script ->
    is_executable script = false;
  complete_ok : r = Some None <-> entry_script <$> runs = todo /\ Forall (goes_on ignoreError) runs;
  complete_hangs : r = None <-> exists e, last runs = Some e /\ hangs e
}.

Lemma report_status_executions report sub s : exists evs,
  happened (report_status report sub s) = evs ++ happened s /\ executions evs = [].
Proof. destruct report; [by exists [Reported sub]|by exists []]. Qed.

(** A run extends by a script that went well, or ends with one that has failed
    or hangs. *)
Lemma complete_cons ignoreError todo runs r e : is_executable (entry_script e) = true ->
  goes_on ignoreError e -> complete ignoreError todo runs r ->
  complete ignoreError (entry_script e :: todo) (e :: runs) r.
Proof.
  intros Hx He [Hp Hall Hb Hn Hr Hh]. split.
  - rewrite fmap_cons. by apply prefix_cons.
  - by constructor.
  - intros [|k] e' Hk Hlt; [by injection Hk as <-|]. apply (Hb k e'); [done|cbn in Hlt; lia].
  - intros script [_ Hall']%Forall_cons. by apply Hn.
  - rewrite Hr, fmap_cons, Forall_cons. split; [intros [-> ?]; auto|intros [[= ->] [_ ?]]; auto].
  - rewrite Hh. destruct runs as [|e' runs]; [|done]. cbn. destruct He as (ret & He & _).
    split; [by intros (e' & [=] & _)|]. intros (e' & [= <-] & Hh'). unfold hangs in Hh'. congruence.
Qed.

Lemma complete_stop ignoreError todo e r : is_executable (entry_script e) = true -> ~ goes_on ignoreError e ->
  r <> Some None -> (r = None <-> hangs e) -> complete ignoreError (entry_script e :: todo) [e] r.
Proof.
  intros Hx He Hr Hh. split.
  - by exists todo.
  - by repeat constructor.
  - intros [|k] e' Hk Hlt; cbn in Hlt; lia.
  - by intros script [? _]%Forall_cons.
  - split; [done|]. by intros [_ [? _]%Forall_cons].
  - rewrite Hh. cbn. split; [by exists e|]. by intros (e' & [= <-] & ?).
Qed.

Lemma complete_nil ignoreError todo r :
  (forall script, head todo = Some script -> is_executable script = false) ->
  (r = Some None <-> todo = []) -> r <> None -> complete ignoreError todo [] r.
Proof.
  intros Hx Hr Hn. split; try done.
  - apply prefix_nil.
  - intros script _ Hs. apply Hx. by destruct todo.
  - rewrite Hr. split; [intros ->; by split|by intros [<- _]].
  - split; [done|by intros (e & [=] & _)].
Qed.

(** The events of one script, with the reports before and after it. *)
Lemma script_events report script s l dir ignoreError : retry_config l -> exists n ret evs s1 s' r,
  s1 = report_status report ("Executing script: " +:+ script_name script) s /\
  entry_bounded l (script, n, ret) /\ happened s' = evs ++ happened s /\
  executions evs = entry_trace dir (script, n, ret) /\
  script_run ignoreError (path_of dir script) n ret evs r /\
  forall fuel, (enough l <= fuel)%nat ->
    executeScript fuel l dir (getTimeout l) ignoreError script s1 = (r, s').
Proof.
  intros Hl. set (s1 := report_status report ("Executing script: " +:+ script_name script) s).
  destruct (report_status_executions report ("Executing script: " +:+ script_name script) s) as (ev1 & Hh1 & He1).
  destruct (executeScript_run l dir (getTimeout l) ignoreError script s1 Hl)
    as (n & ret & ev2 & s' & r & [Hex Hres] & Hb & Hh2 & Hrun).
  assert (executions (ev2 ++ ev1) = entry_trace dir (script, n, ret)) as Htr.
  { rewrite executions_app, He1. exact Hex. }
  exists n, ret, (ev2 ++ ev1), s1, s', r. split; [done|]. split; [done|].
  split; [by rewrite Hh2; unfold s1; rewrite Hh1, <- app_assoc|]. split; [done|]. split; [|done].
  split; [exact Htr|]. destruct ret; [done|]. destruct Hres as [-> Hhd]. by destruct ev2.
Qed.

(** What the scripts have done, and that it ends so with enough fuel; when it
    does not end, the start of the script that hangs is the last event. *)
Definition ran (l : Launcher) (dir : string) (ignoreError : bool) (scr : list Script)
    (run : nat -> option (option error) * Sys D) (s : Sys D) : Prop :=
  exists runs evs s' r, happened s' = evs ++ happened s /\
    executions evs = concat (entry_trace dir <$> runs) /\ Forall (entry_bounded l) runs /\
    complete ignoreError (to_execute ignoreError scr) runs r /\
    (forall e, last runs = Some e -> hangs e -> head evs = Some (Hung (path_of dir (entry_script e)))) /\
    forall fuel, (enough l <= fuel)%nat -> run fuel = (r, s').

Lemma run_all_complete l dir ignoreError report scr s : retry_config l ->
  ran l dir ignoreError scr (fun fuel => run_all_scripts fuel l dir ignoreError report scr s) s.
Proof.
  intros Hl. revert s. induction scr as [|script scr IH]; intros s.
  { exists [], [], s, (Some None). split_and!; try done. apply complete_nil; [|split|]; by destruct ignoreError. }
  unfold ran. cbn [run_all_scripts]. destruct (is_executable script) eqn:Hx.
  2:{ destruct ignoreError.
      - destruct (IH s) as (runs & evs & s' & r & Hh & He & Hall & Hc & Hlast & Hr).
        exists runs, evs, s', r. split_and!; try done. unfold to_execute. rewrite filter_cons_False; [done|congruence].
      - exists [], [], s, (Some (Some (errNotExecutable (join_path dir (script_name script))))).
        split_and!; try done. apply complete_nil; [by intros ? [= <-]|done|done]. }
  assert (to_execute ignoreError (script :: scr) = script :: to_execute ignoreError scr) as ->.
  { destruct ignoreError; [|done]. by apply filter_cons_True. }
  destruct (script_events report script s l dir ignoreError Hl)
    as (n & ret & ev & s1 & s2 & r & -> & Hb & Hh & He & [_ Hres] & Hrun). set (e := (script, n, ret)) in *.
  destruct (report_status_executions report ("finished executing script: " +:+ script_name script) s2)
    as (ev3 & Hh3 & He3). set (s3 := report_status _ _ s2) in *.
  destruct ret as [ret|]; [destruct Hres as (err & -> & Herr)|destruct Hres as [-> Hhd]].
  2:{ exists [e], ev, s2, None. split; [done|]. split; [rewrite He; symmetry; apply app_nil_r|].
      split; [by repeat constructor|]. split.
      { apply (complete_stop _ _ e); [done| |done|done]. intros (x & Hx' & _). unfold e in Hx'. discriminate Hx'. }
      split; [by intros ? [= <-] _|]. intros fuel Hf. by rewrite (Hrun fuel Hf). }
  assert (executions (ev3 ++ ev) = entry_trace dir e) as Htr by by rewrite executions_app, He, He3, app_nil_r.
  destruct err as [err|].
  - exists [e], (ev3 ++ ev), s3, (Some (Some err)). split; [by rewrite Hh3, Hh, <- app_assoc|].
    split; [rewrite Htr; symmetry; apply app_nil_r|]. split; [by repeat constructor|]. split.
    { apply (complete_stop _ _ e); [done| |done|done]. intros (ret' & Hx' & Hok).
      unfold e in Hx'. injection Hx' as <-. by apply Herr in Hok. }
    split; [by intros ? [= <-]|]. intros fuel Hf. by rewrite (Hrun fuel Hf).
  - destruct (IH s3) as (runs & evs & s' & r & Hh' & He' & Hall & Hc & Hlast & Hr).
    exists (e :: runs), (evs ++ ev3 ++ ev), s', r. split; [by rewrite Hh', Hh3, Hh, <- !app_assoc|].
    split; [by rewrite executions_app, Htr, He'|]. split; [by constructor|]. split.
    { apply (complete_cons _ _ _ _ e); [done| |done]. exists ret. split; [done|]. by apply Herr. }
    split.
    { intros e' Hl' Hh''. destruct runs as [|e1 runs]; [by injection Hl' as <-|].
      specialize (Hlast e' Hl' Hh''). by destruct evs. }
    intros fuel Hf. rewrite (Hrun fuel Hf). by apply Hr.
Qed.

(** ** Which scripts, in which order *)

Lemma get_files_filter sDir state action files0 version d v scr :
  get_files sDir state action files0 version d = Ok (v, scr) ->
  scr = filter (fun file => wanted state action file = true) files0.
Proof.
  revert version v scr. induction files0 as [|file files0 IH]; intros version v scr; cbn [get_files].
  - by intros [= _ <-].
  - match goal with |- (?m ≫= _) = _ -> _ => destruct m as [version'|]; [|done] end.
    cbn [mbind result_bind]. destruct (get_files sDir state action files0 version' d) as [[v' scr']|] eqn:Hg; [|done].
    cbn [mbind result_bind fst snd]. intros [= _ <-]. apply IH in Hg as ->. destruct (wanted state action file) eqn:Hw.
    + by rewrite filter_cons_True.
    + rewrite filter_cons_False; [done|congruence].
Qed.

Definition by_name (a b : Script) : Prop := String.ltb (script_name a) (script_name b) = true.

Lemma StronglySorted_filter {A} (R : A -> A -> Prop) (P : A -> Prop) `{!forall x, Decision (P x)} l :
  StronglySorted R l -> StronglySorted R (filter P l).
Proof.
  induction 1 as [|x l Hs IH Hall]; [constructor|]. rewrite filter_cons. destruct (decide (P x)); [|done].
  constructor; [done|]. apply Forall_forall. intros y [_ Hy]%list_elem_of_filter.
  rewrite Forall_forall in Hall. by apply Hall.
Qed.

(** The files of a directory that does not exist are none. *)
Definition files_of (sDir : string) (d : D) : list Script :=
  match ReadDir sDir d with Ok files => files | Err _ => [] end.

Lemma get_selects l state action d scr dir : get l state action d = Ok (scr, dir) ->
  scr = filter (fun script => wanted state action script = true) (files_of (scripts_dir l state) d) /\
  (scr <> [] -> dir = scripts_dir l state) /\ StronglySorted by_name scr.
Proof.
  unfold get, files_of. destruct (ReadDir _ d) as [files0|err] eqn:Hd.
  - destruct (get_files _ _ _ _ _ _) as [[v scr']|] eqn:Hg; [|done]. cbn.
    destruct (matchVersion _ _ _); [done|]. intros [= <- <-]. apply get_files_filter in Hg as ->.
    split; [done|]. split; [done|]. apply ReadDir_sorted in Hd. by apply StronglySorted_filter.
  - destruct (IsNotExist err); [|done]. intros [= <- _]. by split; [|split; [|constructor]].
Qed.

(** ** The property *)

End spec.
