(* ===== verification/StateScriptsSelect.v ===== *)
(** * StateScriptsSelect: the scripts of a state, and where scripts are stored

    The two claims about names: the search by words selects the scripts of the
    state and action only, and a script of an artifact is stored in the
    directory of scripts only. *)

From S2P Require Import Prelude Text Os States StateScripts StateScriptsSpec.
From Stdlib Require Import Ascii.

Open Scope Z_scope.

(** ** Words and digits *)

Definition no_digit (s : string) : Prop := all_str (fun c => negb (is_digit c)) s = true.

Definition two_digits (d1 d2 : ascii) : string := String d1 (String d2 EmptyString).

Lemma prefix_digits s sub d1 d2 : no_digit sub -> is_digit d1 = true ->
  HasPrefix (s +:+ two_digits d1 d2) sub = HasPrefix s sub.
Proof.
  unfold no_digit, HasPrefix. intros Hsub Hd. revert s. induction sub as [|c sub IH]; intros s.
  - by destruct s.
  - cbn [all_str] in Hsub. apply andb_prop in Hsub as [Hc Hsub]. destruct s as [|x s].
    + change (String.prefix (String c sub) (two_digits d1 d2) = false). cbn. destruct (ascii_dec c d1) as [->|]; [|done]. by rewrite Hd in Hc.
    + rewrite app_cons_str. cbn [String.prefix]. by rewrite (IH Hsub).
Qed.

Lemma Contains_digits s sub d1 d2 : sub <> EmptyString -> no_digit sub ->
  is_digit d1 = true -> is_digit d2 = true -> Contains (s +:+ two_digits d1 d2) sub = Contains s sub.
Proof.
  intros Hne Hsub H1 H2. induction s as [|x s IH].
  - unfold no_digit in Hsub. destruct sub as [|c sub]; [done|].
    cbn [all_str] in Hsub. apply andb_prop in Hsub as [Hc _]. change (Contains (two_digits d1 d2) (String c sub) = false). cbn.
    destruct (ascii_dec c d1) as [->|]; [by rewrite H1 in Hc|].
    destruct (ascii_dec c d2) as [->|]; [by rewrite H2 in Hc|]. done.
  - rewrite app_cons_str. cbn [Contains]. by rewrite <- app_cons_str, prefix_digits, IH.
Qed.

(** ** The states of the program *)

(** The state names that the transitions and the command line use, but for the
    one of the state Error. *)
Definition state_names : list string :=
  ["Idle"; "Sync"; "Download"; "ArtifactInstall"; "ArtifactReboot"; "ArtifactCommit";
   "ArtifactRollback"; "ArtifactRollbackReboot"; "ArtifactFailure"].

Lemma elem_of_actions a : a ∈ actions <-> a = "Enter" \/ a = "Leave" \/ a = "Error".
Proof.
  unfold actions. rewrite !elem_of_cons. split; [|naive_solver].
  intros [|[|[|H%not_elem_of_nil]]]; auto; done.
Qed.

Lemma getName_known t action : action ∈ actions -> t <> ToNone ->
  getName t action <> EmptyString -> getName t action ∈ "Error" :: state_names.
Proof.
  intros Ha Ht Hn. apply (bool_decide_unpack _).
  apply elem_of_actions in Ha as [->|[->| ->]]; destruct t;
    first [vm_compute; exact I|by destruct (Ht eq_refl)|by destruct (Hn eq_refl)].
Qed.

(** The name of a script without description, as far as the digits. *)
Definition stem (state action : string) : string := state +:+ "_" +:+ action +:+ "_".

Definition selects (p q : string * string) : bool :=
  Bool.eqb (name_contains p.1 p.2 (stem q.1 q.2)) (String.eqb p.1 q.1 && String.eqb p.2 q.2).

Lemma all_selected : forallb (fun p => forallb (selects p) (list_prod ("Error" :: state_names) actions))
  (list_prod state_names actions) = true.
Proof. vm_compute. reflexivity. Qed.

Lemma stem_format state action d1 d2 : state ∈ "Error" :: state_names -> action ∈ actions ->
  is_digit d1 = true -> is_digit d2 = true ->
  script_format (stem state action +:+ two_digits d1 d2) = true.
Proof.
  intros Hs Ha H1 H2.
  assert (forall n, n ∈ "Error" :: state_names -> span_letters (n +:+ "_" +:+ action +:+ "_" +:+ two_digits d1 d2) =
    (n, "_" +:+ action +:+ "_" +:+ two_digits d1 d2) /\ n <> EmptyString) as Hspan.
  { intros n Hn. unfold state_names in Hn. rewrite !elem_of_cons in Hn.
    repeat destruct Hn as [->|Hn]; try (split; [reflexivity|done]). by apply not_elem_of_nil in Hn. }
  assert (span_letters (action +:+ "_" +:+ two_digits d1 d2) = (action, "_" +:+ two_digits d1 d2)) as Hact.
  { unfold actions in Ha. rewrite !elem_of_cons in Ha. repeat destruct Ha as [->|Ha]; try reflexivity.
    by apply not_elem_of_nil in Ha. }
  unfold script_format, stem. rewrite !app_assoc_str. destruct (Hspan state Hs) as [-> Hne].
  change (drop_str 1 ("_" +:+ action +:+ "_" +:+ two_digits d1 d2)) with (action +:+ "_" +:+ two_digits d1 d2).
  rewrite Hact, (bool_decide_false (state = EmptyString)), (bool_decide_true (action ∈ actions)) by done.
  assert (HasPrefix ("_" +:+ action +:+ "_" +:+ two_digits d1 d2) "_" = true) as -> by by destruct action.
  change ("_" +:+ two_digits d1 d2) with (String "_" (String d1 (String d2 EmptyString))).
  cbv iota beta. by rewrite H1, H2.
Qed.

Lemma getName_not_error t action : action ∈ actions -> t <> ToNone -> t <> ToError ->
  getName t action <> EmptyString -> getName t action ∈ state_names.
Proof.
  intros Ha Ht He Hn. pose proof (getName_known t action Ha Ht Hn) as [Herr|Hk]%elem_of_cons; [|done].
  exfalso. unfold actions in Ha. rewrite !elem_of_cons in Ha.
  repeat destruct Ha as [->|Ha]; [by destruct t..|by apply not_elem_of_nil in Ha].
Qed.

Lemma state_names_words n : n ∈ "Error" :: state_names ->
  n +:+ "_" <> EmptyString /\ no_digit (n +:+ "_").
Proof.
  intros Hn. unfold state_names in Hn. rewrite !elem_of_cons in Hn.
  repeat destruct Hn as [->|Hn]; try (by split). by apply not_elem_of_nil in Hn.
Qed.

Lemma actions_words a : a ∈ actions -> a <> EmptyString /\ no_digit a.
Proof.
  intros Ha. unfold actions in Ha. rewrite !elem_of_cons in Ha.
  repeat destruct Ha as [->|Ha]; try (by split). by apply not_elem_of_nil in Ha.
Qed.

(** The digits do not matter. *)
Lemma wanted_stem n a n' a' d1 d2 m : n ∈ "Error" :: state_names -> n' ∈ "Error" :: state_names ->
  a ∈ actions -> a' ∈ actions -> is_digit d1 = true -> is_digit d2 = true ->
  wanted n a (mkScript (stem n' a' +:+ two_digits d1 d2) m) = name_contains n a (stem n' a').
Proof.
  intros Hn Hn' Ha Ha' H1 H2. unfold wanted, name_contains. cbn [script_name].
  rewrite (stem_format n' a' d1 d2 Hn' Ha' H1 H2), andb_true_r.
  destruct (state_names_words n Hn) as [Hne Hnd], (actions_words a Ha) as [Hae Had].
  by rewrite !Contains_digits.
Qed.

Lemma name_contains_stem n a n' a' : n ∈ state_names -> n' ∈ "Error" :: state_names ->
  a ∈ actions -> a' ∈ actions ->
  name_contains n a (stem n' a') = bool_decide (n = n' /\ a = a').
Proof.
  intros Hn Hn' Ha Ha'. pose proof all_selected as Hall.
  rewrite forallb_forall in Hall. specialize (Hall (n, a)). rewrite forallb_forall in Hall.
  assert (selects (n, a) (n', a') = true) as Hs.
  { apply Hall; apply in_prod; by apply list_elem_of_In. }
  unfold selects in Hs. apply Bool.eqb_prop in Hs. cbn [fst snd] in Hs. rewrite Hs.
  apply eq_true_iff_eq. by rewrite bool_decide_eq_true, andb_true_iff, !String.eqb_eq.
Qed.

Lemma error_state_contains n : n ∈ "Error" :: state_names ->
  name_contains "Error" "Error" (stem n "Error") = true.
Proof.
  intros Hn. unfold state_names in Hn. rewrite !elem_of_cons in Hn.
  repeat destruct Hn as [->|Hn]; try reflexivity. by apply not_elem_of_nil in Hn.
Qed.

(** The word search of the launcher selects exactly the right scripts among
    those without a description: a script of a state and action of the program is
    run for another state and action only if they are the same.  The state Error
    is the exception, whose action Error runs the error scripts of every state. *)
Theorem selection_is_exact t t' action action' d1 d2 m
    (Ha : action ∈ actions) (Ha' : action' ∈ actions) (Ht : t <> ToNone) (Ht' : t' <> ToNone)
    (Hd1 : is_digit d1 = true) (Hd2 : is_digit d2 = true)
    (Hn : getName t action <> EmptyString) (Hn' : getName t' action' <> EmptyString)
    (Herror : t <> ToError) :
  wanted (getName t action) action
    (mkScript (stem (getName t' action') action' +:+ two_digits d1 d2) m) =
  bool_decide (getName t action = getName t' action' /\ action = action') /\
  wanted "Error" "Error" (mkScript (stem (getName t' action') "Error" +:+ two_digits d1 d2) m) = true.
Proof.
  pose proof (getName_not_error t action Ha Ht Herror Hn) as Hk.
  pose proof (getName_known t' action' Ha' Ht' Hn') as Hk'.
  assert ("Error" ∈ actions) as He by (apply elem_of_actions; auto).
  assert ("Error" ∈ "Error" :: state_names) as He' by (apply elem_of_cons; by left).
  rewrite !wanted_stem; try done; [|by apply list_elem_of_further].
  split; [by apply name_contains_stem|by apply error_state_contains].
Qed.

Lemma selection_is_exact_witness :
  wanted "ArtifactReboot" "Enter" (mkScript "ArtifactReboot_Enter_05" 493) = true /\
  wanted "ArtifactReboot" "Enter" (mkScript "ArtifactRollbackReboot_Enter_05" 493) = false.
Proof.
  assert ("Enter" ∈ actions) as Ha by (apply elem_of_actions; auto).
  split.
  - exact (proj1 (selection_is_exact ToArtifactReboot_Enter ToArtifactReboot_Enter "Enter" "Enter"
      "0"%char "5"%char 493 Ha Ha ltac:(discriminate) ltac:(discriminate) eq_refl eq_refl
      ltac:(discriminate) ltac:(discriminate) ltac:(discriminate))).
  - exact (proj1 (selection_is_exact ToArtifactReboot_Enter ToArtifactRollbackReboot_Enter "Enter" "Enter"
      "0"%char "5"%char 493 Ha Ha ltac:(discriminate) ltac:(discriminate) eq_refl eq_refl
      ltac:(discriminate) ltac:(discriminate) ltac:(discriminate))).
Defined.

(** ** Where scripts are stored *)

(** What is documented of the calls that write a script: they touch the file
    they are given, which did not exist when it is created. *)
Class ScriptFileLaws (D : Type) `{OsLaws D} `{!ScriptOs D} : Prop := {
  OpenNew_frame p : writes_only (fun q => q = p) (OpenNew p);
  OpenNew_new p d d' : OpenNew p d = (Ok (), d') -> files d !! p = None;
  CopyTo_frame p v : writes_only (fun q => q = p) (CopyTo p v);
  CopyTo_ok p v d d' : CopyTo p v d = (Ok (), d') -> files d' !! p = Some v;
  SyncFile_frame p : writes_only (fun _ => False) (SyncFile p)
}.

(** A name of one component: it cannot lead out of a directory. *)
Definition one_component (name : string) : Prop :=
  name <> EmptyString /\ name <> "." /\ Contains name ".." = false /\
  all_str (fun c => negb (bool_decide (c = "/"%char))) name = true.

Section store.
Context `{OsLaws D} `{!ScriptOs D} `{!ScriptFileLaws D}.

Lemma safe_name name : unsafe_name name = false -> name = "." \/ one_component name.
Proof.
  unfold unsafe_name, has_separator. rewrite !orb_false_iff, bool_decide_eq_false, negb_false_iff.
  intros [[Hne Hsep] Hdots]. destruct (decide (name = ".")) as [|Hdot]; [by left|right].
  split_and!; try done. eapply all_str_impl; [|exact Hsep]. intros c Hc. by apply andb_prop in Hc as [Hc _].
Qed.

(** Whatever name an artifact gives a script, storing it touches no file but
    one directly in the directory of scripts (or, for the name of the directory
    itself, that path, which exists); a script that is stored has replaced
    nothing, and is there with its contents. *)
Theorem StoreScript_stays_inside (st : ScriptStore) r name d res d'
    (Hstore : StoreScript st r name d = (res, d')) :
  (forall q, files d' !! q <> files d !! q ->
     q = location st \/ exists base, one_component base /\ q = join_path (location st) base) /\
  (res = Ok () -> name <> "." ->
     one_component name /\ files d !! join_path (location st) name = None /\
     files d' !! join_path (location st) name = Some r).
Proof.
  unfold StoreScript in Hstore. destruct (unsafe_name name) eqn:Hsafe.
  { injection Hstore as <- <-. by split. }
  apply safe_name in Hsafe. set (p := join_name (location st) name) in *.
  assert (writes_only (fun q => q = p)
    (_ ← wrap "statescript: can not create script file" (OpenNew p);
     _ ← wrap "statescript: can not write script file" (CopyTo p r);
     wrap "statescript: can not sync script file" (SyncFile p))) as Hw.
  { io_steps; [apply OpenNew_frame|apply CopyTo_frame|].
    eapply writes_only_weaken, SyncFile_frame. done. }
  split.
  - intros q Hq. destruct (decide (q = p)) as [->|Hne]; [|by rewrite (proj1 (Hw _ _ _ Hstore) q Hne) in Hq].
    unfold p, join_name. case_bool_decide as Hdot; [by left|right].
    exists name. by destruct Hsafe.
  - intros -> Hdot. destruct Hsafe as [|Hone]; [done|]. split; [done|].
    unfold p, join_name in Hstore. rewrite bool_decide_false in Hstore by done.
    apply bind_ok in Hstore as ([] & d1 & Ho%wrap_ok & Hstore).
    apply bind_ok in Hstore as ([] & d2 & Hc%wrap_ok & Hs%wrap_ok).
    split; [by eapply OpenNew_new|].
    rewrite (proj1 (SyncFile_frame _ _ _ _ Hs) (join_path (location st) name)) by (by intros []).
    by eapply CopyTo_ok.
Qed.
End store.
