(* ===== verification/StateScriptsScenario.v ===== *)
(** * StateScriptsScenario: scripts on a simulated device *)

From S2P Require Import Prelude Text Os States StateScripts StateScriptsSpec StateScriptsSelect.
From Stdlib Require Import Ascii.

Open Scope Z_scope.

(** ** A system with scripts *)

(** The mark of a run that does not end. *)
Definition never_ends : Z := 1000.

(** Each program has the list of its next exit codes, 0 after these; a clock
    that only sleeping moves. *)
Record ScriptSim := {
  sim_scripts : list Script;
  sim_texts : gmap string string;
  sim_codes : gmap string (list Z);
  sim_clock : Z
}.

Definition unused {A} : IO ScriptSim A := fail (EText "not in this system").

#[export] Instance ScriptSim_Os : Os ScriptSim := {
  ReadFile p d := found (sim_texts d !! p);
  Stat _ _ := Err ErrNotExist;
  EvalSymlinks p _ := Ok p;
  Readdirnames _ _ := Ok [];
  LookPath _ _ := Err ErrNotExist;
  WriteFile _ _ := unused;
  MkdirAll _ := unused;
  RemoveFile _ := unused;
  RunCmd _ := unused
}.

Fixpoint sorted_scripts (l : list Script) : bool :=
  match l with
  | [] => true
  | a :: l => forallb (fun b => String.ltb (script_name a) (script_name b)) l && sorted_scripts l
  end.

Definition run_sim (p : string) (d : ScriptSim) : option (Exec * ScriptSim) :=
  match sim_codes d !! p with
  | Some (c :: cs) =>
      if c =? never_ends then None
      else Some (Exited c, {| sim_scripts := sim_scripts d; sim_texts := sim_texts d;
                         sim_codes := <[p := cs]> (sim_codes d); sim_clock := sim_clock d |})
  | _ => Some (Exited 0, d)
  end.

#[export] Instance ScriptSim_ScriptOs : ScriptOs ScriptSim := {
  ReadDir _ d := if sorted_scripts (sim_scripts d) then Ok (sim_scripts d) else Err ErrNotExist;
  Run p _ d := run_sim p d;
  Now := sim_clock;
  Sleep t d := {| sim_scripts := sim_scripts d; sim_texts := sim_texts d; sim_codes := sim_codes d;
                  sim_clock := sim_clock d + t |};
  ReportSubState _ := mret ();
  RemoveAllFiles _ := unused;
  OpenNew _ := unused;
  CopyTo _ _ := unused;
  SyncFile _ := unused
}.

Lemma sorted_scripts_sorted l : sorted_scripts l = true -> StronglySorted by_name l.
Proof.
  induction l as [|a l IH]; cbn; [constructor|]. intros [Hall Hs]%andb_prop. constructor; [by apply IH|].
  rewrite forallb_forall in Hall. apply Forall_forall. intros b Hb. by apply Hall, list_elem_of_In.
Qed.

#[export] Instance ScriptSim_laws : ScriptOsLaws ScriptSim.
Proof.
  split.
  - intros p d l. cbn. destruct (sorted_scripts (sim_scripts d)) eqn:Hs; [|done].
    intros [= <-]. by apply sorted_scripts_sorted.
  - intros p t d r d'. cbn. unfold run_sim. repeat case_match; by intros [= _ <-].
  - intros t d. cbn. lia.
Qed.

Definition launcher : Launcher := {|
  ArtScriptsPath := "/scripts"; RootfsScriptsPath := "/etc/mender/scripts";
  SupportedScriptVersions := [2; 3]; Timeout := 0; RetryInterval := 60; RetryTimeout := 300
|}.

(** Two scripts, one that is not executable between them, and one for another
    action; the first asks for a retry, the last fails. *)
Definition device : Sys ScriptSim := mkSys {|
  sim_scripts := [mkScript "ArtifactInstall_Enter_00_first" 493; mkScript "ArtifactInstall_Enter_01" 420;
                  mkScript "ArtifactInstall_Enter_02" 493; mkScript "ArtifactInstall_Leave_00" 493;
                  mkScript "version" 420];
  sim_texts := {["/scripts/version" := "3" +:+ newline]};
  sim_codes := {["/scripts/ArtifactInstall_Enter_00_first" := [21]; "/scripts/ArtifactInstall_Enter_02" := [4]]};
  sim_clock := 0
|} [].

Example ignoring :
  let '(r, s) := ExecuteAll 7 launcher "ArtifactInstall" "Enter" true false device in
  r = Some None /\
  executions (happened s) = [("/scripts/ArtifactInstall_Enter_00_first", 21);
    ("/scripts/ArtifactInstall_Enter_00_first", 0); ("/scripts/ArtifactInstall_Enter_02", 4)].
Proof. vm_compute. by split. Qed.

(** A script that asks for ever: run seven times, and ended by the time limit. *)
Example retrying_for_ever :
  let s := mkSys {| sim_scripts := [mkScript "Sync_Enter_00" 493; mkScript "version" 420];
                    sim_texts := {["/etc/mender/scripts/version" := "3"]};
                    sim_codes := {["/etc/mender/scripts/Sync_Enter_00" := replicate 30 21]};
                    sim_clock := 0 |} [] in
  let '(r, s) := ExecuteAll (enough launcher) launcher "Sync" "Enter" false false s in
  r = Some (Some errRetryTimeLimit) /\ length (executions (happened s)) = 7%nat.
Proof. vm_compute. by split. Qed.

(** A script whose daemon keeps the standard error open. *)
Example waiting_for_a_daemon :
  let s := mkSys {| sim_scripts := [mkScript "Sync_Enter_00" 493; mkScript "Sync_Enter_01" 493; mkScript "version" 420];
                    sim_texts := {["/etc/mender/scripts/version" := "3"]};
                    sim_codes := {["/etc/mender/scripts/Sync_Enter_00" := [21; never_ends]]};
                    sim_clock := 0 |} [] in
  let '(r, s) := ExecuteAll (enough launcher) launcher "Sync" "Enter" true false s in
  r = None /\ head (happened s) = Some (Hung "/etc/mender/scripts/Sync_Enter_00").
Proof. vm_compute. by split. Qed.


(** ** Storing scripts on the file system in a map *)

Definition open_new (p : string) : IO SimOs unit := fun d =>
  match sim_files d !! p with
  | Some _ => (Err (EText "file exists"), d)
  | None => sim_write p EmptyString d
  end.

#[export] Instance SimOs_ScriptOs : ScriptOs SimOs := {
  ReadDir _ _ := Ok [];
  Run _ _ d := Some (Exited 0, d);
  Now _ := 0;
  Sleep _ d := d;
  ReportSubState _ := mret ();
  RemoveAllFiles _ := mret ();
  OpenNew := open_new;
  CopyTo := sim_write;
  SyncFile _ := mret ()
}.

#[export] Instance SimOs_ScriptFileLaws : ScriptFileLaws SimOs.
Proof.
  split.
  - intros p d r d'. cbn. unfold open_new. destruct (sim_files d !! p); [by intros [= <- <-]|].
    exact (WriteFile_frame (D:=SimOs) p EmptyString d r d').
  - intros p d d'. cbn. unfold open_new. by destruct (sim_files d !! p).
  - intros p v. exact (WriteFile_frame (D:=SimOs) p v).
  - intros p v. exact (WriteFile_ok (D:=SimOs) p v).
  - intros p d r d' [= <- <-]. by split.
Qed.

Definition empty_sim : SimOs :=
  {| sim_files := ∅; sim_devices := ∅; sim_links := ∅; sim_writes := []; sim_run := ∅ |}.

Lemma StoreScript_stays_inside_witness :
  let d' := (StoreScript (NewStore "/scripts") "#!/bin/sh" "Idle_Enter_00" empty_sim).2 in
  (StoreScript (NewStore "/scripts") "#!/bin/sh" "../Idle_Enter_00" empty_sim).1 = Err errUnsafeName /\
  files d' !! "/scripts/Idle_Enter_00" = Some "#!/bin/sh".
Proof.
  split; [reflexivity|].
  destruct (StoreScript_stays_inside (NewStore "/scripts") "#!/bin/sh" "Idle_Enter_00" empty_sim (Ok ())
    (StoreScript (NewStore "/scripts") "#!/bin/sh" "Idle_Enter_00" empty_sim).2) as [_ Hok].
  - vm_compute. reflexivity.
  - destruct (Hok eq_refl ltac:(discriminate)) as (_ & _ & Hfile). exact Hfile.
Defined.
