(* ===== verification/Resumer.v ===== *)
(** * Resumer: downloading an artifact over a connection that breaks

    [UpdateResumer] of client/update_resumer.go: a reader that asks the server
    for the rest of the artifact when its stream ends too early or fails. *)

From S2P Require Import Prelude Text Client.
From Stdlib Require Import Ascii Strings.Byte.

Open Scope Z_scope.

(** ** The network *)

(** What is used of an answer to a request for a part. *)
Record PartialResponse (stream : Type) := mkResponse {
  StatusCode : Z;
  ContentRange : string;
  Body : stream
}.
Arguments StatusCode {stream} _.
Arguments ContentRange {stream} _.
Arguments Body {stream} _.

Definition StatusPartialContent : Z := 206.

(** [StreamRead] reads at most so many bytes; [Discard] is io.CopyN to
    ioutil.Discard, which returns the count asked for if and only if there is no
    error, so that only the error is kept; [Do] sends the request with the given
    Range header. *)
Class Http (D : Type) := {
  Stream : Type;
  StreamRead : Stream -> nat -> D -> (list byte * option error) * D;
  Discard : Stream -> Z -> D -> option error * D;
  Do : string -> D -> result (PartialResponse Stream) * D;
  Wait : Z -> D -> D;
  CloseStream : Stream -> D -> option error * D
}.

Record UpdateResumer (stream : Type) := mkResumer {
  stream_ : stream;
  offset : Z;
  contentLength : Z;
  retryAttempts : Z;
  maxWait : Z
}.
Arguments mkResumer {stream} _ _ _ _ _.
Arguments stream_ {stream} _.
Arguments offset {stream} _.
Arguments contentLength {stream} _.
Arguments retryAttempts {stream} _.
Arguments maxWait {stream} _.

Definition NewUpdateResumer {stream} (s : stream) (contentLength maxWait : Z) : UpdateResumer stream :=
  mkResumer s 0 contentLength 0 maxWait.

Definition set_stream {stream} (s : stream) (h : UpdateResumer stream) : UpdateResumer stream :=
  mkResumer s (offset h) (contentLength h) (retryAttempts h) (maxWait h).
Definition set_offset {stream} v (h : UpdateResumer stream) :=
  mkResumer (stream_ h) v (contentLength h) (retryAttempts h) (maxWait h).
Definition set_retryAttempts {stream} v (h : UpdateResumer stream) :=
  mkResumer (stream_ h) (offset h) (contentLength h) v (maxWait h).

(** ** The Content-Range header *)

Definition errRange (msg : string) : error := EText msg.

(** The size after the slash, if there is one, must be the one known. *)
Definition check_size (contentLength : Z) (parts : list string) : option error :=
  match parts with
  | [_] => None
  | [_; size] =>
      match ParseInt 10 size with
      | None => Some (errRange "HTTP server returned garbled or missing range")
      | Some sizeFromServer =>
          if sizeFromServer =? contentLength then None
          else Some (errRange "Size of artifact changed after download was resumed")
      end
  | _ => Some (errRange "Unexpected Content-Range received from server")
  end.

(** The first position of the part. *)
Definition range_start (header : string) : result Z :=
  match Split header "/" with
  | [] => Err (errRange "Invalid Content-Range returned by server")
  | range :: _ =>
      match Split range "-" with
      | [start; _] =>
          match ParseInt 10 start with
          | Some n => Ok n
          | None => Err (errRange "HTTP server returned garbled range")
          end
      | _ => Err (errRange "Invalid Content-Range returned by server")
      end
  end.

(** The new offset that an answer to a request for the rest names. *)
Definition content_range (contentLength : Z) (header : string) : result Z :=
  if HasPrefix header "bytes " then
    let hRangeStr := TrimSpace (drop_str 6 header) in
    match check_size contentLength (Split hRangeStr "/") with
    | Some err => Err err
    | None => range_start hRangeStr
    end
  else Err (errRange "HTTP server returned garbled or missing range").

Section resumer.
Context `{Http D}.

Definition getStreamFromPartialContent (h : UpdateResumer Stream) (res : PartialResponse Stream)
    (d : D) : result Stream * D :=
  if (0 <? offset h) && negb (StatusCode res =? StatusPartialContent)
  then (Err (errRange "Could not resume download"), d)
  else
    match content_range (contentLength h) (ContentRange res) with
    | Err err => (Err err, d)
    | Ok newOffset =>
        if offset h <? newOffset
        then (Err (errRange "HTTP server did not return expected range."), d)
        else if newOffset <? offset h then
          let '(err, d) := Discard (Body res) (offset h - newOffset) d in
          match err with
          | Some err => (Err err, d)
          | None => (Ok (Body res), d)
          end
        else (Ok (Body res), d)
    end.

Definition range_header (offset : Z) : string := "bytes=" +:+ FormatInt 10 false offset +:+ "-".

Definition cannot_resume (err : error) : error := EWrap "Cannot resume download" err.

(** The inner loop: wait and ask until there is a stream again.  [None] when the
    fuel runs out. *)
Fixpoint resume (fuel : nat) (h : UpdateResumer Stream) (d : D) :
    option (result unit) * UpdateResumer Stream * D :=
  match fuel with
  | O => (None, h, d)
  | S fuel =>
      match GetExponentialBackoffTime (retryAttempts h) (maxWait h) 0 with
      | Err err => (Some (Err (cannot_resume err)), h, d)
      | Ok waitTime =>
          let h := set_retryAttempts (int64 (retryAttempts h + 1)) h in
          let '(res, d) := Do (range_header (offset h)) (Wait waitTime d) in
          match res with
          | Err _ => resume fuel h d
          | Ok res =>
              let '(stream, d) := getStreamFromPartialContent h res d in
              match stream with
              | Err _ => resume fuel h d
              | Ok stream => (Some (Ok ()), set_stream stream h, d)
              end
          end
      end
  end.

(** The outer loop, with the bytes read so far into a buffer of [size] bytes. *)
Fixpoint read_loop (fuel : nat) (size : nat) (got : list byte) (h : UpdateResumer Stream) (d : D) :
    option (list byte * option error) * UpdateResumer Stream * D :=
  match fuel with
  | O => (None, h, d)
  | S fuel =>
      let '((bytes, err), d) := StreamRead (stream_ h) (size - length got) d in
      let got := got ++ bytes in
      let h := if bool_decide (bytes = []) then h
               else set_offset (int64 (offset h + Z.of_nat (length bytes))) h in
      match err with
      | None => (Some (got, None), h, d)
      | Some err =>
          if (offset h <=? 0) || bool_decide (err = EOF) && (contentLength h <=? offset h)
          then (Some (got, Some err), h, d)
          else
            let '(r, h, d) := resume fuel h d in
            match r with
            | None => (None, h, d)
            | Some (Err err) => (Some (got, Some err), h, d)
            | Some (Ok _) => read_loop fuel size got h d
            end
      end
  end.

Definition Read (fuel : nat) (size : nat) (h : UpdateResumer Stream) (d : D) :
    option (list byte * option error) * UpdateResumer Stream * D :=
  read_loop fuel size [] h d.

Definition Close (h : UpdateResumer Stream) (d : D) : option error * D := CloseStream (stream_ h) d.

(** Reading until there is an error, with a buffer of the given size each time,
    as io.Copy does. *)
Fixpoint read_all (fuel : nat) (sizes : list nat) (h : UpdateResumer Stream) (d : D) :
    option (list byte * option error) * UpdateResumer Stream * D :=
  match sizes with
  | [] => (Some ([], None), h, d)
  | size :: sizes =>
      let '(r, h, d) := Read fuel size h d in
      match r with
      | None => (None, h, d)
      | Some (bytes, Some err) => (Some (bytes, Some err), h, d)
      | Some (bytes, None) =>
          let '(r, h, d) := read_all fuel sizes h d in
          match r with
          | None => (None, h, d)
          | Some (more, err) => (Some (bytes ++ more, err), h, d)
          end
      end
  end.

End resumer.

Example ranges :
  content_range 1000 "bytes 5-999/1000" = Ok 5 /\
  content_range 1000 "bytes 5-999" = Ok 5 /\
  is_ok (content_range 1000 "bytes 5-999/2000") = false /\
  is_ok (content_range 1000 "bytes 5-999/*") = false.
Proof. by repeat split. Qed.
