(* ===== verification/ResumerSpec.v ===== *)
(** * ResumerSpec: a resumed download delivers the artifact

    Whatever breaks, the bytes delivered are those of the artifact, in order and
    without gaps, and the reader gives up after a bounded number of requests. *)

From S2P Require Import Prelude Text Client Resumer.
From Stdlib Require Import Ascii Strings.Byte.

Open Scope Z_scope.

(** What HTTP promises of a server that has the artifact [content]: a stream on
    it, at a known position, delivers the bytes from there, any number of them
    and with an error at any time; the body of an answer with partial content
    starts where the answer's Content-Range header says. *)
Class HttpLaws (D : Type) `{Http D} (content : list byte) := {
  position : Stream -> D -> option nat;
  StreamRead_content s n d bytes err d' p :
    StreamRead s n d = ((bytes, err), d') -> position s d = Some p ->
    bytes = take (length bytes) (drop p content) /\ (length bytes <= n)%nat /\
    position s d' = Some (p + length bytes)%nat;
  Discard_content s n d d' p :
    Discard s n d = (None, d') -> position s d = Some p -> 0 <= n ->
    position s d' = Some (p + Z.to_nat n)%nat;
  Do_content header d res d' size start :
    Do header d = (Ok res, d') -> StatusCode res = StatusPartialContent ->
    content_range size (ContentRange res) = Ok start ->
    0 <= start /\ position (Body res) d' = Some (Z.to_nat start)
}.

(** After so many requests the backoff gives up, for any maximum wait. *)
Definition max_requests : Z := 84.

Section spec.
Context `{HttpLaws D content}.
Hypothesis content_size : Z.of_nat (length content) <= int64_max.
Implicit Types h : UpdateResumer Stream.

(** The bytes delivered so far are the first of the artifact, and the stream is
    where they end. *)
Record delivered (h : UpdateResumer Stream) (d : D) (bytes : list byte) : Prop := {
  delivered_bytes : bytes = take (length bytes) content;
  delivered_offset : offset h = Z.of_nat (length bytes);
  delivered_position : position (stream_ h) d = Some (length bytes)
}.

(** What stays. *)
Record same_download h h' : Prop := {
  same_length : contentLength h' = contentLength h;
  same_wait : maxWait h' = maxWait h
}.

Definition requests_ok h : Prop := 0 <= retryAttempts h <= max_requests.

Lemma same_download_trans h1 h2 h3 : same_download h1 h2 -> same_download h2 h3 -> same_download h1 h3.
Proof. intros [] []. split; congruence. Qed.

(** ** Giving up *)

Lemma backoff_stops h t : requests_ok h -> maxWait h <= 2 ^ 62 ->
  GetExponentialBackoffTime (retryAttempts h) (maxWait h) 0 = Ok t -> retryAttempts h < max_requests.
Proof.
  intros [Hlo Hhi] Hw. rewrite GetExponentialBackoffTime_eq by done. unfold backoff_spec, backoff_gives_up.
  destruct (Z.eq_dec (retryAttempts h) max_requests) as [Heq|]; [|lia]. rewrite Heq. unfold max_requests.
  change (doublings (84 / 3 - 1)) with (ExponentialBackoffSmallestUnit * 2 ^ 27).
  destruct (Z.leb_spec (maxWait h) (ExponentialBackoffSmallestUnit * 2 ^ 27)) as [Hle|Hlt]; [done|].
  unfold ExponentialBackoffSmallestUnit in Hlt. lia.
Qed.

Lemma backoff_error h err : requests_ok h -> maxWait h <= 2 ^ 62 ->
  GetExponentialBackoffTime (retryAttempts h) (maxWait h) 0 = Err err -> err = MaxRetriesExceededError.
Proof.
  intros [Hlo Hhi] Hw. rewrite GetExponentialBackoffTime_eq by done. unfold backoff_spec.
  destruct (backoff_gives_up _ _ _); congruence.
Qed.

(** ** One answer *)

Lemma getStream_position h res d d1 s d2 n header :
  Do header d = (Ok res, d1) -> offset h = Z.of_nat n -> (0 < n)%nat ->
  getStreamFromPartialContent h res d1 = (Ok s, d2) -> position s d2 = Some n.
Proof.
  intros Hdo Hn Hpos. unfold getStreamFromPartialContent.
  replace (0 <? offset h) with true by (symmetry; apply Z.ltb_lt; lia).
  destruct (Z.eqb_spec (StatusCode res) StatusPartialContent) as [Hst|]; [|done]. cbn [andb negb].
  destruct (content_range (contentLength h) (ContentRange res)) as [start|] eqn:Hr; [|done].
  destruct (Do_content _ _ _ _ _ _ Hdo Hst Hr) as [Hs Hp].
  destruct (Z.ltb_spec (offset h) start); [done|].
  destruct (Z.ltb_spec start (offset h)).
  - destruct (Discard _ _ d1) as [[err|] d3] eqn:Hd; [done|]. intros [= <- <-].
    rewrite (Discard_content _ _ _ _ _ Hd Hp) by lia. f_equal. lia.
  - intros [= <- <-]. rewrite Hp. f_equal. lia.
Qed.

(** ** Asking again *)

Lemma resume_spec fuel h d n : requests_ok h -> maxWait h <= 2 ^ 62 ->
  offset h = Z.of_nat n -> (0 < n)%nat -> max_requests < Z.of_nat fuel + retryAttempts h ->
  exists r h' d', resume fuel h d = (Some r, h', d') /\
    same_download h h' /\ offset h' = offset h /\ requests_ok h' /\
    match r with
    | Ok _ => retryAttempts h < retryAttempts h' /\ position (stream_ h') d' = Some n
    | Err err => err = cannot_resume MaxRetriesExceededError
    end.
Proof.
  revert h d. induction fuel as [|fuel IH]; intros h d Hok Hw Hn Hpos Hfuel; [destruct Hok; lia|].
  cbn [resume]. destruct (GetExponentialBackoffTime _ _ _) as [t|err] eqn:Hb.
  - pose proof (backoff_stops h t Hok Hw Hb) as Hlt. pose proof Hok as [Hlo _].
    rewrite int64_id by (unfold int64_min, int64_max, max_requests in *; lia).
    set (h1 := set_retryAttempts (retryAttempts h + 1) h).
    assert (requests_ok h1) as Hok1 by (split; cbn; lia).
    assert (forall d1, exists r h' d', resume fuel h1 d1 = (Some r, h', d') /\
      same_download h h' /\ offset h' = offset h /\ requests_ok h' /\
      match r with
      | Ok _ => retryAttempts h < retryAttempts h' /\ position (stream_ h') d' = Some n
      | Err err => err = cannot_resume MaxRetriesExceededError
      end) as Hagain.
    { intros d1. destruct (IH h1 d1) as (r1 & h2 & d2 & Hr1 & Hs1 & Ho1 & Hq1 & Hres1); [done..|cbn; lia|].
      exists r1, h2, d2. split; [done|]. split; [by destruct Hs1|]. split; [done|]. split; [done|].
      destruct r1; [|done]. destruct Hres1. split; [cbn in *; lia|done]. }
    destruct (Do _ _) as [[res|err] d1] eqn:Hdo; [|apply Hagain].
    destruct (getStreamFromPartialContent h1 res d1) as [[s|err] d2] eqn:Hg; [|apply Hagain].
    exists (Ok ()), (set_stream s h1), d2.
    split; [done|]. split; [done|]. split; [done|]. split; [done|]. split; [cbn; lia|].
    by apply (getStream_position h1 res _ d1 s d2 n _ Hdo).
  - exists (Err (cannot_resume err)), h, d.
    split; [done|]. split; [done|]. split; [done|]. split; [done|].
    by rewrite (backoff_error h err Hok Hw Hb).
Qed.

(** ** Reading *)

(** How a reader may end. *)
Definition ends_well h (err : option error) : Prop :=
  match err with
  | None => True
  | Some err =>
      offset h <= 0 \/ err = EOF /\ contentLength h <= offset h \/
      err = cannot_resume MaxRetriesExceededError
  end.

Lemma delivered_more h d bytes size more err d' : delivered h d bytes ->
  StreamRead (stream_ h) size d = ((more, err), d') ->
  (length more <= size)%nat /\
  delivered (if bool_decide (more = []) then h else set_offset (int64 (offset h + Z.of_nat (length more))) h)
    d' (bytes ++ more).
Proof.
  intros [Hb Ho Hp] Hread. destruct (StreamRead_content _ _ _ _ _ _ _ Hread Hp) as (Hm & Hlen & Hp').
  split; [done|].
  assert (bytes ++ more = take (length (bytes ++ more)) content) as Hall.
  { rewrite length_app, <- take_take_drop. by rewrite <- Hb, <- Hm. }
  assert ((length (bytes ++ more) <= length content)%nat) as Hfit.
  { rewrite Hall, length_take. lia. }
  rewrite length_app in Hfit. case_bool_decide as Hnil.
  - subst more. rewrite app_nil_r. cbn in Hp'. rewrite Nat.add_0_r in Hp'. by split.
  - rewrite Ho, <- Nat2Z.inj_add, int64_id by (unfold int64_min, int64_max in *; lia).
    split; [done| |]; cbn; by rewrite length_app.
Qed.

Lemma read_loop_spec fuel size got h d bytes : requests_ok h -> maxWait h <= 2 ^ 62 ->
  delivered h d bytes -> (length got <= size)%nat -> max_requests + 1 < Z.of_nat fuel + retryAttempts h ->
  exists more err h' d', read_loop fuel size got h d = (Some (got ++ more, err), h', d') /\
    same_download h h' /\ requests_ok h' /\ (length (got ++ more) <= size)%nat /\
    bytes ++ more = take (length (bytes ++ more)) content /\
    offset h' = Z.of_nat (length (bytes ++ more)) /\
    ends_well h' err /\ (err = None -> delivered h' d' (bytes ++ more)).
Proof.
  revert got h d bytes. induction fuel as [|fuel IH]; intros got h d bytes Hok Hw Hd Hsize Hfuel.
  { destruct Hok. lia. }
  cbn [read_loop]. destruct (StreamRead (stream_ h) (size - length got) d) as [[more err] d1] eqn:Hread.
  destruct (delivered_more _ _ _ _ _ _ _ Hd Hread) as [Hlen Hd1].
  set (h1 := if bool_decide (more = []) then h else _) in *.
  assert (same_download h h1 /\ requests_ok h1 /\ retryAttempts h1 = retryAttempts h) as (Hs1 & Hok1 & Hr1).
  { unfold h1. by case_bool_decide. }
  assert ((length (got ++ more) <= size)%nat) as Hsize1 by (rewrite length_app; lia).
  destruct err as [err|]; [|by exists more, None, h1, d1; destruct Hd1].
  destruct (Z.leb_spec (offset h1) 0) as [Hzero|Hpos].
  { exists more, (Some err), h1, d1. destruct Hd1. split_and!; try done. by left. }
  destruct (bool_decide (err = EOF) && (contentLength h1 <=? offset h1)) eqn:Heof.
  { apply andb_prop in Heof as [Heof%bool_decide_eq_true Hend%Z.leb_le].
    exists more, (Some err), h1, d1. destruct Hd1. split_and!; try done. by right; left. }
  cbn [orb]. destruct Hd1 as [Hb1 Ho1 Hp1].
  assert (maxWait h1 <= 2 ^ 62) as Hw1 by (by rewrite (same_wait _ _ Hs1)).
  destruct (resume_spec fuel h1 d1 (length (bytes ++ more)) Hok1 Hw1 Ho1)
    as (r & h2 & d2 & Hres & Hs2 & Ho2 & Hok2 & Hout); [lia..|]. rewrite Hres.
  pose proof (same_download_trans _ _ _ Hs1 Hs2) as Hs. destruct r as [[]|err2].
  - destruct Hout as [Hmore Hp2].
    destruct (IH (got ++ more) h2 d2 (bytes ++ more)) as (more2 & err2 & h3 & d3 & Hr3 & Hs3 & H3); [done| |..].
    + by rewrite (same_wait _ _ Hs).
    + split; [done|by rewrite Ho2|done].
    + done.
    + lia.
    + exists (more ++ more2), err2, h3, d3. rewrite Hr3, !app_assoc. split; [done|].
      split; [by eapply same_download_trans|done].
  - exists more, (Some (cannot_resume MaxRetriesExceededError)), h2, d2. subst err2.
    split_and!; try done; [by rewrite Ho2|by right; right].
Qed.

(** ** The property *)

(** The fuel that is enough for a read. *)
Definition enough_requests : nat := 86.

(** More fuel changes nothing. *)
Lemma resume_more fuel fuel' h d r h' d' : resume fuel h d = (Some r, h', d') -> (fuel <= fuel')%nat ->
  resume fuel' h d = (Some r, h', d').
Proof.
  revert fuel' h d. induction fuel as [|fuel IH]; intros [|fuel'] h d Hr Hle; try done; [lia|].
  cbn [resume] in *. repeat case_match; try done; (apply IH; [done|lia]).
Qed.

Lemma read_loop_more fuel fuel' size got h d r h' d' :
  read_loop fuel size got h d = (Some r, h', d') -> (fuel <= fuel')%nat ->
  read_loop fuel' size got h d = (Some r, h', d').
Proof.
  revert fuel' got h d. induction fuel as [|fuel IH]; intros [|fuel'] got h d Hr Hle; try done; [lia|].
  cbn [read_loop] in *. destruct (StreamRead _ _ d) as [[bytes err] d1].
  set (h1 := if bool_decide (bytes = []) then h else _) in *.
  destruct err as [err|]; [|done]. destruct (_ || _); [done|].
  destruct (resume fuel h1 d1) as [[[r1|] h2] d2] eqn:Hres; [|done].
  rewrite (resume_more fuel fuel' _ _ _ _ _ Hres) by lia.
  destruct r1 as [[]|]; [|done]. apply IH; [done|lia].
Qed.

Lemma read_all_spec sizes h d bytes : requests_ok h -> maxWait h <= 2 ^ 62 -> delivered h d bytes ->
  exists more err h' d', (forall fuel, (enough_requests <= fuel)%nat ->
      read_all fuel sizes h d = (Some (more, err), h', d')) /\
    same_download h h' /\ requests_ok h' /\
    bytes ++ more = take (length (bytes ++ more)) content /\
    offset h' = Z.of_nat (length (bytes ++ more)) /\ ends_well h' err.
Proof.
  revert h d bytes. induction sizes as [|size sizes IH]; intros h d bytes Hok Hw Hd.
  - exists [], None, h, d. destruct Hd. rewrite app_nil_r. by split_and!.
  - destruct (read_loop_spec enough_requests size [] h d bytes) as (more & err & h1 & d1 & Hr & Hs & Hok1 & _ & Hb & Ho & He & Hd1);
      [done..|cbn; lia|destruct Hok; unfold max_requests, enough_requests in *; lia|].
    destruct err as [err|].
    + exists more, (Some err), h1, d1. split; [|by split_and!]. intros fuel Hf.
      cbn [read_all]. unfold Read. by rewrite (read_loop_more _ _ _ _ _ _ _ _ _ Hr Hf).
    + destruct (IH h1 d1 (bytes ++ more)) as (more2 & err & h2 & d2 & Hr2 & Hs2 & Hok2 & Hb2 & Ho2 & He2);
        [done|by rewrite (same_wait _ _ Hs)|by apply Hd1|].
      exists (more ++ more2), err, h2, d2. rewrite app_assoc. split.
      * intros fuel Hf. cbn [read_all]. unfold Read.
        rewrite (read_loop_more _ _ _ _ _ _ _ _ _ Hr Hf). by rewrite (Hr2 fuel Hf).
      * split; [by eapply same_download_trans|]. by split_and!.
Qed.
End spec.

(** C33: a download that breaks and is resumed delivers the artifact.  However the
    streams fail, wherever answers start and whatever buffers are used, reading
    ends after at most 84 requests for the rest over the whole download; what has
    been read is a prefix of the artifact, nothing repeated or left out, as long
    as the offset; and a regular end is reported only if nothing was read or the
    announced length was reached, so that with the right length it is the whole
    artifact.  Any other error once something was read is that of giving up. *)
Theorem resumed_download_is_the_artifact `{HttpLaws D content} (s : Stream) (d : D) size maxWait sizes
    (Hcontent : Z.of_nat (length content) <= int64_max) (Hstart : position s d = Some 0%nat)
    (Hwait : maxWait <= 2 ^ 62) :
  exists bytes err h d', (forall fuel, (enough_requests <= fuel)%nat ->
      read_all fuel sizes (NewUpdateResumer s size maxWait) d = (Some (bytes, err), h, d')) /\
    bytes `prefix_of` content /\ offset h = Z.of_nat (length bytes) /\
    0 <= retryAttempts h <= max_requests /\
    (forall x, err = Some x -> bytes <> [] ->
       x = EOF /\ size <= Z.of_nat (length bytes) \/ x = cannot_resume MaxRetriesExceededError) /\
    (err = Some EOF -> bytes <> [] -> size = Z.of_nat (length content) -> bytes = content).
Proof.
  destruct (read_all_spec Hcontent sizes (NewUpdateResumer s size maxWait) d []) as
    (bytes & err & h & d' & Hr & Hs & Hok & Hb & Ho & He); [by split|done|by split|].
  cbn [app] in *. exists bytes, err, h, d'. split; [done|]. split; [rewrite Hb; apply prefix_take|].
  assert (forall x, err = Some x -> bytes <> [] ->
    x = EOF /\ size <= Z.of_nat (length bytes) \/ x = cannot_resume MaxRetriesExceededError) as Hx.
  { intros x -> Hne. cbn in He. rewrite Ho, (same_length _ _ Hs) in He. destruct He as [He|He]; [|done].
    destruct bytes; [done|cbn in He; lia]. }
  split_and!; [done|apply Hok..|exact Hx|]. intros Herr Hne Hsize.
  destruct (Hx _ Herr Hne) as [[_ Hle]|[=]]. rewrite Hb. apply take_ge. lia.
Qed.

(** * A download from a server that breaks connections *)

Definition artifact : list byte := [x4d; x45; x4e; x44; x45; x52; x01; x02; x03; x04].

(** Streams are numbered in the order they were opened. *)
Record network := mkNetwork { clock : nat; positions : list nat }.

Definition tick (ps : list nat) (d : network) : network := mkNetwork (S (clock d)) ps.

Definition net_read (s n : nat) (d : network) : (list byte * option error) * network :=
  match positions d !! s with
  | None => (([], Some (EText "closed")), tick (positions d) d)
  | Some p =>
      if (clock d mod 3 =? 2)%nat then (([], Some (EText "connection reset")), tick (positions d) d)
      else
        let bytes := take (Nat.min n 2) (drop p artifact) in
        ((bytes, if bool_decide (bytes = []) then Some EOF else None),
         tick (<[s := (p + length bytes)%nat]> (positions d)) d)
  end.

Definition net_discard (s : nat) (n : Z) (d : network) : option error * network :=
  match positions d !! s with
  | None => (Some (EText "closed"), d)
  | Some p => (None, tick (<[s := (p + Z.to_nat n)%nat]> (positions d)) d)
  end.

(** The position asked for, less one. *)
Definition answer_start (header : string) : nat :=
  match Split (drop_str 6 header) "-" with
  | start :: _ =>
      match ParseInt 10 start with Some n => Nat.min 9 (Z.to_nat n - 1) | None => 0%nat end
  | [] => 0%nat
  end.

Definition answer_range (start : nat) : string :=
  "bytes " +:+ FormatInt 10 false (Z.of_nat start) +:+ "-9/10".

Definition net_do (header : string) (d : network) : result (PartialResponse nat) * network :=
  if Nat.even (clock d) then (Err (EText "request lost"), tick (positions d) d)
  else
    let start := answer_start header in
    (Ok (mkResponse nat StatusPartialContent (answer_range start) (length (positions d))),
     tick (positions d ++ [start]) d).

#[export] Instance network_http : Http network := {
  Stream := nat;
  StreamRead := net_read;
  Discard := net_discard;
  Do := net_do;
  Wait _ d := d;
  CloseStream _ d := (None, d)
}.

Lemma take_own_length {A} n (l : list A) : take n l = take (length (take n l)) l.
Proof.
  rewrite length_take. destruct (Nat.le_ge_cases n (length l)).
  - by rewrite Nat.min_l.
  - by rewrite Nat.min_r, !take_ge.
Qed.

Lemma answer_start_bound header : (answer_start header < 10)%nat.
Proof. unfold answer_start. repeat case_match; lia. Qed.

Lemma content_range_answer size k start : (k < 10)%nat ->
  content_range size (answer_range k) = Ok start -> start = Z.of_nat k.
Proof.
  intros Hk. unfold content_range.
  assert (HasPrefix (answer_range k) "bytes " = true /\
    range_start (TrimSpace (drop_str 6 (answer_range k))) = Ok (Z.of_nat k)) as [-> ->].
  { do 10 (destruct k as [|k]; [by vm_compute|]). lia. }
  destruct (check_size _ _); [done|congruence].
Qed.

#[export] Program Instance network_laws : HttpLaws network artifact := {
  position s d := positions d !! s
}.
Next Obligation.
  intros s n d bytes err d' p. cbn. unfold net_read. intros Hread Hp. rewrite Hp in Hread.
  destruct (_ =? _)%nat.
  - simplify_eq. cbn. split_and!; [done|lia|by rewrite Nat.add_0_r].
  - simplify_eq. cbn. split_and!.
    + apply take_own_length.
    + rewrite length_take. lia.
    + apply list_lookup_insert_eq. by eapply lookup_lt_Some.
Qed.
Next Obligation.
  intros s n d d' p. cbn. unfold net_discard. intros Hd Hp _. rewrite Hp in Hd. simplify_eq.
  apply list_lookup_insert_eq. by eapply lookup_lt_Some.
Qed.
Next Obligation.
  intros header d res d' size start. cbn. unfold net_do. destruct (Nat.even _); [done|].
  intros [= <- <-] _ Hr. apply content_range_answer in Hr as ->; [|apply answer_start_bound].
  split; [lia|]. cbn. rewrite Nat2Z.id. by rewrite lookup_app_r, Nat.sub_diag by lia.
Qed.

(** The download as it starts. *)
Definition start_network : network := mkNetwork 0 [0%nat].

Lemma resumed_download_is_the_artifact_witness :
  exists bytes err h d', (forall fuel, (enough_requests <= fuel)%nat ->
      read_all fuel (repeat 4%nat 9) (NewUpdateResumer (0%nat : @Stream network network_http) 10 (3600 * 10 ^ 9)) start_network =
        (Some (bytes, err), h, d')) /\ err = Some EOF /\ bytes = artifact /\ retryAttempts h = 5.
Proof.
  assert (Z.of_nat (length artifact) <= int64_max) as Hsize by done.
  assert (3600 * 10 ^ 9 <= 2 ^ 62) as Hwait by lia.
  destruct (@resumed_download_is_the_artifact network network_http artifact network_laws 0%nat start_network
    10 (3600 * 10 ^ 9) (repeat 4%nat 9) Hsize eq_refl Hwait) as (bytes & err & h & d' & Hr & _ & _ & _ & _ & Hall).
  exists bytes, err, h, d'. split; [exact Hr|].
  specialize (Hr enough_requests (le_n _)). vm_compute in Hr. injection Hr as <- <- <- <-.
  split; [done|]. split; [by apply Hall|done].
Defined.
