(* ===== verification/ModuleDownload.v ===== *)
(** * ModuleDownload: streaming an artifact into an update module

    The download of installer/modules.go: while the process of an update module
    runs in the state Download, the payload files that the client reads from the
    artifact are offered to it through named pipes; a module that ends without
    taking them leaves them to the client, which puts them into files.  Client,
    loop, process and the writers of the pipes run at the same time and meet on
    channels without buffers: a state [Sys] of all of them and a function [step]
    of an event, which is not defined when the event cannot happen. *)

From S2P Require Import Prelude Text Os.
From Stdlib Require Import Ascii Strings.Byte.

(** ** The system *)

(** [os.O_WRONLY], and [os.O_WRONLY|os.O_CREATE|os.O_EXCL]. *)
Inductive OpenFlags : Type := OpenExisting | CreateNew.

(** [OpenCopy] opens a file and copies all of a reader into it.  [OpenPipe] opens a
    pipe for reading, without waiting for a writer, and closes it; [Polls] is how
    often this happens before the goroutine that writes to it has ended.  It does
    end: its open returns when the pipe has been opened for reading, each of its
    writes fits into the pipe or fails when no reader is left, and the bytes it
    copies are there (a reader that waits for the network is not modelled). *)
Class StreamOs (D : Type) := {
  Mkfifo : string -> IO D unit;
  RemoveAll : string -> IO D unit;
  Remove : string -> IO D unit;
  Mkdir : string -> IO D unit;
  Sync : D -> D;
  OpenCopy : string -> OpenFlags -> list byte -> IO D unit;
  OpenPipe : string -> IO D unit;
  Polls : string -> D -> nat
}.

(** ** The data *)

(** A goroutine that writes: [None] while it runs, then the status it sends. *)
Record stream := mkStream {
  stream_r : list byte;
  stream_name : string;
  openFlags : OpenFlags;
  stream_status : option (option error)
}.

Definition newStream (r : list byte) (name : string) (flags : OpenFlags) : stream :=
  mkStream r name flags None.

Inductive DownloaderType : Type := unknownDownloader | moduleDownloader | menderDownloader.

Record namedReader := mkReader { reader_r : list byte; reader_name : string }.

(** [proc] and [cmdErr]: whether they are not nil. *)
Record moduleDownload := mkDownload {
  payloadPath : string;
  proc : bool;
  cmdErr : bool;
  downloaderType : DownloaderType;
  currentStream : option namedReader;
  finishFlag : bool;
  streamNext : option stream;
  stream_ : option stream
}.

Definition newModuleDownload (payloadPath : string) : moduleDownload :=
  mkDownload payloadPath true true unknownDownloader None false None None.

(** The loop with the files it writes to.  [written] are the copies that
    succeeded, oldest first; [leaked] the goroutines that nobody waits for. *)
Record Loop (D : Type) := mkLoop {
  dl : moduleDownload;
  os : D;
  written : list (string * list byte);
  leaked : list stream
}.
Arguments mkLoop {D} _ _ _ _.
Arguments dl {D} _.
Arguments os {D} _.
Arguments written {D} _.
Arguments leaked {D} _.

Section loop.
Context `{StreamOs D}.

Implicit Types (d : moduleDownload) (l : Loop D).

Definition on_dl (f : moduleDownload -> moduleDownload) : IO (Loop D) unit := fun l =>
  (Ok (), mkLoop (f (dl l)) (os l) (written l) (leaked l)).
Definition get_dl : IO (Loop D) moduleDownload := gets dl.
Definition on_os {A} (m : IO D A) : IO (Loop D) A := fun l =>
  let '(r, o) := m (os l) in (r, mkLoop (dl l) o (written l) (leaked l)).

Definition set_currentStream (s : option namedReader) d : moduleDownload :=
  mkDownload (payloadPath d) (proc d) (cmdErr d) (downloaderType d) s (finishFlag d) (streamNext d) (stream_ d).
Definition set_downloaderType t d : moduleDownload :=
  mkDownload (payloadPath d) (proc d) (cmdErr d) t (currentStream d) (finishFlag d) (streamNext d) (stream_ d).
Definition set_finishFlag d : moduleDownload :=
  mkDownload (payloadPath d) (proc d) (cmdErr d) (downloaderType d) (currentStream d) true (streamNext d) (stream_ d).
Definition process_gone d : moduleDownload :=
  mkDownload (payloadPath d) false false (downloaderType d) (currentStream d) (finishFlag d) (streamNext d) (stream_ d).
Definition put_streamNext (s : option stream) d : moduleDownload :=
  mkDownload (payloadPath d) (proc d) (cmdErr d) (downloaderType d) (currentStream d) (finishFlag d) s (stream_ d).
Definition put_stream (s : option stream) d : moduleDownload :=
  mkDownload (payloadPath d) (proc d) (cmdErr d) (downloaderType d) (currentStream d) (finishFlag d) (streamNext d) s.

Definition list_of {A} (o : option A) : list A := match o with Some a => [a] | None => [] end.

(** Assignments to [d.streamNext] and [d.stream]: the goroutine of a stream that
    was there goes on. *)
Definition set_streamNext (s : option stream) : IO (Loop D) unit := fun l =>
  (Ok (), mkLoop (put_streamNext s (dl l)) (os l) (written l) (list_of (streamNext (dl l)) ++ leaked l)).
Definition set_stream (s : option stream) : IO (Loop D) unit := fun l =>
  (Ok (), mkLoop (put_stream s (dl l)) (os l) (written l) (list_of (stream_ (dl l)) ++ leaked l)).

(** The work of the goroutine of a stream. *)
Definition write_stream (s : stream) l : stream * Loop D :=
  let '(r, o) := OpenCopy (stream_name s) (openFlags s) (stream_r s) (os l) in
  match r with
  | Ok _ => (mkStream (stream_r s) (stream_name s) (openFlags s) (Some None),
             mkLoop (dl l) o (written l ++ [(stream_name s, stream_r s)]) (leaked l))
  | Err err => (mkStream (stream_r s) (stream_name s) (openFlags s) (Some (Some (EWrap "Unable to stream" err))),
                mkLoop (dl l) o (written l) (leaked l))
  end.

(** [cancel] opens the pipe again and again until the goroutine has ended, and drops
    its status; an error of opening is ignored.  The goroutine of the loop does
    nothing else meanwhile, so that it is one step, taken when the other one ends. *)
Fixpoint poll (n : nat) (name : string) l : Loop D :=
  match n with
  | O => l
  | S n => poll n name (on_os (OpenPipe name) l).2
  end.

Definition cancel (s : stream) l : Loop D :=
  match stream_status s with
  | Some _ => l
  | None => (write_stream s (poll (Polls (stream_name s) (os l)) (stream_name s) l)).2
  end.

Definition cancel_streamNext : IO (Loop D) unit := fun l =>
  match streamNext (dl l) with
  | Some s => on_dl (put_streamNext None) (cancel s l)
  | None => (Ok (), l)
  end.

(** Unreachable: the dereference of a nil pointer. *)
Definition nil_dereference : IO (Loop D) unit := fail (EText "invalid memory address or nil pointer dereference").

(** ** The handlers *)

Definition stream_next_path d : string := join_path (payloadPath d) "stream-next".
Definition file_path (dir : string) d (name : string) : string :=
  join_path (join_path (payloadPath d) dir) name.

Definition stream_next_text (name : string) : string :=
  if bool_decide (name = EmptyString) then EmptyString else "streams/" +:+ name +:+ newline.

Definition publishNameInStreamNext (name : string) : IO (Loop D) stream :=
  d ← get_dl;
  (if bool_decide (name = EmptyString) then mret ()
   else wrap "Unable to create" (on_os (Mkfifo (file_path "streams" d name)))) ≫= fun _ =>
  mret (newStream (String.list_byte_of_string (stream_next_text name)) (stream_next_path d) OpenExisting).

(** [d.streamNext, err = d.publishNameInStreamNext(name)], and [start]. *)
Definition publish (name : string) : IO (Loop D) unit :=
  r ← try (publishNameInStreamNext name);
  match r with
  | Ok s => set_streamNext (Some s)
  | Err err => set_streamNext None ≫= fun _ => fail err
  end.

Definition initializeMenderDownload : IO (Loop D) unit :=
  d ← get_dl;
  on_os (RemoveAll (join_path (payloadPath d) "streams")) ≫= fun _ =>
  on_os (Remove (stream_next_path d)) ≫= fun _ =>
  on_os (Mkdir (join_path (payloadPath d) "files")).

(** Download the current stream straight to "files". *)
Definition start_in_files (s : namedReader) : IO (Loop D) unit :=
  d ← get_dl;
  set_stream (Some (newStream (reader_r s) (file_path "files" d (reader_name s)) CreateNew)).

Definition handleCmdErr (err : option error) : IO (Loop D) unit :=
  on_dl process_gone ≫= fun _ =>
  match err with
  | Some err => fail (EWrap "Update module terminated abnormally" err)
  | None =>
      d ← get_dl;
      if finishFlag d then mret ()
      else
        match downloaderType d with
        | unknownDownloader =>
            on_dl (set_downloaderType menderDownloader) ≫= fun _ =>
            cancel_streamNext ≫= fun _ =>
            initializeMenderDownload ≫= fun _ =>
            match currentStream d with
            | Some s => start_in_files s
            | None => mret ()
            end
        | moduleDownloader => fail (EText "Update module terminated in the middle of the download")
        | menderDownloader => mret ()
        end
  end.

Definition handleNextArtifactStream : IO (Loop D) unit :=
  d ← get_dl;
  match currentStream d with
  | None => nil_dereference
  | Some s =>
      match downloaderType d with
      | menderDownloader => start_in_files s
      | _ => publish (reader_name s)
      end
  end.

Definition handleStreamNextChannel (err : option error) : IO (Loop D) unit :=
  on_dl (put_streamNext None) ≫= fun _ =>
  d ← get_dl;
  match downloaderType d, err with
  | menderDownloader, _ => mret ()
  | _, Some err => fail err
  | _, None =>
      on_dl (set_downloaderType moduleDownloader) ≫= fun _ =>
      if finishFlag d then mret ()
      else
        match currentStream d with
        | None => nil_dereference
        | Some s =>
            set_stream (Some (newStream (reader_r s) (file_path "streams" d (reader_name s)) OpenExisting))
        end
  end.

(** Without an error, sending the status is left to [receive]. *)
Definition handleStreamChannel (err : option error) : IO (Loop D) unit :=
  on_dl (put_stream None) ≫= fun _ =>
  match err with Some err => fail err | None => mret () end.

Definition handleFinishChannel : IO (Loop D) unit :=
  on_dl set_finishFlag ≫= fun _ =>
  d ← get_dl;
  match downloaderType d with
  | menderDownloader => on_os (fun o => (Ok (), Sync o))
  | _ => publish EmptyString
  end.

(** The deferred function of the loop; the goroutines are gone afterwards. *)
Definition cancel_all l : Loop D :=
  let l := match streamNext (dl l) with Some s => cancel s l | None => l end in
  let l := match stream_ (dl l) with Some s => cancel s l | None => l end in
  mkLoop (put_stream None (put_streamNext None (dl l))) (os l) (written l) (leaked l).

(** ** Everything together *)

(** Where the goroutine of [downloadProcessLoop] is: in [select]; sending a
    status, from inside [handleStreamChannel] or for an error; returned, and
    [detachedDownloadProcess] sends the result; ended. *)
Inductive LoopPC : Type :=
  | Selecting
  | AnsweringStored
  | AnsweringError (err : error)
  | LoopReturned (err : option error)
  | LoopEnded.

(** The process and the goroutine that waits for it. *)
Inductive ProcEnd : Type := Running | Exited (err : option error) | Reaped (err : option error).

(** The client: outside [StoreUpdate] and [FinishStoreUpdate], or at one of the
    two operations on channels of one of them; after [FinishStoreUpdate] there is
    no downloader. *)
Inductive ClientPC : Type :=
  | Idle
  | SendStream (s : namedReader)
  | WaitStream (s : namedReader)
  | SendFinish
  | WaitFinish
  | NoDownloader.

(** What the client's calls returned. *)
Inductive CallResult : Type :=
  | RStore (s : namedReader) (err : option error)
  | RFinish (err : option error).

Record Sys := mkSys {
  loop : Loop D;
  pc : LoopPC;
  process : ProcEnd;
  client : ClientPC;
  results : list CallResult
}.

Inductive SelectCase : Type := FromCmd | FromArtifact | FromStreamNext | FromStream | FromFinish.

(** What may happen next: the client calls; the process ends; the writer of
    [streamNext] or of [stream], or one that was left alone, ends; the loop
    receives; the client receives a status. *)
Inductive Event : Type :=
  | StoreUpdate (s : namedReader)
  | FinishStoreUpdate
  | ProcessEnds (err : option error)
  | NextWritten
  | StreamWritten
  | LeakedWritten (i : nat)
  | Receive (c : SelectCase)
  | Answer.

(** The end of the body of the loop. *)
Definition end_of_body (r : result unit) (l : Loop D) : Loop D * LoopPC :=
  if finishFlag (dl l) && negb (proc (dl l))
  then (cancel_all l, LoopReturned (match r with Ok _ => None | Err err => Some err end))
  else match r with Ok _ => (l, Selecting) | Err err => (l, AnsweringError err) end.

Definition run_case (h : IO (Loop D) unit) (l : Loop D) : Loop D * LoopPC :=
  let '(r, l) := h l in end_of_body r l.

(** The status of a stream that can be received. *)
Definition status_of (s : option stream) : option (option error) :=
  match s with Some s => stream_status s | None => None end.

Definition with_loop (p : Loop D * LoopPC) (s : Sys) : Sys :=
  mkSys p.1 p.2 (process s) (client s) (results s).

(** One turn of the loop with the given case of [select]. *)
Definition receive (c : SelectCase) (s : Sys) : option Sys :=
  let l := loop s in
  match c with
  | FromCmd =>
      match process s with
      | Exited err =>
          if cmdErr (dl l)
          then Some (with_loop (run_case (handleCmdErr err) l)
                 (mkSys l (pc s) (Reaped err) (client s) (results s)))
          else None
      | _ => None
      end
  | FromArtifact =>
      match client s with
      | SendStream f =>
          Some (with_loop (run_case (on_dl (set_currentStream (Some f)) ≫= fun _ => handleNextArtifactStream) l)
            (mkSys l (pc s) (process s) (WaitStream f) (results s)))
      | _ => None
      end
  | FromStreamNext =>
      match status_of (streamNext (dl l)) with
      | Some err => Some (with_loop (run_case (handleStreamNextChannel err) l) s)
      | None => None
      end
  | FromStream =>
      match status_of (stream_ (dl l)) with
      | Some err =>
          match handleStreamChannel err l with
          | (Ok _, l) => Some (with_loop (l, AnsweringStored) s)
          | (Err err, l) => Some (with_loop (end_of_body (Err err) l) s)
          end
      | None => None
      end
  | FromFinish =>
      match client s with
      | SendFinish =>
          Some (with_loop (run_case handleFinishChannel l)
            (mkSys l (pc s) (process s) WaitFinish (results s)))
      | _ => None
      end
  end.

(** The client receives a status, which is the result of its call. *)
Definition answer_client (err : option error) (s : Sys) : option Sys :=
  match client s with
  | WaitStream f => Some (mkSys (loop s) (pc s) (process s) Idle (results s ++ [RStore f err]))
  | WaitFinish => Some (mkSys (loop s) (pc s) (process s) NoDownloader (results s ++ [RFinish err]))
  | _ => None
  end.

Definition answer (s : Sys) : option Sys :=
  match pc s with
  | AnsweringStored => with_loop (end_of_body (Ok ()) (loop s)) <$> answer_client None s
  | AnsweringError err => with_loop (loop s, Selecting) <$> answer_client (Some err) s
  | LoopReturned err => with_loop (loop s, LoopEnded) <$> answer_client err s
  | _ => None
  end.

(** A running writer of the loop ends. *)
Definition finish_writer (s : option stream) (put : option stream -> moduleDownload -> moduleDownload)
    (l : Loop D) : option (Loop D) :=
  match s with
  | Some s =>
      match stream_status s with
      | None =>
          let '(s, l) := write_stream s l in
          Some (mkLoop (put (Some s) (dl l)) (os l) (written l) (leaked l))
      | Some _ => None
      end
  | None => None
  end.

Definition finish_leaked (i : nat) (l : Loop D) : option (Loop D) :=
  match leaked l !! i with
  | Some s =>
      match stream_status s with
      | None =>
          let '(s, l) := write_stream s l in
          Some (mkLoop (dl l) (os l) (written l) (<[i := s]> (leaked l)))
      | Some _ => None
      end
  | None => None
  end.

Definition errInactive : error := EText "Internal error: called when download is inactive".

Definition call (f : Sys -> ClientPC) (failed : CallResult) (s : Sys) : option Sys :=
  match client s with
  | Idle => Some (mkSys (loop s) (pc s) (process s) (f s) (results s))
  | NoDownloader => Some (mkSys (loop s) (pc s) (process s) NoDownloader (results s ++ [failed]))
  | _ => None
  end.

Definition step (e : Event) (s : Sys) : option Sys :=
  let write (o : option (Loop D)) := (fun l => with_loop (l, pc s) s) <$> o in
  match e with
  | StoreUpdate f => call (fun _ => SendStream f) (RStore f (Some errInactive)) s
  | FinishStoreUpdate => call (fun _ => SendFinish) (RFinish (Some errInactive)) s
  | ProcessEnds err =>
      match process s with
      | Running => Some (mkSys (loop s) (pc s) (Exited err) (client s) (results s))
      | _ => None
      end
  | NextWritten => write (finish_writer (streamNext (dl (loop s))) put_streamNext (loop s))
  | StreamWritten => write (finish_writer (stream_ (dl (loop s))) put_stream (loop s))
  | LeakedWritten i => write (finish_leaked i (loop s))
  | Receive c => match pc s with Selecting => receive c s | _ => None end
  | Answer => answer s
  end.

Fixpoint run (es : list Event) (s : Sys) : option Sys :=
  match es with
  | [] => Some s
  | e :: es => step e s ≫= run es
  end.

(** After [PrepareStoreUpdate]. *)
Definition prepared (payloadPath : string) (o : D) : Sys :=
  mkSys (mkLoop (newModuleDownload payloadPath) o [] []) Selecting Running Idle [].

End loop.
Arguments Sys D : clear implicits.
