(* ===== verification/ModuleDownloadSpec.v ===== *)
(** * ModuleDownloadSpec: what the download into an update module guarantees

    A download whose calls all return without an error has delivered every file,
    and calls end, except when the loop and the client send to each other. *)

From S2P Require Import Prelude Text Os ModuleDownload.
From Stdlib Require Import Ascii Strings.Byte.

(** ** Results *)

Definition stored (fs : list namedReader) : list CallResult := (fun f => RStore f None) <$> fs.

Definition has_error (r : CallResult) : bool :=
  match r with RStore _ None | RFinish None => false | _ => true end.

(** ** What was delivered *)

Definition dir_of (t : DownloaderType) : string :=
  match t with menderDownloader => "files" | _ => "streams" end.
Definition flags_of (t : DownloaderType) : OpenFlags :=
  match t with menderDownloader => CreateNew | _ => OpenExisting end.

Lemma stored_no_error fs : existsb has_error (stored fs) = false.
Proof. induction fs as [|f fs IH]; [done|exact IH]. Qed.

Lemma stored_inj fs gs : stored fs = stored gs -> fs = gs.
Proof. revert gs. induction fs as [|f fs IH]; intros [|g gs]; try done. intros [= -> Heq]. f_equal. by apply IH. Qed.

(** Unfolds a program to what it does. *)
Ltac run_program := unfold run_case, start_in_files, set_stream, mbind, IO_bind, mret, IO_ret, fail, get_dl, gets, on_dl; cbn.

(** Puts what the phase says of the client into the goal. *)
Ltac use_client := cbn; match goal with Heq : _ = client _ |- _ => rewrite <- Heq end.
Ltac use_pc := try match goal with Heq : _ = pc _ |- _ => rewrite <- Heq end.

Section spec.
Context `{StreamOs D}.
Implicit Types (l : Loop D) (s : Sys D) (d : moduleDownload).

(** The complete copies of payload files, in order, without the names that were
    written to [stream-next]. *)
Definition payload_written l : list (string * list byte) :=
  filter (fun w => w.1 <> stream_next_path (dl l)) (written l).

Definition delivered (t : DownloaderType) d (fs : list namedReader) : list (string * list byte) :=
  (fun f => (file_path (dir_of t) d (reader_name f), reader_r f)) <$> fs.

Lemma file_path_not_next dir d name : dir = "streams" \/ dir = "files" ->
  file_path dir d name <> stream_next_path d.
Proof.
  unfold file_path, stream_next_path, join_path. rewrite !app_assoc_str.
  intros Hdir Heq. apply (inj (String.append _)) in Heq. by destruct Hdir as [-> | ->].
Qed.

(** ** Writers *)

Lemma write_stream_dl st l : dl (write_stream st l).2 = dl l /\ leaked (write_stream st l).2 = leaked l.
Proof. unfold write_stream. destruct (OpenCopy _ _ _ _) as [[[]|] o]; by repeat split. Qed.

(** A writer of a payload file, or of a name. *)
Definition writes_payload t d f (st : stream) : Prop :=
  stream_name st = file_path (dir_of t) d (reader_name f) /\ stream_r st = reader_r f /\
  openFlags st = flags_of t.

Lemma write_payload t f st l : writes_payload t (dl l) f st ->
  let '(st', l') := write_stream st l in
  writes_payload t (dl l) f st' /\ dl l' = dl l /\ leaked l' = leaked l /\
  ((stream_status st' = Some None /\ payload_written l' = payload_written l ++ delivered t (dl l) [f]) \/
   (exists err, stream_status st' = Some (Some err)) /\ payload_written l' = payload_written l).
Proof.
  intros (Hn & Hr & Hf). unfold write_stream, payload_written.
  destruct (OpenCopy _ _ _ _) as [[[]|err] o]; cbn; (split; [done|]); (split; [done|]); (split; [done|]).
  - left. split; [done|]. rewrite filter_app, filter_cons_True; [|by rewrite Hn; apply file_path_not_next; destruct t; auto].
    by rewrite Hn, Hr.
  - right. by split; [eexists|].
Qed.

Lemma write_name st l : stream_name st = stream_next_path (dl l) ->
  let '(st', l') := write_stream st l in
  stream_name st' = stream_name st /\ dl l' = dl l /\ leaked l' = leaked l /\
  payload_written l' = payload_written l.
Proof.
  intros Hn. unfold write_stream, payload_written. destruct (OpenCopy _ _ _ _) as [[[]|err] o]; cbn; [|by repeat split].
  repeat split. rewrite filter_app, filter_cons_False by (rewrite Hn; intros Hne; by apply Hne).
  by rewrite app_nil_r.
Qed.

(** ** The invariant of a download without errors *)

(** A writer that ended well counts its file as delivered. *)
Definition in_flight l f (st : stream) (fs : list namedReader) : Prop :=
  let t := downloaderType (dl l) in
  writes_payload t (dl l) f st /\
  match stream_status st with
  | Some None => payload_written l = delivered t (dl l) (fs ++ [f])
  | _ => payload_written l = delivered t (dl l) fs
  end.

Variable p : string.

Definition is_reaped (e : ProcEnd) : bool := match e with Reaped _ => true | _ => false end.

(** [fs] are delivered and it is not forgotten where the process is. *)
Record settled (fs : list namedReader) l (e : ProcEnd) : Prop := {
  settled_path : payloadPath (dl l) = p;
  settled_leaked : leaked l = [];
  settled_proc : proc (dl l) = negb (is_reaped e);
  settled_cmdErr : cmdErr (dl l) = negb (is_reaped e);
  settled_type : fs <> [] -> downloaderType (dl l) <> unknownDownloader
}.

(** The process ended while files were still expected: only well, and then the
    client has taken over. *)
Definition taken_over l (e : ProcEnd) : Prop :=
  match e with
  | Reaped None => downloaderType (dl l) = menderDownloader
  | Reaped (Some _) => False
  | _ => downloaderType (dl l) <> menderDownloader
  end.

Definition all_written fs l : Prop :=
  payload_written l = delivered (downloaderType (dl l)) (dl l) fs.

Definition outside (c : ClientPC) : bool :=
  match c with Idle | SendStream _ | SendFinish => true | _ => false end.

(** Where loop and client are. *)
Inductive phase (fs : list namedReader) l : ProcEnd -> LoopPC -> ClientPC -> Prop :=
  | ph_quiet e c : outside c = true -> finishFlag (dl l) = false -> taken_over l e ->
      streamNext (dl l) = None -> stream_ (dl l) = None -> all_written fs l ->
      (downloaderType (dl l) = unknownDownloader -> currentStream (dl l) = None) ->
      phase fs l e Selecting c
  | ph_naming e f st : finishFlag (dl l) = false -> taken_over l e ->
      currentStream (dl l) = Some f -> downloaderType (dl l) <> menderDownloader ->
      streamNext (dl l) = Some st -> stream_name st = stream_next_path (dl l) ->
      stream_ (dl l) = None -> all_written fs l ->
      phase fs l e Selecting (WaitStream f)
  | ph_copying e f st : finishFlag (dl l) = false -> taken_over l e ->
      downloaderType (dl l) <> unknownDownloader ->
      streamNext (dl l) = None -> stream_ (dl l) = Some st -> in_flight l f st fs ->
      phase fs l e Selecting (WaitStream f)
  | ph_stored e f : finishFlag (dl l) = false -> taken_over l e ->
      downloaderType (dl l) <> unknownDownloader ->
      streamNext (dl l) = None -> stream_ (dl l) = None -> all_written (fs ++ [f]) l ->
      phase fs l e AnsweringStored (WaitStream f)
  | ph_finishing e : finishFlag (dl l) = true -> is_reaped e = false ->
      (forall st, streamNext (dl l) = Some st -> stream_name st = stream_next_path (dl l)) ->
      stream_ (dl l) = None -> all_written fs l ->
      phase fs l e Selecting WaitFinish
  | ph_returned e err : (err = None -> e = Reaped None) ->
      streamNext (dl l) = None -> stream_ (dl l) = None -> all_written fs l ->
      phase fs l e (LoopReturned err) WaitFinish.

Definition answers_error s : Prop := exists err, pc s = AnsweringError err.

(** Everything was delivered and reported. *)
Record finished (fs : list namedReader) s : Prop := {
  finished_pc : pc s = LoopEnded;
  finished_client : client s = NoDownloader;
  finished_process : process s = Reaped None;
  finished_leaked : leaked (loop s) = [];
  finished_next : streamNext (dl (loop s)) = None;
  finished_stream : stream_ (dl (loop s)) = None;
  finished_path : payloadPath (dl (loop s)) = p;
  finished_written : all_written fs (loop s)
}.

Definition underway fs s : Prop :=
  settled fs (loop s) (process s) /\ phase fs (loop s) (process s) (pc s) (client s).

Definition invariant s : Prop :=
  existsb has_error (results s) = true \/
  (exists fs, results s = stored fs /\ (answers_error s \/ underway fs s)) \/
  (exists fs, results s = stored fs ++ [RFinish None] /\ finished fs s).

Lemma delivered_app t d fs gs : delivered t d (fs ++ gs) = delivered t d fs ++ delivered t d gs.
Proof. apply fmap_app. Qed.

Lemma prepared_invariant o : invariant (prepared p o).
Proof. right; left. exists []. split; [done|]. right. split; [by split|by apply ph_quiet]. Qed.

(** Results only grow, and an error stays one. *)
Lemma error_stays s rs : existsb has_error (results s) = true -> existsb has_error (results s ++ rs) = true.
Proof. intros He. by rewrite existsb_app, He. Qed.

(** ** Handlers *)

(** [publish] puts a writer of the name in [streamNext], or fails. *)
Lemma publish_cases name l : exists o r,
  publish name l = (r, mkLoop (put_streamNext (match r with
      | Ok _ => Some (newStream (String.list_byte_of_string (stream_next_text name)) (stream_next_path (dl l)) OpenExisting)
      | Err _ => None end) (dl l)) o (written l) (list_of (streamNext (dl l)) ++ leaked l)).
Proof.
  unfold publish, publishNameInStreamNext, try, get_dl, gets, mbind, IO_bind. cbn.
  case_bool_decide; cbn; [by eexists _, (Ok ())|].
  unfold wrap, on_os. destruct (Mkfifo _ _) as [[[]|err] o]; cbn; [by eexists _, (Ok ())|by eexists _, (Err _)].
Qed.

Lemma initializeMenderDownload_cases l : exists o r,
  initializeMenderDownload l = (r, mkLoop (dl l) o (written l) (leaked l)).
Proof.
  unfold initializeMenderDownload, get_dl, gets, on_os, mbind, IO_bind. cbn.
  destruct (RemoveAll _ _) as [[[]|err] o]; cbn; [|by eexists _, (Err _)].
  destruct (Remove _ o) as [[[]|err] o1]; cbn; [|by eexists _, (Err _)].
  destruct (Mkdir _ o1) as [[[]|err] o2]; cbn; [by eexists _, (Ok ())|by eexists _, (Err _)].
Qed.

Lemma poll_cases n name l : exists o, poll n name l = mkLoop (dl l) o (written l) (leaked l).
Proof.
  revert l. induction n as [|n IH]; intros l; cbn [poll]; [exists (os l); by destruct l|].
  unfold on_os. destruct (OpenPipe name (os l)) as [r o]. exact (IH (mkLoop (dl l) o (written l) (leaked l))).
Qed.

(** What is cancelled has ended, or is written. *)
Lemma cancel_cases st l : cancel st l = l \/
  exists o, cancel st l = (write_stream st (mkLoop (dl l) o (written l) (leaked l))).2.
Proof.
  unfold cancel. destruct (stream_status st); [by left|]. right.
  destruct (poll_cases (Polls (stream_name st) (os l)) (stream_name st) l) as [o ->]. by exists o.
Qed.

Lemma cancel_name st l : stream_name st = stream_next_path (dl l) ->
  dl (cancel st l) = dl l /\ leaked (cancel st l) = leaked l /\ payload_written (cancel st l) = payload_written l.
Proof.
  intros Hn. destruct (cancel_cases st l) as [->|[o ->]]; [done|]. set (l1 := mkLoop _ _ _ _).
  pose proof (write_name st l1 Hn) as Hw. destruct (write_stream st l1) as [st' l']. by destruct Hw as (_ & ? & ? & ?).
Qed.

Lemma cancel_all_names l : (forall st, streamNext (dl l) = Some st -> stream_name st = stream_next_path (dl l)) ->
  stream_ (dl l) = None ->
  dl (cancel_all l) = put_stream None (put_streamNext None (dl l)) /\
  leaked (cancel_all l) = leaked l /\ payload_written (cancel_all l) = payload_written l.
Proof.
  intros Hn Hs. unfold cancel_all. destruct (streamNext (dl l)) as [st|] eqn:Hst.
  - destruct (cancel_name st l (Hn st eq_refl)) as (Hd & Hl & Hw). rewrite Hd, Hs. cbn. rewrite Hd.
    split; [done|]. split; [done|]. rewrite <- Hw. unfold payload_written. cbn. by rewrite Hd.
  - by rewrite Hs.
Qed.

Lemma cancel_streamNext_names l : (forall st, streamNext (dl l) = Some st -> stream_name st = stream_next_path (dl l)) ->
  exists l', cancel_streamNext l = (Ok (), l') /\ dl l' = put_streamNext None (dl l) /\
    leaked l' = leaked l /\ payload_written l' = payload_written l.
Proof.
  intros Hn. unfold cancel_streamNext. destruct (streamNext (dl l)) as [st|] eqn:Hst.
  - destruct (cancel_name st l (Hn st eq_refl)) as (Hd & Hl & Hw). eexists. split; [done|]. cbn. rewrite Hd.
    split; [done|]. split; [done|]. rewrite <- Hw. unfold payload_written. cbn. by rewrite Hd.
  - exists l. split; [done|]. split; [|done]. destruct (dl l). cbn in *. by subst.
Qed.

(** Only the parts that the invariant speaks of. *)
Lemma all_written_same fs l l' : payload_written l' = payload_written l ->
  payloadPath (dl l') = payloadPath (dl l) ->
  dir_of (downloaderType (dl l')) = dir_of (downloaderType (dl l)) ->
  all_written fs l -> all_written fs l'.
Proof.
  unfold all_written. intros -> Hp Ht ->. unfold delivered, file_path. by rewrite Hp, Ht.
Qed.

(** ** The cases of select *)

Definition continues fs s s' : Prop := results s' = results s /\ (answers_error s' \/ underway fs s').

Lemma fs_nil fs l e : settled fs l e -> downloaderType (dl l) = unknownDownloader -> fs = [].
Proof. intros Hset Ht. destruct fs as [|f fs]; [done|]. by destruct (settled_type _ _ _ Hset). Qed.

(** What is known whenever the loop is in select. *)
Lemma selecting_names fs l e c : phase fs l e Selecting c ->
  (forall st, streamNext (dl l) = Some st -> stream_name st = stream_next_path (dl l)) .
Proof. inversion 1; naive_solver. Qed.

(** The process ended well before any name was taken: the client takes over. *)
Lemma take_over_ok s e : settled [] (loop s) e -> phase [] (loop s) e Selecting (client s) ->
  finishFlag (dl (loop s)) = false -> downloaderType (dl (loop s)) = unknownDownloader ->
  continues [] s (with_loop (run_case (handleCmdErr None) (loop s))
    (mkSys (loop s) Selecting (Reaped None) (client s) (results s))).
Proof.
  intros Hset Hph Hfin Ht. split; [done|].
  unfold run_case, handleCmdErr, mbind, IO_bind, get_dl, gets, on_dl. cbn. rewrite Hfin, Ht. cbn.
  set (l1 := mkLoop _ _ _ _).
  destruct (cancel_streamNext_names l1 (selecting_names _ _ _ _ Hph)) as (l2 & -> & Hd & Hl & Hw).
  destruct (initializeMenderDownload_cases l2) as (o & r & ->).
  assert (leaked l2 = []) as Hl2 by (rewrite Hl; apply Hset).
  assert (currentStream (dl l2) = currentStream (dl (loop s))) as Hc2 by (by rewrite Hd).
  assert (finishFlag (dl l2) = false) as Hf2 by (by rewrite Hd).
  destruct r as [[]|err]; unfold end_of_body; cbn; [|rewrite Hf2; left; by eexists].
  right. inversion Hph as [e' c Ho _ _ Hn Hs Haw Hc|e' f st _ _ Hc _ Hn Hnn Hs Haw|e' f st _ _ Hm|
    e' f|e' Hf|]; subst; try congruence.
  - rewrite Hc by done. cbn. rewrite Hf2. cbn. split; [split; cbn; rewrite ?Hd, ?Hl2; cbn; try done; apply Hset|].
    apply ph_quiet; cbn; try done; try by rewrite Hd.
    trans (payload_written l2); [done|]. rewrite Hw. exact Haw.
  - rewrite Hc. unfold start_in_files, set_stream, get_dl, gets, mbind, IO_bind. cbn. rewrite Hf2. cbn. split; [split; cbn; rewrite ?Hd; cbn; rewrite ?Hs, ?Hl2; try done; apply Hset|].
    eapply ph_copying; cbn; try (by rewrite Hd); try done. split; [by rewrite Hd|]. cbn.
    trans (payload_written l2); [done|]. rewrite Hw. exact Haw.
Qed.

(** The loop returns after the process has ended. *)
Lemma return_finished fs s e r : settled fs (loop s) e -> phase fs (loop s) e Selecting WaitFinish ->
  continues fs s (with_loop
    (cancel_all (mkLoop (process_gone (dl (loop s))) (os (loop s)) (written (loop s)) (leaked (loop s))), LoopReturned r)
    (mkSys (loop s) Selecting (Reaped r) WaitFinish (results s))).
Proof.
  intros Hset Hph. split; [done|]. right. inversion Hph as [| | | |e' Hf Hr Hn Hs Haw|]; subst; [done|].
  set (l1 := mkLoop _ _ _ _). destruct (cancel_all_names l1 Hn Hs) as (Hd & Hl & Hw).
  revert Hd Hl Hw. generalize (cancel_all l1). intros l2 Hd Hl Hw.
  split; [split; cbn; rewrite ?Hd, ?Hl; cbn; try done; apply Hset|].
  apply ph_returned; cbn; rewrite ?Hd; [by intros ->|done|done|].
  apply (all_written_same fs (loop s)); [by rewrite Hw|by rewrite Hd..|done].
Qed.

Lemma from_cmd fs s s' : underway fs s -> pc s = Selecting -> receive FromCmd s = Some s' -> continues fs s s'.
Proof.
  intros [Hset Hph] Hpc Hr. unfold receive in Hr. rewrite Hpc in *.
  destruct (process s) as [|err|] eqn:Hproc; [done| |done].
  rewrite (settled_cmdErr _ _ _ Hset) in Hr. cbn in Hr. injection Hr as <-.
  destruct (finishFlag (dl (loop s))) eqn:Hfin.
  - assert (client s = WaitFinish) as Hc by (inversion Hph; congruence). rewrite Hc in *.
    pose proof (return_finished fs s _ err Hset Hph) as Hret. destruct err as [err|].
    + unfold handleCmdErr. run_program. unfold end_of_body. cbn. rewrite Hfin. cbn.
      destruct Hret as [? [[? [=]]|[Hs1 Hp1]]]. split; [done|right]. split; [exact Hs1|].
      cbn in *. inversion Hp1; subst. by apply ph_returned.
    + unfold handleCmdErr. run_program. rewrite Hfin. unfold end_of_body. cbn. rewrite Hfin. exact Hret.
  - destruct err as [err|].
    { unfold handleCmdErr. run_program. unfold end_of_body. cbn. rewrite Hfin. split; [done|left]. by eexists. }
    destruct (downloaderType (dl (loop s))) eqn:Ht.
    + pose proof (fs_nil _ _ _ Hset Ht) as ->. by apply (take_over_ok s (Exited None)).
    + unfold handleCmdErr. run_program. rewrite Hfin, Ht. unfold end_of_body. cbn. rewrite Hfin.
      split; [done|left]. by eexists.
    + exfalso. inversion Hph; cbn in *; congruence.
Qed.

Lemma from_artifact fs s s' : underway fs s -> pc s = Selecting -> receive FromArtifact s = Some s' ->
  continues fs s s'.
Proof.
  intros [Hset Hph] Hpc Hr. unfold receive in Hr. rewrite Hpc in *.
  destruct (client s) as [|f| | | |]; try done. injection Hr as <-.
  inversion Hph as [e' c Ho Hf Htk Hn Hs Haw Hc| | | | |]; subst. split; [done|].
  run_program. unfold handleNextArtifactStream. run_program.
  destruct (downloaderType (dl (loop s))) eqn:Ht; cbn.
  1-2: match goal with |- context [publish ?n ?l] => destruct (publish_cases n l) as (o & r & ->) end;
    unfold end_of_body; cbn; rewrite Hf; destruct r as [[]|err]; cbn; [right|left; by eexists];
    (split; [by split; cbn; try apply Hset; rewrite Hn; apply Hset|]);
    eapply ph_naming; cbn; try done; by rewrite Ht.
  unfold end_of_body; cbn; rewrite Hf; cbn. right.
  split; [by split; cbn; try apply Hset; rewrite Hs; apply Hset|].
  eapply ph_copying; cbn; try done; [by rewrite Ht|]. split; cbn; [by rewrite Ht|done].
Qed.

Lemma from_finish fs s s' : underway fs s -> pc s = Selecting -> receive FromFinish s = Some s' ->
  continues fs s s'.
Proof.
  intros [Hset Hph] Hpc Hr. unfold receive in Hr. rewrite Hpc in *.
  destruct (client s) eqn:Hcl; try done. injection Hr as <-.
  inversion Hph as [e' c Ho Hf Htk Hn Hs Haw Hc| | | | |]; subst. split; [done|].
  unfold handleFinishChannel. run_program. pose proof (settled_proc _ _ _ Hset) as Hp.
  assert (downloaderType (dl (loop s)) <> menderDownloader -> is_reaped (process s) = false) as Hrun.
  { intros Hne. by destruct (process s) as [| |[err|]]; cbn in *. }
  destruct (downloaderType (dl (loop s))) eqn:Ht; cbn.
  1-2: rewrite Hrun in Hp by done;
    match goal with |- context [publish ?n ?l] => destruct (publish_cases n l) as (o & r & ->) end;
    unfold end_of_body; cbn; rewrite Hp; destruct r as [[]|err]; cbn; [right|left; by eexists];
    (split; [by split; cbn; try apply Hset; rewrite Hn; apply Hset|]);
    apply ph_finishing; cbn; try done; [by apply Hrun|by intros st [= <-]].
  assert (is_reaped (process s) = true /\ process s = Reaped None) as [Hre Hnone]
    by (destruct (process s) as [| |[err|]]; done).
  rewrite Hre in Hp. unfold end_of_body; cbn. rewrite Hp. cbn.
  set (l1 := mkLoop _ _ _ _). destruct (cancel_all_names l1) as (Hd & Hl & Hw); [by cbn; rewrite Hn|done|].
  revert Hd Hl Hw. generalize (cancel_all l1). intros l2 Hd Hl Hw.
  right. split; [split; cbn; rewrite ?Hd, ?Hl; cbn; apply Hset|].
  apply ph_returned; cbn; rewrite ?Hd; [done..|].
  apply (all_written_same fs (loop s)); [by rewrite Hw|by rewrite Hd..|done].
Qed.

Lemma taken_over_other l l' e : downloaderType (dl l) <> menderDownloader ->
  downloaderType (dl l') <> menderDownloader -> taken_over l e -> taken_over l' e.
Proof. by destruct e as [| |[]]. Qed.

Lemma from_stream_next fs s s' : underway fs s -> pc s = Selecting -> receive FromStreamNext s = Some s' ->
  continues fs s s'.
Proof.
  intros [Hset Hph] Hpc Hr. unfold receive in Hr. rewrite Hpc in *.
  destruct (status_of _) as [err|] eqn:Hst; [|done]. injection Hr as <-. split; [done|].
  assert (proc (dl (loop s)) = negb (is_reaped (process s))) as Hp by apply Hset.
  inversion Hph as [e' c Ho Hf Htk Hn|e' f st Hf Htk Hc Hm Hn Hnn Hs Haw|e' f st Hf Htk Hm Hn|
    e' f Hf Htk Hm Hn|e' Hf Hr Hn Hs Haw|]; subst; try (by rewrite Hn in Hst).
  - unfold handleStreamNextChannel. run_program.
    destruct (downloaderType (dl (loop s))) eqn:Ht; [| |done];
      (destruct err as [err|]; cbn; [unfold end_of_body; cbn; rewrite Hf; left; by eexists|]);
      rewrite Hf, Hc; unfold end_of_body; cbn; rewrite Hf; cbn; right;
      (split; [split; cbn; rewrite ?Hs; try done; apply Hset|]);
      (use_client; eapply ph_copying; cbn; try done; [by apply (taken_over_other (loop s)); cbn; rewrite ?Ht|]);
      (split; [done|]); cbn; unfold all_written in Haw; rewrite Ht in Haw; exact Haw.
  - rewrite Hr in Hp. unfold handleStreamNextChannel. run_program.
    destruct (downloaderType (dl (loop s))) eqn:Ht; cbn;
      (destruct err as [err|]; cbn);
      rewrite ?Hf; unfold end_of_body; cbn; rewrite ?Hf, ?Hp; cbn; try (left; by eexists); right;
      (split; [split; cbn; try done; try apply Hset; by rewrite Ht; intros; try apply Hset|]);
      use_client; apply ph_finishing; cbn; try done; unfold all_written in *; rewrite Ht in Haw; cbn; try rewrite Ht; exact Haw.
Qed.

Lemma from_stream fs s s' : underway fs s -> pc s = Selecting -> receive FromStream s = Some s' ->
  continues fs s s'.
Proof.
  intros [Hset Hph] Hpc Hr. unfold receive in Hr. rewrite Hpc in *.
  destruct (status_of _) as [err|] eqn:Hst; [|done].
  inversion Hph as [e' c Ho Hf Htk Hn Hs|e' f st Hf Htk Hc Hm Hn Hnn Hs Haw|e' f st Hf Htk Hm Hn Hs Hfl|
    e' f Hf Htk Hm Hn|e' Hf Hr' Hn Hs Haw|]; subst; try (by rewrite Hs in Hst).
  rewrite Hs in Hst. cbn in Hst. destruct Hfl as [Hwp Hw]. rewrite Hst in Hw.
  unfold handleStreamChannel, mbind, IO_bind, on_dl, fail in Hr. cbn in Hr. destruct err as [err|].
  - injection Hr as <-. unfold end_of_body. cbn. rewrite Hf. split; [done|left]. by eexists.
  - injection Hr as <-. split; [done|right]. split; [by split; cbn; apply Hset|].
    use_client. by apply ph_stored.
Qed.

Lemma receive_continues c fs s s' : underway fs s -> pc s = Selecting -> receive c s = Some s' ->
  continues fs s s'.
Proof. destruct c; [apply from_cmd|apply from_artifact|apply from_stream_next|apply from_stream|apply from_finish]. Qed.

(** ** The other events *)

Lemma delivered_same t d d' fs : payloadPath d' = payloadPath d -> delivered t d' fs = delivered t d fs.
Proof. intros Hp. unfold delivered, file_path. by rewrite Hp. Qed.

Lemma next_written fs s s' : underway fs s -> step NextWritten s = Some s' -> continues fs s s'.
Proof.
  intros [Hset Hph]. cbn. unfold finish_writer. destruct (streamNext (dl (loop s))) as [st|] eqn:Hn; [|done].
  destruct (stream_status st) eqn:Hst; [done|].
  assert (stream_name st = stream_next_path (dl (loop s))) as Hnn by (inversion Hph; naive_solver).
  pose proof (write_name st _ Hnn) as Hw. destruct (write_stream st (loop s)) as [st' l'].
  destruct Hw as (Hn' & Hd & Hl & Hw). intros [= <-]. split; [done|right].
  split; [split; cbn; rewrite ?Hd, ?Hl; cbn; apply Hset|].
  assert (forall g, payload_written (mkLoop (put_streamNext (Some st') (dl (loop s))) (os l') (written l') g) = payload_written (loop s)) as Hpw
    by (intros g; rewrite <- Hw; unfold payload_written; cbn; by rewrite Hd).
  inversion Hph as [|e' f st0 Hf Htk Hc Hm Hn0 Hnn0 Hs Haw| | |e' Hf Hr Hn0 Hs Haw|]; subst; try congruence.
  - use_client; use_pc. eapply ph_naming; cbn; try done; rewrite ?Hd; cbn; try done; [rewrite Hn'; exact Hnn|].
    apply (all_written_same fs (loop s)); [apply Hpw|by cbn; rewrite ?Hd..|done].
  - use_client; use_pc. apply ph_finishing; cbn; rewrite ?Hd; cbn; try done; [intros ? [= <-]; rewrite Hn'; exact Hnn|].
    apply (all_written_same fs (loop s)); [apply Hpw|by cbn; rewrite ?Hd..|done].
Qed.

Lemma stream_written fs s s' : underway fs s -> step StreamWritten s = Some s' -> continues fs s s'.
Proof.
  intros [Hset Hph]. cbn. unfold finish_writer. destruct (stream_ (dl (loop s))) as [st|] eqn:Hs; [|done].
  destruct (stream_status st) eqn:Hst; [done|].
  inversion Hph as [| |e' f st0 Hf Htk Hm Hn Hs0 Hfl| | |]; subst; try congruence.
  assert (st0 = st) as -> by congruence. destruct Hfl as [Hwp Hw]. rewrite Hst in Hw.
  pose proof (write_payload _ _ _ _ Hwp) as Hwr. destruct (write_stream st (loop s)) as [st' l'].
  destruct Hwr as (Hwp' & Hd & Hl & Hcases). intros [= <-]. split; [done|right].
  split; [split; cbn; rewrite ?Hd, ?Hl; cbn; apply Hset|].
  use_client; use_pc. eapply ph_copying; cbn; rewrite ?Hd; cbn; try done.
  set (l1 := mkLoop _ _ _ _).
  assert (payload_written l1 = payload_written l') as Hl1 by (unfold payload_written, l1; cbn; by rewrite Hd).
  split; [done|]. rewrite !Hl1. destruct Hcases as [[-> Hnow]|[[err ->] Hnow]]; rewrite Hnow, Hw; [|done].
  by rewrite delivered_app.
Qed.

Lemma stored_snoc fs f : stored (fs ++ [f]) = stored fs ++ [RStore f None].
Proof. unfold stored. by rewrite fmap_app. Qed.

Lemma answered fs s s' : results s = stored fs -> underway fs s -> step Answer s = Some s' -> invariant s'.
Proof.
  intros Hres [Hset Hph]. cbn. unfold answer, answer_client.
  inversion Hph as [| | |e' f Hf Htk Hm Hn Hs Haw| |e' err Herr Hn Hs Haw]; subst; try done; cbn.
  - unfold end_of_body. rewrite Hf. intros [= <-]. right; left. exists (fs ++ [f]). cbn.
    split; [by rewrite stored_snoc, Hres|]. right. split; [split; cbn; [apply Hset..|done]|].
    by apply ph_quiet.
  - intros [= <-]. destruct err as [err|].
    + left. cbn. rewrite existsb_app. by apply orb_true_r.
    + right; right. exists fs. cbn. split; [by rewrite Hres|]. split; try done; cbn; [by apply Herr|apply Hset..].
Qed.

(** Calls of the client. *)
Lemma called fs s s' f failed : has_error failed = true -> (forall s, outside (f s) = true) ->
  underway fs s -> call f failed s = Some s' -> continues fs s s'.
Proof.
  intros He Hf [Hset Hph]. unfold call. destruct (client s) eqn:Hc; try done.
  - intros [= <-]. split; [done|right]. split; [by split; cbn; apply Hset|]. cbn.
    inversion Hph; subst. use_pc. by apply ph_quiet.
  - inversion Hph; subst. done.
Qed.

Lemma ended fs s s' err : underway fs s -> step (ProcessEnds err) s = Some s' -> continues fs s s'.
Proof.
  intros [Hset Hph]. cbn. destruct (process s) eqn:Hp; try done. intros [= <-]. split; [done|right].
  split; [by split; cbn; apply Hset|]. cbn.
  inversion Hph as [| | | | |e' err' Herr]; subst; try use_client; use_pc;
    [by apply ph_quiet|by eapply ph_naming|by eapply ph_copying|by apply ph_stored|by apply ph_finishing|].
  apply ph_returned; [|done..]. intros ->. by specialize (Herr eq_refl).
Qed.

(** What an event adds to the results: an answer, or the error of a call that
    came too late. *)
Lemma step_results e s s' : step e s = Some s' ->
  e <> Answer /\ results s' = results s \/ exists r, results s' = results s ++ [r] /\
    match e with Answer => forall err, pc s = AnsweringError err -> has_error r = true | _ => has_error r = true end.
Proof.
  destruct e as [f| |err| | |i|c|]; cbn.
  1-2: unfold call; destruct (client s); try done; intros [= <-]; [by left|right; by eexists].
  - destruct (process s); try done. intros [= <-]. by left.
  - intros (l & _ & ->)%fmap_Some. by left.
  - intros (l & _ & ->)%fmap_Some. by left.
  - intros (l & _ & ->)%fmap_Some. by left.
  - destruct (pc s); try done. destruct c; cbn; repeat case_match; intros [= <-]; by left.
  - unfold answer. destruct (pc s) as [| |e|e|]; try done; intros (s1 & Ha & ->)%fmap_Some; revert Ha;
      unfold answer_client; destruct (client s); try done; intros [= <-]; right; eexists; (split; [done|]);
      by intros ? [= ->].
Qed.

Lemma step_pc e s s' err : pc s = AnsweringError err -> step e s = Some s' -> e <> Answer -> pc s' = pc s.
Proof.
  intros Hpc Hstep He. destruct e as [f| |err'| | |i|c|]; try done; cbn in Hstep.
  1-2: by unfold call in Hstep; destruct (client s); simplify_eq.
  1: by destruct (process s); simplify_eq.
  1-3: by apply fmap_Some in Hstep as (l & _ & ->).
  by rewrite Hpc in Hstep.
Qed.

Lemma error_step e s s' : answers_error s -> step e s = Some s' ->
  existsb has_error (results s') = true \/ results s' = results s /\ answers_error s'.
Proof.
  intros [err Hpc] Hstep. destruct (step_results _ _ _ Hstep) as [[Hne Hr]|(r & -> & Hr)].
  - right. split; [done|]. exists err. by rewrite (step_pc _ _ _ _ Hpc Hstep Hne).
  - left. rewrite existsb_app. cbn. rewrite orb_false_r. apply orb_true_iff. right. destruct e; eauto.
Qed.

Lemma finished_step e fs s s' : finished fs s -> step e s = Some s' ->
  existsb has_error (results s') = true.
Proof.
  intros [Hpc Hc Hp Hl Hn Hs _] Hstep. destruct e; cbn in Hstep;
    unfold call, answer, finish_writer, finish_leaked in Hstep; rewrite ?Hpc, ?Hc, ?Hp, ?Hl, ?Hn, ?Hs in Hstep;
    try done; injection Hstep as <-; cbn; rewrite existsb_app; by apply orb_true_r.
Qed.

Lemma continues_invariant fs s s' : results s = stored fs -> continues fs s s' -> invariant s'.
Proof. intros Hres [Hr Hn]. right; left. exists fs. by rewrite Hr. Qed.

Lemma step_invariant e s s' : invariant s -> step e s = Some s' -> invariant s'.
Proof.
  intros [Hbad|[[fs [Hres [Herr|Hu]]]|[fs [Hres Hfin]]]] Hstep.
  - left. destruct (step_results _ _ _ Hstep) as [[_ ->]|(r & -> & _)]; [done|by apply error_stays].
  - destruct (error_step _ _ _ Herr Hstep) as [Hb|[Hr He]]; [by left|right; left]. exists fs.
    rewrite Hr. split; [done|by left].
  - destruct e as [f| |err| | |i|c|].
    + eapply continues_invariant, called; [done|..|done|exact Hstep]; done.
    + eapply continues_invariant, called; [done|..|done|exact Hstep]; done.
    + eapply continues_invariant, ended; done.
    + eapply continues_invariant, next_written; done.
    + eapply continues_invariant, stream_written; done.
    + destruct Hu as [Hset _]. cbn in Hstep. unfold finish_leaked in Hstep.
      by rewrite (settled_leaked _ _ _ Hset) in Hstep.
    + cbn in Hstep. destruct (pc s) eqn:Hpc; try done.
      eapply continues_invariant, receive_continues; done.
    + by eapply answered.
  - left. by eapply finished_step.
Qed.

Lemma run_invariant es s s' : invariant s -> run es s = Some s' -> invariant s'.
Proof.
  revert s. induction es as [|e es IH]; intros s Hi; cbn; [by intros [= <-]|].
  destruct (step e s) as [s1|] eqn:Hstep; [|done]. apply IH. by eapply step_invariant.
Qed.
End spec.

(** C34: a download into an update module that reports no error is complete.  However
    client, loop, process and writers interleave, and whatever the system answers:
    if every [StoreUpdate] and then [FinishStoreUpdate] returned without an error,
    the process ended with success, and the payload files were copied completely,
    each once and in the order of the calls, all of them into the module's pipes
    under [streams], or, when it did not take them, all into files under [files]. *)
Theorem download_without_error_is_complete `{StreamOs D} (p : string) (o : D) (es : list Event) (s : Sys D)
    (fs : list namedReader) (Hrun : run es (prepared p o) = Some s)
    (Hresults : results s = stored fs ++ [RFinish None]) :
  process s = Reaped None /\
  exists dir, (dir = "streams" \/ dir = "files") /\
    filter (fun w => w.1 <> join_path p "stream-next") (written (loop s)) =
    (fun f => (join_path (join_path p dir) (reader_name f), reader_r f)) <$> fs.
Proof.
  destruct (run_invariant p _ _ _ (prepared_invariant p o) Hrun) as [Hbad|[[gs [Hres _]]|[gs [Hres Hfin]]]].
  - exfalso. rewrite Hresults, existsb_app, orb_true_iff in Hbad. destruct Hbad as [Hbad|]; [|done].
    by rewrite stored_no_error in Hbad.
  - exfalso. rewrite Hresults in Hres. apply (f_equal last) in Hres. rewrite last_snoc in Hres.
    unfold stored in Hres. rewrite fmap_last in Hres. by destruct (last gs).
  - rewrite Hresults in Hres. apply app_inj_tail in Hres as [Heq _].
    apply stored_inj in Heq as ->.
    destruct Hfin as [_ _ Hp _ _ _ Hpath Hw]. split; [done|].
    exists (dir_of (downloaderType (dl (loop s)))). split; [destruct (downloaderType _); auto|].
    rewrite <- Hpath. exact Hw.
Qed.
