(* ===== verification/ModuleDownloadCalls.v ===== *)
(** * ModuleDownloadCalls: the calls of a download end

    Every call of the client is answered after a bounded number of events,
    unless the loop wants to send a status while the client wants to send a
    request: then both wait for ever.  At the end two downloads, to a module that
    takes its files from the pipes and to one that leaves them to the client. *)

From S2P Require Import Prelude Text Os ModuleDownload ModuleDownloadSpec.
From Stdlib Require Import Strings.Byte.

Open Scope nat_scope.

(** Events that are not calls of the client. *)
Definition internal (e : Event) : bool :=
  match e with StoreUpdate _ | FinishStoreUpdate => false | _ => true end.

Section calls.
Context `{StreamOs D}.
Implicit Types (l : Loop D) (s : Sys D) (d : moduleDownload).

Definition in_call s : bool :=
  match client s with Idle | NoDownloader => false | _ => true end.

(** Events that come without the module's help: a process that runs is killed
    when its time is over; the loop receives what is there; files end. *)
Definition guaranteed (e : Event) s : bool :=
  match e with
  | ProcessEnds _ | Receive _ | Answer => true
  | StreamWritten =>
      match stream_ (dl (loop s)) with
      | Some st => match openFlags st with CreateNew => true | OpenExisting => false end
      | None => false
      end
  | _ => false
  end.

(** Loop and client send to each other. *)
Definition crossing s : bool :=
  match client s, pc s with
  | (SendStream _ | SendFinish), (AnsweringError _ | AnsweringStored) => true
  | _, _ => false
  end.

(** ** A measure *)

Definition weigh (running ended : nat) (o : option stream) : nat :=
  match o with
  | Some st => match stream_status st with None => running | Some _ => ended end
  | None => 0
  end.

Definition weigh_leaked (sts : list stream) : nat :=
  sum_list_with (fun st => weigh 1 0 (Some st)) sts.

Arguments weigh_leaked : simpl never.

Definition weigh_loop l : nat :=
  weigh 6 5 (streamNext (dl l)) + weigh 4 3 (stream_ (dl l)) + weigh_leaked (leaked l).

Definition weigh_pc (p : LoopPC) : nat :=
  match p with
  | Selecting | LoopEnded => 0
  | AnsweringStored => 2
  | AnsweringError _ | LoopReturned _ => 1
  end.

Definition measure s : nat :=
  weigh_loop (loop s) + weigh_pc (pc s) +
  match process s with Running => 6 | Exited _ => 5 | Reaped _ => 0 end +
  match client s with SendStream _ | SendFinish => 7 | _ => 0 end.

Lemma weigh_leaked_app xs ys : weigh_leaked (xs ++ ys) = weigh_leaked xs + weigh_leaked ys.
Proof. apply sum_list_with_app. Qed.

Lemma weigh_abandoned o : weigh_leaked (list_of o) <= 1 /\ weigh_leaked (list_of o) <= weigh 4 3 o /\
  weigh_leaked (list_of o) <= weigh 6 5 o.
Proof. unfold weigh_leaked. destruct o as [st|]; cbn; [|lia]. destruct (stream_status st); cbn; lia. Qed.

Lemma cancel_leaked st l : leaked (cancel st l) = leaked l.
Proof.
  destruct (cancel_cases st l) as [->|[o ->]]; [done|].
  apply (write_stream_dl st (mkLoop (dl l) o (written l) (leaked l))).
Qed.

Lemma cancel_dl st l : dl (cancel st l) = dl l.
Proof.
  destruct (cancel_cases st l) as [->|[o ->]]; [done|].
  apply (write_stream_dl st (mkLoop (dl l) o (written l) (leaked l))).
Qed.

Lemma weigh_cancel_all l : weigh_loop (cancel_all l) = weigh_leaked (leaked l).
Proof.
  trans (weigh_leaked (leaked (cancel_all l))); [done|]. f_equal. unfold cancel_all. cbn.
  repeat case_match; by rewrite ?cancel_leaked.
Qed.

Lemma weigh_end_of_body r l :
  let '(l', p) := end_of_body r l in
  weigh_loop l' + weigh_pc p <=
    Nat.max (weigh_loop l + match r with Ok _ => 0 | Err _ => 1 end) (weigh_leaked (leaked l) + 1).
Proof.
  unfold end_of_body. destruct (_ && _); [rewrite weigh_cancel_all; cbn; lia|].
  destruct r as [[]|]; cbn; lia.
Qed.

Lemma weigh_leaked_loop l : weigh_leaked (leaked l) <= weigh_loop l.
Proof. unfold weigh_loop. lia. Qed.

(** What a case of select adds to the weight at most. *)
Definition adds (n : nat) (h : IO (Loop D) unit) l : Prop :=
  let '(l', p) := run_case h l in weigh_loop l' + weigh_pc p <= weigh_loop l + n.

Lemma adds_intro n h l r l' : h l = (r, l') ->
  weigh_loop l' + match r with Ok _ => 0 | Err _ => 1 end <= weigh_loop l + n ->
  weigh_leaked (leaked l') + 1 <= weigh_loop l + n -> adds n h l.
Proof.
  intros Hh Hr Hl. unfold adds, run_case. rewrite Hh. pose proof (weigh_end_of_body r l') as He.
  destruct (end_of_body r l'). lia.
Qed.

Lemma weigh_set_streamNext o l n : weigh 6 5 o <= n ->
  weigh_loop (mkLoop (put_streamNext o (dl l)) (os l) (written l) (list_of (streamNext (dl l)) ++ leaked l)) <=
    weigh_loop l + n.
Proof.
  unfold weigh_loop. cbn. rewrite weigh_leaked_app. pose proof (weigh_abandoned (streamNext (dl l))). lia.
Qed.

Lemma adds_publish name f l : (forall d, streamNext (f d) = streamNext d /\ stream_ (f d) = stream_ d) ->
  adds 6 (on_dl f ≫= fun _ => publish name) l.
Proof.
  intros Hf. destruct (Hf (dl l)) as [Hn Hs].
  destruct (publish_cases name (mkLoop (f (dl l)) (os l) (written l) (leaked l))) as (o & r & Hp).
  pose proof (weigh_abandoned (streamNext (dl l))) as Ha.
  eapply adds_intro; [unfold on_dl, mbind, IO_bind; cbn; exact Hp|..];
    unfold weigh_loop; cbn; rewrite ?weigh_leaked_app, ?Hn, ?Hs; destruct r; cbn; lia.
Qed.

Lemma adds_artifact f l : adds 6 (on_dl (set_currentStream (Some f)) ≫= fun _ => handleNextArtifactStream) l.
Proof.
  destruct (downloaderType (dl l)) eqn:Ht.
  1-2: pose proof (adds_publish (reader_name f) (set_currentStream (Some f)) l (fun _ => conj eq_refl eq_refl)) as Ha;
    unfold adds, run_case, handleNextArtifactStream, mbind, IO_bind, on_dl, get_dl, gets in *; cbn in *;
    by rewrite Ht.
  pose proof (weigh_abandoned (stream_ (dl l))) as Ha. eapply adds_intro.
  - unfold handleNextArtifactStream. run_program. rewrite Ht. cbn. done.
  - unfold weigh_loop. cbn. rewrite weigh_leaked_app. lia.
  - unfold weigh_loop. cbn. rewrite weigh_leaked_app. lia.
Qed.

Lemma adds_finish l : adds 6 handleFinishChannel l.
Proof.
  destruct (downloaderType (dl l)) eqn:Ht.
  1-2: pose proof (adds_publish EmptyString set_finishFlag l (fun _ => conj eq_refl eq_refl)) as Ha;
    unfold adds, run_case, handleFinishChannel, mbind, IO_bind, on_dl, get_dl, gets in *; cbn in *;
    by rewrite Ht.
  eapply (adds_intro _ _ _ (Ok ())).
  - unfold handleFinishChannel. run_program. rewrite Ht. unfold on_os. cbn. done.
  - unfold weigh_loop. cbn. lia.
  - unfold weigh_loop. cbn. lia.
Qed.

Lemma adds_cmd err l : adds 4 (handleCmdErr err) l.
Proof.
  destruct err as [err|].
  { eapply adds_intro; [done|..]; unfold weigh_loop; cbn; lia. }
  destruct (finishFlag (dl l)) eqn:Hf.
  { eapply adds_intro; [unfold handleCmdErr; run_program; by rewrite Hf|..]; unfold weigh_loop; cbn; lia. }
  destruct (downloaderType (dl l)) eqn:Ht;
    [|eapply adds_intro; [unfold handleCmdErr; run_program; by rewrite Hf, Ht|..]; unfold weigh_loop; cbn; lia..].
  set (l1 := mkLoop (set_downloaderType menderDownloader (process_gone (dl l))) (os l) (written l) (leaked l)).
  assert (exists l2, cancel_streamNext l1 = (Ok (), l2) /\ streamNext (dl l2) = None /\
    stream_ (dl l2) = stream_ (dl l) /\ leaked l2 = leaked l) as (l2 & Hc & Hn & Hs & Hl).
  { unfold cancel_streamNext. destruct (streamNext (dl l1)) as [st|] eqn:Hst; [|by exists l1].
    eexists. split; [done|]. cbn. by rewrite cancel_dl, cancel_leaked. }
  destruct (initializeMenderDownload_cases l2) as (o & r & Hi).
  pose proof (weigh_abandoned (stream_ (dl l))) as Ha.
  assert (exists r l3, handleCmdErr None l = (r, l3) /\ weigh_leaked (leaked l3) <= weigh_loop l /\
    weigh_loop l3 + match r with Ok _ => 0 | Err _ => 1 end <= weigh_loop l + 4) as (r3 & l3 & Hh & Hw1 & Hw2).
  { unfold handleCmdErr. run_program. rewrite Hf, Ht. cbn. fold l1. rewrite Hc, Hi.
    destruct r as [[]|err]; [destruct (currentStream (dl l)); cbn|]; eexists _, _; (split; [done|]);
      unfold weigh_loop; cbn; rewrite ?weigh_leaked_app, ?Hn, ?Hs, ?Hl; cbn; lia. }
  eapply adds_intro; [exact Hh|lia|lia].
Qed.

(** A name that was taken makes place for its file. *)
Lemma adds_stream_next err st l : streamNext (dl l) = Some st -> stream_status st <> None ->
  let '(l', p) := run_case (handleStreamNextChannel err) l in weigh_loop l' + weigh_pc p < weigh_loop l.
Proof.
  intros Hn Hst.
  assert (weigh 6 5 (streamNext (dl l)) = 5) as Hw by (rewrite Hn; cbn; by destruct (stream_status st)).
  pose proof (weigh_abandoned (stream_ (dl l))) as Ha.
  assert (exists r l', handleStreamNextChannel err l = (r, l') /\ weigh_leaked (leaked l') + 5 <= weigh_loop l /\
    weigh_loop l' + match r with Ok _ => 0 | Err _ => 1 end < weigh_loop l) as (r & l' & Hh & H1 & H2).
  { unfold handleStreamNextChannel, nil_dereference. run_program.
    destruct (downloaderType (dl l)), err as [err|]; cbn;
      try (destruct (finishFlag (dl l)); [|destruct (currentStream (dl l))]); cbn; eexists _, _; (split; [done|]);
      unfold weigh_loop; cbn; rewrite ?weigh_leaked_app; lia. }
  unfold run_case. rewrite Hh. pose proof (weigh_end_of_body r l'). destruct (end_of_body r l'). lia.
Qed.

Lemma receive_decreases c s s' : pc s = Selecting -> receive c s = Some s' -> measure s' < measure s.
Proof.
  intros Hpc. unfold receive, measure. rewrite Hpc. destruct c.
  - destruct (process s) as [|err|] eqn:Hp; try done. destruct (cmdErr _); [|done]. intros [= <-]. cbn.
    pose proof (adds_cmd err (loop s)) as Ha. unfold adds in Ha. destruct (run_case _ _). cbn in *. lia.
  - destruct (client s) as [|f| | | |] eqn:Hc; try done. intros [= <-]. cbn.
    pose proof (adds_artifact f (loop s)) as Ha. unfold adds in Ha. destruct (run_case _ _). cbn in *. lia.
  - destruct (streamNext (dl (loop s))) as [st|] eqn:Hn; [|done]. cbn.
    destruct (stream_status st) as [err|] eqn:Hst; [|done]. intros [= <-]. cbn.
    pose proof (adds_stream_next err st (loop s) Hn) as Ha. rewrite Hst in Ha. specialize (Ha ltac:(done)).
    destruct (run_case _ _). cbn in *. lia.
  - destruct (stream_ (dl (loop s))) as [st|] eqn:Hn; [|done]. cbn.
    destruct (stream_status st) as [err|] eqn:Hst; [|done].
    set (l1 := mkLoop (put_stream None (dl (loop s))) (os (loop s)) (written (loop s)) (leaked (loop s))).
    assert (weigh_loop l1 + 3 = weigh_loop (loop s)) as Hw.
    { unfold weigh_loop. cbn. rewrite Hn. cbn. rewrite Hst. lia. }
    unfold handleStreamChannel, mbind, IO_bind, on_dl. cbn. fold l1. destruct err as [err|]; intros [= <-]; cbn.
    + pose proof (weigh_end_of_body (Err err) l1) as He. pose proof (weigh_leaked_loop l1).
      destruct (end_of_body _ _). cbn in *. lia.
    + lia.
  - destruct (client s) eqn:Hc; try done. intros [= <-]. cbn.
    pose proof (adds_finish (loop s)) as Ha. unfold adds in Ha. destruct (run_case _ _). cbn in *. lia.
Qed.

Lemma write_stream_status st l : stream_status (write_stream st l).1 <> None.
Proof. unfold write_stream. destruct (OpenCopy _ _ _ _) as [[]]; done. Qed.

Lemma sum_insert (f : stream -> nat) sts i st st' : sts !! i = Some st -> f st' < f st ->
  sum_list_with f (<[i := st']> sts) < sum_list_with f sts.
Proof.
  revert i. induction sts as [|x sts IH]; intros [|i] Hi Hf; try done; [simplify_eq; cbn in *; simplify_eq; lia|]; cbn in Hi |- *.
  specialize (IH i Hi Hf). unfold insert in *. lia.
Qed.

Lemma written_decreases e s s' : (e = NextWritten \/ e = StreamWritten \/ exists i, e = LeakedWritten i) ->
  step e s = Some s' -> measure s' < measure s.
Proof.
  intros He Hstep.
  assert (exists l, s' = with_loop (l, pc s) s /\ weigh_loop l < weigh_loop (loop s)) as (l & -> & Hl);
    [|unfold measure; cbn; lia].
  destruct He as [->|[->|[i ->]]]; cbn in Hstep; apply fmap_Some in Hstep as (l & Hf & ->);
    exists l; (split; [done|]); revert Hf; unfold finish_writer, finish_leaked.
  1-2: destruct (_ (dl (loop s))) as [st|] eqn:Hn; [|done]; destruct (stream_status st) eqn:Hst; [done|];
    pose proof (write_stream_status st (loop s)) as Hs; pose proof (write_stream_dl st (loop s)) as [Hd Hlk];
    destruct (write_stream st (loop s)) as [st' l']; cbn in *; intros [= <-];
    unfold weigh_loop; cbn; rewrite Hd, Hlk, ?Hn; cbn; rewrite Hst; destruct (stream_status st'); [lia|done].
  destruct (leaked (loop s) !! i) as [st|] eqn:Hi; [|done]. destruct (stream_status st) eqn:Hst; [done|].
  pose proof (write_stream_status st (loop s)) as Hs. pose proof (write_stream_dl st (loop s)) as [Hd Hlk].
  destruct (write_stream st (loop s)) as [st' l']. cbn in *. intros [= <-].
  unfold weigh_loop, weigh_leaked. cbn. rewrite Hd, Hlk.
  assert (weigh 1 0 (Some st') < weigh 1 0 (Some st)) as Hlt by (cbn; rewrite Hst; destruct (stream_status st'); [lia|done]).
  pose proof (sum_insert (fun st => weigh 1 0 (Some st)) _ _ _ st' Hi Hlt). cbn in *. lia.
Qed.

Lemma internal_decreases e s s' : internal e = true -> step e s = Some s' -> measure s' < measure s.
Proof.
  intros Hint Hstep. destruct e as [f| |err| | |i|c|]; try done; try (eapply written_decreases; [|done]; naive_solver).
  - cbn in Hstep. unfold measure. destruct (process s) eqn:Hp; simplify_eq. cbn. lia.
  - cbn in Hstep. destruct (pc s) eqn:Hpc; try done. by eapply receive_decreases.
  - cbn in Hstep. unfold answer, answer_client, measure in *. destruct (pc s) eqn:Hpc; try done;
      apply fmap_Some in Hstep as (s1 & Hs1 & ->); destruct (client s); simplify_eq; cbn; try lia.
    all: pose proof (weigh_end_of_body (Ok ()) (loop s)) as He; pose proof (weigh_leaked_loop (loop s));
      destruct (end_of_body _ _); cbn in *; lia.
Qed.

Lemma internal_run es s s' : forallb internal es = true -> run es s = Some s' ->
  length es + measure s' <= measure s.
Proof.
  revert s. induction es as [|e es IH]; intros s; cbn; [intros _ [= <-]; lia|].
  intros [He Hes]%andb_prop. destruct (step e s) as [s1|] eqn:Hstep; [|done]. cbn. intros Hr.
  pose proof (internal_decreases _ _ _ He Hstep). pose proof (IH _ Hes Hr). lia.
Qed.

Lemma weigh_leaked_length sts : weigh_leaked sts <= length sts.
Proof.
  induction sts as [|st sts IH]; [done|]. unfold weigh_leaked in *. cbn in *. destruct (stream_status st); lia.
Qed.

Lemma measure_bound s : measure s <= 25 + length (leaked (loop s)).
Proof.
  pose proof (weigh_leaked_length (leaked (loop s))).
  unfold measure, weigh_loop, weigh, weigh_pc. repeat case_match; cbn; lia.
Qed.

(** ** What is always known *)

(** The handlers do not touch the process and the finish flag, but for their
    first assignment. *)
Definition flags l : bool * bool * bool := (proc (dl l), cmdErr (dl l), finishFlag (dl l)).
Definition keeps l l' : Prop := flags l' = flags l.

#[local] Instance keeps_preorder : PreOrder keeps.
Proof. split; [by intros l|]. intros l1 l2 l3 H1 H2. unfold keeps in *. congruence. Qed.

Lemma keeps_on_dl f : (forall d, proc (f d) = proc d /\ cmdErr (f d) = cmdErr d /\ finishFlag (f d) = finishFlag d) ->
  steps keeps (on_dl (D:=D) f).
Proof. intros Hf l r l' [= <- <-]. destruct (Hf (dl l)) as (H1 & H2 & H3). unfold keeps, flags. cbn. congruence. Qed.

Lemma keeps_on_os {A} (m : IO D A) : steps keeps (on_os m).
Proof. intros l r l'. unfold on_os. destruct (m (os l)). by intros [= <- <-]. Qed.

Lemma keeps_set_stream o : steps keeps (set_stream (D:=D) o).
Proof. by intros l r l' [= <- <-]. Qed.

Lemma keeps_publish name : steps keeps (publish name).
Proof. intros l r l' Hp. destruct (publish_cases name l) as (o & r' & Hc). rewrite Hc in Hp. by injection Hp as <- <-. Qed.

Lemma keeps_initialize : steps keeps initializeMenderDownload.
Proof. intros l r l' Hp. destruct (initializeMenderDownload_cases l) as (o & r' & Hc). rewrite Hc in Hp. by injection Hp as <- <-. Qed.

Lemma keeps_cancel : steps keeps cancel_streamNext.
Proof.
  intros l r l'. unfold cancel_streamNext. destruct (streamNext (dl l)); intros [= <- <-]; [|done].
  unfold keeps, flags. cbn. by rewrite cancel_dl.
Qed.

Lemma keeps_cancel_all l : keeps l (cancel_all l).
Proof. unfold keeps, flags, cancel_all. cbn. repeat case_match; by rewrite ?cancel_dl. Qed.

Lemma keeps_handleNext : steps keeps handleNextArtifactStream.
Proof.
  unfold handleNextArtifactStream, start_in_files, nil_dereference, get_dl. io_steps;
    first [apply keeps_set_stream|apply keeps_publish].
Qed.

Lemma keeps_handleStreamNext err : steps keeps (handleStreamNextChannel err).
Proof.
  unfold handleStreamNextChannel, nil_dereference, get_dl. io_steps;
    first [apply keeps_set_stream|by apply keeps_on_dl].
Qed.

(** The rest of the two handlers that do. *)
Lemma flags_handleCmdErr err l r l' : handleCmdErr err l = (r, l') ->
  flags l' = (false, false, finishFlag (dl l)).
Proof.
  intros Hh. assert (keeps (mkLoop (process_gone (dl l)) (os l) (written l) (leaked l)) l') as Hk; [|by rewrite Hk].
  unfold handleCmdErr in Hh. match type of Hh with (_ ≫= ?k) l = _ =>
    assert (forall u, steps keeps (k u)) as Hk; [|exact (Hk () _ _ _ Hh)] end.
  unfold get_dl, start_in_files, get_dl. io_steps;
    first [apply keeps_set_stream|apply keeps_cancel|apply keeps_initialize|by apply keeps_on_dl].
Qed.

Lemma flags_handleFinish l r l' : handleFinishChannel l = (r, l') ->
  flags l' = (proc (dl l), cmdErr (dl l), true).
Proof.
  intros Hh. assert (keeps (mkLoop (set_finishFlag (dl l)) (os l) (written l) (leaked l)) l') as Hk; [|by rewrite Hk].
  unfold handleFinishChannel in Hh. match type of Hh with (_ ≫= ?k) l = _ =>
    assert (forall u, steps keeps (k u)) as Hk; [|exact (Hk () _ _ _ Hh)] end.
  unfold get_dl. io_steps; first [apply keeps_publish|apply keeps_on_os].
Qed.

Definition finishing (c : ClientPC) : bool :=
  match c with WaitFinish | NoDownloader => true | _ => false end.

Record known s : Prop := {
  known_flags : flags (loop s) = (negb (is_reaped (process s)), negb (is_reaped (process s)), finishing (client s));
  known_pc : match pc s with
             | LoopReturned _ => finishing (client s) = true
             | LoopEnded => client s = NoDownloader
             | _ => finishing (client s) && is_reaped (process s) = false
             end
}.

Lemma known_end_of_body r l s : flags l = (negb (is_reaped (process s)), negb (is_reaped (process s)), finishing (client s)) ->
  known (with_loop (end_of_body r l) s).
Proof.
  intros Hf. injection Hf as Hp Hc Hfin. unfold end_of_body. rewrite Hp, Hfin, negb_involutive.
  destruct (finishing (client s) && is_reaped (process s)) eqn:Hend.
  - split; cbn; [rewrite keeps_cancel_all; unfold flags; congruence|]. by apply andb_prop in Hend as [? _].
  - destruct r as [[]|]; by split; cbn; [unfold flags; congruence|].
Qed.

Lemma known_run h l s :
  (forall r l', h l = (r, l') ->
     flags l' = (negb (is_reaped (process s)), negb (is_reaped (process s)), finishing (client s))) ->
  known (with_loop (run_case h l) s).
Proof. intros Hh. unfold run_case. destruct (h l) as [r l'] eqn:E. by eapply known_end_of_body, Hh. Qed.

Lemma known_receive c s s' : known s -> pc s = Selecting -> receive c s = Some s' -> known s'.
Proof.
  intros [Hf Hk] Hpc. pose proof Hf as [= Hp Hc Hfin]. unfold receive. destruct c.
  - destruct (process s) as [|err|] eqn:He; try done. destruct (cmdErr _); [|done]. intros [= <-].
    apply known_run. intros r l Hh. rewrite (flags_handleCmdErr _ _ _ _ Hh). by rewrite Hfin.
  - destruct (client s) as [|f| | | |] eqn:He; try done. intros [= <-].
    apply known_run. intros r l Hh. etrans; [|exact Hf].
    exact (keeps_handleNext (mkLoop (set_currentStream (Some f) (dl (loop s))) _ _ _) _ _ Hh).
  - destruct (status_of _) as [err|]; [|done]. intros [= <-].
    apply known_run. intros r l Hh. etrans; [exact (keeps_handleStreamNext _ _ _ _ Hh)|done].
  - destruct (status_of _) as [err|]; [|done]. unfold handleStreamChannel, mbind, IO_bind, on_dl. cbn.
    destruct err as [err|]; intros [= <-]; [by apply known_end_of_body|].
    split; [done|]. cbn. by rewrite Hpc in Hk.
  - destruct (client s) eqn:He; try done. intros [= <-].
    apply known_run. intros r l Hh. rewrite (flags_handleFinish _ _ _ Hh). by rewrite Hp, Hc.
Qed.

Lemma keeps_finish_writer o put l l' : (forall st d, flags (mkLoop (put st d) (os l) [] []) = flags (mkLoop d (os l) [] [])) ->
  finish_writer o put l = Some l' -> keeps l l'.
Proof.
  intros Hput. unfold finish_writer. destruct o as [st|]; [|done]. destruct (stream_status st); [done|].
  destruct (write_stream_dl st l) as [Hd _]. destruct (write_stream st l) as [st' l1]. cbn in Hd. intros [= <-].
  unfold keeps, flags in *. cbn in *. rewrite Hd. apply Hput.
Qed.

Lemma keeps_finish_leaked i l l' : finish_leaked i l = Some l' -> keeps l l'.
Proof.
  unfold finish_leaked. destruct (leaked l !! i) as [st|]; [|done]. destruct (stream_status st); [done|].
  destruct (write_stream_dl st l) as [Hd _]. destruct (write_stream st l) as [st' l1]. cbn in Hd. intros [= <-].
  unfold keeps, flags. cbn. by rewrite Hd.
Qed.

Lemma known_written s l : known s -> keeps (loop s) l -> known (with_loop (l, pc s) s).
Proof. intros [Hf Hk] Hl. split; [by cbn; rewrite Hl|done]. Qed.

Lemma known_step e s s' : known s -> step e s = Some s' -> known s'.
Proof.
  intros Hkn. pose proof Hkn as [Hf Hk]. destruct e as [f| |err| | |i|c|]; cbn.
  1-2: unfold call; destruct (client s) eqn:Hc; try done; intros [= <-]; by split; [|cbn; destruct (pc s)].
  - destruct (process s) eqn:Hp; try done. intros [= <-]. by split; [|cbn; destruct (pc s)].
  - intros (l & Hl & ->)%fmap_Some. apply known_written; [done|]. eapply keeps_finish_writer; [|exact Hl]; done.
  - intros (l & Hl & ->)%fmap_Some. apply known_written; [done|]. eapply keeps_finish_writer; [|exact Hl]; done.
  - intros (l & Hl & ->)%fmap_Some. apply known_written; [done|]. by eapply keeps_finish_leaked.
  - destruct (pc s) eqn:Hpc; try done. by apply known_receive.
  - unfold answer, answer_client. destruct (pc s) eqn:Hpc; try done; intros (s1 & Ha & ->)%fmap_Some;
      destruct (client s) eqn:Hc; simplify_eq; cbn in *; try done; by apply known_end_of_body.
Qed.

Lemma known_reachable p o es s : run es (prepared p o) = Some s -> known s.
Proof.
  assert (forall s0, known s0 -> run es s0 = Some s -> known s) as Hrun.
  { induction es as [|e es IH]; intros s0 Hk; cbn; [by intros [= <-]|].
    destruct (step e s0) as [s1|] eqn:Hstep; [|done]. apply IH. by eapply known_step. }
  by apply Hrun.
Qed.

(** ** Something can happen *)

(** What a call that waits without an error so far waits for. *)
Lemma storing_progress p s f : invariant p s -> known s -> existsb has_error (results s) = false ->
  client s = WaitStream f -> exists e, guaranteed e s && internal e = true /\ is_Some (step e s).
Proof.
  intros Hinv [Hf Hk] Hres Hc.
  destruct (pc s) as [| |err|err|] eqn:Hpc.
  2-4: exists Answer; (split; [done|]); cbn; unfold answer, answer_client; rewrite Hpc, Hc; cbn; by eexists.
  2: by rewrite Hk in Hc.
  destruct (process s) as [|err|e] eqn:Hp.
  - exists (ProcessEnds None). split; [done|]. cbn. rewrite Hp. by eexists.
  - exists (Receive FromCmd). split; [done|]. cbn. rewrite Hpc, Hp. injection Hf as _ -> _. cbn. by eexists.
  - destruct Hinv as [Hbad|[[fs [_ [[err Herr]|[Hset Hph]]]]|[fs [_ Hfin]]]]; [congruence..| |].
    2: { destruct Hfin. congruence. }
    rewrite Hp, Hpc, Hc in Hph.
    inversion Hph as [|e' f' st _ Htk Hcur Hm|e' f' st _ Htk Hm Hn Hs [(_ & _ & Hfl) _]| | |]; subst; try done; cbn in Htk;
      destruct e as [err|]; try done.
    rewrite Htk in Hfl. destruct (stream_status st) as [err|] eqn:Hst.
    + exists (Receive FromStream). split; [done|]. cbn. rewrite Hpc, Hs. cbn. rewrite Hst.
      unfold handleStreamChannel, mbind, IO_bind, on_dl. destruct err; by eexists.
    + exists StreamWritten. cbn. rewrite Hs, Hfl. split; [done|]. cbn. rewrite Hst.
      destruct (write_stream st (loop s)). by eexists.
Qed.

Lemma progress p s : invariant p s -> known s -> in_call s = true ->
  match client s with WaitStream _ => existsb has_error (results s) = false | _ => True end ->
  crossing s = true \/ exists e, guaranteed e s && internal e = true /\ is_Some (step e s).
Proof.
  intros Hinv Hkn Hcall Hres. pose proof Hkn as [Hf Hk]. unfold crossing, in_call in *.
  destruct (client s) as [|f|f| | |] eqn:Hc; try done.
  - destruct (pc s) eqn:Hpc; try done; try (by left). right. exists (Receive FromArtifact).
    split; [done|]. cbn. rewrite Hpc, Hc. by eexists.
  - right. by eapply storing_progress.
  - destruct (pc s) eqn:Hpc; try done; try (by left). right. exists (Receive FromFinish).
    split; [done|]. cbn. rewrite Hpc, Hc. by eexists.
  - right. destruct (pc s) as [| |err|err|] eqn:Hpc.
    2-4: exists Answer; (split; [done|]); cbn; unfold answer, answer_client; rewrite Hpc, Hc; cbn; by eexists.
    2: done.
    destruct (process s) as [|err|e] eqn:Hp; [| |done].
    + exists (ProcessEnds None). split; [done|]. cbn. rewrite Hp. by eexists.
    + exists (Receive FromCmd). split; [done|]. cbn. rewrite Hpc, Hp. injection Hf as _ -> _. cbn. by eexists.
Qed.

(** A loop that wants to send to a client that does not receive stays so. *)
Lemma crossing_stays s err f : pc s = AnsweringError err -> client s = SendStream f ->
  forall es s', run es s = Some s' -> client s' = SendStream f.
Proof.
  intros Hpc Hc es. revert s Hpc Hc. induction es as [|e es IH]; intros s Hpc Hc s'; cbn; [by intros [= <-]|].
  destruct (step e s) as [s1|] eqn:Hstep; [|done]. apply IH; clear IH.
  - destruct e; try (by rewrite (step_pc _ _ _ _ Hpc Hstep)). cbn in Hstep. unfold answer, answer_client in Hstep.
    by rewrite Hpc, Hc in Hstep.
  - destruct e; cbn in Hstep; unfold call, answer, answer_client in Hstep; rewrite ?Hpc, ?Hc in Hstep; try done.
    + destruct (process s); try done. by injection Hstep as <-.
    + by apply fmap_Some in Hstep as (l & _ & ->).
    + by apply fmap_Some in Hstep as (l & _ & ->).
    + by apply fmap_Some in Hstep as (l & _ & ->).
Qed.
End calls.

(** C35: the client's calls end.  After any interleaving, while a call is under way:
    at most 25 events, and one for each abandoned writer, can happen before it is
    answered; and until then (for a [StoreUpdate] that waits for its answer: if no
    call failed before) there is always an event that comes without the module's
    help, whose process is killed when its time is over, unless loop and client are
    sending to each other. *)
Theorem calls_end_unless_crossing `{StreamOs D} (p : string) (o : D) (es : list Event) (s : Sys D)
    (Hrun : run es (prepared p o) = Some s) (Hcall : in_call s = true) :
  (forall es' s', forallb internal es' = true -> run es' s = Some s' ->
     length es' <= 25 + length (leaked (loop s))) /\
  (match client s with WaitStream _ => existsb has_error (results s) = false | _ => True end ->
   crossing s = true \/ exists e, guaranteed e s && internal e = true /\ is_Some (step e s)).
Proof.
  split.
  - intros es' s' Hint Hr. pose proof (internal_run _ _ _ Hint Hr). pose proof (measure_bound s). lia.
  - apply (progress p); [|by eapply known_reachable|done].
    eapply run_invariant, Hrun. apply prepared_invariant.
Qed.

(** A module that fails between two calls blocks the client for ever.  When the
    process ends with an error before the client hands over a file, the loop sends
    the error to a client that does not receive; the call of [StoreUpdate] that
    follows never returns, whatever happens. *)
Theorem module_failure_blocks_the_client `{StreamOs D} (p : string) (o : D) (err : error) (f : namedReader) :
  exists s, run [ProcessEnds (Some err); Receive FromCmd; StoreUpdate f] (prepared p o) = Some s /\
    crossing s = true /\
    forall es s', run es s = Some s' -> client s' = SendStream f.
Proof.
  eexists. split; [reflexivity|]. split; [reflexivity|]. intros es s'. by eapply crossing_stays.
Qed.

(** ** Two downloads *)

(** The files and pipes that exist; a file that exists is not created again. *)
Definition Tree : Type := list string.

Definition exists_in (p : string) (t : Tree) : bool := existsb (String.eqb p) t.

Definition tree_copy (p : string) (flags : OpenFlags) (bytes : list byte) : IO Tree unit := fun t =>
  match flags, exists_in p t with
  | CreateNew, true => (Err (EText "file exists"), t)
  | CreateNew, false => (Ok (), p :: t)
  | OpenExisting, true => (Ok (), t)
  | OpenExisting, false => (Err ErrNotExist, t)
  end.

Definition tree_create (p : string) : IO Tree unit := fun t =>
  if exists_in p t then (Err (EText "file exists"), t) else (Ok (), p :: t).

#[export] Instance tree_os : StreamOs Tree := {
  Mkfifo := tree_create;
  RemoveAll p t := (Ok (), List.filter (fun q => negb (under p q)) t);
  Remove p t := if exists_in p t then (Ok (), List.filter (fun q => negb (String.eqb p q)) t) else (Err ErrNotExist, t);
  Mkdir p t := (Ok (), t);
  Sync t := t;
  OpenCopy := tree_copy;
  OpenPipe p t := (if exists_in p t then Ok () else Err ErrNotExist, t);
  Polls _ _ := 1
}.

Definition work : string := "/work/payloads/0000/tree".

(** The tree after [Initialize]. *)
Definition work_tree : Tree := [join_path work "stream-next"].

Definition file_a : namedReader := mkReader [x61; x62] "a".
Definition file_b : namedReader := mkReader [x63] "b".

(** A file that the module takes. *)
Definition taken (f : namedReader) : list Event :=
  [StoreUpdate f; Receive FromArtifact; NextWritten; Receive FromStreamNext; StreamWritten; Receive FromStream; Answer].

Definition module_takes : list Event :=
  taken file_a ++ taken file_b ++
  [FinishStoreUpdate; Receive FromFinish; NextWritten; Receive FromStreamNext; ProcessEnds None; Receive FromCmd; Answer].

(** The module ends at once; the client writes the files. *)
Definition module_leaves : list Event :=
  [StoreUpdate file_a; Receive FromArtifact; ProcessEnds None; Receive FromCmd; StreamWritten; Receive FromStream; Answer;
   StoreUpdate file_b; Receive FromArtifact; StreamWritten; Receive FromStream; Answer;
   FinishStoreUpdate; Receive FromFinish; Answer].

Definition contents (es : list Event) : option (list CallResult * list (string * list byte)) :=
  s ← run es (prepared work work_tree); Some (results s, written (loop s)).

Example module_leaves_files : contents module_leaves =
  Some (stored [file_a; file_b] ++ [RFinish None],
        [("/work/payloads/0000/tree/stream-next", [x73; x74; x72; x65; x61; x6d; x73; x2f; x61; x0a]);
         ("/work/payloads/0000/tree/files/a", [x61; x62]); ("/work/payloads/0000/tree/files/b", [x63])]).
Proof. by vm_compute. Qed.

(** The state at the end of a run. *)
Definition final_state (es : list Event) : Sys Tree :=
  default (prepared work work_tree) (run es (prepared work work_tree)).

Lemma download_without_error_is_complete_witness :
  process (final_state module_takes) = Reaped None /\
  exists dir, (dir = "streams" \/ dir = "files") /\
    filter (fun w => w.1 <> join_path work "stream-next") (written (loop (final_state module_takes))) =
    [(join_path (join_path work dir) "a", [x61; x62]); (join_path (join_path work dir) "b", [x63])].
Proof.
  assert (run module_takes (prepared work work_tree) = Some (final_state module_takes)) as Hrun by (vm_compute; reflexivity).
  assert (results (final_state module_takes) = stored [file_a; file_b] ++ [RFinish None]) as Hres by (vm_compute; reflexivity).
  revert Hrun Hres. generalize (final_state module_takes). intros s Hrun Hres.
  exact (download_without_error_is_complete work work_tree module_takes s [file_a; file_b] Hrun Hres).
Defined.

Definition in_the_middle : list Event := taken file_a ++ [StoreUpdate file_b; Receive FromArtifact].

Lemma calls_end_unless_crossing_witness :
  let s := final_state in_the_middle in
  client s = WaitStream file_b /\
  (forall es' s', forallb internal es' = true -> run es' s = Some s' -> (length es' <= 25)%nat) /\
  (crossing s = true \/ exists e, guaranteed e s && internal e = true /\ is_Some (step e s)).
Proof.
  cbv zeta.
  assert (run in_the_middle (prepared work work_tree) = Some (final_state in_the_middle)) as Hrun by (vm_compute; reflexivity).
  assert (client (final_state in_the_middle) = WaitStream file_b) as Hc by (vm_compute; reflexivity).
  assert (existsb has_error (results (final_state in_the_middle)) = false) as Hres by (vm_compute; reflexivity).
  assert (length (leaked (loop (final_state in_the_middle))) = 0%nat) as Hl by (vm_compute; reflexivity).
  revert Hrun Hc Hres Hl. generalize (final_state in_the_middle). intros s Hrun Hc Hres Hl.
  assert (in_call s = true) as Hcall by (unfold in_call; by rewrite Hc).
  destruct (calls_end_unless_crossing work work_tree in_the_middle s Hrun Hcall) as [Hbound Hnext].
  rewrite Hl in Hbound. rewrite Hc in Hnext. exact (conj Hc (conj Hbound (Hnext Hres))).
Defined.
