(* ===== verification/Modules.v ===== *)
(** * Modules: the installer that runs an update module

    [ModuleInstaller] of installer/modules.go: the working tree that is prepared
    for an update module, the program that is run for each state, and the factory.
    The download state, which runs together with the client, is [ModuleDownload]. *)

From S2P Require Import Prelude Text Os World ModuleDownload.
From Stdlib Require Import Ascii.

Open Scope Z_scope.

(** ** The system *)

(** How a process ended: it did not start, or its wait status and its output. *)
Inductive ProcResult : Type :=
  | NotStarted (err : error)
  | Waited (status : option error) (output : string).

Record DirEntry := mkEntry { entry_name : string; IsDir : bool; Mode : Z }.

(** A process that is started in a directory as a group of its own, is asked to end
    after the first time and killed after the second one more (in nanoseconds). *)
Class ModuleOs (D : Type) := {
  RunModule : string -> list string -> string -> Z -> Z -> D -> ProcResult * D;
  StartModule : string -> list string -> string -> Z -> Z -> IO D unit;
  ReadModuleDir : string -> D -> result (list DirEntry)
}.

(** What the installer is told (ArtifactInfoGetter, DeviceInfoGetter) and what it
    reads from the headers, whose JSON forms are of another package. *)
Record ArtifactHeaders := {
  ArtifactGroup : string;
  ArtifactName : string;
  header_info_json : result string;
  type_info_json : result string;
  meta_data_json : result string;
  header_version : Z
}.

Class DeviceInfo (D : Type) := {
  GetCurrentArtifactName : D -> result string;
  GetCurrentArtifactGroup : D -> result string;
  GetDeviceType : D -> result string
}.

(** ** The installer *)

Record ModuleInstaller := mkModule {
  modulesWorkPath : string;
  programPath : string;
  moduleTimeoutSecs : Z;
  payloadIndex : Z;
  updateType : string;
  downloader : bool
}.

(** [path.Join] of clean paths. *)
Definition module_path (m : ModuleInstaller) : string :=
  join_path (join_path (join_path (modulesWorkPath m) "payloads") (pad4 (payloadIndex m))) "tree".

Definition Second : Z := 1000000000.
Definition Minute : Z := 60 * Second.

(** The two times of [newDelayKiller]. *)
Definition killAfter (m : ModuleInstaller) : Z := int64 (moduleTimeoutSecs m * Second).

Section modules.
Context `{Os D} `{StreamOs D} `{ModuleOs D} `{DeviceInfo D}.
Implicit Types m : ModuleInstaller.

Definition callModule m (state : string) (capture : bool) : D -> (string * option error) * D := fun d =>
  match RunModule (programPath m) [state; module_path m] (module_path m) (killAfter m) Minute d with
  | (NotStarted err, d) => ((EmptyString, Some err), d)
  | (Waited status output, d) =>
      ((if capture then (if HasSuffix output newline then String.substring 0 (String.length output - 1) output else output)
        else EmptyString,
        match status with Some err => Some (EWrap "Update module terminated abnormally" err) | None => None end), d)
  end.

(** [_, err := m.callModule(state, false)]. *)
Definition call_state (state : string) m : IO D unit := fun d =>
  let '((_, err), d) := callModule m state false d in
  (match err with Some err => Err err | None => Ok () end, d).

Definition InstallUpdate := call_state "ArtifactInstall".
Definition Reboot := call_state "ArtifactReboot".
Definition RollbackReboot := call_state "ArtifactRollbackReboot".
Definition CommitUpdate := call_state "ArtifactCommit".
Definition Rollback := call_state "ArtifactRollback".
Definition VerifyReboot := call_state "ArtifactVerifyReboot".
Definition VerifyRollbackReboot := call_state "ArtifactVerifyRollbackReboot".
Definition Failure := call_state "ArtifactFailure".

(** A question that the module answers on its standard output. *)
Definition ask_module {A} (state : string) (meaning : string -> result A) m : IO D A := fun d =>
  let '((output, err), d) := callModule m state true d in
  (match err with Some err => Err err | None => meaning output end, d).

Definition errReply (what : string) : error := EText ("Unexpected reply from update module " +:+ what +:+ " ask_module").

Definition reboot_meaning (output : string) : result RebootAction :=
  if bool_decide (output = EmptyString) || bool_decide (output = "No") then Ok NoReboot
  else if bool_decide (output = "Yes") then Ok RebootRequired
  else if bool_decide (output = "Automatic") then Ok AutomaticReboot
  else Err (errReply "NeedsArtifactReboot").

Definition NeedsReboot : ModuleInstaller -> IO D RebootAction := ask_module "NeedsArtifactReboot" reboot_meaning.

Definition rollback_meaning (output : string) : result bool :=
  if bool_decide (output = EmptyString) || bool_decide (output = "No") then Ok false
  else if bool_decide (output = "Yes") then Ok true
  else Err (errReply "SupportsRollback").

Definition SupportsRollback : ModuleInstaller -> IO D bool := ask_module "SupportsRollback" rollback_meaning.

(** ** The working tree *)

Definition filesAndContent m (h : ArtifactHeaders)
    (currName currGroup deviceType headerInfo typeInfo metaData : string) : list (string * string) :=
  [("version", FormatInt 10 false (header_version h));
   ("current_artifact_name", currName);
   ("current_artifact_group", currGroup);
   ("current_device_type", deviceType);
   ("header/artifact_group", ArtifactGroup h);
   ("header/artifact_name", ArtifactName h);
   ("header/payload_type", updateType m);
   ("header/header-info", headerInfo);
   ("header/type-info", typeInfo);
   ("header/meta-data", metaData)].

Definition buildStreamsTree m (h : ArtifactHeaders) : IO D unit :=
  let workPath := module_path m in
  RemoveAll workPath ≫= fun _ =>
  Os.for_each (fun dir => MkdirAll (join_path workPath dir)) ["header"; "tmp"; "streams"] ≫= fun _ =>
  currName ← asks GetCurrentArtifactName;
  currGroup ← asks GetCurrentArtifactGroup;
  deviceType ← asks GetDeviceType;
  headerInfo ← asks (fun _ => header_info_json h);
  typeInfo ← asks (fun _ => type_info_json h);
  metaData ← asks (fun _ => meta_data_json h);
  Os.for_each (fun entry => WriteFile (join_path workPath (entry.1)) (entry.2))
    (filesAndContent m h currName currGroup deviceType headerInfo typeInfo metaData) ≫= fun _ =>
  Mkfifo (join_path workPath "stream-next") ≫= fun _ =>
  ((fun d => (Ok (), Sync d)) : IO D unit).

Definition errActive : error := EText "Internal error: Initialize() called when download is already active".
Definition errAugmented : error := EText "Augmented artifacts are not supported yet".

Definition Initialize m (h : ArtifactHeaders) (augmented : bool) : IO D unit :=
  if downloader m then fail errActive
  else if augmented then fail errAugmented
  else buildStreamsTree m h.

(** ** The download *)

Definition set_downloader (b : bool) m : ModuleInstaller :=
  mkModule (modulesWorkPath m) (programPath m) (moduleTimeoutSecs m) (payloadIndex m) (updateType m) b.

(** Starts the process and the loop, which are then in the state [prepared]. *)
Definition PrepareStoreUpdate m : D -> result (ModuleInstaller * Sys D) * D := fun d =>
  match StartModule (programPath m) ["Download"; module_path m] (module_path m) (killAfter m) Minute d with
  | (Err err, d) => (Err (EWrap "Module could not be executed" err), d)
  | (Ok _, d) => (Ok (set_downloader true m, prepared (module_path m) d), d)
  end.

Definition Cleanup m : IO D unit := fun d =>
  match Stat (module_path m) d with
  | Err _ => (Ok (), d)
  | Ok _ =>
      let '(modErr, d) := call_state "Cleanup" m d in
      let '(_, d) := RemoveAll (module_path m) d in
      (modErr, d)
  end.

(** ** The factory *)

Record ModuleInstallerFactory := mkFactory {
  factory_modulesPath : string;
  factory_modulesWorkPath : string;
  factory_timeoutSecs : Z
}.

Definition defaultModuleTimeoutSecs : Z := 4 * 60 * 60.

Definition NewModuleInstallerFactory (modulesPath modulesWorkPath : string) (timeoutSecs : Z) : ModuleInstallerFactory :=
  mkFactory modulesPath modulesWorkPath (if timeoutSecs <=? 0 then defaultModuleTimeoutSecs else timeoutSecs).

Definition errRange : error := EText "Payload index out of range 0-9999".

Definition NewUpdateStorer (mf : ModuleInstallerFactory) (type : string) (payloadNum : Z) : result ModuleInstaller :=
  if (payloadNum <? 0) || (9999 <? payloadNum) then Err errRange
  else Ok (mkModule (factory_modulesWorkPath mf) (join_path (factory_modulesPath mf) type)
             (factory_timeoutSecs mf) payloadNum type false).

(** The mask of the execute permissions, 0111. *)
Definition execMask : Z := 73.

Definition is_module (file : DirEntry) : bool :=
  negb (IsDir file) && negb (Z.land (Mode file) execMask =? 0).

Definition GetModuleTypes (mf : ModuleInstallerFactory) (d : D) : list string :=
  match ReadModuleDir (factory_modulesPath mf) d with
  | Err _ => []
  | Ok fileList => entry_name <$> List.filter is_module fileList
  end.

End modules.
