(* ===== verification/ModulesSpec.v ===== *)
(** * ModulesSpec: the working tree of an update module

    Preparing a payload for its update module writes the files of the module's
    interface into the payload's own tree and nothing into that of another. *)

From S2P Require Import Prelude Text Os World ModuleDownload Modules.
From Stdlib Require Import Ascii.

Open Scope Z_scope.

(** ** The trees of two payloads *)

(** A file of the payload's working tree. *)
Definition inside (m : ModuleInstaller) (q : string) : Prop := q = module_path m \/ under (module_path m) q = true.

Definition payload_dir (m : ModuleInstaller) : string :=
  join_path (join_path (modulesWorkPath m) "payloads") (pad4 (payloadIndex m)).

Lemma inside_payload_dir m q : inside m q -> HasPrefix q (payload_dir m) = true.
Proof.
  intros [->|Hu]; [apply prefix_app|]. unfold under in Hu. do 2 apply HasPrefix_app_inv in Hu. exact Hu.
Qed.

Lemma payload_dir_length m : 0 <= payloadIndex m <= 9999 ->
  String.length (payload_dir m) = (String.length (modulesWorkPath m) + 14)%nat.
Proof.
  intros Hm. unfold payload_dir, join_path. rewrite !length_app_str, pad4_length by done. cbn. lia.
Qed.

Lemma trees_are_separate m m' q : 0 <= payloadIndex m <= 9999 -> 0 <= payloadIndex m' <= 9999 ->
  modulesWorkPath m = modulesWorkPath m' -> payloadIndex m <> payloadIndex m' -> inside m q -> ~ inside m' q.
Proof.
  intros Hm Hm' Hw Hne Hq Hq'. apply Hne, pad4_inj; [done..|].
  apply inside_payload_dir in Hq, Hq'.
  assert (payload_dir m = payload_dir m') as Heq.
  { apply (prefix_same_length _ _ q); [done..|]. rewrite !payload_dir_length by done. congruence. }
  unfold payload_dir, join_path in Heq. rewrite Hw in Heq. by do 2 apply (inj (String.append _)) in Heq.
Qed.

Lemma NewUpdateStorer_ok mf ty i m : NewUpdateStorer mf ty i = Ok m ->
  payloadIndex m = i /\ 0 <= i <= 9999 /\ modulesWorkPath m = factory_modulesWorkPath mf /\ downloader m = false.
Proof.
  unfold NewUpdateStorer. destruct (Z.ltb_spec i 0), (Z.ltb_spec 9999 i); try done. by intros [= <-].
Qed.

(** ** What a program writes *)

(** [Mkfifo] and [RemoveAll] change what they are told, [Sync] nothing; making
    directories and removing files does not change the answers about the device. *)
Class ModuleLaws (D : Type) `{OsLaws D} `{StreamOs D} `{DeviceInfo D} := {
  Mkfifo_frame p : steps (same_view files (fun q => q = p)) (Mkfifo p);
  RemoveAll_frame p : steps (same_view files (fun q => q = p \/ under p q = true)) (RemoveAll p);
  Sync_frame : steps (same_view files (fun _ => False)) ((fun d => (Ok (), Sync d)) : IO D unit);
  info_RemoveAll p d r d' : RemoveAll p d = (r, d') ->
    GetCurrentArtifactName d' = GetCurrentArtifactName d /\
    GetCurrentArtifactGroup d' = GetCurrentArtifactGroup d /\ GetDeviceType d' = GetDeviceType d;
  info_MkdirAll p d r d' : MkdirAll p d = (r, d') ->
    GetCurrentArtifactName d' = GetCurrentArtifactName d /\
    GetCurrentArtifactGroup d' = GetCurrentArtifactGroup d /\ GetDeviceType d' = GetDeviceType d
}.

Section spec.
Context `{ModuleLaws D} `{ModuleOs D}.

Lemma writes_for_each (P : string -> Prop) {X} (f : X -> IO D unit) l :
  (forall x, writes_only P (f x)) -> writes_only P (Os.for_each f l).
Proof. intros Hf. apply steps_for_each; [apply _|]. intros x _. apply Hf. Qed.

Lemma inside_join m name : inside m (join_path (module_path m) name).
Proof. right. apply under_join. Qed.

(** Preparing touches the payload's own tree only, also when it fails. *)
Lemma writes_buildStreamsTree m h : writes_only (inside m) (buildStreamsTree m h).
Proof.
  unfold buildStreamsTree. io_steps.
  - eapply writes_only_weaken, RemoveAll_frame. intros q Hq. exact Hq.
  - apply writes_for_each. intros dir. apply writes_MkdirAll.
  - apply writes_for_each. intros e. apply writes_WriteFile, inside_join.
  - eapply writes_only_weaken, Mkfifo_frame. intros q ->. apply inside_join.
  - eapply writes_only_weaken, Sync_frame. done.
Qed.

Lemma join_path_inj dir a b : join_path dir a = join_path dir b -> a = b.
Proof. unfold join_path. intros Heq. by do 2 apply (inj (String.append _)) in Heq. Qed.

(** A list of files that is written is there. *)
Lemma write_all dir l d d' : Os.for_each (fun e => WriteFile (join_path dir e.1) e.2) l d = (Ok (), d') ->
  List.NoDup (fst <$> l) ->
  (forall name, ~ In name (fst <$> l) -> files d' !! join_path dir name = files d !! join_path dir name) /\
  forall e, In e l -> files d' !! join_path dir e.1 = Some e.2.
Proof.
  revert d. induction l as [|x l IH]; intros d; cbn.
  { intros [= <-] _. by split. }
  intros (u & d1 & Hw & Hr)%bind_ok Hnd. inversion Hnd as [|y ys Hx Hnd']; subst.
  destruct u. destruct (IH d1 Hr Hnd') as [Hout Hin]. split.
  - intros name Hn. rewrite Hout by tauto. apply (WriteFile_frame _ _ _ _ _ Hw).
    intros Heq%join_path_inj. subst. tauto.
  - intros e [->|He]; [|by apply Hin]. rewrite Hout by done. by eapply WriteFile_ok.
Qed.

(** What the device tells. *)
Definition same_info (d d' : D) : Prop :=
  GetCurrentArtifactName d' = GetCurrentArtifactName d /\
  GetCurrentArtifactGroup d' = GetCurrentArtifactGroup d /\ GetDeviceType d' = GetDeviceType d.

#[local] Instance same_info_preorder : PreOrder same_info.
Proof. split; [by intros d|]. unfold same_info. intros a b c; intuition congruence. Qed.

Lemma file_names m h a b c d e f : List.NoDup (fst <$> filesAndContent m h a b c d e f) /\
  ~ In "stream-next" (fst <$> filesAndContent m h a b c d e f).
Proof.
  cbn. split; [|by intuition].
  repeat (apply List.NoDup_cons; [cbn; by intuition|]). apply List.NoDup_nil.
Qed.

(** The files of a tree that was built. *)
Lemma buildStreamsTree_ok m h d d' : buildStreamsTree m h d = (Ok (), d') ->
  exists currName currGroup deviceType headerInfo typeInfo metaData,
    GetCurrentArtifactName d = Ok currName /\ GetCurrentArtifactGroup d = Ok currGroup /\
    GetDeviceType d = Ok deviceType /\ header_info_json h = Ok headerInfo /\
    type_info_json h = Ok typeInfo /\ meta_data_json h = Ok metaData /\
    forall e, In e (filesAndContent m h currName currGroup deviceType headerInfo typeInfo metaData) ->
      files d' !! join_path (module_path m) e.1 = Some e.2.
Proof.
  unfold buildStreamsTree.
  intros (u1 & d1 & K1 & (u2 & d2 & K2 & (cn & d3 & K3 & (cg & d4 & K4 & (dt & d5 & K5 & (hi & d6 & K6 &
    (ti & d7 & K7 & (md & d8 & K8 & (u9 & d9 & K9 & (u10 & d10 & K10 & K11)%bind_ok)%bind_ok)%bind_ok)%bind_ok)%bind_ok)
    %bind_ok)%bind_ok)%bind_ok)%bind_ok)%bind_ok.
  assert (same_info d d2) as (Hn & Hg & Ht).
  { transitivity d1; [by eapply info_RemoveAll|]. eapply (steps_for_each same_info); [|exact K2].
    intros x _ e r e' He. by eapply info_MkdirAll. }
  injection K3 as K3 <-. injection K4 as K4 <-. injection K5 as K5 <-. injection K6 as K6 <-.
  injection K7 as K7 <-. injection K8 as K8 <-. destruct u9.
  exists cn, cg, dt, hi, ti, md. rewrite <- Hn, <- Hg, <- Ht. split_and!; [done..|].
  intros e He. destruct (file_names m h cn cg dt hi ti md) as [Hnd Hnext].
  destruct (write_all _ _ _ _ K9 Hnd) as [_ Hin]. rewrite <- (Hin e He).
  trans (files d10 !! join_path (module_path m) e.1); [by apply (proj1 (Sync_frame _ _ _ K11)); intros []|].
  apply (proj1 (Mkfifo_frame _ _ _ _ K10)). intros Heq%join_path_inj. apply Hnext. rewrite <- Heq.
  apply in_map. exact He.
Qed.
End spec.

(** Preparing a payload for its update module.  Whatever happens, only files in
    the payload's own working tree change, and no file in the tree of another payload
    of the same device (the factory makes installers for payloads 0 to 9999 only, and
    their trees are disjoint); when it succeeds, the tree holds every file of the
    module's interface with the device's present artifact, group and type, and the
    artifact's headers. *)
Theorem Initialize_fills_its_own_tree `{ModuleLaws D} (mf : ModuleInstallerFactory) (type : string) (i : Z)
    (m : ModuleInstaller) (h : ArtifactHeaders) (augmented : bool) (d d' : D) (r : result unit)
    (Hm : NewUpdateStorer mf type i = Ok m) (Hr : Initialize m h augmented d = (r, d')) :
  (forall q, ~ inside m q -> files d' !! q = files d !! q) /\
  (forall type' j m' q, NewUpdateStorer mf type' j = Ok m' -> j <> i -> inside m' q ->
     files d' !! q = files d !! q) /\
  (r = Ok () -> augmented = false /\
     exists currName currGroup deviceType headerInfo typeInfo metaData,
       GetCurrentArtifactName d = Ok currName /\ GetCurrentArtifactGroup d = Ok currGroup /\
       GetDeviceType d = Ok deviceType /\ header_info_json h = Ok headerInfo /\
       type_info_json h = Ok typeInfo /\ meta_data_json h = Ok metaData /\
       forall e, In e (filesAndContent m h currName currGroup deviceType headerInfo typeInfo metaData) ->
         files d' !! join_path (module_path m) e.1 = Some e.2).
Proof.
  destruct (NewUpdateStorer_ok _ _ _ _ Hm) as (Hi & Hrange & Hw & Hdl).
  unfold Initialize in Hr. rewrite Hdl in Hr.
  assert (forall q, ~ inside m q -> files d' !! q = files d !! q) as Hframe.
  { destruct augmented; [by injection Hr as _ <-|]. by apply (writes_buildStreamsTree m h _ _ _ Hr). }
  split; [exact Hframe|]. split.
  - intros type' j m' q Hm' Hne Hq. destruct (NewUpdateStorer_ok _ _ _ _ Hm') as (Hj & Hrange' & Hw' & _).
    apply Hframe. apply (trees_are_separate m' m q); congruence || lia || done.
  - intros ->. destruct augmented; [done|]. split; [done|]. by apply buildStreamsTree_ok.
Qed.
