(* ===== verification/ModulesScenario.v ===== *)
(** * ModulesScenario: an update module on a device in a map *)

From S2P Require Import Prelude Text Os World ModuleDownload Modules ModulesSpec.
From Stdlib Require Import Ascii.

Open Scope Z_scope.

Definition sim_remove_all (p : string) : IO SimOs unit := fun d =>
  (Ok (), {| sim_files := filter (fun kv => ~ (kv.1 = p \/ under p kv.1 = true)) (sim_files d);
             sim_devices := sim_devices d; sim_links := sim_links d; sim_writes := sim_writes d;
             sim_run := sim_run d |}).

(** Pipes are not among the files. *)
#[export] Instance sim_stream_os : StreamOs SimOs := {
  Mkfifo _ d := (Ok (), d);
  RemoveAll := sim_remove_all;
  Remove := sim_remove;
  Mkdir _ d := (Ok (), d);
  Sync d := d;
  OpenCopy _ _ _ d := (Ok (), d);
  OpenPipe _ d := (Ok (), d);
  Polls _ _ := 1%nat
}.

#[export] Instance sim_info : DeviceInfo SimOs := {
  GetCurrentArtifactName _ := Ok "release-1";
  GetCurrentArtifactGroup _ := Ok EmptyString;
  GetDeviceType _ := Ok "beaglebone"
}.

#[export] Instance sim_module_laws : ModuleLaws SimOs.
Proof.
  split.
  - by intros p d r d' [= <- <-].
  - intros p d r d' [= <- <-]. split; [|done]. intros q Hq. cbn.
    destruct (sim_files d !! q) as [v|] eqn:Hv.
    + by apply map_lookup_filter_Some.
    + apply map_lookup_filter_None. by left.
  - by intros d r d' [= <- <-].
  - by intros p d r d' [= <- <-].
  - by intros p d r d' [= <- <-].
Defined.

(** The module answers by printing. *)
#[export] Instance sim_modules : ModuleOs SimOs := {
  RunModule prog args _ _ _ d :=
    (match sim_run d !! Join (prog :: args) " " with
     | Some (Ok output) => Waited None output
     | Some (Err err) => Waited (Some err) EmptyString
     | None => NotStarted ErrNotExist
     end, d);
  StartModule _ _ _ _ _ d := (Ok (), d);
  ReadModuleDir _ _ := Ok [mkEntry "deb" false 493; mkEntry "README" false 420; mkEntry "disabled" true 493]
}.

Definition factory : ModuleInstallerFactory := NewModuleInstallerFactory "/usr/share/modules" "/data/modules" 0.

Definition deb_module : ModuleInstaller :=
  mkModule "/data/modules" "/usr/share/modules/deb" defaultModuleTimeoutSecs 7 "deb" false.

Definition some_headers : ArtifactHeaders :=
  {| ArtifactGroup := EmptyString; ArtifactName := "release-2"; header_info_json := Ok "{}";
     type_info_json := Ok "{}"; meta_data_json := Ok "null"; header_version := 3 |}.

Definition old_device : SimOs :=
  {| sim_files := <["/data/modules/payloads/0007/tree/files/old" := "old"]>
                    (<["/data/modules/payloads/0008/tree/version" := "2"]> ∅);
     sim_devices := ∅; sim_links := ∅; sim_writes := [];
     sim_run := <["/usr/share/modules/deb NeedsArtifactReboot /data/modules/payloads/0007/tree" :=
                    Ok ("Automatic" +:+ newline)]> ∅ |}.

Example modules_found : GetModuleTypes factory old_device = ["deb"].
Proof. by vm_compute. Qed.

Example module_is_asked : (NeedsReboot deb_module old_device).1 = Ok AutomaticReboot /\
  (SupportsRollback deb_module old_device).1 = Err ErrNotExist.
Proof. by vm_compute. Qed.

(** What is left of the old tree is gone. *)
Example old_files_are_removed :
  sim_files (Initialize deb_module some_headers false old_device).2 !! "/data/modules/payloads/0007/tree/files/old" = None.
Proof. by vm_compute. Qed.

Lemma Initialize_fills_its_own_tree_witness :
  exists d', Initialize deb_module some_headers false old_device = (Ok (), d') /\
    files d' !! "/data/modules/payloads/0008/tree/version" = Some "2".
Proof.
  destruct (Initialize deb_module some_headers false old_device) as [r d'] eqn:Hr.
  assert (r = Ok ()) as Hok by (change r with ((r, d').1); rewrite <- Hr; vm_compute; reflexivity).
  subst r. exists d'. split; [reflexivity|].
  destruct (Initialize_fills_its_own_tree factory "deb" 7 deb_module some_headers false old_device d' (Ok ())
    eq_refl Hr) as (_ & Hother & _).
  etransitivity.
  - apply (Hother "deb" 8 (mkModule "/data/modules" "/usr/share/modules/deb" defaultModuleTimeoutSecs 8 "deb" false));
      [reflexivity|lia|]. right. vm_compute. reflexivity.
  - vm_compute. reflexivity.
Defined.
