(* ===== verification/BlockDevice.v ===== *)
(** * BlockDevice: writing an image to a partition

    installer/block_device.go and utils/limited_writer.go: the chain of writers
    between the image and the block device - one that limits the size, one that
    collects chunks, one that leaves chunks alone that are already there, and one
    that syncs - and [StoreUpdate] of installer/dual_rootfs_device.go. *)

From S2P Require Import Prelude Text Os Devices BootEnv DualRootfs.
From Stdlib Require Import Ascii Strings.Byte.

Open Scope Z_scope.

(** ** The system *)

Inductive DeviceFlag : Type := O_WRONLY | O_RDWR.

(** Calls on block devices; those without a path are on the file that was opened
    last.  [ReadFull] is io.ReadFull, [SeekBack] Seek relative to the position. *)
Class BlockOs (D : Type) := {
  Mounts : D -> result string;
  Unmount : string -> IO D unit;
  IsUbiBlockDevice : string -> D -> bool;
  SizeOf : string -> D -> result Z;
  SectorSizeOf : string -> D -> result Z;
  OpenDevice : string -> DeviceFlag -> IO D unit;
  SetUbiUpdateVolume : Z -> IO D unit;
  ReadFull : nat -> IO D (list byte);
  SeekBack : nat -> IO D unit;
  FileWrite : list byte -> D -> (nat * option error) * D;
  FileSync : IO D unit;
  FileClose : IO D unit
}.

Definition ENOSPC : error := EText "no space left on device".
Definition ErrShortWrite : error := EText "short write".

#[export] Instance byte_eq_dec : EqDecision byte := Byte.byte_eq_dec.

(** ** The writers *)

Record FlushingWriter := mkFlushing { FlushIntervalBytes : Z; unflushedBytesWritten : Z }.

Record OptimizedBlockDeviceWriter := mkOptimized {
  blockDevice : FlushingWriter;
  totalFrames : Z;
  dirtyFrames : Z
}.

Record BlockFrameWriter := mkFrames {
  buf : list byte;
  frameSize : Z;
  frame_w : OptimizedBlockDeviceWriter
}.

(** What the size limit wraps: the chain, or the file of a UBI volume. *)
Inductive WriteCloser : Type := Frames (bw : BlockFrameWriter) | UbiFile.

Record LimitedWriteCloser := mkLimited { W : WriteCloser; N : Z }.

Record BlockDevice := mkBlockDevice { Path : string; w : LimitedWriteCloser }.

Section writers.
Context `{BlockOs D}.

(** What a [Write] returns: the count and the error; and the writer after it. *)
Definition Written (X : Type) : Type := (nat * option error) * X * D.

(** *** Syncing *)

Definition fw_Sync (fw : FlushingWriter) (d : D) : option error * FlushingWriter * D :=
  let '(r, d) := FileSync d in (err_of r, mkFlushing (FlushIntervalBytes fw) 0, d).

Definition fw_Write (p : list byte) (fw : FlushingWriter) (d : D) : Written FlushingWriter :=
  let '((rv, err), d) := FileWrite p d in
  let fw := mkFlushing (FlushIntervalBytes fw) (uint64 (unflushedBytesWritten fw + Z.of_nat rv)) in
  match err with
  | Some err => ((rv, Some err), fw, d)
  | None =>
      if FlushIntervalBytes fw <=? unflushedBytesWritten fw
      then let '(err, fw, d) := fw_Sync fw d in ((rv, err), fw, d)
      else ((rv, None), fw, d)
  end.

Definition fw_Close (fw : FlushingWriter) (d : D) : option error * FlushingWriter * D :=
  let '(sync_err, fw, d) := fw_Sync fw d in
  let '(close_err, d) := FileClose d in
  (match sync_err with Some err => Some err | None => err_of close_err end, fw, d).

(** *** Leaving clean frames alone *)

Definition count_frame (dirty : bool) (bd : OptimizedBlockDeviceWriter) : OptimizedBlockDeviceWriter :=
  mkOptimized (blockDevice bd) (int64 (totalFrames bd + 1)) (if dirty then int64 (dirtyFrames bd + 1) else dirtyFrames bd).

Definition ob_Write (b : list byte) (bd : OptimizedBlockDeviceWriter) (d : D) : Written OptimizedBlockDeviceWriter :=
  match ReadFull (length b) d with
  | (Err err, d) => ((0%nat, Some err), bd, d)
  | (Ok payloadBuf, d) =>
      if bool_decide (payloadBuf = b) then ((length b, None), count_frame false bd, d)
      else
        match SeekBack (length b) d with
        | (Err err, d) => ((0%nat, Some err), bd, d)
        | (Ok _, d) =>
            let bd := count_frame true bd in
            let '(r, fw, d) := fw_Write b (blockDevice bd) d in
            (r, mkOptimized fw (totalFrames bd) (dirtyFrames bd), d)
        end
  end.

Definition ob_Close (bd : OptimizedBlockDeviceWriter) (d : D) : option error * D :=
  let '(err, _, d) := fw_Close (blockDevice bd) d in (err, d).

(** *** Collecting frames *)

(** The loop over full frames. *)
Fixpoint write_frames (nFrames : nat) (bw : BlockFrameWriter) (d : D) : option error * BlockFrameWriter * D :=
  match nFrames with
  | O => (None, bw, d)
  | S nFrames =>
      let size := Z.to_nat (frameSize bw) in
      let '((_, err), ob, d) := ob_Write (take size (buf bw)) (frame_w bw) d in
      let bw := mkFrames (drop size (buf bw)) (frameSize bw) ob in
      match err with
      | Some err => (Some err, bw, d)
      | None => write_frames nFrames bw d
      end
  end.

Definition bw_Write (b : list byte) (bw : BlockFrameWriter) (d : D) : Written BlockFrameWriter :=
  let bw := mkFrames (buf bw ++ b) (frameSize bw) (frame_w bw) in
  let len := Z.of_nat (length (buf bw)) in
  if len <? frameSize bw then ((length b, None), bw, d)
  else
    let '(err, bw, d) := write_frames (Z.to_nat (len / frameSize bw)) bw d in
    match err with
    | Some err => ((0%nat, Some err), bw, d)
    | None => ((length b, None), bw, d)
    end.

Definition bw_Close (bw : BlockFrameWriter) (d : D) : option error * D :=
  let '((_, err), ob, d) := ob_Write (buf bw) (frame_w bw) d in
  let '(cerr, d) := ob_Close ob d in
  (match cerr with
   | Some cerr => Some cerr
   | None => if bool_decide (err = Some EOF) then None else err
   end, d).

(** *** The limit *)

Definition inner_Write (p : list byte) (wc : WriteCloser) (d : D) : Written WriteCloser :=
  match wc with
  | Frames bw => let '(r, bw, d) := bw_Write p bw d in (r, Frames bw, d)
  | UbiFile => let '(r, d) := FileWrite p d in (r, UbiFile, d)
  end.

Definition inner_Close (wc : WriteCloser) (d : D) : option error * D :=
  match wc with
  | Frames bw => bw_Close bw d
  | UbiFile => let '(r, d) := FileClose d in (err_of r, d)
  end.

Definition lw_Write (p : list byte) (lw : LimitedWriteCloser) (d : D) : Written LimitedWriteCloser :=
  let '(toWrite, selferr) :=
    if N lw <? Z.of_nat (length p) then (take (Z.to_nat (N lw)) p, Some ENOSPC) else (p, None) in
  let '((n, err), wc, d) := inner_Write toWrite (W lw) d in
  ((n, match err with Some err => Some err | None => selferr end),
   mkLimited wc (uint64 (N lw - Z.of_nat n)), d).

Definition lw_Close (lw : LimitedWriteCloser) (d : D) : option error * D := inner_Close (W lw) d.

(** ** The device *)

(** The size of the chunks; [None] when the loop does not end. *)
Fixpoint chunk_loop (fuel : nat) (chunkSize : Z) : option Z :=
  match fuel with
  | O => None
  | S fuel => if chunkSize <? 1 * 1024 * 1024 then chunk_loop fuel (int64 (chunkSize * 2)) else Some chunkSize
  end.

(** [checkMounted] of dual_rootfs_device.go: the mount point, or the empty string.
    A line without two words, which would panic, does not occur in the file. *)
Definition checkMounted (part : string) (d : D) : string :=
  match Mounts d with
  | Err _ => EmptyString
  | Ok text =>
      match list_find (fun line => head (Fields line) = Some part) (Split text newline_char) with
      | Some (_, line) => default EmptyString (Fields line !! 1%nat)
      | None => EmptyString
      end
  end.

Definition errInvalidUpdate : error := EText "Have invalid update. Aborting.".

(** The result is [None] when the call does not return. *)
Definition Open (device : string) (size : Z) : IO D (option BlockDevice) :=
  if size <? 0 then fail errInvalidUpdate
  else
    mntPt ← gets (checkMounted device);
    (if bool_decide (mntPt = EmptyString) then mret () else Unmount device) ≫= fun _ =>
    typeUBI ← gets (IsUbiBlockDevice device);
    let path := if typeUBI : bool then join_path "/dev" device else device in
    bsz ← asks (SizeOf path);
    if bsz <? uint64 size then fail ENOSPC
    else
      nativeSsz ← asks (SectorSizeOf path);
      match chunk_loop 64 nativeSsz with
      | None => mret None
      | Some chunkSize =>
          wrap "Failed to open the device" (OpenDevice path (if typeUBI then O_WRONLY else O_RDWR)) ≫= fun _ =>
          (if typeUBI then SetUbiUpdateVolume (uint64 size) else mret ()) ≫= fun _ =>
          let bdw :=
            if typeUBI then UbiFile
            else Frames (mkFrames [] chunkSize (mkOptimized (mkFlushing (uint64 nativeSsz) 0) 0 0)) in
          mret (Some (mkBlockDevice path (mkLimited bdw (uint64 size))))
      end.

(** [bd.w] is never nil after [Open]. *)
Definition bd_Write (b : list byte) (bd : BlockDevice) (d : D) : Written BlockDevice :=
  let '(r, lw, d) := lw_Write b (w bd) d in (r, mkBlockDevice (Path bd) lw, d).

Definition bd_Close (bd : BlockDevice) (d : D) : option error * D := lw_Close (w bd) d.

(** ** Storing an image *)

(** What reading the image gives: pieces that are not empty, and the error at the
    end, if it is not io.EOF. *)
Record Image := mkImage { pieces : list (list byte); read_error : option error }.

(** [io.Copy]. *)
Fixpoint copy_pieces (ps : list (list byte)) (end_ : option error) (bd : BlockDevice) (d : D) :
    option error * BlockDevice * D :=
  match ps with
  | [] => (end_, bd, d)
  | p :: ps =>
      let '((nw, err), bd, d) := bd_Write p bd d in
      match err with
      | Some err => (Some err, bd, d)
      | None => if (nw =? length p)%nat then copy_pieces ps end_ bd d else (Some ErrShortWrite, bd, d)
      end
  end.

(** The device is closed in any case; an error of the copy comes first. *)
Definition copy_and_close (image : Image) (dev : BlockDevice) : IO D unit := fun d =>
  let '(err, dev, d) := copy_pieces (pieces image) (read_error image) dev d in
  let '(cerr, d) := bd_Close dev d in
  match err, cerr with
  | Some err, _ => (Err err, d)
  | None, Some err => (Err err, d)
  | None, None => (Ok (), d)
  end.

Definition store_image (inactivePartition : string) (imageSize : Z) (image : Image) : IO D (option unit) :=
  dev ← wrap "Failed to write the update to the inactive partition" (Open inactivePartition imageSize);
  match dev with
  | None => mret None
  | Some dev => copy_and_close image dev ≫= fun _ => mret (Some ())
  end.

Definition StoreUpdate `{Os D} `{!BootEnvReadWriter E D} (e : E) (imageSize : Z) (image : Image) :
    IO (dualRootfsDeviceImpl D) (option unit) :=
  inactivePartition ← GetInactive e;
  on_sys (store_image inactivePartition imageSize image).

End writers.
