(* ===== verification/BlockDeviceSpec.v ===== *)
(** * BlockDeviceSpec: an image arrives, and nothing beyond it changes

    The chain of writers against a block device that may fail at any call. *)

From S2P Require Import Prelude Text Os BlockDevice.
From Stdlib Require Import Ascii Strings.Byte.

Open Scope nat_scope.

(** What block devices promise.  [contents] are the bytes of a device, [opened]
    the one that is open and the position in it.  A read or a write that fails may
    have moved the position, and a write that fails may have left anything in the
    bytes it was given for; a read fails with io.EOF only where the device ends,
    and nothing else fails with io.EOF. *)
Class BlockLaws (D : Type) `{BlockOs D} := {
  contents : string -> D -> list byte;
  opened : D -> option (string * nat);
  SizeOf_ok p d n : SizeOf p d = Ok n -> n = Z.of_nat (length (contents p d));
  Unmount_ok p d r d' : Unmount p d = (r, d') ->
    (forall q, q <> p -> contents q d' = contents q d) /\ length (contents p d') = length (contents p d);
  OpenDevice_ok p f d r d' : OpenDevice p f d = (r, d') ->
    (forall q, contents q d' = contents q d) /\ (r = Ok () -> opened d' = Some (p, 0));
  ReadFull_ok n d r d' p pos : ReadFull n d = (r, d') -> opened d = Some (p, pos) ->
    (forall q, contents q d' = contents q d) /\
    match r with
    | Ok bs => bs = take n (drop pos (contents p d)) /\ length bs = n /\ opened d' = Some (p, pos + n)
    | Err err => (exists k, k <= n /\ opened d' = Some (p, pos + k)) /\
                 (err = EOF -> n <> 0 /\ length (contents p d) <= pos)
    end;
  SeekBack_ok n d r d' p pos : SeekBack n d = (r, d') -> opened d = Some (p, pos) ->
    (forall q, contents q d' = contents q d) /\
    match r with
    | Ok _ => n <= pos /\ opened d' = Some (p, pos - n)
    | Err err => err <> EOF /\ opened d' = Some (p, pos)
    end;
  FileWrite_ok bs d k err d' p pos : FileWrite bs d = ((k, err), d') -> opened d = Some (p, pos) ->
    k <= length bs /\ opened d' = Some (p, pos + k) /\
    (forall q, q <> p -> contents q d' = contents q d) /\
    length (contents p d') = length (contents p d) /\
    take pos (contents p d') = take pos (contents p d) /\
    drop (pos + length bs) (contents p d') = drop (pos + length bs) (contents p d) /\
    match err with
    | None => k = length bs /\ take (length bs) (drop pos (contents p d')) = bs
    | Some err => err <> EOF
    end;
  FileSync_ok d r d' : FileSync d = (r, d') ->
    (forall q, contents q d' = contents q d) /\ opened d' = opened d /\ r <> Err EOF;
  FileClose_ok d r d' : FileClose d = (r, d') -> forall q, contents q d' = contents q d
}.

(** ** Lists *)

Lemma take_drop_split {A} (l : list A) i j : take (i + j) l = take i l ++ take j (drop i l).
Proof. revert i. induction l as [|x l IH]; intros [|i]; cbn; try done; [by rewrite !take_nil|by rewrite IH]. Qed.

Lemma drop_same_le {A} (l l' : list A) i j : i <= j -> drop i l = drop i l' -> drop j l = drop j l'.
Proof. intros Hij Hd. replace j with (i + (j - i)) by lia. by rewrite <- !drop_drop, Hd. Qed.

Lemma take_same_le {A} (l l' : list A) i j : i <= j -> take j l = take j l' -> take i l = take i l'.
Proof. intros Hij Ht. replace i with (i `min` j) by lia. by rewrite <- !take_take, Ht. Qed.

Section spec.
Context `{BlockLaws D}.
Context (p : string).

(** Only bytes of [p] from [lo] up to [hi] may differ. *)
Record touched (lo hi : nat) (d d' : D) : Prop := {
  touched_other q : q <> p -> contents q d' = contents q d;
  touched_length : length (contents p d') = length (contents p d);
  touched_before : take lo (contents p d') = take lo (contents p d);
  touched_after : drop hi (contents p d') = drop hi (contents p d)
}.

Lemma touched_same lo hi d d' : (forall q, contents q d' = contents q d) -> touched lo hi d d'.
Proof. intros Hq. split; [intros q _; apply Hq|by rewrite Hq..]. Qed.

Lemma touched_trans lo1 hi1 lo2 hi2 lo hi d1 d2 d3 : lo <= lo1 -> lo <= lo2 -> hi1 <= hi -> hi2 <= hi ->
  touched lo1 hi1 d1 d2 -> touched lo2 hi2 d2 d3 -> touched lo hi d1 d3.
Proof.
  intros ? ? ? ? [Ho Hl Hb Ha] [Ho' Hl' Hb' Ha']. split.
  - intros q Hq. by rewrite Ho', Ho.
  - by rewrite Hl', Hl.
  - trans (take lo (contents p d2)); eapply take_same_le; [..|exact Hb'| |exact Hb]; done.
  - trans (drop hi (contents p d2)); eapply drop_same_le; [..|exact Ha'| |exact Ha]; done.
Qed.

Lemma touched_weaken lo1 hi1 lo hi d d' : lo <= lo1 -> hi1 <= hi -> touched lo1 hi1 d d' -> touched lo hi d d'.
Proof. intros Hlo Hhi Ht. eapply (touched_trans lo1 hi1 lo hi lo hi); [..|by apply touched_same]; eauto. Qed.

(** ** One frame *)

Lemma fw_Sync_ok fw d err fw' d' : fw_Sync fw d = (err, fw', d') ->
  (forall q, contents q d' = contents q d) /\ opened d' = opened d /\ err <> Some EOF.
Proof.
  unfold fw_Sync. destruct (FileSync d) as [r d1] eqn:Hs. intros [= <- <- <-].
  destruct (FileSync_ok _ _ _ Hs) as (Hc & Ho & He). split; [done|]. split; [done|].
  destruct r; cbn; congruence.
Qed.

Lemma fw_Write_ok b fw d n err fw' d' pos : fw_Write b fw d = ((n, err), fw', d') -> opened d = Some (p, pos) ->
  touched pos (pos + length b) d d' /\ (exists k, k <= length b /\ opened d' = Some (p, pos + k)) /\
  err <> Some EOF /\
  (err = None -> opened d' = Some (p, pos + length b) /\ take (length b) (drop pos (contents p d')) = b).
Proof.
  unfold fw_Write. destruct (FileWrite b d) as [[k e] d1] eqn:Hw. intros Hr Ho.
  destruct (FileWrite_ok _ _ _ _ _ _ _ Hw Ho) as (Hk & Ho1 & Hq & Hl & Hb & Ha & He).
  assert (touched pos (pos + length b) d d1) as Ht by by split.
  destruct e as [e|].
  - injection Hr as <- <- <- <-. split; [done|]. split; [by exists k|]. split; [congruence|done].
  - destruct He as [-> Hc]. destruct (_ <=? _)%Z.
    + destruct (fw_Sync _ d1) as [[e fw1] d2] eqn:Hs. injection Hr as <- <- <- <-.
      destruct (fw_Sync_ok _ _ _ _ _ Hs) as (Hsame & Ho2 & Hne).
      split; [by eapply (touched_trans pos _ pos _ pos _); [..|exact Ht|by apply touched_same]; eauto|].
      split; [exists (length b); by rewrite Ho2|]. split; [done|]. by rewrite Ho2, Hsame.
    + injection Hr as <- <- <- <-. split; [done|]. split; [by exists (length b)|]. by split.
Qed.

(** A frame that was accepted is there, dirty or clean; otherwise only its own
    bytes may have changed, and the position has not gone beyond it. *)
Lemma ob_Write_ok b ob d n err ob' d' pos : ob_Write b ob d = ((n, err), ob', d') -> opened d = Some (p, pos) ->
  touched pos (pos + length b) d d' /\ (exists k, k <= length b /\ opened d' = Some (p, pos + k)) /\
  (err = Some EOF -> length b <> 0 /\ length (contents p d) <= pos) /\
  (err = None -> opened d' = Some (p, pos + length b) /\ take (length b) (drop pos (contents p d')) = b).
Proof.
  unfold ob_Write. destruct (ReadFull (length b) d) as [[bs|e] d1] eqn:Hread; intros Hr Ho;
    destruct (ReadFull_ok _ _ _ _ _ _ Hread Ho) as [Hsame Hc].
  - destruct Hc as (Hbs & Hlen & Ho1). case_bool_decide as Heq.
    + injection Hr as <- <- <- <-. split; [by apply touched_same|]. split; [by exists (length b)|].
      split; [done|]. intros _. split; [done|]. rewrite Hsame. congruence.
    + destruct (SeekBack (length b) d1) as [[[]|e] d2] eqn:Hseek;
        destruct (SeekBack_ok _ _ _ _ _ _ Hseek Ho1) as [Hsame2 Hc2].
      * destruct Hc2 as [_ Ho2]. replace (pos + length b - length b) with pos in Ho2 by lia.
        destruct (fw_Write _ _ d2) as [[[n3 e3] fw3] d3] eqn:Hw. injection Hr as <- <- <- <-.
        destruct (fw_Write_ok _ _ _ _ _ _ _ _ Hw Ho2) as (Ht & Hk & Hne & Hok).
        split; [|by split].
        eapply (touched_trans pos (pos + length b)); [..|exact Ht]; [done..|].
        apply touched_same. intros q. by rewrite Hsame2, Hsame.
      * injection Hr as <- <- <- <-. destruct Hc2 as [Hne Ho2].
        split; [apply touched_same; intros q; by rewrite Hsame2, Hsame|].
        split; [by exists (length b)|]. split; [congruence|done].
  - destruct Hc as [(k & Hk & Ho1) He]. injection Hr as <- <- <- <-.
    split; [by apply touched_same|]. split; [by exists k|]. split; [|done]. intros [= ->]. by apply He.
Qed.

(** ** All frames *)

Lemma write_frames_ok k : forall bw d err bw' d' pos, write_frames k bw d = (err, bw', d') ->
  opened d = Some (p, pos) -> k * Z.to_nat (frameSize bw) <= length (buf bw) ->
  touched pos (pos + length (buf bw)) d d' /\ frameSize bw' = frameSize bw /\
  (exists pos', opened d' = Some (p, pos') /\ pos' + length (buf bw') <= pos + length (buf bw)) /\
  (err = None -> exists front, buf bw = front ++ buf bw' /\ opened d' = Some (p, pos + length front) /\
     take (length front) (drop pos (contents p d')) = front /\ drop (pos + length front) (contents p d') = drop (pos + length front) (contents p d)).
Proof.
  induction k as [|k IH]; intros bw d err bw' d' pos Hr Ho Hlen; cbn [write_frames] in Hr.
  { injection Hr as <- <- <-. split; [by apply touched_same|]. split; [done|]. split; [by eexists|].
    intros _. exists []. rewrite Nat.add_0_r. by split_and!. }
  set (size := Z.to_nat (frameSize bw)) in *. cbn in Hlen.
  assert (length (take size (buf bw)) = size) as Hsize by (rewrite length_take; lia).
  destruct (ob_Write _ _ d) as [[[n e] ob] d1] eqn:Hob.
  destruct (ob_Write_ok _ _ _ _ _ _ _ _ Hob Ho) as (Ht & (j & Hj & Ho1) & _ & Hok). rewrite Hsize in *.
  set (bw1 := mkFrames (drop size (buf bw)) (frameSize bw) ob) in *.
  assert (length (buf bw1) = length (buf bw) - size) as Hl1 by (cbn; by rewrite length_drop).
  destruct e as [e|].
  - injection Hr as <- <- <-. split; [eapply touched_weaken; [..|exact Ht]; lia|]. split; [done|].
    split; [|done]. exists (pos + j). split; [done|]. rewrite Hl1. lia.
  - destruct (Hok eq_refl) as [Ho1' Hfirst].
    destruct (IH bw1 d1 err bw' d' (pos + size) Hr Ho1') as (Ht2 & Hf & (pos' & Ho2 & Hp) & Hrest).
    { cbn. rewrite length_drop. fold size. lia. }
    split; [eapply (touched_trans pos _ (pos + size) _ pos _); [..|exact Ht|exact Ht2]; rewrite ?Hl1; lia|].
    split; [done|]. split; [exists pos'; split; [done|lia]|].
    intros ->. destruct (Hrest eq_refl) as (front & Hbuf & Ho3 & Htake & Hafter). cbn in Hbuf.
    exists (take size (buf bw) ++ front). rewrite length_app, Hsize. split; [by rewrite <- app_assoc, <- Hbuf, take_drop|].
    split; [by rewrite Nat.add_assoc|]. split.
    + rewrite take_drop_split, drop_drop, Htake. f_equal.
      rewrite <- Hfirst.
      assert (take (pos + size) (contents p d') = take (pos + size) (contents p d1)) as Hb by apply Ht2.
      apply (f_equal (drop pos)) in Hb. rewrite !skipn_firstn_comm in Hb.
      replace (pos + size - pos) with size in Hb by lia. exact Hb.
    + rewrite Nat.add_assoc, Hafter. eapply drop_same_le; [|apply Ht]. lia.
Qed.

(** ** The chain *)

(** All of [T] was accepted: a front part is on the device and the rest waits;
    beyond that the device is as it was. *)
Record accepted (c0 T : list byte) (bw : BlockFrameWriter) (d : D) : Prop := {
  accepted_frame : (0 < frameSize bw)%Z;
  accepted_front : exists front, T = front ++ buf bw /\ opened d = Some (p, length front) /\
    contents p d = front ++ drop (length front) c0
}.

(** After an error: nothing from [size] on was changed, and the rest that waits
    does not reach further. *)
Record harmless (c0 : list byte) (size : nat) (bw : BlockFrameWriter) (d : D) : Prop := {
  harmless_room : exists pos, opened d = Some (p, pos) /\ pos + length (buf bw) <= size;
  harmless_length : length (contents p d) = length c0;
  harmless_after : drop size (contents p d) = drop size c0
}.

Lemma accepted_harmless c0 T bw d size : accepted c0 T bw d -> length T <= size -> size <= length c0 ->
  harmless c0 size bw d.
Proof.
  intros [_ (front & -> & Ho & Hc)] Hlen Hsize. rewrite length_app in Hlen. split.
  - exists (length front). split; [done|lia].
  - rewrite Hc, length_app, length_drop. lia.
  - rewrite Hc, drop_app_ge, drop_drop by lia. f_equal. lia.
Qed.

Lemma contents_split (c c0 : list byte) front more pos : length front = pos ->
  take pos c = front -> take (length more) (drop pos c) = more ->
  drop (pos + length more) c = drop (pos + length more) c0 ->
  c = (front ++ more) ++ drop (length (front ++ more)) c0.
Proof.
  intros Hpos Hf Hm Ha. rewrite length_app, Hpos, <- Ha, <- Hm at 1. rewrite <- Hf at 1.
  by rewrite <- take_drop_split, take_drop.
Qed.

Lemma bw_Write_ok c0 T b bw d n err bw' d' size : bw_Write b bw d = ((n, err), bw', d') ->
  accepted c0 T bw d -> length (T ++ b) <= size -> size <= length c0 ->
  (forall q, q <> p -> contents q d' = contents q d) /\ harmless c0 size bw' d' /\
  (err = None -> n = length b /\ accepted c0 (T ++ b) bw' d').
Proof.
  intros Hr Hacc Hlen Hsize. pose proof Hacc as [Hpos (front & -> & Ho & Hc)]. unfold bw_Write in Hr.
  set (bw1 := mkFrames (buf bw ++ b) (frameSize bw) (frame_w bw)) in *.
  assert (accepted c0 ((front ++ buf bw) ++ b) bw1 d) as Hacc1.
  { split; [done|]. exists front. by rewrite <- app_assoc. }
  destruct (Z.ltb_spec (Z.of_nat (length (buf bw1))) (frameSize bw1)) as [Hlt|Hge].
  { injection Hr as <- <- <- <-. split; [done|]. split; [by eapply accepted_harmless|]. by intros _. }
  destruct (write_frames _ bw1 d) as [[e bw2] d2] eqn:Hw.
  destruct (write_frames_ok _ _ _ _ _ _ _ Hw Ho) as (Ht & Hf & (pos' & Ho2 & Hroom) & Hok).
  { cbn in *. apply Nat2Z.inj_le. rewrite Nat2Z.inj_mul, !Z2Nat.id by (try apply Z.div_pos; lia).
    pose proof (Z.mul_div_le (Z.of_nat (length (buf bw ++ b))) (frameSize bw)). lia. }
  assert (length front + length (buf bw1) <= size) as Hfit.
  { cbn. rewrite !length_app in *. lia. }
  assert (forall q, q <> p -> contents q d2 = contents q d) as Hother by apply Ht.
  assert (harmless c0 size bw2 d2) as Hharm.
  { split; [exists pos'; split; [done|lia]| |].
    - rewrite (touched_length _ _ _ _ Ht). by apply (accepted_harmless _ _ _ _ size Hacc1).
    - trans (drop size (contents p d)); [eapply drop_same_le; [exact Hfit|apply Ht]|].
      by apply (accepted_harmless _ _ _ _ size Hacc1). }
  destruct e as [e|]; injection Hr as <- <- <- <-; (split; [done|]); (split; [done|]); [done|].
  intros _. split; [done|]. destruct (Hok eq_refl) as (more & Hbuf & Ho3 & Htake & Hafter).
  split; [cbn in Hf; lia|]. exists (front ++ more). cbn in Hbuf. split; [by rewrite <- !app_assoc, <- Hbuf|].
  split; [by rewrite length_app|].
  apply (contents_split _ _ front more (length front)); [done| |done|].
  - rewrite (touched_before _ _ _ _ Ht), Hc. by apply take_app_length'.
  - rewrite Hafter, Hc, drop_app_ge, drop_drop by lia. f_equal. lia.
Qed.

(** Closing writes the rest. *)
Lemma bw_Close_ok c0 size bw d err d' : bw_Close bw d = (err, d') -> harmless c0 size bw d ->
  (forall q, q <> p -> contents q d' = contents q d) /\ length (contents p d') = length c0 /\
  drop size (contents p d') = drop size c0 /\
  (forall T, err = None -> accepted c0 T bw d -> length T <= length c0 ->
     contents p d' = T ++ drop (length T) c0).
Proof.
  intros Hr [(pos & Ho & Hroom) Hlen Hafter]. unfold bw_Close in Hr.
  destruct (ob_Write (buf bw) (frame_w bw) d) as [[[n e] ob] d1] eqn:Hw.
  destruct (ob_Write_ok _ _ _ _ _ _ _ _ Hw Ho) as (Ht & _ & Heof & Hok).
  assert (forall q, contents q d' = contents q d1) as Hsame.
  { revert Hr. unfold ob_Close, fw_Close. destruct (fw_Sync (blockDevice ob) d1) as [[e2 fw] d2] eqn:Hs.
    destruct (FileClose d2) as [r d3] eqn:Hcl. intros [= _ <-] q.
    rewrite (FileClose_ok _ _ _ Hcl). by apply (fw_Sync_ok _ _ _ _ _ Hs). }
  rewrite !Hsame. split; [intros q Hq; rewrite Hsame; by apply Ht|].
  split; [by rewrite (touched_length _ _ _ _ Ht)|].
  split; [rewrite <- Hafter; eapply drop_same_le; [exact Hroom|apply Ht]|].
  intros T -> [_ (front & -> & Ho' & Hc)] Hfit. assert (pos = length front) as -> by congruence.
  assert (e = None) as ->.
  { destruct (ob_Close ob d1) as [[ce|] d2]; [done|]. injection Hr as Hr _. case_bool_decide as He; [|done].
    destruct (Heof He) as [Hne Hend]. rewrite Hlen in Hend. rewrite length_app in Hfit. lia. }
  destruct (Hok eq_refl) as [_ Htake].
  apply (contents_split _ _ front (buf bw) (length front)); [done| |done|].
  - rewrite (touched_before _ _ _ _ Ht), Hc. by apply take_app_length'.
  - rewrite (touched_after _ _ _ _ Ht), Hc, drop_app_ge, drop_drop by lia. f_equal. lia.
Qed.

(** ** Copying *)

(** The device with the chain of writers, [T] accepted of at most [size] bytes. *)
Record copying (c0 T : list byte) (size : nat) (bd : BlockDevice) (bw : BlockFrameWriter) (d : D) : Prop := {
  copying_chain : W (w bd) = Frames bw;
  copying_left : N (w bd) = (Z.of_nat size - Z.of_nat (length T))%Z;
  copying_fits : length T <= size;
  copying_accepted : accepted c0 T bw d
}.

Lemma bd_Write_ok c0 T size b bd bw d n err bd' d' : bd_Write b bd d = ((n, err), bd', d') ->
  copying c0 T size bd bw d -> size <= length c0 -> (Z.of_nat size <= int64_max)%Z ->
  (forall q, q <> p -> contents q d' = contents q d) /\
  exists bw', W (w bd') = Frames bw' /\ harmless c0 size bw' d' /\
    (err = None -> n = length b /\ copying c0 (T ++ b) size bd' bw' d').
Proof.
  intros Hr [Hw HN Hfit Hacc] Hsize Hmax. unfold bd_Write, lw_Write, inner_Write in Hr. rewrite Hw, HN in Hr.
  destruct (Z.ltb_spec (Z.of_nat size - Z.of_nat (length T)) (Z.of_nat (length b))) as [Hlt|Hge].
  - set (b1 := take (Z.to_nat (Z.of_nat size - Z.of_nat (length T))) b) in *.
    assert (length (T ++ b1) <= size) as Hb1 by (unfold b1; rewrite length_app, length_take; lia).
    destruct (bw_Write b1 bw d) as [[[n1 e1] bw1] d1] eqn:Hbw. injection Hr as <- <- <- <-.
    destruct (bw_Write_ok c0 T b1 bw d _ _ _ _ size Hbw Hacc Hb1 Hsize) as (Hq & Hharm & _).
    split; [done|]. exists bw1. split; [done|]. split; [done|]. by destruct e1.
  - assert (length (T ++ b) <= size) as Hb by (rewrite length_app; lia).
    destruct (bw_Write b bw d) as [[[n1 e1] bw1] d1] eqn:Hbw. injection Hr as <- <- <- <-.
    destruct (bw_Write_ok c0 T b bw d _ _ _ _ size Hbw Hacc Hb Hsize) as (Hq & Hharm & Hok).
    split; [done|]. exists bw1. split; [done|]. split; [done|].
    intros He. destruct Hok as [-> Hacc']; [by destruct e1|]. split; [done|]. split; cbn; [done| |done|done].
    unfold uint64. rewrite Z.mod_small; [rewrite length_app; lia|]. rewrite length_app in Hb.
    unfold int64_max in Hmax. lia.
Qed.

Lemma copy_pieces_ok ps : forall c0 T size end_ bd bw d err bd' d',
  copy_pieces ps end_ bd d = (err, bd', d') -> copying c0 T size bd bw d ->
  size <= length c0 -> (Z.of_nat size <= int64_max)%Z ->
  (forall q, q <> p -> contents q d' = contents q d) /\
  exists bw', W (w bd') = Frames bw' /\ harmless c0 size bw' d' /\
    (err = None -> end_ = None /\ copying c0 (T ++ concat ps) size bd' bw' d').
Proof.
  induction ps as [|b ps IH]; intros c0 T size end_ bd bw d err bd' d' Hr Hc Hsize Hmax; cbn in Hr.
  { injection Hr as <- <- <-. split; [done|]. exists bw. split; [apply Hc|].
    split; [apply (accepted_harmless _ T); solve [apply Hc|done]|]. intros ->. cbn. by rewrite app_nil_r. }
  destruct (bd_Write b bd d) as [[[n e] bd1] d1] eqn:Hbw.
  destruct (bd_Write_ok _ _ _ _ _ _ _ _ _ _ _ Hbw Hc Hsize Hmax) as (Hq & bw1 & Hw1 & Hharm & Hok).
  destruct e as [e|]; [injection Hr as <- <- <-; split; [done|]; by exists bw1|].
  destruct (Hok eq_refl) as [-> Hc1]. rewrite Nat.eqb_refl in Hr.
  destruct (IH _ _ _ _ _ _ _ _ _ _ Hr Hc1 Hsize Hmax) as (Hq2 & bw2 & Hw2 & Hharm2 & Hok2).
  split; [intros q Hne; by rewrite Hq2, Hq|]. exists bw2. split; [done|]. split; [done|].
  intros He. cbn. rewrite app_assoc. by apply Hok2.
Qed.

Lemma copy_and_close_ok c0 size image bd bw d r d' : copy_and_close image bd d = (r, d') ->
  copying c0 [] size bd bw d -> size <= length c0 -> (Z.of_nat size <= int64_max)%Z ->
  (forall q, q <> p -> contents q d' = contents q d) /\
  length (contents p d') = length c0 /\ drop size (contents p d') = drop size c0 /\
  (r = Ok () -> read_error image = None /\ length (concat (pieces image)) <= size /\
     contents p d' = concat (pieces image) ++ drop (length (concat (pieces image))) c0).
Proof.
  intros Hr Hc Hsize Hmax. unfold copy_and_close in Hr.
  destruct (copy_pieces _ _ bd d) as [[e bd1] d1] eqn:Hcp.
  destruct (copy_pieces_ok _ _ _ _ _ _ _ _ _ _ _ Hcp Hc Hsize Hmax) as (Hq & bw1 & Hw1 & Hharm & Hok).
  destruct (bd_Close bd1 d1) as [ce d2] eqn:Hcl. unfold bd_Close, lw_Close, inner_Close in Hcl. rewrite Hw1 in Hcl.
  destruct (bw_Close_ok _ _ _ _ _ _ Hcl Hharm) as (Hq2 & Hl & Ha & Hwritten).
  assert (d' = d2) as -> by (destruct e, ce; by injection Hr).
  split; [intros q Hne; by rewrite Hq2, Hq|]. split; [done|]. split; [done|]. intros ->.
  destruct e, ce; try done. destruct (Hok eq_refl) as [Hend [_ _ Hfit Hacc]]. cbn in *.
  split; [done|]. split; [done|]. apply Hwritten; [done|done|lia].
Qed.
End spec.

(** ** Opening *)

Lemma chunk_loop_result fuel z c : chunk_loop fuel z = Some c -> (0 < c)%Z.
Proof.
  revert z. induction fuel as [|fuel IH]; intros z; cbn [chunk_loop]; [done|].
  destruct (Z.ltb_spec z (1 * 1024 * 1024)); [apply IH|intros [= ->]; lia].
Qed.

(** The loop ends for every sector size but 0 and negative ones, with a multiple
    of it of less than 2 MiB, if the sector is not larger. *)
Lemma chunk_loop_ends fuel z : (0 < z)%Z -> (1024 * 1024 <= z * 2 ^ Z.of_nat fuel)%Z ->
  exists k, chunk_loop (S fuel) z = Some (z * 2 ^ Z.of_nat k)%Z /\
    (1024 * 1024 <= z * 2 ^ Z.of_nat k)%Z /\ (z * 2 ^ Z.of_nat k < Z.max (2 * 1024 * 1024) (z + 1))%Z.
Proof.
  revert z. induction fuel as [|fuel IH]; intros z Hz Hf.
  - exists 0. cbn [chunk_loop]. rewrite Z.pow_0_r, Z.mul_1_r in *.
    destruct (Z.ltb_spec z (1 * 1024 * 1024)); [lia|]. split; [done|lia].
  - cbn [chunk_loop]. destruct (Z.ltb_spec z (1 * 1024 * 1024)) as [Hlt|Hge].
    + rewrite int64_id by (unfold int64_min, int64_max; lia).
      destruct (IH (z * 2)%Z) as (k & Hk & Hlo & Hhi); [lia|rewrite Nat2Z.inj_succ, Z.pow_succ_r in Hf by lia; lia|].
      cbn [chunk_loop] in Hk. exists (S k). rewrite Nat2Z.inj_succ, Z.pow_succ_r by lia.
      replace (z * (2 * 2 ^ Z.of_nat k))%Z with (z * 2 * 2 ^ Z.of_nat k)%Z by ring. split; [exact Hk|lia].
    + exists 0. rewrite Z.pow_0_r, Z.mul_1_r. split; [done|lia].
Qed.

Lemma chunk_loop_64 z : (0 < z)%Z -> exists c, chunk_loop 64 z = Some c.
Proof.
  intros Hz. destruct (chunk_loop_ends 63 z Hz) as (k & Hk & _); [|by eexists].
  apply Z.le_trans with (1 * 2 ^ Z.of_nat 63)%Z; [done|]. apply Z.mul_le_mono_nonneg_r; lia.
Qed.

Section store.
Context `{BlockLaws D}.

(** What the partition holds once it is not mounted: what it held, unless it had to
    be unmounted, which may write it. *)
Definition unmounted (part : string) (d : D) (c : list byte) : Prop :=
  length c = length (contents part d) /\ (checkMounted part d = EmptyString -> c = contents part d).

Lemma Open_ok part size d r d' : Open part size d = (r, d') -> (forall d, IsUbiBlockDevice part d = false) ->
  (size <= int64_max)%Z ->
  (forall q, q <> part -> contents q d' = contents q d) /\ unmounted part d (contents part d') /\
  ((forall p d n, SectorSizeOf p d = Ok n -> (0 < n)%Z) -> r <> Ok None) /\
  forall bd, r = Ok (Some bd) -> (0 <= size)%Z /\ Z.to_nat size <= length (contents part d) /\
    exists bw, copying part (contents part d') [] (Z.to_nat size) bd bw d'.
Proof.
  intros Hr Hubi Hmax. unfold Open in Hr. destruct (Z.ltb_spec size 0) as [|Hpos]; [by injection Hr as <- <-|].
  unfold mbind, IO_bind, gets in Hr.
  destruct ((if bool_decide (checkMounted part d = EmptyString) then mret () else Unmount part) d)
    as [rm d1] eqn:Hum.
  assert ((forall q, q <> part -> contents q d1 = contents q d) /\ unmounted part d (contents part d1)) as [Hsame1 Hun].
  { case_bool_decide as Hmt; [by injection Hum as _ <-|]. apply Unmount_ok in Hum as [Hq Hl]. by split_and!. }
  destruct rm as [[]|e]; [|by injection Hr as <- <-].
  rewrite Hubi in Hr. unfold asks in Hr.
  destruct (SizeOf part d1) as [bsz|e] eqn:Hsz; [|by injection Hr as <- <-].
  assert (uint64 size = size) as Hu by (unfold uint64; rewrite Z.mod_small; unfold int64_max in *; lia).
  rewrite Hu in Hr. destruct (Z.ltb_spec bsz size) as [|Hfit]; [by injection Hr as <- <-|].
  destruct (SectorSizeOf part d1) as [ssz|e] eqn:Hss; [|by injection Hr as <- <-].
  destruct (chunk_loop 64 ssz) as [chunk|] eqn:Hch.
  2: { injection Hr as <- <-. split; [done|]. split; [done|]. split; [|done]. intros Hsec _.
       destruct (chunk_loop_64 ssz (Hsec _ _ _ Hss)) as [c Hc]. congruence. }
  unfold wrap in Hr. destruct (OpenDevice part O_RDWR d1) as [[[]|e] d2] eqn:Hop;
    destruct (OpenDevice_ok _ _ _ _ _ Hop) as [Hsame2 Hopened]; injection Hr as <- <-;
    (split; [intros q Hq; by rewrite Hsame2, Hsame1|]); rewrite Hsame2; (split; [done|]); [|done].
  split; [done|]. intros bd [= <-]. split; [done|]. rewrite (SizeOf_ok _ _ _ Hsz), (proj1 Hun) in Hfit.
  split; [lia|]. eexists. split; cbn; [done|lia|lia|].
  split; cbn; [by eapply chunk_loop_result|]. exists []. split; [done|]. split; [by apply Hopened|].
  by rewrite Hsame2.
Qed.

(** What storing an image does to the devices. *)
Lemma store_image_ok part size image d r d' : store_image part size image d = (r, d') ->
  (forall d, IsUbiBlockDevice part d = false) -> (size <= int64_max)%Z ->
  (forall q, q <> part -> contents q d' = contents q d) /\
  ((forall p d n, SectorSizeOf p d = Ok n -> (0 < n)%Z) -> r <> Ok None) /\
  exists c, unmounted part d c /\ length (contents part d') = length c /\
  drop (Z.to_nat size) (contents part d') = drop (Z.to_nat size) c /\
  (r = Ok (Some ()) -> read_error image = None /\ (Z.of_nat (length (concat (pieces image))) <= size)%Z /\
     contents part d' = concat (pieces image) ++ drop (length (concat (pieces image))) c).
Proof.
  intros Hr Hubi Hmax. unfold store_image, mbind, IO_bind, wrap in Hr.
  destruct (Open part size d) as [[[bd|]|e] d1] eqn:Hop;
    destruct (Open_ok _ _ _ _ _ Hop Hubi Hmax) as (Hsame & Hun & Hret & Hok).
  - destruct (Hok bd eq_refl) as (Hpos & Hfit & bw & Hc). rewrite <- (proj1 Hun) in Hfit.
    destruct (copy_and_close image bd d1) as [rc d2] eqn:Hcc.
    destruct (copy_and_close_ok part _ _ _ _ _ _ _ _ Hcc Hc Hfit) as (Hq & Hl & Ha & Hw); [lia|].
    assert (d' = d2) as -> by (destruct rc; by injection Hr).
    split; [intros q Hne; by rewrite Hq, Hsame|].
    split; [intros _; destruct rc; by injection Hr as <-|].
    exists (contents part d1). split; [done|]. split; [done|]. split; [done|]. intros ->. destruct rc as [[]|]; [|done].
    destruct (Hw eq_refl) as (Hre & Hlen & Hcont). split; [done|]. split; [lia|done].
  - injection Hr as <- <-. split; [done|]. split; [intros Hsec; by destruct (Hret Hsec)|]. by exists (contents part d1).
  - injection Hr as <- <-. split; [done|]. split; [done|]. by exists (contents part d1).
Qed.
End store.
