(* ===== verification/StoreUpdateSpec.v ===== *)
(** * StoreUpdateSpec: the image goes to the partition that does not run

    [StoreUpdate] as a whole: finding the partition and writing it, on any boot
    environment and any block device; and a concrete device. *)

From S2P Require Import Prelude Text Os Devices BootEnv DualRootfs DualRootfsSpec BootProtocol BlockDevice BlockDeviceSpec.
From Stdlib Require Import Ascii Strings.Byte.

Open Scope Z_scope.

(** What the installer has cached, if anything, it found itself, some time before. *)
Definition cache_found `{Os D} `{!BootEnvReadWriter E D} (e : E) (s : dualRootfsDeviceImpl D) : Prop :=
  inactive (parts s) <> EmptyString ->
  exists s0 s1, inactive (parts s0) = EmptyString /\ GetInactive e s0 = (Ok (inactive (parts s)), s1).

(** When it looked for the partition [i], that was not the one that ran. *)
Definition not_running `{Os D} `{!BootEnvReadWriter E D} (e : E) (s : dualRootfsDeviceImpl D) (i : string) : Prop :=
  exists s0 s1 a s2, (inactive (parts s) = EmptyString -> s0 = s) /\ inactive (parts s0) = EmptyString /\
    GetInactive e s0 = (Ok i, s1) /\ GetActive e s0 = (Ok a, s2) /\ i <> maybeResolveLink a (sys s2).


(** ** A device *)

(** Partitions with contents; the file that is open; for each of the next syncs
    whether it fails. *)
Record Disks := mkDisks {
  disks : gmap string (list byte);
  cursor : option (string * nat);
  sync_fails : list bool
}.

Definition disk_contents (p : string) (d : Disks) : list byte := default [] (disks d !! p).

Definition move (o : option (string * nat)) (d : Disks) : Disks := mkDisks (disks d) o (sync_fails d).

Definition disk_read (n : nat) : IO Disks (list byte) := fun d =>
  match cursor d with
  | None => (Err (EText "not open"), d)
  | Some (p, pos) =>
      let bs := take n (drop pos (disk_contents p d)) in
      if (length bs =? n)%nat then (Ok bs, move (Some (p, (pos + n)%nat)) d)
      else (Err (if (length bs =? 0)%nat then EOF else EText "unexpected EOF"),
            move (Some (p, (pos + length bs)%nat)) d)
  end.

Definition disk_seek (n : nat) : IO Disks unit := fun d =>
  match cursor d with
  | None => (Err (EText "not open"), d)
  | Some (p, pos) =>
      if (n <=? pos)%nat then (Ok (), move (Some (p, (pos - n)%nat)) d)
      else (Err (EText "invalid argument"), d)
  end.

Definition disk_write (bs : list byte) (d : Disks) : (nat * option error) * Disks :=
  match cursor d with
  | None => ((0%nat, Some (EText "not open")), d)
  | Some (p, pos) =>
      let c := disk_contents p d in
      if (pos + length bs <=? length c)%nat
      then ((length bs, None),
            mkDisks (<[p := take pos c ++ bs ++ drop (pos + length bs) c]> (disks d))
              (Some (p, (pos + length bs)%nat)) (sync_fails d))
      else ((0%nat, Some ENOSPC), d)
  end.

Definition disk_sync : IO Disks unit := fun d =>
  match sync_fails d with
  | true :: l => (Err (EText "input/output error"), mkDisks (disks d) (cursor d) l)
  | _ :: l => (Ok (), mkDisks (disks d) (cursor d) l)
  | [] => (Ok (), d)
  end.

#[export] Instance disk_block_os : BlockOs Disks := {
  Mounts _ := Ok EmptyString;
  Unmount _ d := (Ok (), d);
  IsUbiBlockDevice _ _ := false;
  SizeOf p d := Ok (Z.of_nat (length (disk_contents p d)));
  SectorSizeOf _ _ := Ok 512;
  OpenDevice p _ d := (Ok (), move (Some (p, 0%nat)) d);
  SetUbiUpdateVolume _ d := (Ok (), d);
  ReadFull := disk_read;
  SeekBack := disk_seek;
  FileWrite := disk_write;
  FileSync := disk_sync;
  FileClose d := (Ok (), move None d)
}.

#[export] Instance disk_laws : BlockLaws Disks.
Proof.
  refine {| contents := disk_contents; opened := cursor |}.
  - by intros p d n [= <-].
  - by intros p d r d' [= _ <-].
  - by intros p f d r d' [= <- <-].
  - intros n d r d' p pos Hr Ho. cbn in Hr. unfold disk_read in Hr. rewrite Ho in Hr.
    set (bs := take n (drop pos (disk_contents p d))) in *.
    assert (length bs <= n)%nat as Hle by (unfold bs; rewrite length_take; lia).
    destruct (Nat.eqb_spec (length bs) n) as [He|Hne]; injection Hr as <- <-; (split; [done|]); [done|].
    split; [by exists (length bs)|]. destruct (Nat.eqb_spec (length bs) 0) as [H0|]; [|done]. intros _.
    split; [lia|]. unfold bs in *. rewrite length_take, length_drop in *. lia.
  - intros n d r d' p pos Hr Ho. cbn in Hr. unfold disk_seek in Hr. rewrite Ho in Hr.
    destruct (Nat.leb_spec n pos); injection Hr as <- <-; by split.
  - intros bs d k err d' p pos Hr Ho. cbn in Hr. unfold disk_write in Hr. rewrite Ho in Hr.
    destruct (Nat.leb_spec (pos + length bs) (length (disk_contents p d))) as [Hle|Hgt]; injection Hr as <- <- <-.
    + assert (length (take pos (disk_contents p d)) = pos) as Hpos by (rewrite length_take; lia).
      unfold disk_contents in *. cbn. rewrite lookup_insert_eq. cbn.
      split; [done|]. split; [done|]. split; [intros q Hq; by rewrite lookup_insert_ne|].
      split; [rewrite !length_app, length_drop, Hpos; lia|].
      split; [by apply take_app_length'|]. split.
      * rewrite drop_app_ge, Hpos by lia. replace (pos + length bs - pos)%nat with (length bs) by lia.
        by rewrite drop_app_length.
      * split; [done|]. rewrite drop_app_length' by done. apply take_app_length.
    + split; [lia|]. split; [by rewrite Nat.add_0_r|]. by split_and!.
  - intros d r d' Hr. cbn in Hr. unfold disk_sync in Hr.
    destruct (sync_fails d) as [|[] l]; injection Hr as <- <-; by split_and!.
  - by intros d r d' [= _ <-].
Defined.

(** Nothing but the links of the names is asked of the rest of the system. *)
#[export] Instance disk_os : Os Disks := {
  ReadFile _ _ := Err ErrNotExist;
  Stat _ _ := Err ErrNotExist;
  EvalSymlinks p _ := Ok p;
  Readdirnames _ _ := Ok [];
  LookPath _ _ := Err ErrNotExist;
  WriteFile _ _ d := (Err EROFS, d);
  MkdirAll _ d := (Err EROFS, d);
  RemoveFile _ d := (Err EROFS, d);
  RunCmd _ d := (Err ErrNotExist, d)
}.

#[export] Instance disk_env : BootEnvReadWriter unit Disks := {
  ReadEnv _ _ d := (Ok ∅, d);
  WriteEnv _ _ d := (Ok (), d);
  ReconcileToBootedSlot' _ := None;
  ClearDirectBootBackup' _ := None
}.

(** Partition 2 runs; partition 3 has 8 bytes. *)
Definition two_disks : dualRootfsDeviceImpl Disks :=
  mkDevice {| rootfsPartA := "/dev/mmcblk0p2"; rootfsPartB := "/dev/mmcblk0p3";
              active := "/dev/mmcblk0p2"; inactive := EmptyString |}
    (mkDisks (<["/dev/mmcblk0p2" := [x01; x02; x03]]>
              (<["/dev/mmcblk0p3" := [x00; x00; x00; x00; x0a; x0b; x0c; x0d]]> ∅)) None []).

Definition new_image : Image := mkImage [[x11; x12]; [x13]; [x14; x15]] None.

(** The announced size is respected, too. *)
Example image_too_long :
  (StoreUpdate () 4 new_image two_disks).1 = Err ENOSPC /\
  disk_contents "/dev/mmcblk0p3" (sys (StoreUpdate () 4 new_image two_disks).2) =
    [x11; x12; x13; x14; x0a; x0b; x0c; x0d].
Proof. split; vm_compute; reflexivity. Qed.

(** An image that ends early is stored without an error. *)
Example short_image_is_stored : (StoreUpdate () 7 new_image two_disks).1 = Ok (Some ()).
Proof. vm_compute. reflexivity. Qed.

