(* ===== verification/Installer.v ===== *)
(** * Installer: reading an artifact's headers and choosing the installers

    installer/installer.go and stub_installer.go: which reader an artifact is
    read with, which handlers it may use, what happens when the reader reports a
    signature, the compatible devices or a script, and how the installers are
    made, from the headers of an artifact or, after a restart, from the types of
    the payloads kept in the database.

    The reader of artifacts is the package areader and the verification of
    signatures the package artifact, which are not in the sources: they are the
    classes [AReader] and [Pki], with what the agent relies on in [AReaderLaws]. *)

From S2P Require Import Prelude Text Os World StateScripts ModuleDownload Modules.

Open Scope Z_scope.

(** ** Installers *)

(** What a handler makes for a payload (handlers.UpdateStorer): the device with
    two root partitions, an update module, the stub, or the reader's own storer
    for a payload without files, which is not a [PayloadUpdatePerformer]. *)
Inductive UpdateStorer : Type :=
  | RootfsStorer
  | ModuleStorer (m : ModuleInstaller)
  | StubStorer (payloadType : string)
  | EmptyPayload.

Definition PayloadUpdatePerformer (us : UpdateStorer) : bool :=
  match us with EmptyPayload => false | _ => true end.

Definition GetType (us : UpdateStorer) : string :=
  match us with
  | RootfsStorer => "rootfs-image"
  | ModuleStorer m => updateType m
  | StubStorer payloadType => payloadType
  | EmptyPayload => EmptyString
  end.

Definition getInstallerList (updateStorers : list UpdateStorer) : list UpdateStorer :=
  List.filter PayloadUpdatePerformer updateStorers.

(** Whether there is a device with two root partitions, and the factory of the
    update modules. *)
Record AllModules := mkAll {
  has_DualRootfs : bool;
  all_Modules : option ModuleInstallerFactory
}.

(** ** The stub *)

Module Stub.

Definition stubError (step : string) : error := EText ("Stub module: Cannot execute " +:+ step).

Definition Initialize : result unit := Err (stubError "Download").
Definition PrepareStoreUpdate : result unit := Err (stubError "Download").
Definition StoreUpdate : result unit := Err (stubError "Download").
Definition FinishStoreUpdate : result unit := Err (stubError "Download").
Definition InstallUpdate : result unit := Err (stubError "ArtifactInstall").
Definition NeedsReboot : result RebootAction := Ok RebootRequired.
Definition Reboot : result unit := Err (stubError "ArtifactReboot").
Definition CommitUpdate : result unit := Err (stubError "ArtifactCommit").
Definition SupportsRollback : result bool := Ok true.
Definition Rollback : result unit := Ok ().
Definition VerifyReboot : result unit := Err (stubError "ArtifactVerifyReboot").
Definition RollbackReboot {D} (systemRebootCmd : IO D unit) : IO D unit := systemRebootCmd.
Definition VerifyRollbackReboot : result unit :=
  Err (stubError "ArtifactVerifyRollbackReboot. Client is still not recovered from missing update module").
Definition Failure : result unit := Err (stubError "ArtifactFailure").
Definition Cleanup : result unit := Err (stubError "Cleanup").

End Stub.

(** ** The packages areader and artifact *)

(** A handler for a type of payload, and how it makes the storer of a payload
    with a given number. *)
Record Handler := mkHandler {
  handles : string;
  producer : string -> Z -> result UpdateStorer
}.

(** The fields of a reader that the agent sets. *)
Record ReaderConfig (D : Type) := mkReaderConfig {
  ForbidUnknownHandlers : bool;
  CompatibleDevicesCallback : list string -> IO D unit;
  VerifySignatureCallback : string -> string -> IO D unit;
  ScriptsReadCallback : string -> string -> IO D unit
}.
Arguments mkReaderConfig {D}.
Arguments ForbidUnknownHandlers {D}.
Arguments CompatibleDevicesCallback {D}.
Arguments VerifySignatureCallback {D}.
Arguments ScriptsReadCallback {D}.

Class AReader (D Art Reader : Type) := {
  NewReader : Art -> Reader;
  NewReaderSigned : Art -> Reader;
  RegisterHandler : Handler -> Reader -> result Reader;
  ReadArtifactHeaders : ReaderConfig D -> Reader -> IO D Reader;
  GetInfoVersion : Reader -> Z;
  GetUpdateStorers : Reader -> result (list UpdateStorer);
  ReadArtifactData : Reader -> IO D unit
}.

(** A verifier is made from the data of a key; it accepts a signature of a
    message or not. *)
Class Pki (Verifier : Type) := {
  NewPKIVerifier : string -> result Verifier;
  Verify : Verifier -> string -> string -> option error
}.

(** What a reader reports while it reads the headers. *)
Inductive HeaderPart : Type :=
  | SignaturePart (message sig : string)
  | DevicesPart (devices : list string)
  | ScriptPart (content name : string).

Definition report {D} (cfg : ReaderConfig D) (p : HeaderPart) : IO D unit :=
  match p with
  | SignaturePart message sig => VerifySignatureCallback cfg message sig
  | DevicesPart devices => CompatibleDevicesCallback cfg devices
  | ScriptPart content name => ScriptsReadCallback cfg content name
  end.

(** The headers are read part by part, until a callback refuses one.  A reader
    for signed artifacts reports the signature before anything else, or fails.
    A storer that is more than an empty payload was made by a handler registered
    for its type. *)
Class AReaderLaws (D Art Reader : Type) `{AReader D Art Reader} := {
  must_be_signed : Reader -> bool;
  registered : Reader -> list Handler;
  header_parts : Reader -> list HeaderPart;
  after_headers : Reader -> result Reader;
  NewReader_registered art : registered (NewReader art) = [];
  NewReaderSigned_registered art : registered (NewReaderSigned art) = [];
  NewReaderSigned_signed art : must_be_signed (NewReaderSigned art) = true;
  RegisterHandler_registered h r r' : RegisterHandler h r = Ok r' -> registered r' = registered r ++ [h];
  RegisterHandler_signed h r r' : RegisterHandler h r = Ok r' -> must_be_signed r' = must_be_signed r;
  ReadArtifactHeaders_parts cfg r d :
    ReadArtifactHeaders cfg r d =
      (Os.for_each (report cfg) (header_parts r) ≫= fun _ => asks (fun _ => after_headers r)) d;
  signature_first r : must_be_signed r = true ->
    match header_parts r with
    | SignaturePart _ _ :: _ => True
    | [] => exists err, after_headers r = Err err
    | _ => False
    end;
  storers_made r r' storers i us : after_headers r = Ok r' -> GetUpdateStorers r' = Ok storers ->
    storers !! i = Some us -> PayloadUpdatePerformer us = true ->
    exists h, h ∈ registered r /\ producer h (handles h) (Z.of_nat i) = Ok us
}.

(** ** Reading the headers *)

Section installer.
Context `{Os D} `{ScriptOs D} `{ModuleOs D} `{AReader D Art Reader} `{Pki Verifier}.

(** [handlers.NewRootfsInstaller] with the device as the producer. *)
Definition rootfs_handler : Handler := mkHandler "rootfs-image" (fun _ _ => Ok RootfsStorer).

(** [handlers.NewModuleImage] with the factory as the producer. *)
Definition module_handler (mf : ModuleInstallerFactory) (updateType : string) : Handler :=
  mkHandler updateType (fun type payloadNum =>
    match NewUpdateStorer mf type payloadNum with Ok m => Ok (ModuleStorer m) | Err err => Err err end).

Fixpoint register_modules (mf : ModuleInstallerFactory) (updateTypes : list string) (ar : Reader) : result Reader :=
  match updateTypes with
  | [] => Ok ar
  | updateType :: updateTypes =>
      if bool_decide (updateType = "rootfs-image") then register_modules mf updateTypes ar
      else
        match RegisterHandler (module_handler mf updateType) ar with
        | Err err => Err (EWrap ("failed to register '" +:+ updateType +:+ "' install handler") err)
        | Ok ar => register_modules mf updateTypes ar
        end
  end.

Definition registerHandlers (ar : Reader) (inst : AllModules) (d : D) : result Reader :=
  match (if has_DualRootfs inst then RegisterHandler rootfs_handler ar else Ok ar) with
  | Err err => Err (EWrap "failed to register rootfs install handler" err)
  | Ok ar =>
      match all_Modules inst with
      | None => Ok ar
      | Some mf => register_modules mf (GetModuleTypes mf d) ar
      end
  end.

Definition errNotCompatible (dt : string) : error :=
  EText ("installer: image not compatible with device " +:+ dt).

Definition check_devices (dt : string) (devices : list string) : IO D unit :=
  if bool_decide (dt = EmptyString) then mret ()
  else if bool_decide (dt ∈ devices) then mret ()
  else fail (errNotCompatible dt).

(** The loop over the keys, which are pairs of a path and the data. *)
Fixpoint verified (keys : list (string * string)) (message sig : string) : bool :=
  match keys with
  | [] => false
  | (_, data) :: keys =>
      match NewPKIVerifier data with
      | Err _ => verified keys message sig
      | Ok s =>
          match Verify s message sig with
          | Some _ => verified keys message sig
          | None => true
          end
      end
  end.

Definition errNotVerified : error :=
  EText "failed to verify message with any of the provided verification keys".

Definition verify_signature (keys : list (string * string)) (message sig : string) : IO D unit :=
  if bool_decide (keys = []) then mret ()
  else if verified keys message sig then mret () else fail errNotVerified.

Definition errManyPayloads : error := EText "Artifacts with more than one payload are not supported yet!".

Definition new_reader (art : Art) (keys : list (string * string)) : Reader :=
  if bool_decide (keys = []) then NewReader art else NewReaderSigned art.

Definition reader_config (dt : string) (keys : list (string * string)) (scr : ScriptStore) : ReaderConfig D :=
  mkReaderConfig true (check_devices dt) (verify_signature keys) (StoreScript scr).

Definition ReadHeaders (art : Art) (dt : string) (keys : list (string * string)) (scrDir : string)
    (inst : AllModules) : IO D (Reader * list UpdateStorer) :=
  ar ← asks (registerHandlers (new_reader art keys) inst);
  let scr := NewStore scrDir in
  wrap "installer: error initializing directory for scripts" (Clear scr) ≫= fun _ =>
  ar ← wrap "installer: failed to read Artifact" (ReadArtifactHeaders (reader_config dt keys scr) ar);
  wrap "installer: error finalizing writing scripts" (Finalize scr (GetInfoVersion ar)) ≫= fun _ =>
  updateStorers ← asks (fun _ => GetUpdateStorers ar);
  if (1 <? length updateStorers)%nat then fail errManyPayloads
  else mret (ar, getInstallerList updateStorers).

Definition StorePayloads (i : Reader) : IO D unit := ReadArtifactData i.

(** The payloads are returned with the error of storing them. *)
Definition Install (art : Art) (dt : string) (keys : list (string * string)) (scrDir : string)
    (inst : AllModules) : D -> (list UpdateStorer * option error) * D := fun d =>
  match ReadHeaders art dt keys scrDir inst d with
  | (Err err, d) => (([], Some err), d)
  | (Ok (installer, payloads), d) =>
      let '(r, d) := StorePayloads installer d in
      ((payloads, match r with Ok _ => None | Err err => Some err end), d)
  end.

(** ** Making the installers again *)

(** The panic of reading a field through a nil pointer. *)
Definition errNilPointer : error := EText "invalid memory address or nil pointer dereference".

Definition create_installer (inst : AllModules) (mf : ModuleInstallerFactory) (typesFromDisk : list string)
    (n : Z) (desired : string) : result UpdateStorer :=
  if bool_decide (desired = "rootfs-image") then
    if has_DualRootfs inst then Ok RootfsStorer else Ok (StubStorer desired)
  else if bool_decide (desired ∈ typesFromDisk) then
    match NewUpdateStorer mf desired n with Ok m => Ok (ModuleStorer m) | Err err => Err err end
  else Ok (StubStorer desired).

Fixpoint create_installers (inst : AllModules) (mf : ModuleInstallerFactory) (typesFromDisk : list string)
    (n : Z) (desiredTypes : list string) : result (list UpdateStorer) :=
  match desiredTypes with
  | [] => Ok []
  | desired :: desiredTypes =>
      match create_installer inst mf typesFromDisk n desired with
      | Err err => Err err
      | Ok us =>
          match create_installers inst mf typesFromDisk (n + 1) desiredTypes with
          | Err err => Err err
          | Ok l => Ok (us :: l)
          end
      end
  end.

Definition CreateInstallersFromList (inst : AllModules) (desiredTypes : list string) (d : D) :
    result (list UpdateStorer) :=
  match all_Modules inst with
  | None => Err errNilPointer
  | Some mf =>
      match create_installers inst mf (GetModuleTypes mf d) 0 desiredTypes with
      | Err err => Err err
      | Ok payloadStorers => Ok (getInstallerList payloadStorers)
      end
  end.

End installer.
