(* ===== verification/InstallerSpec.v ===== *)
(** * InstallerSpec: what is installed is signed and made for the device

    Theorems about [Installer]: with keys configured, an artifact without a
    signature by one of them changes nothing but the directory of scripts; and
    the installers that are made after a restart are those the headers gave. *)

From S2P Require Import Prelude Text Os World StateScripts ModuleDownload Modules Installer StateScriptsScenario ModulesScenario.

Open Scope Z_scope.

(** ** Loops that succeed *)

Lemma for_each_ok {S X} (f : X -> IO S unit) l s s' x : Os.for_each f l s = (Ok (), s') -> x ∈ l ->
  exists s1 s2, f x s1 = (Ok (), s2).
Proof.
  revert s. induction l as [|y l IH]; intros s Hl Hx; [by apply elem_of_nil in Hx|].
  cbn [Os.for_each] in Hl. apply bind_ok in Hl as ([] & s1 & Hy & Hl).
  apply elem_of_cons in Hx as [->|Hx]; [by eexists _, _|by apply (IH s1)].
Qed.

Section authentic.
Context `{Os D} `{ScriptOs D} `{ModuleOs D} `{AReaderLaws D Art Reader} `{Pki Verifier}.

(** Some key of the list accepts the signature. *)
Definition signed_by (keys : list (string * string)) (message sig : string) : Prop :=
  exists path data s, (path, data) ∈ keys /\ NewPKIVerifier data = Ok s /\ Verify s message sig = None.

Lemma verified_spec keys message sig : verified keys message sig = true <-> signed_by keys message sig.
Proof.
  unfold signed_by. induction keys as [|[p data] keys IH]; cbn [verified].
  - split; [done|]. intros (? & ? & ? & Hin & _). by apply elem_of_nil in Hin.
  - split.
    + intros Hv. destruct (NewPKIVerifier data) as [s|] eqn:Hs; [destruct (Verify s message sig) eqn:Hok|].
      2: { exists p, data, s. split; [by left|done]. }
      all: apply IH in Hv as (p' & data' & s' & Hin & Hs'); exists p', data', s'; split; [by right|done].
    + intros (p' & data' & s & [Heq|Hin]%elem_of_cons & Hs & Hv).
      * injection Heq as -> ->. by rewrite Hs, Hv.
      * assert (verified keys message sig = true) by (apply IH; by exists p', data', s).
        destruct (NewPKIVerifier data) as [s0|]; [|done]. by destruct (Verify s0 message sig).
Qed.

(** *** Registering handlers *)

(** The types of update modules a handler is made for. *)
Definition module_types (updateTypes : list string) : list string :=
  List.filter (fun t => negb (bool_decide (t = "rootfs-image"))) updateTypes.

Lemma register_modules_ok mf types ar ar' : register_modules mf types ar = Ok ar' ->
  must_be_signed ar' = must_be_signed ar /\
  registered ar' = registered ar ++ (module_handler mf <$> module_types types).
Proof.
  revert ar. induction types as [|t types IH]; intros ar; cbn [register_modules].
  - intros [= ->]. split; [done|]. cbn. by rewrite app_nil_r.
  - unfold module_types. cbn [List.filter]. case_bool_decide; cbn [negb]; [apply IH|].
    destruct (RegisterHandler (module_handler mf t) ar) as [ar1|] eqn:Hr; [|done].
    intros [Hs Hl]%IH. split; [by rewrite Hs, (RegisterHandler_signed _ _ _ Hr)|].
    by rewrite Hl, (RegisterHandler_registered _ _ _ Hr), <- (assoc_L (++)).
Qed.

(** The handlers of the device at the time. *)
Definition device_handlers (inst : AllModules) (d : D) : list Handler :=
  (if has_DualRootfs inst then [rootfs_handler] else []) ++
  match all_Modules inst with
  | None => []
  | Some mf => module_handler mf <$> module_types (GetModuleTypes mf d)
  end.

Lemma registerHandlers_ok ar inst d ar' : registerHandlers ar inst d = Ok ar' ->
  must_be_signed ar' = must_be_signed ar /\ registered ar' = registered ar ++ device_handlers inst d.
Proof.
  unfold registerHandlers, device_handlers. intros Hr.
  destruct (if has_DualRootfs inst then RegisterHandler rootfs_handler ar else Ok ar) as [ar1|] eqn:Hroot; [|done].
  assert (must_be_signed ar1 = must_be_signed ar /\
          registered ar1 = registered ar ++ (if has_DualRootfs inst then [rootfs_handler] else [])) as [Hs Hl].
  { destruct (has_DualRootfs inst).
    - by rewrite (RegisterHandler_signed _ _ _ Hroot), (RegisterHandler_registered _ _ _ Hroot).
    - injection Hroot as ->. by rewrite app_nil_r. }
  destruct (all_Modules inst) as [mf|].
  - apply register_modules_ok in Hr as [Hs' Hl']. by rewrite Hs', Hl', Hs, Hl, (assoc_L (++)).
  - injection Hr as <-. rewrite Hs, Hl. by rewrite app_nil_r.
Qed.

(** *** The callbacks *)

Lemma check_devices_ok dt devices d d' : check_devices (D:=D) dt devices d = (Ok (), d') ->
  dt = EmptyString \/ dt ∈ devices.
Proof. unfold check_devices. repeat case_bool_decide; auto. done. Qed.

Lemma verify_signature_refuses keys message sig (d : D) : keys <> [] -> verified keys message sig = false ->
  verify_signature keys message sig d = (Err errNotVerified, d).
Proof. intros Hk Hv. unfold verify_signature. by rewrite bool_decide_eq_false_2, Hv. Qed.

(** Reading headers that must be signed. *)
Lemma headers_signed keys dt scr ar d r d' : keys <> [] -> must_be_signed ar = true ->
  ReadArtifactHeaders (reader_config dt keys scr) ar d = (r, d') ->
  (exists message sig, SignaturePart message sig ∈ header_parts ar /\ signed_by keys message sig) \/
  (d' = d /\ exists err, r = Err err).
Proof.
  intros Hk Hs. rewrite ReadArtifactHeaders_parts. pose proof (signature_first ar Hs) as Hf.
  destruct (header_parts ar) as [|[message sig| |] parts]; [|clear Hf|done..].
  - destruct Hf as [err Hf]. cbn. unfold mbind, IO_bind, asks. cbn. rewrite Hf. intros [= <- <-]. right. eauto.
  - cbn [Os.for_each report]. unfold reader_config at 1. cbn [VerifySignatureCallback].
    destruct (verified keys message sig) eqn:Hv.
    + intros _. left. exists message, sig. split; [by left|]. by apply verified_spec.
    + rewrite (bind_fail _ _ _ errNotVerified d); [|apply bind_fail; by apply verify_signature_refuses].
      intros [= <- <-]. right. eauto.
Qed.

(** A device the artifact is not made for is refused. *)
Lemma headers_compatible keys dt scr ar ar' devices d d' :
  ReadArtifactHeaders (reader_config dt keys scr) ar d = (Ok ar', d') ->
  DevicesPart devices ∈ header_parts ar -> dt = EmptyString \/ dt ∈ devices.
Proof.
  rewrite ReadArtifactHeaders_parts. intros ([] & d1 & Hl & _)%bind_ok Hin.
  destruct (for_each_ok _ _ _ _ _ Hl Hin) as (s1 & s2 & Hc). by apply check_devices_ok in Hc.
Qed.

Lemma new_reader_signed art keys : keys <> [] -> new_reader art keys = NewReaderSigned art.
Proof. intros Hk. unfold new_reader. by rewrite bool_decide_eq_false_2. Qed.

(** What [ReadHeaders] does on its way to success. *)
Lemma ReadHeaders_ok art dt keys scrDir inst d out d' : ReadHeaders art dt keys scrDir inst d = (Ok out, d') ->
  exists ar ar' d1 d2 storers, registerHandlers (new_reader art keys) inst d = Ok ar /\
    Clear (NewStore scrDir) d = (Ok (), d1) /\
    ReadArtifactHeaders (reader_config dt keys (NewStore scrDir)) ar d1 = (Ok ar', d2) /\
    GetUpdateStorers ar' = Ok storers /\ (length storers <= 1)%nat /\
    out = (ar', getInstallerList storers).
Proof.
  unfold ReadHeaders. intros (ar & s0 & Hreg & Hr)%bind_ok.
  injection Hreg as Hreg <-.
  apply bind_ok in Hr as ([] & d1 & Hc%wrap_ok & Hr).
  apply bind_ok in Hr as (ar' & d2 & Ha%wrap_ok & Hr).
  apply bind_ok in Hr as ([] & d3 & Hf & Hr).
  apply bind_ok in Hr as (storers & d4 & Hst & Hr).
  injection Hst as Hst <-.
  destruct (Nat.ltb_spec 1 (length storers)); [done|]. injection Hr as <- <-.
  exists ar, ar', d1, d2, storers. by repeat split.
Qed.

(** With keys, [ReadHeaders] goes past the wiping of scripts only with a signature. *)
Lemma ReadHeaders_signed art dt keys scrDir inst d r d' : keys <> [] ->
  ReadHeaders art dt keys scrDir inst d = (r, d') ->
  (exists ar message sig, registerHandlers (NewReaderSigned art) inst d = Ok ar /\
     SignaturePart message sig ∈ header_parts ar /\ signed_by keys message sig) \/
  ((exists err, r = Err err) /\ (d' = d \/ d' = (Clear (NewStore scrDir) d).2)).
Proof.
  intros Hk. unfold ReadHeaders. rewrite (new_reader_signed _ _ Hk). unfold mbind, IO_bind, asks.
  destruct (registerHandlers (NewReaderSigned art) inst d) as [ar|err] eqn:Hreg;
    [|intros [= <- <-]; right; eauto].
  unfold wrap. destruct (Clear (NewStore scrDir) d) as [[[]|err] d1] eqn:Hc;
    [|intros [= <- <-]; right; eauto].
  destruct (ReadArtifactHeaders _ ar d1) as [r1 d2] eqn:Ha.
  assert (must_be_signed ar = true) as Hs.
  { destruct (registerHandlers_ok _ _ _ _ Hreg) as [-> _]. apply NewReaderSigned_signed. }
  destruct (headers_signed _ _ _ _ _ _ _ Hk Hs Ha) as [(message & sig & Hin & Hsig)|[-> [err ->]]].
  - intros _. left. by exists ar, message, sig.
  - intros [= <- <-]. right. eauto.
Qed.

End authentic.

(** C7: only what is signed for this device is installed.  With verification keys, whatever the artifact:
    either one of the keys accepts the signature the artifact reports, or [Install] fails, stores no payload,
    makes no installer, and has changed at most the directory of scripts, which it wiped.  And if it succeeds,
    signed or not, every list of devices the artifact reports has the device's type, unless that is unknown. *)
Theorem Install_authenticates `{Os D} `{ScriptOs D} `{ModuleOs D} `{AReaderLaws D Art Reader} `{Pki Verifier}
    (art : Art) (dt : string) (keys : list (string * string)) (scrDir : string) (inst : AllModules) (d d' : D)
    (payloads : list UpdateStorer) (err : option error)
    (Hrun : Install art dt keys scrDir inst d = ((payloads, err), d')) :
  (keys <> [] ->
   (exists ar message sig, registerHandlers (NewReaderSigned art) inst d = Ok ar /\
      SignaturePart message sig ∈ header_parts ar /\ signed_by keys message sig) \/
   (payloads = [] /\ is_Some err /\ (d' = d \/ d' = (Clear (NewStore scrDir) d).2))) /\
  (err = None ->
   exists ar, registerHandlers (new_reader art keys) inst d = Ok ar /\
     forall devices, DevicesPart devices ∈ header_parts ar -> dt = EmptyString \/ dt ∈ devices).
Proof.
  unfold Install in Hrun. destruct (ReadHeaders art dt keys scrDir inst d) as [r d1] eqn:Hr. split.
  - intros Hk. destruct (ReadHeaders_signed _ _ _ _ _ _ _ _ Hk Hr) as [Hs|[[e ->] Hd]]; [by left|].
    injection Hrun as <- <- <-. right. by eauto.
  - intros ->. destruct r as [[i l]|]; [|done].
    destruct (ReadHeaders_ok _ _ _ _ _ _ _ _ Hr) as (ar & ar' & d2 & d3 & storers & Hreg & _ & Ha & _).
    exists ar. split; [done|]. intros devices. by apply (headers_compatible _ _ _ _ _ _ _ _ Ha).
Qed.

(** ** Making the installers again *)

Section resume.
Context `{Os D} `{ScriptOs D} `{ModuleOs D} `{AReaderLaws D Art Reader} `{Pki Verifier}.

Lemma NewUpdateStorer_in_range mf type n : 0 <= n <= 9999 ->
  exists m, NewUpdateStorer mf type n = Ok m /\ updateType m = type.
Proof.
  intros Hn. unfold NewUpdateStorer. destruct (Z.ltb_spec n 0); [lia|]. destruct (Z.ltb_spec 9999 n); [lia|].
  eexists; by split.
Qed.

Lemma create_installer_type inst mf types n desired : 0 <= n <= 9999 ->
  exists us, create_installer inst mf types n desired = Ok us /\ GetType us = desired /\
    PayloadUpdatePerformer us = true.
Proof.
  intros Hn. unfold create_installer. case_bool_decide as Hr; [|case_bool_decide as Hin].
  - rewrite Hr. destruct (has_DualRootfs inst); [by exists RootfsStorer|by exists (StubStorer "rootfs-image")].
  - destruct (NewUpdateStorer_in_range mf desired n Hn) as (m & -> & Hm). by exists (ModuleStorer m).
  - by exists (StubStorer desired).
Qed.

Lemma create_installers_types inst mf types desired n : 0 <= n -> n + Z.of_nat (length desired) <= 10000 ->
  exists l, create_installers inst mf types n desired = Ok l /\ GetType <$> l = desired /\ getInstallerList l = l.
Proof.
  revert n. induction desired as [|t desired IH]; intros n Hn Hl; [by exists []|]. cbn [length] in Hl.
  cbn [create_installers].
  destruct (create_installer_type inst mf types n t) as (us & -> & Ht & Hp); [lia|].
  destruct (IH (n + 1)) as (l & -> & Hl' & Hf); [lia|lia|].
  exists (us :: l). split; [done|]. split; [by rewrite fmap_cons, Ht, Hl'|].
  unfold getInstallerList. cbn [List.filter]. rewrite Hp. by f_equal.
Qed.

Lemma elem_of_module_types t l : t ∈ module_types l <-> t ∈ l /\ t <> "rootfs-image".
Proof.
  unfold module_types. rewrite !list_elem_of_In, filter_In.
  by rewrite negb_true_iff, bool_decide_eq_false.
Qed.

(** A storer the device's handlers made is made again, if its module is still there. *)
Lemma create_installer_again inst mf d types h i us : all_Modules inst = Some mf ->
  h ∈ device_handlers inst d -> producer h (handles h) i = Ok us ->
  (forall t, t ∈ GetModuleTypes mf d -> t ∈ types) ->
  GetType us = handles h /\ create_installer inst mf types i (GetType us) = Ok us.
Proof.
  intros Hm Hh Hp Ht. unfold device_handlers in Hh. rewrite Hm in Hh.
  apply elem_of_app in Hh as [Hh|Hh].
  - destruct (has_DualRootfs inst) eqn:Hd; [|by apply elem_of_nil in Hh].
    apply list_elem_of_singleton in Hh as ->. injection Hp as <-. split; [done|].
    unfold create_installer. by rewrite bool_decide_eq_true_2, Hd.
  - apply list_elem_of_fmap in Hh as (t & -> & (Hin & Hne)%elem_of_module_types).
    cbn [producer handles module_handler] in *.
    destruct (NewUpdateStorer mf t i) as [m|] eqn:Hn; [|done]. injection Hp as <-.
    assert (updateType m = t) as Hmt.
    { unfold NewUpdateStorer in Hn. destruct (_ || _); [done|]. by injection Hn as <-. }
    cbn [GetType]. split; [done|]. rewrite Hmt. unfold create_installer.
    rewrite bool_decide_eq_false_2 by done. rewrite bool_decide_eq_true_2 by auto. by rewrite Hn.
Qed.

Lemma new_reader_registered art keys : registered (new_reader art keys) = [].
Proof. unfold new_reader. case_bool_decide; [apply NewReader_registered|apply NewReaderSigned_registered]. Qed.

End resume.

(** C13: the installers that are made after a restart are those the artifact was read with.  If [ReadHeaders] gave
    installers, then [CreateInstallersFromList] with their types, on any later state in which the update modules
    are still there, gives the same installers; and whatever has become of the modules, for up to 10000 types it
    gives, in order, an installer of each type. *)
Theorem CreateInstallersFromList_resumes `{Os D} `{ScriptOs D} `{ModuleOs D} `{AReaderLaws D Art Reader} `{Pki Verifier}
    (art : Art) (dt : string) (keys : list (string * string)) (scrDir : string) (inst : AllModules)
    (mf : ModuleInstallerFactory) (d d' later : D) (i : Reader) (installers : list UpdateStorer)
    (Hmodules : all_Modules inst = Some mf)
    (Hread : ReadHeaders art dt keys scrDir inst d = (Ok (i, installers), d')) :
  ((forall t, t ∈ GetModuleTypes mf d -> t ∈ GetModuleTypes mf later) ->
   CreateInstallersFromList inst (GetType <$> installers) later = Ok installers) /\
  (forall types, Z.of_nat (length types) <= 10000 ->
   exists l, CreateInstallersFromList inst types later = Ok l /\ GetType <$> l = types).
Proof.
  split.
  - intros Ht. destruct (ReadHeaders_ok _ _ _ _ _ _ _ _ Hread) as
      (ar & ar' & d2 & d3 & storers & Hreg & _ & Ha & Hst & Hlen & Hout).
    injection Hout as <- ->. apply registerHandlers_ok in Hreg as [_ Hreg].
    rewrite new_reader_registered in Hreg. cbn in Hreg.
    rewrite ReadArtifactHeaders_parts in Ha. apply bind_ok in Ha as ([] & d4 & _ & Ha).
    injection Ha as Ha _.
    unfold CreateInstallersFromList. rewrite Hmodules.
    destruct storers as [|us [|]]; [done| |cbn in Hlen; lia].
    unfold getInstallerList. cbn [List.filter]. destruct (PayloadUpdatePerformer us) eqn:Hp; [|done].
    destruct (storers_made ar i [us] 0 us Ha Hst eq_refl Hp) as (h & Hh & Hpr). rewrite Hreg in Hh.
    destruct (create_installer_again inst mf d _ h 0 us Hmodules Hh Hpr Ht) as [_ Hc].
    cbn [fmap list_fmap create_installers]. rewrite Hc. unfold getInstallerList. cbn [List.filter]. by rewrite Hp.
  - intros types Hl. unfold CreateInstallersFromList. rewrite Hmodules.
    destruct (create_installers_types inst mf (GetModuleTypes mf later) types 0) as (l & -> & Hty & Hf); [lia..|].
    exists l. by rewrite Hf.
Qed.

(** * A reader of artifacts and a run of Install *)

(** ** A reader *)

(** An artifact: what is reported of it, the types of its payloads and its
    format's version. *)
Record SimArtifact := mkArt {
  art_parts : list HeaderPart;
  art_types : list string;
  art_version : Z
}.

Record SimReader := mkReader {
  r_art : SimArtifact;
  r_signed : bool;
  r_handlers : list Handler;
  r_storers : list UpdateStorer
}.

Definition find_handler (type : string) (l : list Handler) : option Handler :=
  List.find (fun h => bool_decide (handles h = type)) l.

Fixpoint make_storers (handlers : list Handler) (i : Z) (types : list string) : result (list UpdateStorer) :=
  match types with
  | [] => Ok []
  | t :: types =>
      match (if bool_decide (t = EmptyString) then Ok EmptyPayload
             else match find_handler t handlers with
                  | Some h => producer h t i
                  | None => Err (EText "reader: unknown payload type")
                  end) with
      | Err err => Err err
      | Ok us =>
          match make_storers handlers (i + 1) types with
          | Err err => Err err
          | Ok l => Ok (us :: l)
          end
      end
  end.

Definition sim_parts (r : SimReader) : list HeaderPart :=
  if r_signed r then
    match art_parts (r_art r) with SignaturePart m s :: parts => SignaturePart m s :: parts | _ => [] end
  else art_parts (r_art r).

Definition sim_after (r : SimReader) : result SimReader :=
  if r_signed r && bool_decide (sim_parts r = []) then Err (EText "reader: expecting signed artifact")
  else
    match make_storers (r_handlers r) 0 (art_types (r_art r)) with
    | Err err => Err err
    | Ok l => Ok (mkReader (r_art r) (r_signed r) (r_handlers r) l)
    end.

Definition sim_register (h : Handler) (r : SimReader) : result SimReader :=
  if find_handler (handles h) (r_handlers r) then Err (EText "reader: handler already registered")
  else Ok (mkReader (r_art r) (r_signed r) (r_handlers r ++ [h]) (r_storers r)).

#[export] Instance sim_reader : AReader SimOs SimArtifact SimReader := {
  NewReader a := mkReader a false [] [];
  NewReaderSigned a := mkReader a true [] [];
  RegisterHandler := sim_register;
  ReadArtifactHeaders cfg r :=
    Os.for_each (report cfg) (sim_parts r) ≫= fun _ => asks (fun _ => sim_after r);
  GetInfoVersion r := art_version (r_art r);
  GetUpdateStorers r := Ok (r_storers r);
  ReadArtifactData _ := mret ()
}.

Lemma make_storers_made handlers types l i k us : make_storers handlers k types = Ok l ->
  l !! i = Some us -> PayloadUpdatePerformer us = true ->
  exists h, h ∈ handlers /\ producer h (handles h) (k + Z.of_nat i) = Ok us.
Proof.
  revert l i k. induction types as [|t types IH]; intros l i k; cbn [make_storers].
  - by intros [= <-].
  - destruct (if bool_decide (t = EmptyString) then _ else _) as [us0|] eqn:Hus; [|done].
    destruct (make_storers handlers (k + 1) types) as [l'|] eqn:Hl; [|done].
    intros [= <-] Hi Hp. destruct i as [|i].
    + injection Hi as ->. case_bool_decide; [by injection Hus as <-|].
      destruct (find_handler t handlers) as [h|] eqn:Hf; [|done].
      apply List.find_some in Hf as [Hin Ht]. apply bool_decide_eq_true in Ht.
      exists h. rewrite list_elem_of_In. rewrite Z.add_0_r, Ht. done.
    + destruct (IH l' i (k + 1) Hl Hi Hp) as (h & Hh & Hpr). exists h. split; [done|].
      by replace (k + Z.of_nat (S i)) with (k + 1 + Z.of_nat i) by lia.
Qed.

#[export] Instance sim_reader_laws : AReaderLaws SimOs SimArtifact SimReader.
Proof.
  refine {| must_be_signed := r_signed; registered := r_handlers; header_parts := sim_parts; after_headers := sim_after |}.
  - done.
  - done.
  - done.
  - intros h r r'. cbn. unfold sim_register. destruct (find_handler _ _); by intros [= <-].
  - intros h r r'. cbn. unfold sim_register. destruct (find_handler _ _); by intros [= <-].
  - done.
  - intros r Hs. unfold sim_after, sim_parts. rewrite Hs.
    destruct (art_parts (r_art r)) as [|[]]; cbn; eauto.
  - intros r r' storers i us. unfold sim_after. destruct (_ && _); [done|].
    destruct (make_storers _ _ _) as [l|] eqn:Hl; [|done]. intros [= <-] [= <-] Hi Hp.
    exact (make_storers_made _ _ _ _ 0 _ Hl Hi Hp).
Defined.

(** Signatures that are the key and the message. *)
#[export] Instance sim_pki : Pki string := {
  NewPKIVerifier data := if HasPrefix data "PUBLIC " then Ok data else Err (EText "invalid key");
  Verify key message sig := if bool_decide (sig = key +:+ message) then None else Some (EText "crypto/rsa: verification error")
}.

(** ** A device *)

Definition sim_device : SimOs := {|
  sim_files := ∅; sim_devices := ∅; sim_links := ∅; sim_writes := []; sim_run := ∅
|}.

Definition all_modules : AllModules :=
  mkAll true (Some (NewModuleInstallerFactory "/usr/share/modules" "/var/lib/modules" 0)).

Definition trusted : list (string * string) := [("/etc/broken.pem", "nonsense"); ("/etc/key.pem", "PUBLIC 1 ")].

Definition deb_artifact (sig : string) : SimArtifact :=
  mkArt [SignaturePart "manifest" sig; DevicesPart ["raspberrypi"; "beaglebone"];
         ScriptPart "#!/bin/sh" "ArtifactInstall_Enter_00"] ["deb"] 3.

Definition deb_installer : UpdateStorer :=
  ModuleStorer (mkModule "/var/lib/modules" "/usr/share/modules/deb" 14400 0 "deb" false).

Definition deb_reader : SimReader :=
  mkReader (deb_artifact "PUBLIC 1 manifest") true
    [rootfs_handler; module_handler (NewModuleInstallerFactory "/usr/share/modules" "/var/lib/modules" 0) "deb"]
    [deb_installer].

Definition after_deb : SimOs := {|
  sim_files := {["/scripts/ArtifactInstall_Enter_00" := "#!/bin/sh"; "/scripts/version" := "3"]};
  sim_devices := ∅; sim_links := ∅; sim_writes := []; sim_run := ∅
|}.

Notation install_deb sig dt := (Install (Reader:=SimReader) (deb_artifact sig) dt trusted "/scripts" all_modules sim_device).

(** Signed with the second key: installed, the script stored. *)
Example signed_is_installed :
  (install_deb "PUBLIC 1 manifest" "beaglebone").1 = ([deb_installer], None) /\
  files (install_deb "PUBLIC 1 manifest" "beaglebone").2 = sim_files after_deb.
Proof. vm_compute. by split. Qed.

(** Signed with another key, or for another device. *)
Example others_are_not :
  (install_deb "PUBLIC 2 manifest" "beaglebone").1 =
    ([], Some (EWrap "installer: failed to read Artifact" errNotVerified)) /\
  (install_deb "PUBLIC 1 manifest" "qemu").1 =
    ([], Some (EWrap "installer: failed to read Artifact" (errNotCompatible "qemu"))).
Proof. vm_compute. by split. Qed.

Lemma Install_authenticates_witness :
  exists err, (install_deb "PUBLIC 2 manifest" "beaglebone") = (([], Some err), sim_device) /\
    ~ signed_by trusted "manifest" "PUBLIC 2 manifest" /\
    (trusted <> [] ->
     (exists ar message sig,
        registerHandlers (NewReaderSigned (Reader:=SimReader) (deb_artifact "PUBLIC 2 manifest")) all_modules sim_device = Ok ar /\
        SignaturePart message sig ∈ header_parts ar /\ signed_by trusted message sig) \/
     ([] = ([] : list UpdateStorer) /\ is_Some (Some err) /\
      (sim_device = sim_device \/ sim_device = (Clear (NewStore "/scripts") sim_device).2))).
Proof.
  eexists. assert (Hrun : install_deb "PUBLIC 2 manifest" "beaglebone" = (([], Some
    (EWrap "installer: failed to read Artifact" errNotVerified)), sim_device)) by (vm_compute; reflexivity).
  split; [exact Hrun|]. split.
  - intros Hs%verified_spec. revert Hs. vm_compute. discriminate.
  - apply (Install_authenticates (Reader:=SimReader) (deb_artifact "PUBLIC 2 manifest") "beaglebone" trusted "/scripts"
      all_modules sim_device sim_device [] _ Hrun).
Defined.

Lemma CreateInstallersFromList_resumes_witness :
  exists r d', ReadHeaders (deb_artifact "PUBLIC 1 manifest") "beaglebone" trusted "/scripts" all_modules sim_device =
      (Ok (r, [deb_installer]), d') /\
    CreateInstallersFromList all_modules ["deb"] sim_device = Ok [deb_installer].
Proof.
  exists deb_reader. eexists.
  assert (Hr : exists d', ReadHeaders (deb_artifact "PUBLIC 1 manifest") "beaglebone" trusted "/scripts" all_modules sim_device =
    (Ok (deb_reader, [deb_installer]), d')) by (eexists; vm_compute; reflexivity).
  split; [vm_compute; reflexivity|]. destruct Hr as [d' Hr].
  apply (CreateInstallersFromList_resumes (Reader:=SimReader) (deb_artifact "PUBLIC 1 manifest") "beaglebone" trusted
    "/scripts" all_modules _ sim_device d' sim_device deb_reader [deb_installer] eq_refl Hr). auto.
Defined.
