(* ===== verification/ReauthClient.v ===== *)
(** * ReauthClient: requests that carry their authorization

    The clients for the server's API: [ReauthorizingClient] of client/client.go,
    which fetches a new token when a request is refused, and [SoCMonitoringClient]
    of client/soc_client.go, which reads its key again when a request is refused.
    Sending a request over HTTP and parsing an URL are classes. *)

From S2P Require Import Prelude Text Os.
From Stdlib Require Import Ascii.

Open Scope Z_scope.

(** ** Requests *)

Record URL := mkURL { Scheme : string; Host : string; Path : string; RawQuery : string }.

Notation Headers := (gmap string (list string)).

(** [GetBody] is nil for a request without a body. *)
Record Request := mkRequest {
  Method : string;
  ReqURL : URL;
  Header : Headers;
  GetBody : option (result string)
}.

(** A request as it is sent: its body is there to be read. *)
Record SentRequest := mkSent {
  sent_method : string;
  sent_url : URL;
  sent_header : Headers;
  sent_body : option string
}.

Record Response := mkResponse { StatusCode : Z; RequestId : string; Body : result string }.

Definition StatusOK : Z := 200.
Definition StatusUnauthorized : Z := 401.
Definition StatusForbidden : Z := 403.

(** http.Client.Do and net/url.Parse. *)
Class Transport (D : Type) := {
  RoundTrip : SentRequest -> IO D Response;
  ParseURL : string -> result URL
}.

Definition header_set (k v : string) (h : Headers) : Headers := <[k := [v]]> h.

Definition slash (c : ascii) : bool := bool_decide (c = "/"%char).

(** The URL of a request on the server: [strings.TrimRight] and [TrimLeft] of
    slashes around the slash between. *)
Definition on_server (server url : URL) : URL :=
  mkURL (Scheme server) (Host server)
    (TrimRightFunc slash (Path server) +:+ "/" +:+ TrimLeftFunc slash (Path url)) (RawQuery url).

Definition get_body (req : Request) : result (option string) :=
  match GetBody req with
  | None => Ok None
  | Some (Ok body) => Ok (Some body)
  | Some (Err err) => Err (EWrap "Unable to reconstruct HTTP request body" err)
  end.

(** ** The client that fetches a new token *)

Definition ErrClientUnauthorized : error := EText "Client is unauthorized".

(** The client, the headers of the request under way, which the requests made of
    it share, and the environment. *)
Record Reauth (D : Type) := mkReauth {
  auth : string;
  serverURL : string;
  shared : Headers;
  env : D
}.
Arguments mkReauth {D}.
Arguments auth {D}.
Arguments serverURL {D}.
Arguments shared {D}.
Arguments env {D}.

Section reauthorizing.
Context `{Transport D}.
(** The function that fetches a token and the server it is for ([Mender.Authorize]). *)
Variable revoke : IO D (string * string).

Definition on_env {A} (m : IO D A) : IO (Reauth D) A := fun s =>
  let '(r, d) := m (env s) in (r, mkReauth (auth s) (serverURL s) (shared s) d).

(** Sets the header in the map that is shared with the request given. *)
Definition reconstructRequest (req : Request) : IO (Reauth D) SentRequest := fun s =>
  if bool_decide (serverURL s = EmptyString) then (Err ErrClientUnauthorized, s)
  else
    match ParseURL (serverURL s) with
    | Err err => (Err (EWrap "Could not parse ServerURL from auth manager" err), s)
    | Ok server =>
        match get_body req with
        | Err err => (Err err, s)
        | Ok body =>
            let header := header_set "Authorization" ("Bearer " +:+ auth s) (shared s) in
            (Ok (mkSent (Method req) (on_server server (ReqURL req)) header body),
             mkReauth (auth s) (serverURL s) header (env s))
        end
    end.

Definition set_authorization (jwt server : string) : IO (Reauth D) unit := fun s =>
  (Ok (), mkReauth jwt server (shared s) (env s)).

Definition refused (r : result Response) : bool :=
  match r with Err _ => true | Ok r => StatusCode r =? StatusUnauthorized end.

(** The result of a pass of the loop: return, or once more. *)
Inductive Pass : Type := Return (r : result Response) | Again.

(** What follows when the request was sent, or the client had no server to send it to. *)
Definition answered (fetchedNewToken : bool) (r : result Response) : IO (Reauth D) Pass :=
  if negb fetchedNewToken && refused r then
    t ← try (on_env revoke);
    match t with
    | Ok (jwt, server) => set_authorization jwt server ≫= fun _ => mret Again
    | Err e => mret (Return (Err e))
    end
  else mret (Return r).

Definition do_pass (req : Request) (fetchedNewToken : bool) : IO (Reauth D) Pass :=
  newReq ← try (reconstructRequest req);
  match newReq with
  | Ok newReq => r ← try (on_env (RoundTrip newReq)); answered fetchedNewToken r
  | Err err =>
      if bool_decide (err = ErrClientUnauthorized) then answered fetchedNewToken (Err err)
      else mret (Return (Err err))
  end.

(** The loop; [None] when the fuel does not suffice. *)
Fixpoint do_loop (fuel : nat) (req : Request) (fetchedNewToken : bool) (s : Reauth D) :
    option (result Response) * Reauth D :=
  match fuel with
  | O => (None, s)
  | S fuel =>
      match do_pass req fetchedNewToken s with
      | (Ok (Return r), s) => (Some r, s)
      | (Ok Again, s) => do_loop fuel req true s
      | (Err e, s) => (Some (Err e), s)
      end
  end.

Definition Reauth_Do (fuel : nat) (req : Request) (s : Reauth D) : option (result Response) * Reauth D :=
  do_loop fuel req false (mkReauth (auth s) (serverURL s) (Header req) (env s)).

Definition Reauth_ClearAuthorization : IO (Reauth D) unit := set_authorization EmptyString EmptyString.

End reauthorizing.

(** ** The client that reads its key again *)

Module Soc.

(** [keyReloadFn] is nil when there is nothing to read; [lastReloadAttempt] is
    the zero time before the first. *)
Record SoCMonitoringClient (D : Type) := mkSoc {
  apiKey : string;
  deviceID : string;
  soc_serverURL : string;
  keyReloadFn : option (IO D string);
  lastReloadAttempt : option Z;
  reloadMinInterval : Z;
  world : D
}.
Arguments mkSoc {D}.
Arguments apiKey {D}.
Arguments deviceID {D}.
Arguments soc_serverURL {D}.
Arguments keyReloadFn {D}.
Arguments lastReloadAttempt {D}.
Arguments reloadMinInterval {D}.
Arguments world {D}.

(** The clock (nowFn), in nanoseconds. *)
Class Clock (D : Type) := now : D -> Z * D.

Section soc.
Context `{Transport D} `{Clock D}.

Definition Second : Z := 1000000000.

Definition NewSoCMonitoringClient (key device server : string) (reload : option (IO D string)) (d : D) :
    SoCMonitoringClient D :=
  mkSoc key device server reload None (10 * Second) d.

Definition set_world (d : D) (c : SoCMonitoringClient D) : SoCMonitoringClient D :=
  mkSoc (apiKey c) (deviceID c) (soc_serverURL c) (keyReloadFn c) (lastReloadAttempt c) (reloadMinInterval c) d.

(** The headers are copied. *)
Definition soc_reconstructRequest (req : Request) (c : SoCMonitoringClient D) : result SentRequest :=
  if bool_decide (soc_serverURL c = EmptyString) then Err (EText "Server URL not configured")
  else
    match ParseURL (soc_serverURL c) with
    | Err err => Err (EWrap "Could not parse ServerURL" err)
    | Ok server =>
        match get_body req with
        | Err err => Err err
        | Ok body =>
            Ok (mkSent (Method req) (on_server server (ReqURL req))
                  (delete "Authorization" (header_set "X-Device-Id" (deviceID c)
                     (header_set "X-Api-Key" (apiKey c) (Header req)))) body)
        end
    end.

Definition doRequest (req : Request) : IO (SoCMonitoringClient D) Response := fun c =>
  match soc_reconstructRequest req c with
  | Err err => (Err err, c)
  | Ok newReq => let '(r, d) := RoundTrip newReq (world c) in (r, set_world d c)
  end.

(** Whether a new key was adopted. *)
Definition reloadAPIKeyIfChanged : SoCMonitoringClient D -> bool * SoCMonitoringClient D := fun c =>
  match keyReloadFn c with
  | None => (false, c)
  | Some reload =>
      let '(t, d) := now (world c) in
      if match lastReloadAttempt c with Some last => t - last <? reloadMinInterval c | None => false end
      then (false, set_world d c)
      else
        let '(r, d) := reload d in
        let c := mkSoc (apiKey c) (deviceID c) (soc_serverURL c) (keyReloadFn c) (Some t) (reloadMinInterval c) d in
        match r with
        | Err _ => (false, c)
        | Ok newKey =>
            if bool_decide (newKey = EmptyString) || bool_decide (newKey = apiKey c) then (false, c)
            else (true, mkSoc newKey (deviceID c) (soc_serverURL c) (keyReloadFn c) (lastReloadAttempt c)
                          (reloadMinInterval c) d)
        end
  end.

Definition errAuthentication : error := EText "Authentication failed: invalid API key or device ID".
Definition errAuthorization : error := EText "Authorization failed: API key lacks required permissions".

(** The end of [Do]: a refusal is an error, which comes with the response. *)
Definition surface (resp : Response) : option Response * option error :=
  if StatusCode resp =? StatusUnauthorized then (Some resp, Some errAuthentication)
  else if StatusCode resp =? StatusForbidden then (Some resp, Some errAuthorization)
  else (Some resp, None).

Definition Soc_Do (req : Request) (c : SoCMonitoringClient D) :
    (option Response * option error) * SoCMonitoringClient D :=
  match doRequest req c with
  | (Err err, c) => ((None, Some err), c)
  | (Ok resp, c) =>
      let '(again, c) := (if StatusCode resp =? StatusUnauthorized then reloadAPIKeyIfChanged c else (false, c)) in
      if again : bool then
        match doRequest req c with
        | (Err err, c) => ((None, Some err), c)
        | (Ok resp, c) => (surface resp, c)
        end
      else (surface resp, c)
  end.

Definition UpdateCredentials (key device : string) (c : SoCMonitoringClient D) : SoCMonitoringClient D :=
  mkSoc key device (soc_serverURL c) (keyReloadFn c) (lastReloadAttempt c) (reloadMinInterval c) (world c).

Definition SetServerURL (server : string) (c : SoCMonitoringClient D) : SoCMonitoringClient D :=
  mkSoc (apiKey c) (deviceID c) server (keyReloadFn c) (lastReloadAttempt c) (reloadMinInterval c) (world c).

End soc.
End Soc.
