(* ===== verification/ReauthClientSpec.v ===== *)
(** * ReauthClientSpec: how often and with what the server is asked

    Theorems about the two clients of [ReauthClient], for every transport: what
    happens on the network is recorded by a transport around it. *)

From S2P Require Import Prelude Text Os ReauthClient.
Import Soc.

Open Scope Z_scope.

(** ** Recording what happens *)

Inductive NetEvent : Type :=
  | Sent (q : SentRequest) (r : result Response)
  | Fetched (token : result (string * string))
  | ClockRead (t : Z)
  | KeyRead (key : result string).

Record Logged (D : Type) := mkLogged { log : list NetEvent; inner : D }.
Arguments mkLogged {D}.
Arguments log {D}.
Arguments inner {D}.

Section logged.
Context {D : Type}.

(** [m], followed by the event that its result is. *)
Definition record {A} (event : result A -> NetEvent) (m : IO D A) : IO (Logged D) A := fun s =>
  let '(r, d) := m (inner s) in (r, mkLogged (log s ++ [event r]) d).

#[export] Instance Logged_Transport `{Transport D} : Transport (Logged D) := {
  RoundTrip q := record (Sent q) (RoundTrip q);
  ParseURL := ParseURL
}.

#[export] Instance Logged_Clock `{Clock D} : Clock (Logged D) := fun s =>
  let '(t, d) := now (inner s) in (t, mkLogged (log s ++ [ClockRead t]) d).

Lemma record_run {A} (event : result A -> NetEvent) (m : IO D A) s :
  exists r d, record event m s = (r, mkLogged (log s ++ [event r]) d).
Proof. unfold record. destruct (m (inner s)) as [r d]. by eexists _, _. Qed.

End logged.

(** ** The client that fetches a new token *)

Section reauthorizing.
Context `{Transport D}.
Implicit Types s : Reauth (Logged D).

(** The request [req] is sent to the server of the credentials with their token,
    and answered; without a server nothing is sent. *)
Inductive is_asked (a url : string) (req : Request) : list NetEvent -> result Response -> Prop :=
  | asked_server server body r : url <> EmptyString -> ParseURL url = Ok server -> get_body req = Ok body ->
      is_asked a url req [Sent (mkSent (Method req) (on_server server (ReqURL req))
        (header_set "Authorization" ("Bearer " +:+ a) (Header req)) body) r] r
  | asked_nobody : url = EmptyString -> is_asked a url req [] (Err ErrClientUnauthorized).

(** There is no request to send: the URL of the server or the body is unusable. *)
Inductive cannot_ask (url : string) (req : Request) : error -> Prop :=
  | bad_server err : url <> EmptyString -> ParseURL url = Err err ->
      cannot_ask url req (EWrap "Could not parse ServerURL from auth manager" err)
  | bad_body server err : url <> EmptyString -> ParseURL url = Ok server -> get_body req = Err err ->
      cannot_ask url req err.

(** What a call does: from the credentials [a] and [url] to [a'] and [url']. *)
Inductive called (a url : string) (req : Request) :
    list NetEvent -> result Response -> string -> string -> Prop :=
  | called_unusable err : cannot_ask url req err -> called a url req [] (Err err) a url
  | called_accepted l r : is_asked a url req l r -> refused r = false -> called a url req l r a url
  | called_unauthorized l r err : is_asked a url req l r -> refused r = true ->
      called a url req (l ++ [Fetched (Err err)]) (Err err) a url
  | called_again l r a' url' l' r' : is_asked a url req l r -> refused r = true -> is_asked a' url' req l' r' ->
      called a url req (l ++ Fetched (Ok (a', url')) :: l') r' a' url'
  | called_again_unusable l r a' url' err : is_asked a url req l r -> refused r = true -> cannot_ask url' req err ->
      called a url req (l ++ [Fetched (Ok (a', url'))]) (Err err) a' url'.

Definition is_sent (e : NetEvent) : bool := match e with Sent _ _ => true | _ => false end.
Definition is_fetched (e : NetEvent) : bool := match e with Fetched _ => true | _ => false end.
Definition count (p : NetEvent -> bool) (l : list NetEvent) : nat := length (List.filter p l).

Lemma count_app p l k : count p (l ++ k) = (count p l + count p k)%nat.
Proof. unfold count. by rewrite List.filter_app, length_app. Qed.

Lemma asked_counts a url req l r : is_asked a url req l r -> count is_fetched l = 0%nat /\ (count is_sent l <= 1)%nat.
Proof. destruct 1; cbn; lia. Qed.

Lemma called_counts a url req l r a' url' : called a url req l r a' url' ->
  (count is_sent l <= 2)%nat /\ (count is_fetched l <= 1)%nat.
Proof.
  pose proof asked_counts as Hc. destruct 1 as [err _|l r Ha _|l r err Ha _|l r a' url' l' r' Ha _ Ha'|l r a' url' err Ha _ _];
    rewrite ?count_app; try (pose proof (Hc _ _ _ _ _ Ha)); try (cbn; lia).
  change (Fetched (Ok (a', url')) :: l') with ([Fetched (Ok (a', url'))] ++ l'). rewrite !count_app. pose proof (Hc _ _ _ _ _ Ha'). cbn. lia.
Qed.

(** The header of the request was set by no more than the client itself. *)
Definition own_header (req : Request) (h : Headers) : Prop :=
  forall v, header_set "Authorization" v h = header_set "Authorization" v (Header req).

(** One pass, up to where the answer is looked at, if there is one to look at. *)
Lemma do_pass_asks revoke req fetched s : own_header req (shared s) -> exists r s1 l,
  (do_pass revoke req fetched s = answered revoke fetched r s1 /\ is_asked (auth s) (serverURL s) req l r \/
   exists err, do_pass revoke req fetched s = (Ok (Return (Err err)), s1) /\ l = [] /\
     cannot_ask (serverURL s) req err) /\
  log (env s1) = log (env s) ++ l /\ auth s1 = auth s /\ serverURL s1 = serverURL s /\
  own_header req (shared s1).
Proof.
  intros Hh. unfold do_pass, mbind, IO_bind, try, reconstructRequest. case_bool_decide as Hurl.
  { rewrite bool_decide_eq_true_2 by done. exists (Err ErrClientUnauthorized), s, [].
    rewrite app_nil_r. split_and!; try done. left. split; [done|]. by constructor. }
  destruct (ParseURL (serverURL s)) as [server|err] eqn:Hp.
  2: { rewrite bool_decide_eq_false_2 by done. exists (Err err), s, [].
    rewrite app_nil_r. split_and!; try done. right. eexists. split; [done|]. split; [done|]. by constructor. }
  destruct (get_body req) as [body|err] eqn:Hb.
  2: { assert (err <> ErrClientUnauthorized) as Hne.
       { unfold get_body in Hb. destruct (GetBody req) as [[]|]; try discriminate Hb; by injection Hb as <-. }
       rewrite bool_decide_eq_false_2 by done. exists (Err err), s, [].
       rewrite app_nil_r. split_and!; try done. right. eexists. split; [done|]. split; [done|].
       by apply (bad_body _ _ server). }
  unfold on_env. cbn [env auth serverURL shared RoundTrip Logged_Transport]. rewrite (Hh ("Bearer " +:+ auth s)).
  match goal with |- context [record ?f ?m (env s)] => destruct (record_run f m (env s)) as (r & d & ->) end.
  eexists r, _, [_]. split; [left; split; [reflexivity|by constructor]|]. split_and!; try reflexivity.
  intros v. cbn. unfold header_set. by rewrite insert_insert_eq.
Qed.

(** A pass that looks at the answer: it returns it, or fetches. *)
Lemma answered_fetches revoke r s : exists (p : Pass) s' (l : list NetEvent),
  answered (record Fetched revoke) false r s = (Ok p, s') /\ log (env s') = log (env s) ++ l /\ shared s' = shared s /\
  ((p = Return r /\ refused r = false /\ l = [] /\ auth s' = auth s /\ serverURL s' = serverURL s) \/
   (exists err, p = Return (Err err) /\ refused r = true /\ l = [Fetched (Err err)] /\
      auth s' = auth s /\ serverURL s' = serverURL s) \/
   (p = Again /\ refused r = true /\ l = [Fetched (Ok (auth s', serverURL s'))])).
Proof.
  unfold answered. cbn [negb andb]. destruct (refused r) eqn:Hr.
  - unfold mbind, IO_bind, try, on_env.
    destruct (record_run Fetched revoke (env s)) as ([[jwt server]|err] & d & ->); cbn.
    + eexists Again, _, [_]. split; [done|]. split; [done|]. split; [done|]. right. right. done.
    + eexists (Return (Err err)), _, [_]. split; [done|]. split; [done|]. split; [done|]. right. left. by eexists.
  - eexists (Return r), s, []. rewrite app_nil_r. split; [done|]. split; [done|]. split; [done|]. by left.
Qed.

End reauthorizing.

(** C39: a refused request is sent once more, with a new token.  For every transport, every function that fetches
    tokens and every request, and whatever fuel above two, [Do] returns, and did one of these ([called]):
    - the URL of its server or the body is unusable: the error is returned, nothing is sent;
    - the request, sent to the server of the client's credentials with their token, was answered with another status
      than 401: that answer is returned;
    - it was answered with 401 or with an error, or there is no server to send it to, and no new credentials could
      be fetched: their error is returned;
    - it was so, and credentials were fetched: they are the client's from then on, the same request is sent to their
      server with their token, and whatever comes back is returned (nothing is sent when they have no server or an
      unusable URL).
    So there are at most two requests and one fetch. *)
Theorem Reauth_Do_spec `{Transport D} (revoke : IO D (string * string)) (req : Request) (s : Reauth (Logged D)) :
  exists r s' l, (forall fuel, Reauth_Do (record Fetched revoke) (2 + fuel) req s = (Some r, s')) /\
    log (env s') = log (env s) ++ l /\
    called (auth s) (serverURL s) req l r (auth s') (serverURL s') /\
    (count is_sent l <= 2)%nat /\ (count is_fetched l <= 1)%nat.
Proof.
  set (s0 := mkReauth (auth s) (serverURL s) (Header req) (env s)).
  assert (exists r s' l, (forall fuel, Reauth_Do (record Fetched revoke) (2 + fuel) req s = (Some r, s')) /\
    log (env s') = log (env s) ++ l /\ called (auth s) (serverURL s) req l r (auth s') (serverURL s'))
    as (r & s' & l & Hrun & Hlog & Hcalled).
  2: { exists r, s', l. split_and!; [done..| |]; by apply (called_counts _ _ _ _ _ _ _ Hcalled). }
  unfold Reauth_Do. fold s0. cbn [do_loop Nat.add].
  destruct (do_pass_asks (record Fetched revoke) req false s0)
    as (r & s1 & l & [[Hpass Hasks]|(err & Hpass & -> & Hbad)] & Hlog & Ha & Hu & Hh); [done| |].
  2: { exists (Err err), s1, []. rewrite Hpass, Hlog, Ha, Hu. split_and!; [done..|]. by constructor. }
  destruct (answered_fetches revoke r s1) as (p & s2 & l2 & Hans & Hlog2 & Hsh & Hcases). rewrite Hans in Hpass.
  rewrite Hpass. destruct Hcases as [(-> & Href & -> & Ha2 & Hu2)|[(err & -> & Href & -> & Ha2 & Hu2)|(-> & Href & ->)]].
  - exists r, s2, l. rewrite Hlog2, Hlog, app_nil_r, Ha2, Hu2, Ha, Hu. split_and!; [done..|]. by constructor.
  - exists (Err err), s2, (l ++ [Fetched (Err err)]). rewrite Hlog2, Hlog, (assoc_L (++)), Ha2, Hu2, Ha, Hu.
    split_and!; [done..|]. by eapply called_unauthorized.
  - rewrite <- Hsh in Hh.
    destruct (do_pass_asks (record Fetched revoke) req true s2 Hh)
      as (r2 & s3 & l3 & [[Hp3 Hasks3]|(err & Hp3 & -> & Hbad)] & Hlog3 & Ha3 & Hu3 & _).
    + exists r2, s3, (l ++ Fetched (Ok (auth s2, serverURL s2)) :: l3). rewrite Hp3.
      split; [done|]. rewrite Hlog3, Hlog2, Hlog, <- !(assoc_L (++)), Ha3, Hu3. split; [done|].
      by eapply called_again.
    + exists (Err err), s3, (l ++ [Fetched (Ok (auth s2, serverURL s2))]). rewrite Hp3.
      split; [done|]. rewrite Hlog3, Hlog2, Hlog, app_nil_r, <- (assoc_L (++)), Ha3, Hu3. split; [done|].
      by eapply called_again_unusable.
Qed.

(** ** The client that reads its key again *)

Section soc.
Context `{Transport D} `{Clock D}.
Implicit Types c : SoCMonitoringClient (Logged D).

(** The reading of the key, recorded. *)
Definition recorded_reload (c : SoCMonitoringClient (Logged D)) : Prop :=
  match keyReloadFn c with
  | None => True
  | Some reload => exists m : IO D string, reload = record KeyRead m
  end.

(** The times at which the key was read: the clock is asked just before. *)
Fixpoint read_times (l : list NetEvent) : list Z :=
  match l with
  | ClockRead t :: l => match l with KeyRead _ :: _ => t :: read_times l | _ => read_times l end
  | _ :: l => read_times l
  | [] => []
  end.

(** Each time is at least [gap] after the one before; [last] is the one before the first. *)
Fixpoint spaced (gap : Z) (last : option Z) (l : list Z) : Prop :=
  match l with
  | [] => True
  | t :: l => match last with Some t0 => gap <= t - t0 | None => True end /\ spaced gap (Some t) l
  end.

Definition is_read (e : NetEvent) : bool := match e with KeyRead _ => true | _ => false end.

(** A request carries key and device, and no token. *)
Definition carries (key device : string) (q : SentRequest) : Prop :=
  sent_header q !! "X-Api-Key" = Some [key] /\ sent_header q !! "X-Device-Id" = Some [device] /\
  sent_header q !! "Authorization" = None.

(** Each request carries the key; one that is read and not empty replaces it. *)
Fixpoint keyed (key device : string) (l : list NetEvent) : Prop :=
  match l with
  | [] => True
  | Sent q _ :: l => carries key device q /\ keyed key device l
  | KeyRead (Ok new) :: l => keyed (if bool_decide (new = EmptyString) then key else new) device l
  | _ :: l => keyed key device l
  end.

(** The key after the events. *)
Fixpoint key_after (key : string) (l : list NetEvent) : string :=
  match l with
  | [] => key
  | KeyRead (Ok new) :: l => key_after (if bool_decide (new = EmptyString) then key else new) l
  | _ :: l => key_after key l
  end.

Lemma keyed_app key device l k : keyed key device l -> keyed (key_after key l) device k -> keyed key device (l ++ k).
Proof.
  revert key. induction l as [|[q r|t|t|[new|e]] l IH]; intros key; cbn; auto.
  intros [? ?] ?. auto.
Qed.

Lemma key_after_app key l k : key_after key (l ++ k) = key_after (key_after key l) k.
Proof. revert key. induction l as [|[q r|t|t|[new|e]] l IH]; intros key; cbn; auto. Qed.

Definition starts_with_read (l : list NetEvent) : bool := match l with KeyRead _ :: _ => true | _ => false end.

Lemma read_times_app l k : starts_with_read k = false -> read_times (l ++ k) = read_times l ++ read_times k.
Proof.
  intros Hk. induction l as [|e l IH]; [done|]. destruct e as [q a|t|t|r]; cbn [app read_times]; try done.
  destruct l as [|e' l']; cbn [app] in *.
  - by destruct k as [|[]].
  - destruct e'; try done. cbn [read_times] in *. by rewrite IH.
Qed.

Definition last_of (last : option Z) (l : list Z) : option Z := foldl (fun _ t => Some t) last l.

Lemma spaced_app gap last l k : spaced gap last l -> spaced gap (last_of last l) k -> spaced gap last (l ++ k).
Proof. revert last. induction l as [|t l IH]; intros last; [done|]. cbn. intros [? ?] ?. eauto. Qed.

(** What a piece of the run does to client and record. *)
Definition extends c c' (l : list NetEvent) : Prop :=
  log (world c') = log (world c) ++ l /\ keyReloadFn c' = keyReloadFn c /\
  reloadMinInterval c' = reloadMinInterval c /\ deviceID c' = deviceID c /\
  apiKey c' = key_after (apiKey c) l /\ keyed (apiKey c) (deviceID c) l /\
  lastReloadAttempt c' = last_of (lastReloadAttempt c) (read_times l) /\
  spaced (reloadMinInterval c) (lastReloadAttempt c) (read_times l) /\ starts_with_read l = false.

Lemma extends_refl c : extends c c [].
Proof. unfold extends. rewrite app_nil_r. by repeat split. Qed.

Lemma extends_trans c1 c2 c3 l k : extends c1 c2 l -> extends c2 c3 k -> extends c1 c3 (l ++ k).
Proof.
  intros (L1 & K1 & M1 & D1 & A1 & Y1 & T1 & S1 & B1) (L2 & K2 & M2 & D2 & A2 & Y2 & T2 & S2 & B2).
  unfold extends. rewrite L2, L1, K2, M2, D2, read_times_app, key_after_app by done.
  split; [by rewrite (assoc_L (++))|]. split; [done|]. split; [done|]. split; [done|].
  split; [by rewrite A2, A1|]. split; [apply keyed_app; [done|by rewrite <- A1, <- D1]|].
  split; [rewrite T2, T1; unfold last_of; by rewrite foldl_app|].
  split; [apply spaced_app; [done|by rewrite <- T1, <- M1]|].
  destruct l; [done|]. by destruct n.
Qed.

Lemma carries_request m u b key device h :
  carries key device (mkSent m u (delete "Authorization" (header_set "X-Device-Id" device (header_set "X-Api-Key" key h))) b).
Proof.
  unfold carries, header_set. cbn [sent_header]. split; [|split].
  - by rewrite lookup_delete_ne, lookup_insert_ne, lookup_insert_eq by done.
  - by rewrite lookup_delete_ne, lookup_insert_eq by done.
  - apply lookup_delete_eq.
Qed.

Lemma doRequest_extends req c : exists r c' l, doRequest req c = (r, c') /\ extends c c' l /\
  (count is_sent l <= 1)%nat /\ count is_read l = 0%nat.
Proof.
  assert (forall e : error, exists r c' l, (Err e : result Response, c) = (r, c') /\ extends c c' l /\
    (count is_sent l <= 1)%nat /\ count is_read l = 0%nat) as Hno.
  { intros e. eexists _, c, []. split; [done|]. split; [apply extends_refl|]. split; cbn; lia. }
  unfold doRequest, soc_reconstructRequest.
  case_bool_decide; [apply Hno|]. destruct (ParseURL (soc_serverURL c)) as [server|]; [|apply Hno].
  destruct (get_body req) as [body|]; [|apply Hno].
  cbn [RoundTrip Logged_Transport].
  match goal with |- context [record ?f ?m (world c)] =>
    destruct (record_run f m (world c)) as (r & d & ->); eexists r, _, [f r] end.
  split; [done|]. split; [|split].
  - split; [done|]. split; [done|]. split; [done|]. split; [done|]. split; [done|].
    split; [split; [apply carries_request|done]|]. done.
  - cbn. lia.
  - done.
Qed.

(** The key is read only when the time has come, and only a new one counts. *)
Lemma reload_extends c : recorded_reload c -> exists b c' l, reloadAPIKeyIfChanged c = (b, c') /\ extends c c' l /\
  count is_sent l = 0%nat /\ (count is_read l <= 1)%nat /\ (b = true -> count is_read l = 1%nat).
Proof.
  unfold recorded_reload, reloadAPIKeyIfChanged. intros Hr.
  destruct (keyReloadFn c) as [reload|] eqn:Hk.
  2: { exists false, c, []. split; [done|]. split; [apply extends_refl|]. repeat split; cbn; lia || done. }
  destruct Hr as [m ->]. unfold now at 1, Logged_Clock. destruct (now (inner (world c))) as [t d] eqn:Ht.
  destruct (match lastReloadAttempt c with Some last => t - last <? reloadMinInterval c | None => false end) eqn:Hl.
  - eexists false, _, [ClockRead t]. split; [done|]. split; [unfold extends; cbn; by repeat split|]. repeat split; cbn; lia || done.
  - assert (match lastReloadAttempt c with Some last => reloadMinInterval c <= t - last | None => True end) as Hgap.
    { destruct (lastReloadAttempt c); [|done]. by apply Z.ltb_ge. }
    match goal with |- context [record ?f m ?x] => destruct (record_run f m x) as (r & d' & ->) end.
    cbn [log apiKey]. rewrite <- (assoc_L (++)). cbn [app]. destruct r as [key|err].
    + destruct (bool_decide (key = EmptyString)) eqn:He; [|destruct (bool_decide (key = apiKey c)) eqn:Hs].
      * eexists _, _, [ClockRead t; KeyRead (Ok key)]. split; [done|]. split.
        { unfold extends. cbn -[bool_decide]. rewrite He. by repeat split. }
        repeat split; cbn; lia || done.
      * eexists _, _, [ClockRead t; KeyRead (Ok key)]. split; [done|]. split.
        { unfold extends. cbn -[bool_decide]. rewrite He. apply bool_decide_eq_true in Hs. by repeat split. }
        repeat split; cbn; lia || done.
      * eexists _, _, [ClockRead t; KeyRead (Ok key)]. split; [done|]. split.
        { unfold extends. cbn -[bool_decide]. rewrite He. by repeat split. }
        repeat split; cbn; lia || done.
    + eexists _, _, [ClockRead t; KeyRead (Err err)]. split; [done|]. split.
      { unfold extends. cbn. by repeat split. }
      repeat split; cbn; lia || done.
Qed.

End soc.

(** A refusal never looks like a success. *)
Definition no_silent_refusal (a : option Response * option error) : Prop :=
  match a with
  | (Some resp, None) => StatusCode resp <> StatusUnauthorized /\ StatusCode resp <> StatusForbidden
  | _ => True
  end.

Section soc_run.
Context `{Transport D} `{Clock D}.

Lemma surface_not_silent resp : no_silent_refusal (surface resp).
Proof.
  unfold surface. destruct (Z.eqb_spec (StatusCode resp) StatusUnauthorized); [done|].
  by destruct (Z.eqb_spec (StatusCode resp) StatusForbidden).
Qed.

Lemma Soc_Do_extends req (c : SoCMonitoringClient (Logged D)) : recorded_reload c ->
  exists a c' l, Soc_Do req c = (a, c') /\ extends c c' l /\ no_silent_refusal a /\
    (count is_read l <= 1)%nat /\ (count is_sent l <= 1 + count is_read l)%nat.
Proof.
  intros Hr. unfold Soc_Do.
  destruct (doRequest_extends req c) as (r & c1 & l1 & -> & E1 & S1 & R1).
  destruct r as [resp|err].
  2: { exists (None, Some err), c1, l1. split; [done|]. split; [done|]. split; [done|]. lia. }
  assert (recorded_reload c1) as Hr1 by (unfold recorded_reload; destruct E1 as (_ & -> & _); exact Hr).
  destruct (StatusCode resp =? StatusUnauthorized).
  2: { exists (surface resp), c1, l1. split; [done|]. split; [done|]. split; [apply surface_not_silent|]. lia. }
  destruct (reload_extends c1 Hr1) as (b & c2 & l2 & -> & E2 & S2 & R2 & B2).
  pose proof (extends_trans _ _ _ _ _ E1 E2) as E12. destruct b.
  - destruct (doRequest_extends req c2) as (r3 & c3 & l3 & -> & E3 & S3 & R3).
    pose proof (extends_trans _ _ _ _ _ E12 E3) as E123. specialize (B2 eq_refl).
    assert ((count is_read ((l1 ++ l2) ++ l3) <= 1)%nat /\
      (count is_sent ((l1 ++ l2) ++ l3) <= 1 + count is_read ((l1 ++ l2) ++ l3))%nat) by (rewrite !count_app; lia).
    destruct r3 as [resp3|err].
    + exists (surface resp3), c3, ((l1 ++ l2) ++ l3). split; [done|]. split; [done|].
      split; [apply surface_not_silent|done].
    + by exists (None, Some err), c3, ((l1 ++ l2) ++ l3).
  - exists (surface resp), c2, (l1 ++ l2). split; [done|]. split; [done|].
    split; [apply surface_not_silent|]. rewrite !count_app. lia.
Qed.

(** Requests one after the other. *)
Fixpoint do_all (reqs : list Request) (c : SoCMonitoringClient (Logged D)) :
    list (option Response * option error) * SoCMonitoringClient (Logged D) :=
  match reqs with
  | [] => ([], c)
  | req :: reqs =>
      let '(a, c) := Soc_Do req c in
      let '(l, c) := do_all reqs c in (a :: l, c)
  end.

End soc_run.

(** The key is not read more often than the interval allows.  However many requests are made, whatever the
    server, the clock and the file with the key do: two readings of the key are never closer than the interval;
    each request is sent at most once more, and only after a reading of the key; what is sent carries the key read
    last, or the one before if that was empty or could not be read, and never a token; and a refusal (401 or 403)
    always comes back as an error. *)
Theorem Soc_key_readings_are_spaced `{Transport D} `{Clock D} (reqs : list Request)
    (c c' : SoCMonitoringClient (Logged D)) (answers : list (option Response * option error))
    (Hrecord : recorded_reload c) (Hrun : do_all reqs c = (answers, c')) :
  exists l, log (world c') = log (world c) ++ l /\
    spaced (reloadMinInterval c) (lastReloadAttempt c) (read_times l) /\
    (count is_read l <= length reqs)%nat /\ (count is_sent l <= length reqs + count is_read l)%nat /\
    keyed (apiKey c) (deviceID c) l /\ Forall no_silent_refusal answers.
Proof.
  assert (exists l, extends c c' l /\ (count is_read l <= length reqs)%nat /\
    (count is_sent l <= length reqs + count is_read l)%nat /\ Forall no_silent_refusal answers) as (l & E & Hr & Hs & Ha).
  { revert c answers Hrecord Hrun. induction reqs as [|req reqs IH]; intros c answers Hrecord; cbn [do_all].
    - intros [= <- <-]. exists []. split; [apply extends_refl|]. repeat split; try done; cbn; lia.
    - destruct (Soc_Do_extends req c Hrecord) as (a & c1 & l1 & -> & E1 & N1 & R1 & S1).
      destruct (do_all reqs c1) as [answers' c2] eqn:Hrest. intros [= <- <-].
      assert (recorded_reload c1) as Hrec1.
      { unfold recorded_reload. destruct E1 as (_ & -> & _). exact Hrecord. }
      destruct (IH c1 answers' Hrec1 Hrest) as (l2 & E2 & R2 & S2 & N2).
      exists (l1 ++ l2). split; [by eapply extends_trans|]. rewrite !count_app. cbn [length].
      split; [lia|]. split; [lia|]. by constructor. }
  destruct E as (HL & _ & _ & _ & _ & Hk & _ & Hsp & _). by exists l.
Qed.

(** ** A server that takes one key *)

(** The key of the server, the key in the file, and the time. *)
Record KeyServer := mkServer { accepted : string; on_disk : string; time : Z }.

#[export] Instance KeyServer_Transport : Transport KeyServer := {
  RoundTrip q d :=
    (Ok (ReauthClient.mkResponse (if bool_decide (sent_header q !! "X-Api-Key" = Some [accepted d]) then 200 else 401)
           EmptyString (Ok EmptyString)), d);
  ParseURL u := Ok (mkURL "https" u EmptyString EmptyString)
}.

(** Each look at the clock takes four seconds. *)
#[export] Instance KeyServer_Clock : Clock KeyServer := fun d =>
  (time d, mkServer (accepted d) (on_disk d) (time d + 4 * Second)).

Definition status_request : Request := mkRequest "PUT" (mkURL EmptyString EmptyString "/status" EmptyString) ∅ None.

Definition soc_client (disk : string) : SoCMonitoringClient (Logged KeyServer) :=
  NewSoCMonitoringClient "old" "device-1" "example.com"
    (Some (record KeyRead (fun d : KeyServer => (Ok (on_disk d), d)))) (mkLogged [] (mkServer "new" disk 0)).

(** A key that was changed on the disk is taken at the first refusal. *)
Example rotated_key :
  let '(answers, c) := do_all [status_request] (soc_client "new") in
  answers = [(Some (ReauthClient.mkResponse 200 EmptyString (Ok EmptyString)), None)] /\ apiKey c = "new" /\
  count is_sent (log (world c)) = 2%nat.
Proof. vm_compute. by repeat split. Qed.

Lemma Soc_key_readings_are_spaced_witness :
  exists answers c', do_all [status_request; status_request; status_request; status_request] (soc_client "old") = (answers, c') /\
    read_times (log (world c')) = [0; 12 * Second] /\
    exists l, log (world c') = [] ++ l /\ spaced (10 * Second) None (read_times l) /\
      (count is_read l <= 4)%nat /\ (count is_sent l <= 4 + count is_read l)%nat /\
      keyed "old" "device-1" l /\ Forall no_silent_refusal answers.
Proof.
  destruct (do_all [status_request; status_request; status_request; status_request] (soc_client "old"))
    as [answers c'] eqn:Hrun.
  exists answers, c'. split; [done|]. split.
  - assert (read_times (log (world (do_all [status_request; status_request; status_request; status_request]
      (soc_client "old")).2)) = [0; 12 * Second]) as <- by (vm_compute; reflexivity). by rewrite Hrun.
  - apply (Soc_key_readings_are_spaced [status_request; status_request; status_request; status_request]
      (soc_client "old") c' answers); [|exact Hrun]. by eexists.
Defined.
