(* ===== verification/DirStore.v ===== *)
(** * DirStore: a store of files in a directory

    store/dirstore.go: an entry is a file; it is written to a file of the same
    name with a tilde, which is then renamed.  The files, with their bytes, are a
    class [FileOs] with laws. *)

From S2P Require Import Prelude Text Os.
From Stdlib Require Import Ascii.

Open Scope Z_scope.

(** ** Files *)

(** The first characters of a string. *)
Fixpoint take_str (n : nat) (s : string) : string :=
  match n, s with
  | S n, String c s => String c (take_str n s)
  | _, _ => EmptyString
  end.

(** The contents after [v] was written at a position: what it does not cover stays. *)
Definition overwrite (n : nat) (v s : string) : string :=
  take_str n s +:+ v +:+ drop_str (n + String.length v) s.

(** [OpenFileR] is [os.Open] with what reading all of the file gives;
    [OpenFileW] opens for writing and creates the file, and does not truncate it
    (O_WRONLY and O_CREATE); [WriteTo] writes where the descriptor stands. *)
Class FileOs (D : Type) := {
  OpenFileR : string -> D -> result (result string);
  OpenFileW : string -> IO D nat;
  WriteTo : nat -> string -> IO D unit;
  CloseFile : nat -> IO D unit;
  RenameFile : string -> string -> IO D unit;
  RemoveEntry : string -> IO D unit
}.

(** Opening and reading a file may fail; what is read is what the file has, and
    a file that is said not to exist does not.  A write that fails has written a
    part; renaming happens or not. *)
Class FileOsLaws (D : Type) `{FileOs D} := {
  contents : D -> gmap string string;
  cursor : D -> nat -> option (string * nat);
  OpenFileR_read p d v : OpenFileR p d = Ok (Ok v) -> contents d !! p = Some v;
  OpenFileR_missing p d err : OpenFileR p d = Err err -> IsNotExist err = true -> contents d !! p = None;
  OpenFileW_ok p d fd d' : OpenFileW p d = (Ok fd, d') ->
    contents d' = <[p := default EmptyString (contents d !! p)]> (contents d) /\ cursor d' fd = Some (p, 0%nat);
  OpenFileW_err p d err d' : OpenFileW p d = (Err err, d') -> contents d' = contents d;
  WriteTo_ok fd v d d' p n : cursor d fd = Some (p, n) -> WriteTo fd v d = (Ok (), d') ->
    contents d' = alter (overwrite n v) p (contents d) /\ cursor d' fd = Some (p, (n + String.length v)%nat);
  WriteTo_err fd v d err d' p n : cursor d fd = Some (p, n) -> WriteTo fd v d = (Err err, d') ->
    exists k, contents d' = alter (overwrite n (take_str k v)) p (contents d);
  CloseFile_contents fd d r d' : CloseFile fd d = (r, d') -> contents d' = contents d;
  RenameFile_ok a b d d' : RenameFile a b d = (Ok (), d') ->
    exists v, contents d !! a = Some v /\ contents d' = <[b := v]> (delete a (contents d));
  RenameFile_err a b d err d' : RenameFile a b d = (Err err, d') -> contents d' = contents d
}.

(** ** The store *)

Record DirStore := NewDirStore { basepath : string }.

(** A file that is being written (DirFile): its descriptor and the name of the entry. *)
Record DirFile := mkDirFile { descriptor : nat; entry : string }.

Definition path_IsAbs (p : string) : bool := HasPrefix p "/".

Definition getPath (s : DirStore) (name : string) : string := join_path (basepath s) name.
Definition getTempPath (s : DirStore) (name : string) : string := getPath s name +:+ "~".

Section dirstore.
Context `{FileOs D}.
Implicit Types s : DirStore.

Definition OpenRead s (name : string) (d : D) : result (result string) :=
  OpenFileR (if path_IsAbs name then name else getPath s name) d.

Definition ReadAll s (name : string) (d : D) : result string :=
  match OpenRead s name d with
  | Err err => Err err
  | Ok content => content
  end.

Definition OpenWrite s (name : string) : IO D DirFile :=
  fd ← OpenFileW (getTempPath s name); mret (mkDirFile fd name).

Definition CommitFile s (name : string) : IO D unit :=
  RenameFile (getTempPath s name) (getPath s name).

Definition Commit s (df : DirFile) : IO D unit := CommitFile s (entry df).

Definition WriteAll s (name data : string) : IO D unit :=
  out ← OpenWrite s name;
  r ← try (WriteTo (descriptor out) data);
  _ ← try (CloseFile (descriptor out));
  match r with
  | Err err => fail err
  | Ok _ => Commit s out
  end.

Definition Remove s (name : string) : IO D unit := RemoveEntry (getPath s name).

Definition DirStore_WriteTransaction s : result unit := Err NoTransactionSupport.
Definition DirStore_ReadTransaction s : result unit := Err NoTransactionSupport.

End dirstore.

(** ** What a write leaves behind *)

Lemma getTempPath_ne s name : getTempPath s name <> getPath s name.
Proof.
  unfold getTempPath. intros Heq. apply (f_equal String.length) in Heq.
  rewrite length_app_str in Heq. cbn in Heq. lia.
Qed.

Lemma drop_str_all n s : (String.length s <= n)%nat -> drop_str n s = EmptyString.
Proof. revert s. induction n as [|n IH]; intros [|c s] Hl; cbn in *; try done; [lia|]. apply IH. lia. Qed.

Section written.
Context `{FileOsLaws D}.
Implicit Types (s : DirStore) (name data : string).

(** All files but the temporary one are as they were. *)
Definition others_same s name (d d' : D) : Prop :=
  forall p, p <> getTempPath s name -> contents d' !! p = contents d !! p.

#[export] Instance others_same_preorder s name : PreOrder (others_same s name).
Proof. split; [by intros d p|]. intros a b c Hab Hbc p Hp. by rewrite Hbc, Hab. Qed.

(** The bytes, followed by what was left of a longer file with a tilde. *)
Definition ends_in_old s name data (d : D) (content : option string) : Prop :=
  exists tail, content = Some (data +:+ tail) /\
    ((String.length (default EmptyString (contents d !! getTempPath s name)) <= String.length data)%nat ->
     tail = EmptyString).

Lemma OpenWrite_err s name d err d' : OpenWrite s name d = (Err err, d') -> others_same s name d d'.
Proof.
  unfold OpenWrite. intros [Ho|(? & ? & _ & [=])]%bind_err. apply OpenFileW_err in Ho. intros p _. by rewrite Ho.
Qed.

(** Opening the temporary file and writing to it. *)
Lemma open_and_write s name data d out d1 r d2 :
  OpenWrite s name d = (Ok out, d1) -> WriteTo (descriptor out) data d1 = (r, d2) ->
  entry out = name /\ others_same s name d d2 /\
  (r = Ok () -> ends_in_old s name data d (contents d2 !! getTempPath s name)).
Proof.
  unfold OpenWrite. intros (fd & d0 & Ho & Hr)%bind_ok. injection Hr as <- <-. cbn [descriptor entry].
  apply OpenFileW_ok in Ho as [Hc Hfd]. intros Hw. split; [done|].
  destruct r as [[]|err].
  - apply (WriteTo_ok _ _ _ _ _ _ Hfd) in Hw as [Hc2 _]. split.
    + intros p Hp. by rewrite Hc2, lookup_alter_ne, Hc, lookup_insert_ne.
    + intros _. rewrite Hc2, lookup_alter_eq, Hc, lookup_insert_eq. cbn.
      set (old := default EmptyString (contents d !! getTempPath s name)).
      exists (drop_str (String.length data) old). split; [by destruct old|]. intros Hl. by apply drop_str_all.
  - apply (WriteTo_err _ _ _ _ _ _ _ Hfd) in Hw as [k Hc2]. split; [|done].
    intros p Hp. by rewrite Hc2, lookup_alter_ne, Hc, lookup_insert_ne.
Qed.

(** Renaming it. *)
Lemma commit_cases s name data d d2 r d3 : others_same s name d d2 ->
  ends_in_old s name data d (contents d2 !! getTempPath s name) -> CommitFile s name d2 = (r, d3) ->
  (forall p, p <> getPath s name -> p <> getTempPath s name -> contents d3 !! p = contents d !! p) /\
  (r <> Ok () -> contents d3 !! getPath s name = contents d !! getPath s name) /\
  (r = Ok () -> ends_in_old s name data d (contents d3 !! getPath s name)).
Proof.
  pose proof (getTempPath_ne s name) as Hne. intros Hs Ht Hr. destruct r as [[]|err].
  - apply RenameFile_ok in Hr as (v & Hv & Hc). rewrite Hc. split; [|split; [done|]].
    + intros p Hp Hp'. rewrite lookup_insert_ne, lookup_delete_ne by done. by apply Hs.
    + intros _. rewrite lookup_insert_eq. by rewrite <- Hv.
  - apply RenameFile_err in Hr. rewrite Hr. split; [by intros p _; apply Hs|]. split; [|done].
    intros _. by apply Hs.
Qed.

(** An entry that is written without an error is there, if no file with a
    tilde was left over that is longer; whatever happens the entry is the old one
    or the new one, and no other file changes but the one with the tilde. *)
Lemma WriteAll_atomic s name data d r d' : WriteAll s name data d = (r, d') ->
  (forall p, p <> getPath s name -> p <> getTempPath s name -> contents d' !! p = contents d !! p) /\
  (r <> Ok () -> contents d' !! getPath s name = contents d !! getPath s name) /\
  (r = Ok () -> exists tail, contents d' !! getPath s name = Some (data +:+ tail) /\
     ((String.length (default EmptyString (contents d !! getTempPath s name)) <= String.length data)%nat ->
      tail = EmptyString)).
Proof.
  unfold WriteAll, mbind, IO_bind, try.
  assert (forall err d1, others_same s name d d1 -> (Err err : result unit, d1) = (r, d') ->
    (forall p, p <> getPath s name -> p <> getTempPath s name -> contents d' !! p = contents d !! p) /\
    contents d' !! getPath s name = contents d !! getPath s name /\ r <> Ok ()) as Hfail.
  { intros err d1 Hs [= <- <-]. pose proof (getTempPath_ne s name). split; [by intros p _; apply Hs|]. split; [|done].
    by apply Hs. }
  destruct (OpenWrite s name d) as [[out|err] d1] eqn:Ho.
  2: { intros (? & Hc & ?)%Hfail; [|by eapply OpenWrite_err]. by split. }
  destruct (WriteTo (descriptor out) data d1) as [rw d2] eqn:Hw.
  destruct (CloseFile (descriptor out) d2) as [rc d3] eqn:Hc. apply CloseFile_contents in Hc.
  destruct (open_and_write _ _ _ _ _ _ _ _ Ho Hw) as (He & Hs & Hwr).
  assert (others_same s name d d3) as Hs3 by (intros p Hp; by rewrite Hc, Hs).
  destruct rw as [[]|err].
  2: { intros (? & Hc' & ?)%Hfail; [|done]. by split. }
  unfold Commit. rewrite He. specialize (Hwr eq_refl). rewrite <- Hc in Hwr.
  intros (Hp & Hno & Hok)%(commit_cases _ _ _ _ _ _ _ Hs3 Hwr). by split.
Qed.

(** At the moment the file can be read. *)
Definition readable (p : string) (d : D) : Prop :=
  OpenFileR p d = match contents d !! p with Some v => Ok (Ok v) | None => Err ErrNotExist end.

End written.

(** ** A process that is killed *)

(** Files as a process uses them that is killed after so many operations on
    them; when it is killed in a write, the write has written so many bytes. *)
Record Killed (D : Type) := mkKilled { alive : nat; cut : nat; disk : D }.
Arguments mkKilled {D}.
Arguments alive {D}.
Arguments cut {D}.
Arguments disk {D}.

Section killed.
Context `{FileOsLaws D}.

Definition errKilled : error := EText "killed".

Definition unless_killed {A} (m : IO D A) : IO (Killed D) A := fun s =>
  match alive s with
  | O => (Err errKilled, s)
  | S n => let '(r, d) := m (disk s) in (r, mkKilled n (cut s) d)
  end.

Definition write_until_killed (fd : nat) (v : string) : IO (Killed D) unit := fun s =>
  match alive s with
  | O => (Err errKilled, mkKilled 0 (cut s) (WriteTo fd (take_str (cut s) v) (disk s)).2)
  | S _ => unless_killed (WriteTo fd v) s
  end.

#[export] Instance Killed_FileOs : FileOs (Killed D) := {
  OpenFileR p s := OpenFileR p (disk s);
  OpenFileW p := unless_killed (OpenFileW p);
  WriteTo := write_until_killed;
  CloseFile fd := unless_killed (CloseFile fd);
  RenameFile a b := unless_killed (RenameFile a b);
  RemoveEntry p := unless_killed (RemoveEntry p)
}.

Lemma unless_killed_inv {A} (m : IO D A) s r s' : unless_killed m s = (r, s') ->
  (exists n d', alive s = S n /\ m (disk s) = (r, d') /\ disk s' = d') \/ r = Err errKilled /\ s' = s /\ alive s = 0%nat.
Proof.
  unfold unless_killed. destruct (alive s) as [|n]; [intros [= <- <-]; by right|].
  destruct (m (disk s)) as [r0 d'] eqn:Hm. intros [= <- <-]. left. by exists n, d'.
Qed.

Lemma take_str_take n k s : exists j, take_str n (take_str k s) = take_str j s.
Proof.
  revert k s. induction n as [|n IH]; intros k s; [by exists 0%nat|].
  destruct k as [|k]; [by exists 0%nat|]. destruct s as [|c s]; [by exists 0%nat|].
  destruct (IH k s) as [j Hj]. exists (S j). cbn. by rewrite Hj.
Qed.

Lemma take_str_all s : take_str (String.length s) s = s.
Proof. induction s as [|c s IH]; [done|]. cbn. by rewrite IH. Qed.

(** For those laws a process that is killed is one whose operations fail. *)
#[export] Instance Killed_FileOsLaws : FileOsLaws (Killed D).
Proof.
  refine {| contents s := contents (disk s); cursor s := cursor (disk s) |}.
  - intros p s v. cbn. apply OpenFileR_read.
  - intros p s err. cbn. apply OpenFileR_missing.
  - intros p s fd s' [(n & d' & _ & Hm & ->)|([=] & _)]%unless_killed_inv. by apply OpenFileW_ok.
  - intros p s err s' [(n & d' & _ & Hm & ->)|(_ & -> & ?)]%unless_killed_inv; [|done]. by eapply OpenFileW_err.
  - intros fd v s s' p n Hc. cbn. unfold write_until_killed. destruct (alive s) eqn:Ha; [done|].
    intros [(m & d' & _ & Hm & ->)|([=] & _)]%unless_killed_inv. by eapply WriteTo_ok.
  - intros fd v s err s' p n Hc. cbn. unfold write_until_killed. destruct (alive s) eqn:Ha.
    + destruct (WriteTo fd (take_str (cut s) v) (disk s)) as [[[]|err'] d'] eqn:Hw; intros [= _ <-]; cbn.
      * exists (cut s). by eapply WriteTo_ok.
      * apply (WriteTo_err _ _ _ _ _ _ _ Hc) in Hw as [k Hk].
        destruct (take_str_take k (cut s) v) as [j Hj]. exists j. by rewrite <- Hj.
    + intros [(m & d' & _ & Hm & ->)|(_ & -> & ?)]%unless_killed_inv; [by eapply WriteTo_err|congruence].
  - intros fd s r s' [(n & d' & _ & Hm & ->)|(_ & -> & ?)]%unless_killed_inv; [|done]. by eapply CloseFile_contents.
  - intros a b s s' [(n & d' & _ & Hm & ->)|([=] & _)]%unless_killed_inv. by apply RenameFile_ok.
  - intros a b s err s' [(n & d' & _ & Hm & ->)|(_ & -> & ?)]%unless_killed_inv; [|done]. by eapply RenameFile_err.
Defined.

End killed.
