(* ===== verification/Keystore.v ===== *)
(** * Keystore: the key of the device

    store/keystore.go: the private key the device signs with, kept in a
    [DirStore] or behind an engine.  The cryptography is the class [OpenSSL]. *)

From S2P Require Import Prelude Text Os DirStore.
From Stdlib Require Import Ascii.

Open Scope Z_scope.

Definition RsaKeyLength : Z := 3072.

Definition errNoKeys : error := EText "no keys".
Definition errNoEngines : error := EText "no engines loaded".
Definition errStaticKey : error := EText "cannot replace static key".

(** The package openssl: making keys, reading them from PEM data with or without
    a password and from an engine, and writing them.  Generating uses the
    system's randomness. *)
Class OpenSSL (D PrivateKey : Type) := {
  GenerateRSAKey : Z -> IO D PrivateKey;
  LoadPrivateKeyFromPEM : string -> result PrivateKey;
  LoadPrivateKeyFromPEMWithPassword : string -> string -> result PrivateKey;
  EngineById : string -> D -> option error;
  EngineLoadPrivateKey : string -> string -> D -> result PrivateKey;
  MarshalPKCS1PrivateKeyPEM : PrivateKey -> result string;
  MarshalPKIXPublicKeyPEM : PrivateKey -> result string;
  IsED25519 : PrivateKey -> bool;
  SignPKCS1v15 : bool -> PrivateKey -> string -> result string
}.

(** A private key that was written is read again from data that begins with it:
    the reader takes the first block and leaves what follows. *)
Class OpenSSLLaws (D PrivateKey : Type) `{OpenSSL D PrivateKey} : Prop :=
  pem_first_block key pem rest : MarshalPKCS1PrivateKeyPEM key = Ok pem ->
    LoadPrivateKeyFromPEM (pem +:+ rest) = Ok key.

Record Keystore (PrivateKey : Type) := mkKeystore {
  key_store : DirStore;
  private : option PrivateKey;
  keyName : string;
  keyPassphrase : string;
  sslEngine : string;
  staticKey : bool
}.
Arguments mkKeystore {PrivateKey}.
Arguments key_store {PrivateKey}.
Arguments private {PrivateKey}.
Arguments keyName {PrivateKey}.
Arguments keyPassphrase {PrivateKey}.
Arguments sslEngine {PrivateKey}.
Arguments staticKey {PrivateKey}.

Section keystore.
Context `{FileOs D} `{OpenSSL D PrivateKey}.
Implicit Types k : Keystore PrivateKey.

Definition NewKeystore (s : DirStore) (name engine : string) (static : bool) (passphrase : string) : Keystore PrivateKey :=
  mkKeystore s None name passphrase engine static.

Definition set_private (key : option PrivateKey) k : Keystore PrivateKey :=
  mkKeystore (key_store k) key (keyName k) (keyPassphrase k) (sslEngine k) (staticKey k).

Definition IsNoKeys (e : error) : bool := bool_decide (e = errNoKeys).
Definition IsStaticKey (e : error) : bool := bool_decide (e = errStaticKey).

(** The file of the passphrase; a hyphen is the standard input. *)
Definition loadPassphrase (passphrase_file : string) (d : D) : result string :=
  if bool_decide (passphrase_file = EmptyString) then Ok EmptyString
  else
    let path := if bool_decide (passphrase_file = "-") then "/dev/stdin" else passphrase_file in
    match OpenFileR path d with
    | Err err => Err err
    | Ok (Err err) => Err err
    | Ok (Ok dat) => Ok (TrimRightFunc (fun c => bool_decide (c = newline_char)) dat)
    end.

Definition loadFromPem (content : result string) (passphrase : string) : result PrivateKey :=
  match content with
  | Err err => Err err
  | Ok data =>
      if bool_decide (passphrase = EmptyString) then LoadPrivateKeyFromPEM data
      else LoadPrivateKeyFromPEMWithPassword data passphrase
  end.

(** The key from the engine, which does not end the function. *)
Definition load_engine k (d : D) : Keystore PrivateKey * option error :=
  if HasPrefix (keyName k) "pkcs11:" then
    match EngineById (sslEngine k) d with
    | Some _ => (k, Some errNoEngines)
    | None =>
        match EngineLoadPrivateKey (sslEngine k) (keyName k) d with
        | Err _ => (set_private None k, Some errNoKeys)
        | Ok key => (set_private (Some key) k, None)
        end
    end
  else (k, None).

(** The file of the key, or the one of the old name. *)
Definition open_key k (d : D) : result (result string) :=
  match OpenRead (key_store k) (keyName k) d with
  | Ok inf => Ok inf
  | Err err =>
      if IsNotExist err then
        let r := if bool_decide (keyName k = "otapulse-agent.pem") then OpenRead (key_store k) "mender-agent.pem" d
                 else Err err in
        match r with
        | Ok inf => Ok inf
        | Err err => if IsNotExist err then Err errNoKeys else Err err
        end
      else Err err
  end.

Definition Load k (d : D) : Keystore PrivateKey * option error :=
  match load_engine k d with
  | (k, Some err) => (k, Some err)
  | (k, None) =>
      match open_key k d with
      | Err err => (k, Some err)
      | Ok inf =>
          match loadPassphrase (keyPassphrase k) d with
          | Err err => (k, Some err)
          | Ok passphrase =>
              match loadFromPem inf passphrase with
              | Err err => (set_private None k, Some err)
              | Ok key => (set_private (Some key) k, None)
              end
          end
      end
  end.

Definition saveToPem (out : DirFile) (key : PrivateKey) : IO D unit :=
  data ← asks (fun _ => MarshalPKCS1PrivateKeyPEM key);
  WriteTo (descriptor out) data.

(** The file is closed after the commit. *)
Definition Save k : IO D unit :=
  match private k with
  | None => fail errNoKeys
  | Some key =>
      outf ← OpenWrite (key_store k) (keyName k);
      r ← try (saveToPem outf key ≫= fun _ => Commit (key_store k) outf);
      _ ← try (CloseFile (descriptor outf));
      asks (fun _ => r)
  end.

Definition Generate k : D -> (Keystore PrivateKey * option error) * D := fun d =>
  if staticKey k then ((k, Some errStaticKey), d)
  else
    match GenerateRSAKey RsaKeyLength d with
    | (Err err, d) => ((k, Some err), d)
    | (Ok key, d) => ((set_private (Some key) k, None), d)
    end.

Definition PublicPEM k : result string :=
  match private k with
  | None => Err (EText "private key is empty")
  | Some key =>
      match MarshalPKIXPublicKeyPEM key with
      | Err err => Err (EWrap "failed to marshal public key" err)
      | Ok data => Ok data
      end
  end.

(** SHA256 for all keys but ED25519. *)
Definition Sign k (data : string) : result string :=
  match private k with
  | None => Err (EText "invalid memory address or nil pointer dereference")
  | Some key => SignPKCS1v15 (negb (IsED25519 key)) key data
  end.

End keystore.
