(* ===== verification/KeystoreSpec.v ===== *)
(** * KeystoreSpec: a saved key is found again

    What [Save] leaves on the disk, for the process that loads it later. *)

From S2P Require Import Prelude Text Os DirStore Keystore.
From Stdlib Require Import Ascii.

Open Scope Z_scope.

Section keystore.
Context `{FileOsLaws D} `{OpenSSL D PrivateKey}.
Implicit Types k : Keystore PrivateKey.

(** What [Load] reads of the files, for a key that is not behind an engine. *)
Lemma Load_same k (d d' : D) : HasPrefix (keyName k) "pkcs11:" = false -> keyPassphrase k = EmptyString ->
  OpenRead (key_store k) (keyName k) d' = OpenRead (key_store k) (keyName k) d ->
  OpenRead (key_store k) "mender-agent.pem" d' = OpenRead (key_store k) "mender-agent.pem" d ->
  Load k d' = Load k d.
Proof.
  intros Hp He Hk Hl. unfold Load, load_engine, loadPassphrase. rewrite Hp, He.
  unfold open_key. by rewrite Hk, Hl.
Qed.

Lemma Load_from_file `{!OpenSSLLaws D PrivateKey} k (d : D) key pem rest :
  HasPrefix (keyName k) "pkcs11:" = false -> keyPassphrase k = EmptyString ->
  MarshalPKCS1PrivateKeyPEM key = Ok pem ->
  OpenRead (key_store k) (keyName k) d = Ok (Ok (pem +:+ rest)) ->
  Load k d = (set_private (Some key) k, None).
Proof.
  intros Hp He Hm Hk. unfold Load, load_engine, open_key, loadPassphrase. rewrite Hp, Hk, He.
  cbn [loadFromPem]. by rewrite (pem_first_block _ _ _ Hm).
Qed.

(** A key that is loaded from a file is that of the file. *)
Lemma Load_no_other `{!OpenSSLLaws D PrivateKey} k (d : D) key pem rest p found :
  HasPrefix (keyName k) "pkcs11:" = false -> keyPassphrase k = EmptyString ->
  MarshalPKCS1PrivateKeyPEM key = Ok pem -> OpenRead (key_store k) (keyName k) d = OpenFileR p d ->
  contents d !! p = Some (pem +:+ rest) -> Load k d = (found, None) -> found = set_private (Some key) k.
Proof.
  intros Hp He Hm Hk Hc Hl. destruct (OpenFileR p d) as [[v|err]|err] eqn:Hr.
  - apply OpenFileR_read in Hr. rewrite Hc in Hr. injection Hr as <-.
    rewrite (Load_from_file _ _ _ _ _ Hp He Hm Hk) in Hl. by injection Hl as <-.
  - unfold Load, load_engine, open_key, loadPassphrase in Hl. rewrite Hp, Hk, He in Hl. by cbn [loadFromPem] in Hl.
  - unfold Load, load_engine, open_key in Hl. rewrite Hp, Hk in Hl.
    destruct (IsNotExist err) eqn:Hne; [|done]. apply OpenFileR_missing in Hr; [congruence|done].
Qed.

Lemma OpenRead_contents s name (d d' : D) : (forall p, readable p d) -> (forall p, readable p d') -> contents d' !! (if path_IsAbs name then name else getPath s name) =
    contents d !! (if path_IsAbs name then name else getPath s name) ->
  OpenRead s name d' = OpenRead s name d.
Proof. intros Hr Hr' Hc. unfold OpenRead. by rewrite Hr, Hr', Hc. Qed.

Lemma relative_path s name : path_IsAbs name = false ->
  (if path_IsAbs name then name else getPath s name) = getPath s name.
Proof. by intros ->. Qed.

(** The file with the tilde is not the key of the old name. *)
Lemma temp_is_not_legacy s name : getTempPath s name <> getPath s "mender-agent.pem".
Proof.
  intros Heq. unfold getTempPath, getPath, join_path in Heq. rewrite !app_assoc_str in Heq.
  apply (inj (String.append _)) in Heq. apply (inj (String.append _)) in Heq.
  pose proof (f_equal String.length Heq) as Hl. rewrite length_app_str in Hl. cbn in Hl.
  apply (f_equal (drop_str (String.length name))) in Heq. rewrite drop_str_app in Heq.
  by replace (String.length name) with 15%nat in Heq by lia.
Qed.

(** The two ways [Save] ends. *)
Lemma Save_cases k key pem (d d' : D) r : private k = Some key -> MarshalPKCS1PrivateKeyPEM key = Ok pem ->
  Save k d = (r, d') ->
  (r <> Ok () -> forall p, p <> getTempPath (key_store k) (keyName k) -> contents d' !! p = contents d !! p) /\
  (r = Ok () -> exists rest, contents d' !! getPath (key_store k) (keyName k) = Some (pem +:+ rest)).
Proof.
  intros Hk Hm. unfold Save. rewrite Hk. unfold mbind, IO_bind, try, asks.
  destruct (OpenWrite (key_store k) (keyName k) d) as [[out|err] d1] eqn:Ho.
  2: { intros [= <- <-]. split; [|done]. intros _. exact (OpenWrite_err _ _ _ _ _ Ho). }
  unfold saveToPem, mbind, IO_bind, asks. rewrite Hm.
  destruct (WriteTo (descriptor out) pem d1) as [rw d2] eqn:Hw.
  destruct (open_and_write _ _ _ _ _ _ _ _ Ho Hw) as (He & Hs & Hwr).
  destruct rw as [[]|err].
  - unfold Commit. rewrite He. destruct (CommitFile (key_store k) (keyName k) d2) as [rc d3] eqn:Hc.
    destruct (commit_cases _ _ _ _ _ _ _ Hs (Hwr eq_refl) Hc) as (Hp & Hno & Hok).
    destruct (CloseFile (descriptor out) d3) as [rl d4] eqn:Hcl. apply CloseFile_contents in Hcl.
    intros [= <- <-]. rewrite Hcl. split.
    + intros Hr p Hp'. destruct (decide (p = getPath (key_store k) (keyName k))) as [->|Hne]; [by apply Hno|by apply Hp].
    + intros Hr. destruct (Hok Hr) as (rest & Hrest & _). by exists rest.
  - destruct (CloseFile (descriptor out) d2) as [rl d4] eqn:Hcl. apply CloseFile_contents in Hcl.
    intros [= <- <-]. split; [|done]. intros _ p Hp. rewrite Hcl. by apply Hs.
Qed.

End keystore.

(** What a process that is killed has of the cryptography. *)
#[export] Instance Killed_OpenSSL `{OpenSSL D PrivateKey} : OpenSSL (Killed D) PrivateKey := {
  GenerateRSAKey n := unless_killed (GenerateRSAKey n);
  LoadPrivateKeyFromPEM := LoadPrivateKeyFromPEM;
  LoadPrivateKeyFromPEMWithPassword := LoadPrivateKeyFromPEMWithPassword;
  EngineById e s := EngineById e (disk s);
  EngineLoadPrivateKey e name s := EngineLoadPrivateKey e name (disk s);
  MarshalPKCS1PrivateKeyPEM := MarshalPKCS1PrivateKeyPEM;
  MarshalPKIXPublicKeyPEM := MarshalPKIXPublicKeyPEM;
  IsED25519 := IsED25519;
  SignPKCS1v15 := SignPKCS1v15
}.

(** [Save], by a process that is not killed, or killed after [n] operations on
    files and, if that is in the write, after [j] bytes of it. *)
Definition saves `{FileOs D} `{OpenSSL D PrivateKey} (k : Keystore PrivateKey) (kill : option (nat * nat)) :
    IO D unit := fun d =>
  match kill with
  | None => Save k d
  | Some (n, j) => let '(r, s) := Save k (mkKilled n j d) in (r, disk s)
  end.

Lemma saves_cases `{FileOsLaws D} `{OpenSSL D PrivateKey} (k : Keystore PrivateKey) kill key pem (d d' : D) r :
  private k = Some key -> MarshalPKCS1PrivateKeyPEM key = Ok pem -> saves k kill d = (r, d') ->
  (r <> Ok () -> forall p, p <> getTempPath (key_store k) (keyName k) -> contents d' !! p = contents d !! p) /\
  (r = Ok () -> exists rest, contents d' !! getPath (key_store k) (keyName k) = Some (pem +:+ rest)).
Proof.
  intros Hk Hm. destruct kill as [[n j]|]; cbn [saves]; [|exact (Save_cases k key pem d d' r Hk Hm)].
  destruct (Save k (mkKilled n j d)) as [r' s] eqn:Hs. intros [= <- <-].
  exact (Save_cases k key pem (mkKilled n j d) s r' Hk Hm Hs).
Qed.

(** C38: the key that was saved is the key the next process finds, and a save that fails or is interrupted costs
    nothing.  For a key kept in a file of the directory (its name is relative and no pkcs11 URI) and loaded without
    a passphrase: after a save without an error, a later [Load] gives that key, even if an earlier save was
    interrupted and left a longer file with a tilde whose end is now behind the key; it fails when the file cannot
    be read at that time, and never gives another key.  After a save that failed at any of its steps, or a process
    that was killed in [Save] after any of its operations on files or in the middle of writing, before the file was
    renamed, a later [Load] that can read the files gives what it would have given before.  (When the power fails,
    files may be lost that were written: [Save] does not wait for the disk.) *)
Theorem saved_key_is_loaded `{FileOsLaws D} `{OpenSSLLaws D PrivateKey} (k : Keystore PrivateKey) (key : PrivateKey)
    (pem : string) (kill : option (nat * nat)) (d d' : D) (r : result unit)
    (Hkey : private k = Some key) (Hpem : MarshalPKCS1PrivateKeyPEM key = Ok pem)
    (Hfile : path_IsAbs (keyName k) = false) (Hengine : HasPrefix (keyName k) "pkcs11:" = false)
    (Hrun : saves k kill d = (r, d')) (later : Keystore PrivateKey)
    (Hstore : key_store later = key_store k) (Hname : keyName later = keyName k)
    (Hpass : keyPassphrase later = EmptyString) :
  (r = Ok () ->
    (readable (getPath (key_store k) (keyName k)) d' -> Load later d' = (set_private (Some key) later, None)) /\
    forall found, Load later d' = (found, None) -> found = set_private (Some key) later) /\
  (r <> Ok () -> (forall p, readable p d) -> (forall p, readable p d') -> Load later d' = Load later d).
Proof.
  destruct (saves_cases k kill key pem d d' r Hkey Hpem Hrun) as [Hno Hok].
  assert (OpenRead (key_store later) (keyName later) d' = OpenFileR (getPath (key_store k) (keyName k)) d') as Hopen
    by (by rewrite Hstore, Hname; unfold OpenRead; rewrite Hfile).
  rewrite <- Hname in Hengine. split.
  - intros (rest & Hrest)%Hok. split.
    + intros Hread. apply (Load_from_file later d' key pem rest); [done..|]. rewrite Hopen, Hread. by rewrite Hrest.
    + intros found Hf. apply (Load_no_other later d' key pem rest (getPath (key_store k) (keyName k)) found); done.
  - intros Hr Hread Hread'. specialize (Hno Hr). apply Load_same; [done|done| |].
    + rewrite Hstore, Hname. apply OpenRead_contents; [done..|]. rewrite Hfile. apply Hno.
      apply not_eq_sym, getTempPath_ne.
    + rewrite Hstore. apply OpenRead_contents; [done..|]. apply Hno. apply not_eq_sym, temp_is_not_legacy.
Qed.

(** ** Files in a map *)

(** The descriptors are numbered; [fs_fails] says which of the next calls that
    write or rename fail. *)
Record FsSim := mkFs {
  fs_files : gmap string string;
  fs_open : gmap nat (string * nat);
  fs_next : nat;
  fs_fails : list bool
}.

Definition fs_step (d : FsSim) : bool * FsSim :=
  match fs_fails d with
  | b :: l => (b, mkFs (fs_files d) (fs_open d) (fs_next d) l)
  | [] => (false, d)
  end.

Definition fs_error : error := EText "input/output error".

Definition fs_openw (p : string) : IO FsSim nat := fun d =>
  (Ok (fs_next d), mkFs (<[p := default EmptyString (fs_files d !! p)]> (fs_files d))
                     (<[fs_next d := (p, 0%nat)]> (fs_open d)) (S (fs_next d)) (fs_fails d)).

(** A write that fails has written the first byte. *)
Definition fs_write (fd : nat) (v : string) : IO FsSim unit := fun d =>
  match fs_open d !! fd with
  | None => (Err fs_error, d)
  | Some (p, n) =>
      let '(b, d) := fs_step d in
      let w := if b then take_str 1 v else v in
      (if b then Err fs_error else Ok (),
       mkFs (alter (overwrite n w) p (fs_files d)) (<[fd := (p, (n + String.length w)%nat)]> (fs_open d)) (fs_next d) (fs_fails d))
  end.

Definition fs_rename (a b : string) : IO FsSim unit := fun d =>
  let '(fails, d) := fs_step d in
  match fs_files d !! a with
  | Some v => if fails : bool then (Err fs_error, d)
              else (Ok (), mkFs (<[b := v]> (delete a (fs_files d))) (fs_open d) (fs_next d) (fs_fails d))
  | None => (Err ErrNotExist, d)
  end.

#[export] Instance fs_FileOs : FileOs FsSim := {
  OpenFileR p d := match fs_files d !! p with Some v => Ok (Ok v) | None => Err ErrNotExist end;
  OpenFileW := fs_openw;
  WriteTo := fs_write;
  CloseFile _ d := (Ok (), d);
  RenameFile := fs_rename;
  RemoveEntry p d := (Ok (), mkFs (delete p (fs_files d)) (fs_open d) (fs_next d) (fs_fails d))
}.

Lemma fs_step_same d : fs_files (fs_step d).2 = fs_files d /\ fs_open (fs_step d).2 = fs_open d.
Proof. unfold fs_step. by destruct (fs_fails d). Qed.

#[export] Instance fs_FileOsLaws : FileOsLaws FsSim.
Proof.
  refine {| contents := fs_files; cursor d fd := fs_open d !! fd |}.
  - intros p d v. cbn. destruct (fs_files d !! p); [|done]. by intros [= <-].
  - intros p d err. cbn. by destruct (fs_files d !! p).
  - intros p d fd d' [= <- <-]. cbn. split; [done|]. apply lookup_insert_eq.
  - done.
  - intros fd v d d' p n Hc. cbn. unfold fs_write. rewrite Hc. pose proof (fs_step_same d) as [Hf _].
    destruct (fs_step d) as [[] d1]; [done|]. cbn in *. intros [= <-]. cbn. rewrite Hf. split; [done|]. apply lookup_insert_eq.
  - intros fd v d err d' p n Hc. cbn. unfold fs_write. rewrite Hc. pose proof (fs_step_same d) as [Hf _].
    destruct (fs_step d) as [[] d1]; [|done]. cbn in *. intros [= _ <-]. exists 1%nat. cbn. by rewrite Hf.
  - by intros fd d r d' [= <- <-].
  - intros a b d d'. cbn. unfold fs_rename. pose proof (fs_step_same d) as [Hf _].
    destruct (fs_step d) as [fails d1]. cbn in *. rewrite Hf. destruct (fs_files d !! a) as [v|]; [|done].
    destruct fails; [done|]. intros [= <-]. by exists v.
  - intros a b d err d'. cbn. unfold fs_rename. pose proof (fs_step_same d) as [Hf _].
    destruct (fs_step d) as [fails d1]. cbn in *. rewrite Hf.
    destruct (fs_files d !! a) as [v|]; [destruct fails|]; intros [=]; by subst.
Defined.

(** Keys are single letters; a PEM block is a letter between two words. *)
Definition sim_pem (key : ascii) : string := "BEGIN " +:+ String key " END".

Definition sim_load (data : string) : result ascii :=
  match drop_str 6 data with
  | String key rest => if HasPrefix data "BEGIN " && HasPrefix rest " END" then Ok key else Err (EText "no PEM block")
  | EmptyString => Err (EText "no PEM block")
  end.

#[export] Instance sim_openssl : OpenSSL FsSim ascii := {
  GenerateRSAKey _ := mret "k"%char;
  LoadPrivateKeyFromPEM := sim_load;
  LoadPrivateKeyFromPEMWithPassword data _ := sim_load data;
  EngineById _ _ := Some (EText "no such engine");
  EngineLoadPrivateKey _ _ _ := Err (EText "no such engine");
  MarshalPKCS1PrivateKeyPEM key := Ok (sim_pem key);
  MarshalPKIXPublicKeyPEM key := Ok (sim_pem key);
  IsED25519 _ := false;
  SignPKCS1v15 _ key data := Ok (String key data)
}.

#[export] Instance sim_openssl_laws : OpenSSLLaws FsSim ascii.
Proof.
  intros key pem rest [= <-].
  change (sim_load (sim_pem key +:+ rest) = Ok key). unfold sim_load.
  change (drop_str 6 (sim_pem key +:+ rest)) with (String key (" END" +:+ rest)).
  unfold HasPrefix. rewrite prefix_app.
  change (sim_pem key +:+ rest) with ("BEGIN " +:+ (String key " END" +:+ rest)). by rewrite prefix_app.
Qed.

Definition agent_keystore (key : option ascii) : Keystore ascii :=
  mkKeystore (NewDirStore "/var/lib/otapulse") key "otapulse-agent.pem" EmptyString EmptyString false.

(** A save was interrupted and left a long file with a tilde: the next one ends in its rest. *)
Definition interrupted : FsSim :=
  mkFs {["/var/lib/otapulse/otapulse-agent.pem~" := "a longer file of an earlier time"]} ∅ 0 [].

Example rest_of_the_old_file :
  ReadAll (NewDirStore "/var/lib/otapulse") "otapulse-agent.pem" (Save (agent_keystore (Some "k"%char)) interrupted).2 =
  Ok "BEGIN k ENDle of an earlier time".
Proof. vm_compute. reflexivity. Qed.

(** Killed while it wrote the first four bytes: what was left over is shorter, and the old key is found. *)
Definition old_key : FsSim :=
  mkFs {["/var/lib/otapulse/otapulse-agent.pem" := sim_pem "o"%char]} ∅ 0 [].

Example killed_while_writing :
  let d' := (saves (agent_keystore (Some "k"%char)) (Some (1%nat, 4%nat)) old_key).2 in
  fs_files d' !! "/var/lib/otapulse/otapulse-agent.pem~" = Some "BEGI" /\
  Load (agent_keystore None) d' = (agent_keystore (Some "o"%char), None).
Proof. vm_compute. by split. Qed.

Lemma saved_key_is_loaded_witness :
  exists d', saves (agent_keystore (Some "k"%char)) None interrupted = (Ok (), d') /\
    Load (agent_keystore None) d' = (agent_keystore (Some "k"%char), None).
Proof.
  destruct (saves (agent_keystore (Some "k"%char)) None interrupted) as [r d'] eqn:Hrun.
  assert (r = Ok ()) as Hr.
  { change r with (r, d').1. rewrite <- Hrun. reflexivity. }
  exists d'. rewrite Hr. split; [done|].
  assert (Hpem : MarshalPKCS1PrivateKeyPEM (D:=FsSim) "k"%char = Ok (sim_pem "k"%char)) by reflexivity.
  destruct (saved_key_is_loaded (D:=FsSim) (agent_keystore (Some "k"%char)) "k"%char (sim_pem "k"%char) None interrupted
    d' r eq_refl Hpem eq_refl eq_refl Hrun (agent_keystore None) eq_refl eq_refl eq_refl) as [Hok _].
  destruct (Hok Hr) as [Hload _]. apply Hload. reflexivity.
Defined.
