(* ===== verification/Auth.v ===== *)
(** * Auth: asking a server for a token

    The request for authorization (client/auth.go, client/client_auth.go), and
    what the worker of the authorization manager does (app/auth.go): making sure
    there is a key, and asking the servers of the configuration one after the
    other (app/client_closures.go).  How the worker, the main loop and the clients
    of the manager run together is [AuthManager]. *)

From S2P Require Import Prelude Json Text Os Client DirStore Keystore ReauthClient.
From Stdlib Require Import Ascii.

Open Scope Z_scope.

(** ** The data of a request *)

Record AuthReqData := mkAuthReqData { IdData : string; TenantToken : string; Pubkey : string }.

(** [json.Encoder.Encode], which ends in a newline. *)
Definition ToBytes (ard : AuthReqData) : string :=
  marshal_text (JObj [("id_data", JStr (IdData ard)); ("tenant_token", JStr (TenantToken ard));
                      ("pubkey", JStr (Pubkey ard))]) +:+ newline.

Record AuthRequest := mkAuthRequest { Data : string; Token : string; Signature : string }.

(** *** base64.StdEncoding *)

Definition base64_char (n : N) : ascii :=
  ascii_of_N (if n <? 26 then 65 + n else if n <? 52 then 71 + n else if n <? 62 then n - 4
              else if n =? 62 then 43 else 47)%N.

Fixpoint base64 (s : string) : string :=
  match s with
  | EmptyString => EmptyString
  | String a EmptyString =>
      let n := (N_of_ascii a * 65536)%N in
      String (base64_char (n / 262144)) (String (base64_char (n / 4096 mod 64)) "==")
  | String a (String b EmptyString) =>
      let n := (N_of_ascii a * 65536 + N_of_ascii b * 256)%N in
      String (base64_char (n / 262144)) (String (base64_char (n / 4096 mod 64))
        (String (base64_char (n / 64 mod 64)) "="))
  | String a (String b (String c rest)) =>
      let n := (N_of_ascii a * 65536 + N_of_ascii b * 256 + N_of_ascii c)%N in
      String (base64_char (n / 262144)) (String (base64_char (n / 4096 mod 64))
        (String (base64_char (n / 64 mod 64)) (String (base64_char (n mod 64)) (base64 rest))))
  end.

Example base64_light : base64 "light work." = "bGlnaHQgd29yay4=" /\ base64 "light w" = "bGlnaHQgdw==".
Proof. by vm_compute. Qed.

(** *** URLs of the API *)

Definition apiPrefix : string := "/api/devices/".

Definition TrimPrefix (s p : string) : string := if HasPrefix s p then drop_str (String.length p) s else s.

Definition buildApiURL (server url : string) : string := buildURL server +:+ apiPrefix +:+ TrimPrefix url "/".

(** ** The request *)

Definition AuthErrorUnauthorized : error := EText "authentication request rejected".

(** What an error of the HTTP client is about: nothing known, or one of the kinds
    of [url.Error] that are told apart. *)
Inductive UrlError : Type := UnknownAuthority | CertificateExpired | CertificateInvalid | OtherUrlError (inner : error).

Class HttpErrors := url_error : error -> option UrlError.

(** [NewAPIError] keeps the cause; the text holds the request's id and what the
    server said. *)
(** The fields of an object, decoded into the one field of the struct: a name in
    any case, null leaves it alone, and anything else but a string is an error. *)
Fixpoint error_field (l : list (string * json)) (e : string) : option string :=
  match l with
  | [] => Some e
  | (k, v) :: l =>
      if bool_decide (ToLower k = "error") then
        match v with JStr e => error_field l e | JNull => error_field l e | _ => None end
      else error_field l e
  end.

Definition unmarshalErrorMessage (body : result string) : string :=
  match body with
  | Err _ => "Failed to read the response body"
  | Ok resp =>
      match unmarshal_text resp with
      | Some (JObj l) => default resp (error_field l EmptyString)
      | Some JNull => EmptyString
      | _ => resp
      end
  end.

Definition APIError_of (err : error) (resp : Response) : error :=
  EWrap ((if bool_decide (RequestId resp = EmptyString) then EmptyString
          else "(request_id: " +:+ RequestId resp +:+ ")") +:+
         (if (400 <=? StatusCode resp) && (StatusCode resp <? 600)
          then " server error message: " +:+ unmarshalErrorMessage (Body resp) else EmptyString)) err.

(** Getting the identity of the device (IdentityDataGetter). *)
Class IdentityDataGetter (D : Type) := GetIdentity : IO D string.

(** The state of the manager that is used here. *)
Record Manager (D PrivateKey : Type) := mkManager {
  authToken : string;
  serverURL : string;
  tenantToken : string;
  forceBootstrap : bool;
  keyStore : Keystore PrivateKey;
  Servers : list string;
  outside : D
}.
Arguments mkManager {D PrivateKey}.
Arguments authToken {D PrivateKey}.
Arguments serverURL {D PrivateKey}.
Arguments tenantToken {D PrivateKey}.
Arguments forceBootstrap {D PrivateKey}.
Arguments keyStore {D PrivateKey}.
Arguments Servers {D PrivateKey}.
Arguments outside {D PrivateKey}.

Section auth.
Context `{FileOs D} `{OpenSSL D PrivateKey} `{Id : IdentityDataGetter D} `{Transport D} `{HttpErrors}.
Implicit Types m : Manager D PrivateKey.

Definition set_token (token url : string) m : Manager D PrivateKey :=
  mkManager token url (tenantToken m) (forceBootstrap m) (keyStore m) (Servers m) (outside m).
Definition set_outside (d : D) m : Manager D PrivateKey :=
  mkManager (authToken m) (serverURL m) (tenantToken m) (forceBootstrap m) (keyStore m) (Servers m) d.
Definition set_forceBootstrap (b : bool) m : Manager D PrivateKey :=
  mkManager (authToken m) (serverURL m) (tenantToken m) b (keyStore m) (Servers m) (outside m).
Definition set_keyStore (k : Keystore PrivateKey) m : Manager D PrivateKey :=
  mkManager (authToken m) (serverURL m) (tenantToken m) (forceBootstrap m) k (Servers m) (outside m).

(** *** The message (MakeAuthRequest) *)

Definition MakeAuthRequest (keys : Keystore PrivateKey) (tenant : string) : IO D AuthRequest :=
  idata ← wrap "failed to obtain identity data" GetIdentity;
  pubkey ← wrap "failed to obtain device public key" (asks (fun _ => PublicPEM keys));
  let tentok := TrimSpace tenant in
  let reqdata := ToBytes (mkAuthReqData idata tentok pubkey) in
  sig ← wrap "failed to sign auth request" (asks (fun _ => Sign keys reqdata));
  mret (mkAuthRequest reqdata tentok sig).

Definition makeAuthRequest (server : string) (keys : Keystore PrivateKey) (tenant : string) : IO D SentRequest :=
  req ← wrap "failed to obtain authorization message data" (MakeAuthRequest keys tenant);
  url ← wrap "failed to create authorization HTTP request"
    (asks (fun _ => ParseURL (buildApiURL server "/v1/authentication/auth_requests")));
  mret (mkSent "POST" url
    (header_set "X-Men-Signature" (base64 (Signature req))
       (header_set "Authorization" ("Bearer " +:+ Token req)
          (header_set "Content-Type" "application/json" ∅))) (Some (Data req))).

(** *** Sending it (AuthClient.Request) *)

Definition request_error (err : error) : error :=
  match url_error err with
  | Some UnknownAuthority => EWrap "certificate signed by unknown authority" err
  | Some CertificateExpired => EWrap "certificate has expired" err
  | Some CertificateInvalid => EWrap "certificate exists, but is invalid" err
  | Some (OtherUrlError inner) => EWrap "Unknown url.Error type" inner
  | None => EWrap "generic error occurred while executing authorization request" err
  end.

Definition auth_response (rsp : Response) : result string :=
  if StatusCode rsp =? StatusUnauthorized then Err (APIError_of AuthErrorUnauthorized rsp)
  else if StatusCode rsp =? StatusOK then
    match Body rsp with
    | Err err => Err (APIError_of (EWrap "failed to receive authorization response data" err) rsp)
    | Ok data => Ok data
    end
  else Err (APIError_of (EText "unexpected authorization status") rsp).

Definition auth_Request (server : string) (keys : Keystore PrivateKey) (tenant : string) : IO D string :=
  req ← wrap "failed to build authorization request" (makeAuthRequest server keys tenant);
  r ← try (RoundTrip req);
  match r with
  | Err err => fail (request_error err)
  | Ok rsp => asks (fun _ => auth_response rsp)
  end.

(** *** The key *)

Definition HasKey m : bool := match private (keyStore m) with Some _ => true | None => false end.

Definition GenerateKey m : Manager D PrivateKey * option error :=
  match Generate (keyStore m) (outside m) with
  | ((k, Some err), d) =>
      (set_outside d (set_keyStore k m),
       Some (if IsStaticKey err then err else EWrap "failed to generate device key" err))
  | ((k, None), d) =>
      match Save k d with
      | (Err err, d) => (set_outside d (set_keyStore k m), Some (EMender true err))
      | (Ok _, d) => (set_outside d (set_keyStore k m), None)
      end
  end.

Definition needsBootstrap m : bool := forceBootstrap m || negb (HasKey m).

Definition doBootstrap m : Manager D PrivateKey * option error :=
  if negb (HasKey m) || forceBootstrap m then
    match GenerateKey m with
    | (m, Some err) => if IsStaticKey err then (set_forceBootstrap false m, None) else (m, Some (EMender true err))
    | (m, None) => (set_forceBootstrap false m, None)
    end
  else (set_forceBootstrap false m, None).

Definition Bootstrap m : Manager D PrivateKey * option error :=
  if needsBootstrap m then doBootstrap m else (m, None).

Definition ForceBootstrap m : Manager D PrivateKey := set_forceBootstrap true m.

(** *** The servers, one after the other *)

(** From a server on, with the servers the iterator still has to give: the token
    and the server of the first that answers with one, or the last error. *)
Fixpoint authorize_with (server : string) (rest : list string) (keys : Keystore PrivateKey) (tenant : string)
    (d : D) : (result string * string) * D :=
  match auth_Request server keys tenant d with
  | (Ok rsp, d) => ((Ok rsp, server), d)
  | (Err err, d) =>
      match rest with
      | [] => ((Err err, server), d)
      | server :: rest => authorize_with server rest keys tenant d
      end
  end.

Definition errEmptyList : error := EText "empty server list in mender.conf".

(** What [fetchAuthToken] does before it broadcasts, with the error it puts into
    a response that it does not send. *)
Definition fetch m : Manager D PrivateKey * option error :=
  match Bootstrap m with
  | (m, Some err) => (m, Some err)
  | (m, None) =>
      match Servers m with
      | [] => (m, Some (EMender true errEmptyList))
      | server :: rest =>
          let '((r, url), d) := authorize_with server rest (keyStore m) (tenantToken m) (outside m) in
          let m := set_outside d m in
          match r with
          | Err err =>
              let m := if bool_decide (Cause err = AuthErrorUnauthorized) then set_token EmptyString EmptyString m else m in
              (m, Some (EMender false (EWrap "authorization request failed" err)))
          | Ok rsp =>
              if bool_decide (rsp = EmptyString) then (m, Some (EText "empty auth response data"))
              else (set_token rsp url m, None)
          end
      end
  end.

End auth.
