(* ===== verification/AuthSpec.v ===== *)
(** * AuthSpec: where a token comes from

    Theorems about [Auth]: which servers are asked, in which order, and what
    becomes of token and server. *)

From S2P Require Import Prelude Json Text Os DirStore Keystore ReauthClient ReauthClientSpec Auth.
From Stdlib Require Import Ascii.

Open Scope Z_scope.

(** ** What is sent can be read *)

(** The message is the JSON text of its three fields. *)
Lemma ToBytes_readable ard : exists text, ToBytes ard = text +:+ newline /\
  unmarshal_text text = Some (JObj [("id_data", JStr (IdData ard)); ("tenant_token", JStr (TenantToken ard));
                                    ("pubkey", JStr (Pubkey ard))]).
Proof. eexists. split; [done|]. apply unmarshal_marshal_text. Qed.

(** A response is the token, or an error whose cause is the rejection exactly for the status 401. *)
Lemma auth_response_cases rsp :
  match auth_response rsp with
  | Ok data => StatusCode rsp = StatusOK /\ Body rsp = Ok data
  | Err err => StatusCode rsp = StatusUnauthorized -> Cause err = AuthErrorUnauthorized
  end.
Proof.
  unfold auth_response. destruct (Z.eqb_spec (StatusCode rsp) StatusUnauthorized); [done|].
  destruct (Z.eqb_spec (StatusCode rsp) StatusOK); [|done]. by destruct (Body rsp).
Qed.

(** ** The servers that are asked *)

Section auth.
Context {D : Type} `{FileOs (Logged D)} `{OpenSSL (Logged D) PrivateKey} `{Transport D} `{HttpErrors}.
Context (identity : IO D string).

(** The identity is asked of a helper, which is not on the network. *)
Definition quiet {A} (m : IO D A) : IO (Logged D) A := fun s =>
  let '(r, d) := m (inner s) in (r, mkLogged (log s) d).

#[local] Instance quiet_identity : IdentityDataGetter (Logged D) := quiet identity.

Implicit Types m : Manager (Logged D) PrivateKey.

(** A signed message to a server's address for requests of authorization. *)
Definition asks_server (keys : Keystore PrivateKey) (tenant server : string) (e : NetEvent) : Prop :=
  exists q r idata pub sig, e = Sent q r /\ sent_method q = "POST" /\
    ParseURL (D:=D) (buildApiURL server "/v1/authentication/auth_requests") = Ok (sent_url q) /\
    PublicPEM keys = Ok pub /\
    (let body := ToBytes (mkAuthReqData idata (TrimSpace tenant) pub) in
     sent_body q = Some body /\ Sign keys body = Ok sig /\
     sent_header q !! "X-Men-Signature" = Some [base64 sig]).

(** The events are requests to some of the servers, in their order. *)
Definition asked (keys : Keystore PrivateKey) (tenant : string) (servers : list string) (l : list NetEvent) : Prop :=
  exists some, sublist some servers /\ Forall2 (asks_server keys tenant) some l.

(** A response with a token. *)
Definition accepts (e : NetEvent) (token : string) : Prop :=
  exists q resp, e = Sent q (Ok resp) /\ StatusCode resp = StatusOK /\ Body resp = Ok token.

Lemma wrap_quiet {A} msg (p : IO (Logged D) A) s r s' : wrap msg p s = (r, s') ->
  (forall r0 s0, p s = (r0, s0) -> log s0 = log s) -> log s' = log s.
Proof. intros (r0 & Hp & _)%wrap_inv Hq. by apply (Hq r0). Qed.

Lemma MakeAuthRequest_quiet keys tenant s r s' : MakeAuthRequest keys tenant s = (r, s') ->
  log s' = log s /\
  match r with
  | Ok req => exists idata pub, PublicPEM keys = Ok pub /\
      Data req = ToBytes (mkAuthReqData idata (TrimSpace tenant) pub) /\ Sign keys (Data req) = Ok (Signature req)
  | Err _ => True
  end.
Proof.
  unfold MakeAuthRequest, GetIdentity, quiet_identity, wrap, quiet, asks, mbind, IO_bind.
  destruct (identity (inner s)) as [[idata|err] d]; [|by intros [= <- <-]].
  destruct (PublicPEM keys) as [pub|] eqn:Hp; [|by intros [= <- <-]].
  set (body := ToBytes (mkAuthReqData idata (TrimSpace tenant) pub)).
  destruct (Sign keys body) as [sig|] eqn:Hs; intros [= <- <-]; [|done]. split; [done|]. by exists idata, pub.
Qed.

(** One server: at most one request, and a token only from an answer. *)
Lemma auth_Request_events server keys tenant s : exists r s' l, auth_Request server keys tenant s = (r, s') /\
  log s' = log s ++ l /\ (l = [] \/ exists e, l = [e] /\ asks_server keys tenant server e) /\
  match r with
  | Ok token => exists e, l = [e] /\ accepts e token
  | Err _ => forall e token, e ∈ l -> ~ accepts e token
  end.
Proof.
  unfold auth_Request, makeAuthRequest. unfold mbind at 1, IO_bind at 1. unfold wrap at 1, mbind at 1, IO_bind at 1.
  destruct (wrap "failed to obtain authorization message data" (MakeAuthRequest keys tenant) s) as [r0 s0] eqn:Hm.
  apply wrap_inv in Hm as (r1 & Hm & Hr0). apply MakeAuthRequest_quiet in Hm as [Hlog Hreq].
  assert (forall err : error, exists r s' l, (Err err : result string, s0) = (r, s') /\ log s' = log s ++ l /\
    (l = [] \/ exists e, l = [e] /\ asks_server keys tenant server e) /\
    match r with
    | Ok token => exists e, l = [e] /\ accepts e token
    | Err _ => forall e token, e ∈ l -> ~ accepts e token
    end) as Hno.
  { intros err. eexists _, s0, []. rewrite app_nil_r. split; [done|]. split; [done|]. split; [by left|].
    by intros e token He%elem_of_nil. }
  destruct r1 as [req|err]; rewrite Hr0; [|apply Hno]. clear Hr0.
  unfold mbind, IO_bind. unfold wrap, asks.
  destruct (ParseURL (buildApiURL server "/v1/authentication/auth_requests")) as [url|err] eqn:Hu; [|apply Hno].
  cbn [mret IO_ret]. unfold try. cbn [RoundTrip Logged_Transport].
  match goal with |- context [record ?f ?p s0] => destruct (record_run f p s0) as (r & d & ->) end.
  destruct Hreq as (idata & pub & Hpub & Hdata & Hsig).
  assert (forall r, asks_server keys tenant server (Sent (mkSent "POST" url
    (header_set "X-Men-Signature" (base64 (Signature req))
       (header_set "Authorization" ("Bearer " +:+ Token req) (header_set "Content-Type" "application/json" ∅)))
    (Some (Data req))) r)) as Hask.
  { intros r'. eexists _, _, idata, pub, _. split; [done|]. split; [done|]. split; [exact Hu|]. split; [done|].
    rewrite <- Hdata. split; [done|]. split; [exact Hsig|]. cbn [sent_header]. apply lookup_insert_eq. }
  destruct r as [rsp|err].
  - eexists (auth_response rsp), _, [_]. split; [done|]. cbn [log]. rewrite Hlog. split; [done|].
    split; [right; eauto|]. pose proof (auth_response_cases rsp) as Hc.
    destruct (auth_response rsp) as [token|err] eqn:Hr.
    + eexists. split; [done|]. eexists _, _. split; [done|]. exact Hc.
    + intros e token ->%list_elem_of_singleton (q & resp & [= _ <-] & Hok & Hb).
      unfold auth_response in Hr. rewrite Hok, Hb in Hr. done.
  - eexists (Err (request_error err)), _, [_]. split; [done|]. cbn [log]. rewrite Hlog. split; [done|].
    split; [right; eauto|]. intros e token ->%list_elem_of_singleton (q & resp & [=] & _).
Qed.

Lemma authorize_with_events server rest keys tenant s : exists r url s' l,
  authorize_with server rest keys tenant s = ((r, url), s') /\ log s' = log s ++ l /\
  asked keys tenant (server :: rest) l /\ url ∈ server :: rest /\
  match r with
  | Ok token => exists l0 e, l = l0 ++ [e] /\ accepts e token /\ asks_server keys tenant url e /\
      forall e' token', e' ∈ l0 -> ~ accepts e' token'
  | Err _ => forall e token, e ∈ l -> ~ accepts e token
  end.
Proof.
  revert server s. induction rest as [|next rest IH]; intros server s; cbn [authorize_with];
    destruct (auth_Request_events server keys tenant s) as (r & s1 & l & -> & Hlog & Hl & Hr).
  - assert (asked keys tenant [server] l) as Hasked.
    { destruct Hl as [->|(e & -> & He)]; [exists []; split; [apply sublist_nil_l|constructor]|].
      exists [server]. split; [done|]. by constructor. }
    destruct r as [token|err].
    + destruct Hr as (e & -> & He). eexists (Ok token), server, s1, [e]. split; [done|]. split; [done|].
      split; [done|]. split; [by left|]. exists [], e. split; [done|]. split; [done|].
      split; [|by intros e' ? ?%elem_of_nil]. by destruct Hl as [|(e' & [= ->] & He')].
    + eexists (Err err), server, s1, l. by repeat (split; [done || by left|]).
  - destruct r as [token|err].
    + destruct Hr as (e & -> & He). destruct Hl as [|(e' & [= <-] & He')]; [done|].
      eexists (Ok token), server, s1, [e]. split; [done|]. split; [done|]. split.
      { exists [server]. split; [apply sublist_skip, sublist_nil_l|by constructor]. }
      split; [by left|]. exists [], e. split; [done|]. split; [done|]. split; [done|]. by intros ? ? ?%elem_of_nil.
    + destruct (IH next s1) as (r2 & url & s2 & l2 & -> & Hlog2 & (some & Hsub & Hall) & Hurl & Hr2).
      eexists r2, url, s2, (l ++ l2). split; [done|]. split; [by rewrite Hlog2, Hlog, (assoc_L (++))|].
      split.
      { destruct Hl as [->|(e & -> & He)].
        - exists some. split; [by apply sublist_cons|done].
        - exists (server :: some). split; [by apply sublist_skip|by constructor]. }
      split; [by right|]. destruct r2 as [token|err2].
      * destruct Hr2 as (l0 & e & -> & He & Ha & Hno). exists (l ++ l0), e. rewrite (assoc_L (++)).
        split; [done|]. split; [done|]. split; [done|]. intros e' token' [Hin|Hin]%elem_of_app; [by apply Hr|by apply Hno].
      * intros e token [Hin|Hin]%elem_of_app; [by apply Hr|by apply Hr2].
Qed.

(** Making sure there is a key changes neither token nor server. *)
Lemma Bootstrap_same m m' err : Bootstrap m = (m', err) ->
  authToken m' = authToken m /\ serverURL m' = serverURL m /\ Servers m' = Servers m /\ tenantToken m' = tenantToken m.
Proof.
  unfold Bootstrap, doBootstrap, GenerateKey. intros Hb.
  repeat (case_match; simplify_eq); by repeat split.
Qed.

End auth.

(** Where a token comes from.  For every network, key store and helper: a fetch asks servers of the
    configuration, in their order and each at most once, with a message about this device that its key signed.
    The manager then has the token of the first of them that answered with one that is not empty, together with
    the address of that server, and asked nobody after it; or what it had before; or, if the last attempt was
    rejected, neither token nor server.  There is no error exactly in the first case. *)
Theorem fetch_takes_the_first_token `{FileOs (Logged D)} `{OpenSSL (Logged D) PrivateKey} `{Transport D} `{HttpErrors}
    (identity : IO D string) (m m' : Manager (Logged D) PrivateKey) (err : option error)
    (Hrun : fetch (Id:=quiet_identity identity) m = (m', err)) :
  exists l, log (outside m') = log (outside (Bootstrap m).1) ++ l /\
    asked (keyStore (Bootstrap m).1) (tenantToken m) (Servers m) l /\
    ((err = None /\ authToken m' <> EmptyString /\ serverURL m' ∈ Servers m /\
      exists l0 e, l = l0 ++ [e] /\ accepts e (authToken m') /\
        asks_server (keyStore (Bootstrap m).1) (tenantToken m) (serverURL m') e /\
        forall e' token, e' ∈ l0 -> ~ accepts e' token) \/
     (is_Some err /\ authToken m' = authToken m /\ serverURL m' = serverURL m) \/
     (authToken m' = EmptyString /\ serverURL m' = EmptyString /\
      exists e, err = Some e /\ Cause e = AuthErrorUnauthorized)).
Proof.
  unfold fetch in Hrun. destruct (Bootstrap m) as [m1 e1] eqn:Hb.
  destruct (Bootstrap_same m m1 e1 Hb) as (Ht & Hu & Hs & Htt). cbn [fst].
  assert (asked (keyStore m1) (tenantToken m) (Servers m) []) as Hnone by (exists []; split; [apply sublist_nil_l|constructor]).
  destruct e1 as [e1|].
  { injection Hrun as <- <-. exists []. rewrite app_nil_r. split; [done|]. split; [done|]. right. left. by eauto. }
  rewrite <- Hs, <- Htt, <- Ht, <- Hu in *.
  destruct (Servers m1) as [|server rest] eqn:Hservers.
  { injection Hrun as <- <-. exists []. rewrite app_nil_r. split; [done|]. split; [done|]. right. left. by eauto. }
  destruct (authorize_with_events identity server rest (keyStore m1) (tenantToken m1) (outside m1))
    as (r & url & d & l & Ha & Hlog & Hasked & Hurl & Hr).
  rewrite Ha in Hrun. destruct r as [token|e].
  - case_bool_decide as Hempty.
    + injection Hrun as <- <-. exists l. split; [done|]. split; [done|]. right. left. by eauto.
    + injection Hrun as <- <-. exists l. split; [done|]. split; [done|]. left. by auto.
  - exists l. case_bool_decide as Hc; injection Hrun as <- <-; (split; [done|]; split; [done|]).
    + right. right. split; [done|]. split; [done|]. eauto.
    + right. left. by eauto.
Qed.

(** ** Two servers *)

(** The servers by name, with what they answer. *)
Definition Net : Type := gmap string Response.

#[export] Instance Net_Transport : Transport Net := {
  RoundTrip q d := (match d !! Host (sent_url q) with Some r => Ok r | None => Err (EText "connection refused") end, d);
  ParseURL u := Ok (mkURL "https" (TrimPrefix u "https://") EmptyString EmptyString)
}.

(** There is a key already, so that no file is touched. *)
#[export] Instance Net_FileOs : FileOs (Logged Net) := {
  OpenFileR _ _ := Err ErrNotExist;
  OpenFileW _ := fail ErrNotExist;
  WriteTo _ _ := fail ErrNotExist;
  CloseFile _ := fail ErrNotExist;
  RenameFile _ _ := fail ErrNotExist;
  RemoveEntry _ := fail ErrNotExist
}.

#[export] Instance Net_OpenSSL : OpenSSL (Logged Net) ascii := {
  GenerateRSAKey _ := mret "k"%char;
  LoadPrivateKeyFromPEM _ := Err ErrNotExist;
  LoadPrivateKeyFromPEMWithPassword _ _ := Err ErrNotExist;
  EngineById _ _ := Some ErrNotExist;
  EngineLoadPrivateKey _ _ _ := Err ErrNotExist;
  MarshalPKCS1PrivateKeyPEM key := Ok (String key EmptyString);
  MarshalPKIXPublicKeyPEM key := Ok (String key EmptyString);
  IsED25519 _ := false;
  SignPKCS1v15 _ key data := Ok (String key (FormatInt 10 false (Z.of_nat (String.length data))))
}.

#[export] Instance Net_errors : HttpErrors := fun _ => None.

Definition two_servers : list string := ["one.example.com"; "two.example.com"].
Definition auth_host (server : string) : string := server +:+ "/api/devices/v1/authentication/auth_requests".

Definition manager (net : Net) : Manager (Logged Net) ascii :=
  mkManager "old token" "one.example.com" " tenant " false
    (mkKeystore (NewDirStore "/data") (Some "k"%char) "agent.pem" EmptyString EmptyString false)
    two_servers (mkLogged [] net).

Notation fetch_from net := (fetch (Id:=quiet_identity (fun d : Net => (Ok "{mac:1}", d))) (manager net)).

(** The first server rejects the device, the second accepts it. *)
Definition second_accepts : Net :=
  {[auth_host "one.example.com" := ReauthClient.mkResponse 401 EmptyString (Ok EmptyString);
    auth_host "two.example.com" := ReauthClient.mkResponse 200 EmptyString (Ok "new token")]}.

(** Nobody answers: the old token stays. *)
Example nobody_answers : let '(m, err) := fetch_from (∅ : Net) in
  authToken m = "old token" /\ serverURL m = "one.example.com" /\ is_Some err.
Proof. vm_compute. split; [done|]. split; [done|]. by eexists. Qed.

Lemma fetch_takes_the_first_token_witness :
  exists m', fetch_from second_accepts = (m', None) /\ authToken m' = "new token" /\ serverURL m' = "two.example.com" /\
    exists l, log (outside m') = [] ++ l /\ length l = 2%nat /\
      asked (D:=Net) (keyStore (manager second_accepts)) " tenant " two_servers l.
Proof.
  destruct (fetch_from second_accepts) as [m' err] eqn:Hrun.
  assert (authToken (fetch_from second_accepts).1 = "new token" /\ serverURL (fetch_from second_accepts).1 = "two.example.com" /\
    (fetch_from second_accepts).2 = None /\ length (log (outside (fetch_from second_accepts).1)) = 2%nat) as (Ht & Hs & He & Hl)
    by (vm_compute; done).
  rewrite Hrun in Ht, Hs, He, Hl. cbn in Ht, Hs, He, Hl. exists m'. rewrite He in *.
  split; [done|]. split; [done|]. split; [done|].
  destruct (fetch_takes_the_first_token (fun d : Net => (Ok "{mac:1}", d)) (manager second_accepts) m' None Hrun)
    as (l & Hlog & Hasked & _).
  exists l. split; [exact Hlog|]. split; [|exact Hasked].
  change (log (outside (Bootstrap (manager second_accepts)).1)) with ([] : list NetEvent) in Hlog. cbn in Hlog. by rewrite <- Hlog.
Defined.
