(* ===== verification/AuthManager.v ===== *)
(** * AuthManager: the goroutines around the token

    The authorization manager of app/auth.go runs as two goroutines, the main
    loop, which answers requests, and the worker, which fetches tokens ([fetch] of
    [Auth]).  They are connected by channels with the program's loop, which calls
    [Mender.Authorize] (app/mender.go), and with the callbacks of D-Bus.  Here the
    whole is a state with a step function: an event says which of them goes on
    with its next action.  Any list of events is a schedule. *)

From S2P Require Import Prelude Text Os DirStore Keystore ReauthClient Auth.

Open Scope nat_scope.

(** ** Data *)

(** The local proxy (app/proxy): it forwards to a server with a token, and has an
    address while it runs. *)
Class ProxyController (D : Type) := {
  proxy_Stop : D -> D;
  proxy_Reconfigure : string -> string -> IO D unit;
  proxy_Start : D -> D;
  GetServerUrl : D -> string
}.

Inductive Requester : Type := FromMender | FromDBus.

(** AuthManagerRequest, by its action; the one without an action ends the worker. *)
Inductive AuthManagerRequest : Type :=
  | ActionGetAuthToken (from : Requester)
  | ActionFetchAuthToken (from : Requester)
  | NoAction.

#[export] Instance requester_eq_dec : EqDecision Requester.
Proof. solve_decision. Defined.

#[export] Instance request_eq_dec : EqDecision AuthManagerRequest.
Proof. solve_decision. Defined.

(** What is broadcast: a token and an address. *)
Definition Broadcast : Type := string * string.

(** A broadcast channel, which holds one message; the message is given by its
    number among all broadcasts. *)
Record Channel := mkChannel { buffer : option nat; closed : bool }.

Definition authManagerInMessageChanSize : nat := 1024.
Definition authManagerWorkerQueueSize : nat := 1.

(** The worker: between requests, fetching, then about to assign token and server,
    to reconfigure the proxy and to broadcast.  A panic of it ends the whole
    process. *)
Inductive Worker : Type :=
  | WorkerIdle
  | Fetching
  | AssignToken (token url : string)
  | AssignURL (url : string)
  | ConfigureProxy
  | Broadcasting
  | WorkerQuit
  | Panicked.

(** The loop of the program in [Authorize], with the channel it got and the number
    of broadcasts there were when it had drained it. *)
Inductive Caller : Type :=
  | NotCalled
  | Draining (ch : nat)
  | Requesting (ch mark : nat)
  | AwaitingResponse (ch mark : nat)
  | AwaitingBroadcast (ch mark : nat).

(** A call that is over: the mark, and the number of the message it received, or
    none when the channel was closed. *)
Record Call := mkCall { call_mark : nat; received : option nat }.

Record Sys (D PrivateKey : Type) := mkSys {
  manager : Manager D PrivateKey;
  running : bool;
  inChan : list AuthManagerRequest;
  workerChan : list AuthManagerRequest;
  worker : Worker;
  broadcastChans : gmap string nat;
  channels : gmap nat Channel;
  broadcasts : list Broadcast;
  caller : Caller;
  response : bool;
  calls : list Call;
  answers : list (string * string)
}.
Arguments mkSys {D PrivateKey}.
Arguments manager {D PrivateKey}.
Arguments running {D PrivateKey}.
Arguments inChan {D PrivateKey}.
Arguments workerChan {D PrivateKey}.
Arguments worker {D PrivateKey}.
Arguments broadcastChans {D PrivateKey}.
Arguments channels {D PrivateKey}.
Arguments broadcasts {D PrivateKey}.
Arguments caller {D PrivateKey}.
Arguments response {D PrivateKey}.
Arguments calls {D PrivateKey}.
Arguments answers {D PrivateKey}.

(** Who goes on. *)
Inductive Event : Type :=
  | StepMender         (* the loop of the program: [Authorize] *)
  | StepDBus (fetches : bool)  (* a callback of D-Bus sends a request *)
  | StepMain           (* the main loop takes a request *)
  | StepWorker         (* the worker *)
  | StepStop.          (* the main loop is told to stop *)

Section system.
Context `{FileOs D} `{OpenSSL D PrivateKey} `{Id : IdentityDataGetter D} `{Transport D} `{HttpErrors}
  `{ProxyController D}.
Notation Sys := (Sys D PrivateKey).
Implicit Types s : Sys.

(** ** Updates *)

Definition set_manager m s : Sys :=
  mkSys m (running s) (inChan s) (workerChan s) (worker s) (broadcastChans s) (channels s) (broadcasts s) (caller s)
    (response s) (calls s) (answers s).
Definition set_worker w s : Sys :=
  mkSys (manager s) (running s) (inChan s) (workerChan s) w (broadcastChans s) (channels s) (broadcasts s) (caller s)
    (response s) (calls s) (answers s).
Definition set_inChan l s : Sys :=
  mkSys (manager s) (running s) l (workerChan s) (worker s) (broadcastChans s) (channels s) (broadcasts s) (caller s)
    (response s) (calls s) (answers s).
Definition set_workerChan l s : Sys :=
  mkSys (manager s) (running s) (inChan s) l (worker s) (broadcastChans s) (channels s) (broadcasts s) (caller s)
    (response s) (calls s) (answers s).
Definition set_caller c s : Sys :=
  mkSys (manager s) (running s) (inChan s) (workerChan s) (worker s) (broadcastChans s) (channels s) (broadcasts s) c
    (response s) (calls s) (answers s).
Definition set_response b s : Sys :=
  mkSys (manager s) (running s) (inChan s) (workerChan s) (worker s) (broadcastChans s) (channels s) (broadcasts s)
    (caller s) b (calls s) (answers s).
Definition set_channels names chs s : Sys :=
  mkSys (manager s) (running s) (inChan s) (workerChan s) (worker s) names chs (broadcasts s) (caller s) (response s)
    (calls s) (answers s).
Definition stop_running s : Sys :=
  mkSys (manager s) false (inChan s) (workerChan s) (worker s) (broadcastChans s) (channels s) (broadcasts s) (caller s)
    (response s) (calls s) (answers s).
Definition add_broadcast b s : Sys :=
  mkSys (manager s) (running s) (inChan s) (workerChan s) (worker s) (broadcastChans s) (channels s) (broadcasts s ++ [b])
    (caller s) (response s) (calls s) (answers s).
Definition end_call c s : Sys :=
  mkSys (manager s) (running s) (inChan s) (workerChan s) (worker s) (broadcastChans s) (channels s) (broadcasts s)
    NotCalled (response s) (calls s ++ [c]) (answers s).
Definition add_answer a s : Sys :=
  mkSys (manager s) (running s) (inChan s) (workerChan s) (worker s) (broadcastChans s) (channels s) (broadcasts s)
    (caller s) (response s) (calls s) (answers s ++ [a]).

(** ** The program's loop: [Authorize] *)

Definition authManagerChannelName : string := "mender".

(** The channel of a name, which is made if there is none. *)
Definition GetBroadcastMessageChan (name : string) s : nat * Sys :=
  match broadcastChans s !! name with
  | Some ch => (ch, s)
  | None =>
      let ch := fresh (dom (channels s)) in
      (ch, set_channels (<[name := ch]> (broadcastChans s)) (<[ch := mkChannel None false]> (channels s)) s)
  end.

Definition clear_buffer (ch : nat) s : Sys :=
  set_channels (broadcastChans s) (alter (fun c => mkChannel None (closed c)) ch (channels s)) s.

Definition caller_step s : option Sys :=
  match caller s with
  | NotCalled =>
      let '(ch, s) := GetBroadcastMessageChan authManagerChannelName s in
      Some (set_caller (Draining ch) (set_response false s))
  | Draining ch => Some (set_caller (Requesting ch (length (broadcasts s))) (clear_buffer ch s))
  | Requesting ch mark =>
      if decide (length (inChan s) < authManagerInMessageChanSize) then
        Some (set_caller (AwaitingResponse ch mark) (set_inChan (inChan s ++ [ActionFetchAuthToken FromMender]) s))
      else None
  | AwaitingResponse ch mark =>
      if response s then Some (set_caller (AwaitingBroadcast ch mark) (set_response false s)) else None
  | AwaitingBroadcast ch mark =>
      match channels s !! ch with
      | Some (mkChannel (Some n) _) => Some (end_call (mkCall mark (Some n)) (clear_buffer ch s))
      | Some (mkChannel None true) => Some (end_call (mkCall mark None) s)
      | _ => None
      end
  end.

(** What [Authorize] returns. *)
Definition call_result s (c : Call) : result (string * string) :=
  match received c ≫= fun n => broadcasts s !! n with
  | None => Err (EMender false (EText "authorization request failed: channel read failed"))
  | Some (token, url) =>
      if bool_decide (token = EmptyString) || bool_decide (url = EmptyString)
      then Err (EMender false (EText "authorization request failed")) else Ok (token, url)
  end.

(** ** The main loop *)

(** The response channels have room for the response, which is sent at once. *)
Definition respond (from : Requester) s : Sys :=
  match from with FromMender => set_response true s | FromDBus => s end.

(** The request goes to the worker, unless one is waiting already. *)
Definition to_worker (msg : AuthManagerRequest) s : Sys :=
  if decide (length (workerChan s) < authManagerWorkerQueueSize) then set_workerChan (workerChan s ++ [msg]) s else s.

Definition main_step s : option Sys :=
  if running s then
    match inChan s with
    | [] => None
    | ActionGetAuthToken _ :: l =>
        Some (add_answer (authToken (manager s), serverURL (manager s)) (set_inChan l s))
    | ActionFetchAuthToken from :: l =>
        Some (to_worker (ActionFetchAuthToken from) (respond from (set_inChan l s)))
    | NoAction :: l => Some (set_inChan l s)
    end
  else None.

(** The end of the main loop, which waits for room in the worker's channel. *)
Definition stop_step s : option Sys :=
  if running s then
    if decide (length (workerChan s) < authManagerWorkerQueueSize)
    then Some (stop_running (set_workerChan (workerChan s ++ [NoAction]) s)) else None
  else None.

(** ** The worker *)

(** The proxy forwards to the server with the token, if there is one.  When it
    cannot be reconfigured, the message has the first seven characters of the token:
    slicing a shorter one panics ([true]). *)
Definition configure_proxy (token url : string) (d : D) : bool * D :=
  let d := proxy_Stop d in
  if bool_decide (token = EmptyString) then (false, d)
  else
    match proxy_Reconfigure url token d with
    | (Err _, d) => (String.length token <? 7, d)
    | (Ok _, d) => (false, proxy_Start d)
    end.

(** One subscriber: the message is put into its channel, or the channel, which is
    full, is closed and forgotten. *)
Definition deliver (n : nat) (name : string) (ch : nat) (acc : gmap string nat * gmap nat Channel) :
    gmap string nat * gmap nat Channel :=
  match acc.2 !! ch with
  | Some (mkChannel None c) => (acc.1, <[ch := mkChannel (Some n) c]> acc.2)
  | Some (mkChannel (Some k) _) => (delete name acc.1, <[ch := mkChannel (Some k) true]> acc.2)
  | None => acc
  end.

Definition broadcast (message : Broadcast) s : Sys :=
  let '(names, chs) :=
    map_fold (deliver (length (broadcasts s))) (broadcastChans s, channels s) (broadcastChans s) in
  add_broadcast message (set_channels names chs s).

Definition worker_step s : option Sys :=
  let m := manager s in
  match worker s with
  | WorkerIdle =>
      match workerChan s with
      | ActionFetchAuthToken _ :: l => Some (set_worker Fetching (set_workerChan l s))
      | NoAction :: l => Some (set_worker WorkerQuit (set_workerChan l s))
      | ActionGetAuthToken _ :: l => Some (set_workerChan l s)
      | [] => None
      end
  | Fetching =>
      let m' := (fetch m).1 in
      Some (set_worker (AssignToken (authToken m') (serverURL m'))
              (set_manager (set_token (authToken m) (serverURL m) m') s))
  | AssignToken token url => Some (set_worker (AssignURL url) (set_manager (set_token token (serverURL m) m) s))
  | AssignURL url => Some (set_worker ConfigureProxy (set_manager (set_token (authToken m) url m) s))
  | ConfigureProxy =>
      let '(panics, d) := configure_proxy (authToken m) (serverURL m) (outside m) in
      Some (set_worker (if panics then Panicked else Broadcasting) (set_manager (set_outside d m) s))
  | Broadcasting =>
      Some (set_worker WorkerIdle (broadcast (authToken m, GetServerUrl (outside m)) s))
  | WorkerQuit | Panicked => None
  end.

(** ** All together *)

Definition dbus_step (fetches : bool) s : option Sys :=
  if decide (length (inChan s) < authManagerInMessageChanSize) then
    Some (set_inChan (inChan s ++ [if fetches then ActionFetchAuthToken FromDBus else ActionGetAuthToken FromDBus]) s)
  else None.

Definition panicked s : bool := match worker s with Panicked => true | _ => false end.

(** After a panic nothing goes on. *)
Definition step (e : Event) s : option Sys :=
  if panicked s then None
  else
    match e with
    | StepMender => caller_step s
    | StepDBus fetches => dbus_step fetches s
    | StepMain => main_step s
    | StepWorker => worker_step s
    | StepStop => stop_step s
    end.

Fixpoint run (es : list Event) s : option Sys :=
  match es with
  | [] => Some s
  | e :: es => match step e s with Some s => run es s | None => None end
  end.

(** A manager that has been started. *)
Definition started (m : Manager D PrivateKey) : Sys :=
  mkSys m true [] [] WorkerIdle ∅ ∅ [] NotCalled false [] [].

End system.
