(* ===== verification/AuthManagerSpec.v ===== *)
(** * AuthManagerSpec: a call of [Authorize] ends, with a fresh answer

    Theorems about [AuthManager], for every schedule; then schedules with the two
    servers of [AuthSpec], which also show what callers must not expect. *)

From S2P Require Import Prelude Text Os DirStore Keystore ReauthClient ReauthClientSpec Auth AuthSpec AuthManager.

Open Scope nat_scope.

Section invariant.
Context `{FileOs D} `{OpenSSL D PrivateKey} `{Id : IdentityDataGetter D} `{Transport D} `{HttpErrors}
  `{ProxyController D}.
Notation Sys := (Sys D PrivateKey).
Implicit Types s : Sys.

(** ** The invariant *)

Definition is_mender_fetch (r : AuthManagerRequest) : bool :=
  match r with ActionFetchAuthToken FromMender => true | _ => false end.

(** How many requests of the call are waiting for the main loop. *)
Definition mender_requests (l : list AuthManagerRequest) : nat := length (List.filter is_mender_fetch l).

Lemma mender_requests_app l k : mender_requests (l ++ k) = mender_requests l + mender_requests k.
Proof. unfold mender_requests. by rewrite List.filter_app, length_app. Qed.

Definition is_fetch (r : AuthManagerRequest) : bool :=
  match r with ActionFetchAuthToken _ => true | _ => false end.

Definition worker_busy (w : Worker) : bool :=
  match w with WorkerIdle | WorkerQuit => false | _ => true end.

(** A broadcast is still to come. *)
Definition pending s : Prop := worker_busy (worker s) = true \/ workerChan s <> [].

Definition caller_channel (c : Caller) : option nat :=
  match c with
  | NotCalled => None
  | Draining ch | Requesting ch _ | AwaitingResponse ch _ | AwaitingBroadcast ch _ => Some ch
  end.

Definition caller_mark (c : Caller) : option nat :=
  match c with
  | NotCalled | Draining _ => None
  | Requesting _ mark | AwaitingResponse _ mark | AwaitingBroadcast _ mark => Some mark
  end.

(** The main loop has taken the call's request. *)
Definition accepted s : Prop :=
  match caller s with
  | AwaitingResponse _ _ => response s = true
  | AwaitingBroadcast _ _ => True
  | _ => False
  end.

(** Only the program's loop subscribes. *)
Definition names_ok s : Prop :=
  broadcastChans s = ∅ \/
  exists ch b, broadcastChans s = {[authManagerChannelName := ch]} /\ channels s !! ch = Some (mkChannel b false).

(** Messages in channels are broadcasts. *)
Definition buffers_ok s : Prop :=
  forall ch n c, channels s !! ch = Some (mkChannel (Some n) c) -> n < length (broadcasts s).

(** The channel of the call is open and known to the worker, or closed; what it
    holds was broadcast after it was drained. *)
Definition caller_ok s : Prop :=
  forall ch, caller_channel (caller s) = Some ch ->
    exists b c, channels s !! ch = Some (mkChannel b c) /\
      (c = true \/ broadcastChans s !! authManagerChannelName = Some ch) /\
      (forall mark, caller_mark (caller s) = Some mark ->
         mark <= length (broadcasts s) /\ forall n, b = Some n -> mark <= n) /\
      (running s = true -> accepted s -> b <> None \/ c = true \/ pending s).

(** The request is with the main loop, or its response is there, or neither. *)
Definition request_ok s : Prop :=
  mender_requests (inChan s) + (if response s then 1 else 0) =
  match caller s with AwaitingResponse _ _ => 1 | _ => 0 end.

(** The worker is asked for nothing but fetches until the main loop has ended. *)
Definition queue_ok s : Prop :=
  length (workerChan s) <= authManagerWorkerQueueSize /\ length (inChan s) <= authManagerInMessageChanSize /\
  forallb (fun r => match r with NoAction => false | _ => true end) (inChan s) = true /\
  (running s = true -> worker s <> WorkerQuit /\ forallb is_fetch (workerChan s) = true).

(** What a call received was broadcast after it began. *)
Definition calls_ok s : Prop :=
  forall c n, c ∈ calls s -> received c = Some n -> call_mark c <= n < length (broadcasts s).

Definition Inv s : Prop :=
  names_ok s /\ buffers_ok s /\ caller_ok s /\ request_ok s /\ queue_ok s /\ calls_ok s.

Lemma Inv_started (m : Manager D PrivateKey) : Inv (started m).
Proof.
  split; [by left|]. split; [by intros ch n c Hch|]. split; [by intros ch Hch|]. split; [done|].
  split; [repeat split; done || apply Nat.le_0_l|]. by intros c n Hc%elem_of_nil.
Qed.

(** ** Broadcasting *)

Lemma broadcast_channels (message : Broadcast) s : names_ok s ->
  exists names chs, broadcast message s = add_broadcast message (set_channels names chs s) /\
    ((broadcastChans s = ∅ /\ names = ∅ /\ chs = channels s) \/
     exists ch b, broadcastChans s = {[authManagerChannelName := ch]} /\ channels s !! ch = Some (mkChannel b false) /\
       match b with
       | None => names = broadcastChans s /\ chs = <[ch := mkChannel (Some (length (broadcasts s))) false]> (channels s)
       | Some k => names = ∅ /\ chs = <[ch := mkChannel (Some k) true]> (channels s)
       end).
Proof.
  intros [Hn|(ch & b & Hn & Hc)]; unfold broadcast; rewrite Hn.
  - rewrite map_fold_empty. eexists _, _. split; [done|]. by left.
  - rewrite map_fold_singleton. unfold deliver. cbn [snd]. rewrite Hc. destruct b as [k|].
    + eexists _, _. split; [done|]. right. exists ch, (Some k). split; [done|]. split; [done|]. split; [|done].
      cbn [fst]. apply delete_singleton_eq.
    + eexists _, _. split; [done|]. right. by exists ch, None.
Qed.

(** What a broadcast does to the channel of the call. *)
Lemma caller_ok_broadcast s s' : caller_ok s -> caller s' = caller s ->
  length (broadcasts s) <= length (broadcasts s') ->
  (forall ch b c, channels s !! ch = Some (mkChannel b c) ->
     c = true \/ broadcastChans s !! authManagerChannelName = Some ch ->
     exists b' c', channels s' !! ch = Some (mkChannel b' c') /\
       (c' = true \/ broadcastChans s' !! authManagerChannelName = Some ch /\ b' <> None) /\
       (b' = b \/ b' = Some (length (broadcasts s)))) ->
  caller_ok s'.
Proof.
  intros Hc Hcaller Hlen Hgrow ch Hch. rewrite Hcaller in *.
  destruct (Hc ch Hch) as (b & c & Hl & Hopen & Hmark & _).
  destruct (Hgrow ch b c Hl Hopen) as (b' & c' & Hl' & Hopen' & Hb'). exists b', c'. split; [done|].
  split; [destruct Hopen' as [|[]]; auto|]. split.
  - intros mark Hmk. destruct (Hmark mark Hmk) as [Hle Hn]. split; [lia|]. intros n ->.
    destruct Hb' as [Heq|[= ->]]; [by apply Hn|done].
  - intros _ _. destruct Hopen' as [|[]]; auto.
Qed.

(** After a broadcast a subscriber's channel holds a message or is closed. *)
Lemma broadcast_channels_ok (message : Broadcast) s names chs : names_ok s -> buffers_ok s -> caller_ok s ->
  broadcast message s = add_broadcast message (set_channels names chs s) ->
  let s' := set_worker WorkerIdle (add_broadcast message (set_channels names chs s)) in
  names_ok s' /\ buffers_ok s' /\ caller_ok s'.
Proof.
  intros Hn Hb Hc Heq s'. destruct (broadcast_channels message s Hn) as (names' & chs' & Heq' & Hcases).
  rewrite Heq in Heq'. injection Heq' as <- <-.
  assert (length (broadcasts s') = S (length (broadcasts s))) as Hlen by (cbn; rewrite length_app; cbn; lia).
  destruct Hcases as [(He & -> & ->)|(ch & b & Hnames & Hch & Hcase)].
  - split; [by left|]. split; [intros ch n c Hch; pose proof (Hb ch n c Hch); lia|].
    apply (caller_ok_broadcast s); [done|done|lia|]. intros ch b c Hl [->|Hm]; [|by rewrite He in Hm].
    exists b, true. auto.
  - assert (forall b' c', b' = b \/ b' = Some (length (broadcasts s)) -> buffers_ok (set_worker WorkerIdle
      (add_broadcast message (set_channels names (<[ch := mkChannel b' c']> (channels s)) s)))) as Hbuf.
    { intros b' c' Hb' ch' n c. cbn. rewrite length_app. cbn. intros [[<- [= -> <-]]|[_ Hch']]%lookup_insert_Some.
      - destruct Hb' as [<-|[= ->]]; [|lia]. pose proof (Hb ch n false Hch). lia.
      - pose proof (Hb _ _ _ Hch'). lia. }
    assert (forall b' c', chs = <[ch := mkChannel b' c']> (channels s) -> b' = b \/ b' = Some (length (broadcasts s)) ->
      (c' = true \/ names = broadcastChans s /\ b' <> None) -> buffers_ok s' /\ caller_ok s') as Hboth.
    { intros b' c' -> Hb' Hc'. split; [by apply Hbuf|].
      apply (caller_ok_broadcast s); [done|done|lia|]. intros ch' b0 c0 Hl Hopen.
      destruct (decide (ch' = ch)) as [->|Hne].
      - rewrite Hch in Hl. injection Hl as <- <-. exists b', c'. split; [apply lookup_insert_eq|]. split; [|done].
        destruct Hc' as [|[-> ?]]; [by left|]. right. cbn. rewrite Hnames. split; [apply lookup_singleton_eq|done].
      - exists b0, c0. cbn. rewrite lookup_insert_ne by done. split; [done|]. split; [|by left].
        destruct Hopen as [->|Hm]; [by left|]. rewrite Hnames, lookup_singleton_eq in Hm. by injection Hm as ->. }
    destruct b as [k|]; destruct Hcase as [-> Hchs].
    + split; [by left|]. apply (Hboth (Some k) true); auto.
    + split; [|apply (Hboth (Some (length (broadcasts s))) false); auto].
      right. exists ch, (Some (length (broadcasts s))). split; [done|]. cbn. rewrite Hchs. apply lookup_insert_eq.
Qed.

Lemma broadcast_Inv (message : Broadcast) s : Inv s -> Inv (set_worker WorkerIdle (broadcast message s)).
Proof.
  intros (Hn & Hb & Hc & Hr & Hq & Hcalls).
  destruct (broadcast_channels message s Hn) as (names & chs & Heq & _). rewrite Heq.
  destruct (broadcast_channels_ok message s names chs Hn Hb Hc Heq) as (Hn' & Hb' & Hc').
  split; [done|]. split; [done|]. split; [done|]. split; [done|]. split.
  - destruct Hq as (? & ? & ? & Hrun). split; [done|]. split; [done|]. split; [done|]. intros Hrn. by split; [|apply Hrun].
  - intros c n Hin Hrec. cbn. rewrite length_app. pose proof (Hcalls c n Hin Hrec). lia.
Qed.

(** ** The other steps *)

(** A step that leaves channels, caller and response alone keeps the invariant, if
    the queues stay in order and a broadcast stays to come. *)
Lemma Inv_queues s s' : Inv s ->
  broadcastChans s' = broadcastChans s -> channels s' = channels s -> broadcasts s' = broadcasts s ->
  caller s' = caller s -> response s' = response s -> calls s' = calls s ->
  mender_requests (inChan s') = mender_requests (inChan s) -> queue_ok s' ->
  (running s' = true -> running s = true /\ (pending s -> pending s')) -> Inv s'.
Proof.
  intros (Hn & Hb & Hc & Hr & Hq & Hcalls) E1 E2 E3 E4 E5 E6 E7 Hq' Hp.
  split; [unfold names_ok; by rewrite E1, E2|]. split; [unfold buffers_ok; by rewrite E2, E3|].
  split; [|split; [unfold request_ok; by rewrite E4, E5, E7|split; [done|unfold calls_ok; by rewrite E3, E6]]].
  intros ch. rewrite E4, E2, E1, E3. intros Hch. destruct (Hc ch Hch) as (b & c & Hl & Ho & Hm & Hpend).
  exists b, c. split; [done|]. split; [done|]. split; [done|]. intros [Hrun Hpp]%Hp Hacc.
  assert (accepted s) as Hacc' by (unfold accepted in *; by rewrite E4, E5 in Hacc).
  destruct (Hpend Hrun Hacc') as [|[|]]; auto.
Qed.

Lemma worker_moves w m s : Inv s -> worker_busy w = true -> Inv (set_worker w (set_manager m s)).
Proof.
  intros HI Hw. pose proof HI as (_ & _ & _ & _ & (Hq1 & Hq2 & Hq3 & Hq4) & _).
  apply (Inv_queues s); try done.
  - split; [done|]. split; [done|]. split; [done|]. intros Hrun. split; [by destruct w|by apply Hq4].
  - intros Hrun. split; [done|]. intros _. by left.
Qed.

Lemma worker_Inv s s' : Inv s -> worker_step s = Some s' -> Inv s'.
Proof.
  intros HI. unfold worker_step. destruct (configure_proxy _ _ _) as [panics d].
  destruct (worker s) eqn:Hw; intros Hs; try (injection Hs as <-; by apply worker_moves); try done.
  - pose proof HI as (_ & _ & _ & _ & (Hq1 & Hq2 & Hq3 & Hq4) & _).
    destruct (workerChan s) as [|r l] eqn:Hl; [done|]. cbn [length] in Hq1.
    assert (l = []) as -> by (destruct l; [done|cbn in Hq1; unfold authManagerWorkerQueueSize in Hq1; lia]).
    destruct r; injection Hs as <-; (apply (Inv_queues s); [done..|split; [cbn; lia|split; [done|split; [done|]]]|]);
      cbn; intros Hrun; destruct (Hq4 Hrun) as [? Hf]; cbn in Hf; try done.
    split; [done|]. intros _. by left.
  - injection Hs as <-. apply worker_moves; [done|by destruct panics].
  - injection Hs as <-. by apply broadcast_Inv.
Qed.

Lemma queue_push s l r : queue_ok s -> length (inChan s) < authManagerInMessageChanSize -> r <> NoAction ->
  l = inChan s ++ [r] -> length l <= authManagerInMessageChanSize /\
  forallb (fun r => match r with NoAction => false | _ => true end) l = true.
Proof.
  intros (_ & _ & Hq & _) Hlen Hr ->. rewrite length_app. cbn [length]. split; [lia|].
  rewrite forallb_app, Hq. by destruct r.
Qed.

Lemma dbus_Inv fetches s s' : Inv s -> dbus_step fetches s = Some s' -> Inv s'.
Proof.
  intros HI. unfold dbus_step. case_decide as Hlen; [|done]. intros [= <-].
  pose proof HI as (_ & _ & _ & _ & Hq & _).
  set (r := if fetches then ActionFetchAuthToken FromDBus else ActionGetAuthToken FromDBus).
  destruct (queue_push s _ r Hq Hlen ltac:(by destruct fetches) eq_refl) as [Hl Hf].
  apply (Inv_queues s); try done.
  - cbn [inChan set_inChan]. rewrite mender_requests_app. subst r. destruct fetches; cbn; apply Nat.add_0_r.
  - destruct Hq as (? & _ & _ & ?). by split_and!.
Qed.

Lemma stop_Inv s s' : Inv s -> stop_step s = Some s' -> Inv s'.
Proof.
  intros HI. unfold stop_step. destruct (running s) eqn:Hrun; [|done]. case_decide as Hlen; [|done]. intros [= <-].
  pose proof HI as (_ & _ & _ & _ & (Hq1 & Hq2 & Hq3 & Hq4) & _).
  apply (Inv_queues s); try done. split; [cbn; rewrite length_app; cbn; unfold authManagerWorkerQueueSize in *; lia|].
  by split; [|split].
Qed.

(** The worker gets the request, or has one already. *)
Lemma to_worker_queue f s : queue_ok s -> running s = true ->
  exists wc, to_worker (ActionFetchAuthToken f) s = set_workerChan wc s /\ wc <> [] /\
    length wc <= authManagerWorkerQueueSize /\ forallb is_fetch wc = true.
Proof.
  intros (Hq1 & _ & _ & Hq4) Hrun. destruct (Hq4 Hrun) as [_ Hf]. unfold to_worker. case_decide as Hl.
  - eexists. split; [done|]. split; [by destruct (workerChan s)|].
    rewrite length_app, forallb_app, Hf. cbn. split; [lia|done].
  - exists (workerChan s). split; [by destruct s|]. split; [|done]. intros He. rewrite He in Hl. cbn in Hl.
    unfold authManagerWorkerQueueSize in Hl. lia.
Qed.

Lemma main_Inv s s' : Inv s -> main_step s = Some s' -> Inv s'.
Proof.
  intros HI. unfold main_step. destruct (running s) eqn:Hrun; [|done].
  pose proof HI as (Hn & Hb & Hc & Hr & (Hq1 & Hq2 & Hq3 & Hq4) & Hcalls).
  destruct (inChan s) as [|r l] eqn:Hl; [done|]. cbn [length forallb] in Hq2, Hq3. apply andb_true_iff in Hq3 as [Hr3 Hq3].
  assert (queue_ok (set_inChan l s)) as Hq by (split; [done|split; [cbn; lia|by split]]).
  destruct r as [from|from|]; intros [= <-]; [| |done].
  { apply (Inv_queues s); try done. by rewrite Hl. }
  assert (queue_ok (respond from (set_inChan l s)) /\ running (respond from (set_inChan l s)) = true) as [Hq' Hrun']
    by by destruct from.
  destruct (to_worker_queue from _ Hq' Hrun') as (wc & -> & Hwc & Hlen & Hf).
  assert (queue_ok (set_workerChan wc (respond from (set_inChan l s)))) as Hq''.
  { destruct Hq' as (_ & ? & ? & Hw). split; [done|]. split; [by destruct from|]. split; [by destruct from|].
    intros _. split; [|done]. destruct from; by apply Hw. }
  assert (pending (set_workerChan wc (respond from (set_inChan l s)))) as Hp by by right.
  destruct from; [|apply (Inv_queues s); try done; by rewrite Hl].
  unfold request_ok in Hr. rewrite Hl in Hr. change (mender_requests (ActionFetchAuthToken FromMender :: l)) with
    (S (mender_requests l)) in Hr.
  destruct (caller s) as [| | |ch mark|] eqn:Hcall; try (exfalso; lia).
  split; [done|]. split; [done|]. split; [|split; [unfold request_ok; cbn -[mender_requests]; rewrite Hcall; destruct (response s); lia|by split]].
  intros ch' Hch'. destruct (Hc ch' ltac:(exact Hch')) as (b & c & H'). exists b, c.
  destruct H' as (? & ? & ? & _). split; [done|]. split; [done|]. split; [done|]. auto.
Qed.

Lemma clear_buffer_ok ch s : names_ok s -> buffers_ok s -> names_ok (clear_buffer ch s) /\ buffers_ok (clear_buffer ch s).
Proof.
  intros Hn Hb. split.
  - destruct Hn as [He|(ch' & b' & He & Hl')]; [by left|right].
    destruct (decide (ch' = ch)) as [->|Hne]; cbn.
    + exists ch, None. split; [done|]. by rewrite lookup_alter_eq, Hl'.
    + exists ch', b'. split; [done|]. by rewrite lookup_alter_ne.
  - intros ch' n c. cbn. destruct (decide (ch' = ch)) as [->|Hne].
    + rewrite lookup_alter_eq. by destruct (channels s !! ch).
    + rewrite lookup_alter_ne by done. apply Hb.
Qed.

(** The channel of a new call. *)
Lemma GetBroadcastMessageChan_ok s ch s' : names_ok s -> buffers_ok s ->
  GetBroadcastMessageChan authManagerChannelName s = (ch, s') ->
  names_ok s' /\ buffers_ok s' /\ broadcastChans s' !! authManagerChannelName = Some ch /\
  (exists b, channels s' !! ch = Some (mkChannel b false)) /\
  exists names chs, s' = set_channels names chs s.
Proof.
  unfold GetBroadcastMessageChan. intros Hn Hb.
  destruct (broadcastChans s !! authManagerChannelName) as [ch0|] eqn:Hname; intros [= <- <-].
  - split; [done|]. split; [done|]. split; [done|]. split; [|by exists (broadcastChans s), (channels s); destruct s].
    destruct Hn as [He|(ch & b & He & Hl)]; [by rewrite He in Hname|].
    rewrite He, lookup_singleton_eq in Hname. injection Hname as ->. by exists b.
  - assert (broadcastChans s = ∅) as He.
    { destruct Hn as [|(ch & b & He & _)]; [done|]. by rewrite He, lookup_singleton_eq in Hname. }
    split; [right; eexists _, None; rewrite He; split; [done|apply lookup_insert_eq]|].
    split; [|split; [apply lookup_insert_eq|split; [eexists; apply lookup_insert_eq|by eexists _, _]]].
    intros ch n c. cbn. intros [[_ [=]]|[_ Hl]]%lookup_insert_Some. by apply (Hb ch n c).
Qed.

Lemma caller_Inv s s' : Inv s -> caller_step s = Some s' -> Inv s'.
Proof.
  intros (Hn & Hb & Hc & Hr & Hq & Hcalls). unfold caller_step. unfold request_ok in Hr.
  destruct (caller s) as [|ch|ch mark|ch mark|ch mark] eqn:Hcall; intros Hs.
  - destruct (GetBroadcastMessageChan authManagerChannelName s) as [ch s1] eqn:Hget.
    destruct (GetBroadcastMessageChan_ok s ch s1 Hn Hb Hget) as (Hn1 & Hb1 & Hm & (b & Hl) & names & chs & ->).
    injection Hs as <-. split; [done|]. split; [done|]. split; [|split; [unfold request_ok; cbn -[mender_requests]; lia|by split]].
    intros ch' [= <-]. exists b, false. split; [done|]. split; [by right|]. by split.
  - injection Hs as <-. destruct (clear_buffer_ok ch s Hn Hb) as [Hn' Hb'].
    destruct (Hc ch) as (b & c & Hl & Ho & _); [by rewrite Hcall|].
    split; [done|]. split; [done|]. split; [|by split].
    intros ch' [= <-]. exists None, c. split; [cbn; by rewrite lookup_alter_eq, Hl|]. split; [done|].
    split; [|done]. intros mark [= <-]. by split.
  - case_decide as Hlen; [|done]. injection Hs as <-.
    destruct (queue_push s _ (ActionFetchAuthToken FromMender) Hq Hlen ltac:(done) eq_refl) as [Hl Hf].
    split; [done|]. split; [done|]. split.
    + intros ch' [= <-]. destruct (Hc ch) as (b & c & Hl' & Ho & Hm & _); [by rewrite Hcall|].
      exists b, c. split; [done|]. split; [done|]. split; [rewrite Hcall in Hm; exact Hm|].
      intros _ Hacc. cbn in Hacc. rewrite Hacc in Hr. lia.
    + split; [|split; [destruct Hq as (? & _ & _ & ?); by split_and!|done]]. unfold request_ok. cbn [inChan set_inChan set_caller].
      rewrite mender_requests_app. cbn -[mender_requests]. cbn -[mender_requests] in Hr. change (mender_requests [ActionFetchAuthToken FromMender]) with 1. lia.
  - destruct (response s) eqn:Hresp; [|done]. injection Hs as <-.
    split; [done|]. split; [done|]. split; [|split; [unfold request_ok; cbn -[mender_requests]; lia|by split]].
    intros ch' [= <-]. destruct (Hc ch) as (b & c & Hl' & Ho & Hm & Hp); [by rewrite Hcall|].
    exists b, c. split; [done|]. split; [done|]. split; [rewrite Hcall in Hm; exact Hm|].
    intros Hrun _. apply Hp; [done|]. unfold accepted. by rewrite Hcall.
  - destruct (Hc ch) as (b & c & Hl & _ & Hm & _); [by rewrite Hcall|]. rewrite Hl in Hs.
    rewrite Hcall in Hm. destruct (Hm mark eq_refl) as [Hle Hmn].
    destruct b as [n|]; [|destruct c; [|done]]; injection Hs as <-.
    + destruct (clear_buffer_ok ch s Hn Hb) as [Hn' Hb']. split; [done|]. split; [done|]. split; [by intros ch' [=]|].
      split; [done|]. split; [done|]. intros k n'. cbn. rewrite elem_of_app, list_elem_of_singleton.
      intros [Hk| ->]; [by apply Hcalls|]. intros [= <-]. cbn. split; [by apply Hmn|by apply (Hb ch n c)].
    + split; [done|]. split; [done|]. split; [by intros ch' [=]|]. split; [done|]. split; [done|].
      intros k n'. cbn. rewrite elem_of_app, list_elem_of_singleton. intros [Hk| ->]; [by apply Hcalls|done].
Qed.

(** The step of a system that has not panicked. *)
Lemma step_event e s s' : step e s = Some s' -> panicked s = false /\
  match e with
  | StepMender => caller_step s
  | StepDBus fetches => dbus_step fetches s
  | StepMain => main_step s
  | StepWorker => worker_step s
  | StepStop => stop_step s
  end = Some s'.
Proof. unfold step. by destruct (panicked s). Qed.

Lemma step_Inv e s s' : Inv s -> step e s = Some s' -> Inv s'.
Proof.
  intros HI [_ Hs]%step_event. revert HI Hs. destruct e; [apply caller_Inv|apply dbus_Inv|apply main_Inv|apply worker_Inv|apply stop_Inv].
Qed.

Lemma run_Inv es s s' : Inv s -> run es s = Some s' -> Inv s'.
Proof.
  revert s. induction es as [|e es IH]; intros s HI; [by intros [= <-]|]. cbn [run].
  destruct (step e s) as [s1|] eqn:He; [|done]. by apply IH, (step_Inv e s).
Qed.

(** ** Progress *)

(** The steps of the program, the main loop and the worker. *)
Definition internal (e : Event) : bool :=
  match e with StepMender | StepMain | StepWorker => true | _ => false end.

Definition not_stop (e : Event) : bool := match e with StepStop => false | _ => true end.

Lemma step_running e s s' : not_stop e = true -> step e s = Some s' -> running s = true -> running s' = true.
Proof.
  intros He [_ Hs]%step_event. revert He Hs. destruct e as [|f| | |]; cbn [not_stop]; try done; intros _.
  - unfold caller_step, GetBroadcastMessageChan. intros Hs Hr. by repeat (case_match; simplify_eq/=).
  - unfold dbus_step. intros Hs Hr. by repeat (case_match; simplify_eq/=).
  - unfold main_step, to_worker, respond. intros Hs Hr. by repeat (case_match; simplify_eq/=).
  - unfold worker_step, broadcast. intros Hs Hr. by repeat (case_match; simplify_eq/=).
Qed.

Lemma run_running es s s' : forallb not_stop es = true -> run es s = Some s' -> running s = true -> running s' = true.
Proof.
  revert s. induction es as [|e es IH]; intros s Hes; [by intros [= <-]|]. cbn [run forallb] in *.
  apply andb_true_iff in Hes as [He Hes]. destruct (step e s) as [s1|] eqn:Hs; [|done].
  intros Hr Hrun. apply (IH s1 Hes Hr). by eapply step_running.
Qed.

Lemma worker_goes_on s : queue_ok s -> running s = true -> panicked s = false -> pending s -> is_Some (worker_step s).
Proof.
  intros (_ & _ & _ & Hq) Hrun Hpan Hp. destruct (Hq Hrun) as [Hw Hf]. unfold panicked in Hpan. unfold worker_step.
  destruct (configure_proxy _ _ _) as [panics d].
  destruct (worker s) eqn:E; first [done|by eexists|idtac].
  destruct Hp as [Hb|Hne]; [by rewrite E in Hb|]. destruct (workerChan s) as [|[] l]; first [done|by eexists].
Qed.

Lemma main_goes_on s : running s = true -> inChan s <> [] -> is_Some (main_step s).
Proof. intros Hrun Hl. unfold main_step. rewrite Hrun. destruct (inChan s) as [|[] l]; first [done|by eexists]. Qed.

Lemma call_goes_on s : Inv s -> running s = true -> panicked s = false -> caller s <> NotCalled ->
  exists e, internal e = true /\ is_Some (step e s).
Proof.
  intros (Hn & Hb & Hc & Hr & Hq & Hcalls) Hrun Hpan Hcall. unfold request_ok in Hr. unfold step. rewrite Hpan.
  destruct (caller s) as [|ch|ch mark|ch mark|ch mark] eqn:E; [done| | | |].
  - exists StepMender. split; [done|]. cbn. unfold caller_step. rewrite E. by eexists.
  - destruct (decide (length (inChan s) < authManagerInMessageChanSize)) as [Hlt|Hge].
    + exists StepMender. split; [done|]. cbn. unfold caller_step. rewrite E. case_decide; [by eexists|done].
    + exists StepMain. split; [done|]. apply main_goes_on; [done|]. intros He. rewrite He in Hge. apply Hge.
      apply Nat.lt_0_succ.
  - destruct (response s) eqn:Hresp.
    + exists StepMender. split; [done|]. cbn. unfold caller_step. rewrite E, Hresp. by eexists.
    + exists StepMain. split; [done|]. apply main_goes_on; [done|]. intros He. by rewrite He in Hr.
  - destruct (Hc ch) as (b & c & Hl & _ & _ & Hp); [by rewrite E|].
    assert (b <> None \/ c = true -> is_Some (caller_step s)) as Hsome.
    { unfold caller_step. rewrite E, Hl. destruct b; [by eexists|]. destruct c; [by eexists|]. by intros [|]. }
    destruct Hp as [Hp|[Hp|Hp]]; [done|unfold accepted; by rewrite E|exists StepMender; auto..|].
    exists StepWorker. split; [done|]. by apply worker_goes_on.
Qed.

(** ** How long a call can last *)

Definition caller_rank (c : Caller) : nat :=
  match c with
  | NotCalled => 0 | Draining _ => 11 | Requesting _ _ => 10 | AwaitingResponse _ _ => 2 | AwaitingBroadcast _ _ => 1
  end.

Definition worker_rank (w : Worker) : nat :=
  match w with
  | WorkerIdle | WorkerQuit | Panicked => 0
  | Fetching => 5 | AssignToken _ _ => 4 | AssignURL _ => 3 | ConfigureProxy => 2 | Broadcasting => 1
  end.

Definition measure s : nat :=
  caller_rank (caller s) + 7 * length (inChan s) + 6 * length (workerChan s) + worker_rank (worker s).

Lemma broadcast_same message s :
  let s' := broadcast message s in
  caller s' = caller s /\ inChan s' = inChan s /\ workerChan s' = workerChan s /\ calls s' = calls s.
Proof. unfold broadcast. by destruct (map_fold _ _ _). Qed.

(** A step of one of the three either ends the call or makes the measure smaller. *)
Lemma internal_step e s s' : internal e = true -> step e s = Some s' -> caller s <> NotCalled ->
  (length (calls s') = S (length (calls s))) \/
  (calls s' = calls s /\ caller s' <> NotCalled /\ measure s' < measure s).
Proof.
  unfold measure. intros He [_ Hs]%step_event Hcall. revert He Hs Hcall.
  destruct e; cbn [internal]; try done; intros _ Hs Hcall.
  - unfold caller_step in Hs. destruct (caller s) as [|ch|ch mark|ch mark|ch mark] eqn:E; [done| | | |].
    + injection Hs as <-. right. cbn. split; [done|]. split; [done|]. lia.
    + case_decide; [|done]. injection Hs as <-. right. cbn. rewrite length_app. cbn. split; [done|]. split; [done|]. lia.
    + destruct (response s); [|done]. injection Hs as <-. right. cbn. split; [done|]. split; [done|]. lia.
    + left. repeat case_match; simplify_eq; cbn; rewrite length_app; cbn; lia.
  - right. unfold main_step in Hs. destruct (running s); [|done]. destruct (inChan s) as [|[f|f|] l] eqn:E; [done|..];
      injection Hs as <-; cbn.
    + split; [done|]. split; [done|]. lia.
    + unfold to_worker. case_decide; destruct f; cbn; rewrite ?length_app; cbn; (split; [done|]; split; [done|]; lia).
    + split; [done|]. split; [done|]. lia.
  - right. unfold worker_step in Hs. destruct (configure_proxy _ _ _) as [panics d]. destruct (worker s) eqn:E; try (injection Hs as <-; cbn; split; [done|]; split; [done|]; lia).
    + destruct (workerChan s) as [|[] l] eqn:El; [done|..]; injection Hs as <-; cbn; rewrite ?E; cbn;
        (split; [done|]; split; [done|]; lia).
    + injection Hs as <-. cbn. split; [done|]. split; [done|]. destruct panics; cbn; lia.
    + injection Hs as <-. destruct (broadcast_same (authToken (manager s), GetServerUrl (outside (manager s))) s)
        as (E1 & E2 & E3 & E4). cbn. rewrite E1, E2, E3, E4. split; [done|]. split; [done|]. lia.
    + done.
    + done.
Qed.

(** A request from D-Bus costs seven steps. *)
Lemma dbus_measure f s s' : step (StepDBus f) s = Some s' ->
  calls s' = calls s /\ caller s' = caller s /\ measure s' = measure s + 7.
Proof.
  intros [_ Hs]%step_event. unfold dbus_step in Hs. case_decide; [|done]. injection Hs as <-.
  split; [done|]. split; [done|]. unfold measure. cbn. rewrite length_app. cbn. lia.
Qed.

Lemma calls_grow es s s' : run es s = Some s' -> length (calls s) <= length (calls s').
Proof.
  revert s. induction es as [|e es IH]; intros s; [by intros [= <-]|]. cbn [run].
  destruct (step e s) as [s1|] eqn:Hs; [|done]. intros Hr%IH. transitivity (length (calls s1)); [|done]. clear Hr IH.
  apply step_event in Hs as [_ Hs]. destruct e as [|f| | |].
  - unfold caller_step, GetBroadcastMessageChan in Hs. repeat (case_match; simplify_eq/=); rewrite ?length_app; lia.
  - unfold dbus_step in Hs. repeat (case_match; simplify_eq/=); lia.
  - unfold main_step, to_worker, respond in Hs. repeat (case_match; simplify_eq/=); lia.
  - unfold worker_step, broadcast in Hs. repeat (case_match; simplify_eq/=); lia.
  - unfold stop_step in Hs. repeat (case_match; simplify_eq/=); lia.
Qed.

Definition from_dbus (e : Event) : bool := match e with StepDBus _ => true | _ => false end.
Definition occurs (p : Event -> bool) (es : list Event) : nat := length (List.filter p es).

Lemma call_bound es s s' : forallb not_stop es = true -> run es s = Some s' -> caller s <> NotCalled ->
  length (calls s') = length (calls s) -> occurs internal es <= measure s + 7 * occurs from_dbus es.
Proof.
  revert s. induction es as [|e es IH]; intros s Hes Hr Hcall Hlen; [apply Nat.le_0_l|]. cbn [run forallb] in *.
  apply andb_true_iff in Hes as [He Hes]. destruct (step e s) as [s1|] eqn:Hs; [|done].
  assert (internal e = true \/ exists f, e = StepDBus f) as [Hi|[f ->]] by (destruct e; eauto; done).
  - destruct (internal_step e s s1 Hi Hs Hcall) as [Hend|(Hc & Hcall' & Hm)].
    + pose proof (calls_grow es s1 s' Hr). lia.
    + assert (occurs internal es <= measure s1 + 7 * occurs from_dbus es) as Hle by (apply IH; try done; by rewrite Hlen, Hc).
      unfold occurs in *. cbn [List.filter]. rewrite Hi. cbn [length]. destruct (from_dbus e); cbn [length]; lia.
  - destruct (dbus_measure f s s1 Hs) as (Hc & Hcall' & Hm).
    assert (occurs internal es <= measure s1 + 7 * occurs from_dbus es) as Hle
      by (apply IH; [done|done|by rewrite Hcall'|by rewrite Hlen, Hc]).
    unfold occurs in *. cbn [List.filter internal from_dbus length]. lia.
Qed.

Lemma call_measure_bound s : queue_ok s -> measure s <= 7 * 1024 + 22.
Proof.
  intros (Hw & Hi & _). unfold measure, authManagerInMessageChanSize, authManagerWorkerQueueSize in *.
  assert (caller_rank (caller s) <= 11) by (destruct (caller s); cbn; lia).
  assert (worker_rank (worker s) <= 5) by (destruct (worker s); cbn; lia). lia.
Qed.

(** What the worker panics on. *)
Definition panics_on_short_token s : Prop :=
  panicked s = true -> authToken (manager s) <> EmptyString /\ String.length (authToken (manager s)) < 7.

Lemma run_panics es s s' : panics_on_short_token s -> run es s = Some s' -> panics_on_short_token s'.
Proof.
  revert s. induction es as [|e es IH]; intros s HP; [by intros [= <-]|]. cbn [run].
  destruct (step e s) as [s1|] eqn:Hs; [|done]. apply IH. apply step_event in Hs as [Hpan Hs].
  assert (worker s1 = worker s -> panics_on_short_token s1) as Hsame.
  { intros Hw Hp. unfold panicked in *. rewrite Hw in Hp. congruence. }
  destruct e as [|f| | |].
  - apply Hsame. unfold caller_step, GetBroadcastMessageChan in Hs. by repeat (case_match; simplify_eq/=).
  - apply Hsame. unfold dbus_step in Hs. by repeat (case_match; simplify_eq/=).
  - apply Hsame. unfold main_step, to_worker, respond in Hs. by repeat (case_match; simplify_eq/=).
  - unfold worker_step in Hs. destruct (configure_proxy _ _ _) as [panics d] eqn:Hcfg.
    destruct (worker s) eqn:Hw; try (injection Hs as <-; done); try done.
    + destruct (workerChan s) as [|[] l]; [done|..]; injection Hs as <-; first [by apply Hsame|done].
    + injection Hs as <-. destruct panics; [|done]. intros _. cbn. revert Hcfg. unfold configure_proxy.
      case_bool_decide as Ht; [done|]. destruct (proxy_Reconfigure _ _ _) as [[[]|err] d']; [done|].
      intros [= Hl _]. split; [done|]. by apply Nat.ltb_lt.
  - apply Hsame. unfold stop_step in Hs. by repeat (case_match; simplify_eq/=).
Qed.

End invariant.

(** C36: a call of [Authorize] ends.  On every schedule in which the manager is not told to stop, while a call is
    under way: the program, the main loop or the worker can go on, whatever channels are full or closed, unless the
    process has panicked, which it does only with a token of fewer than seven characters, when the proxy cannot be
    reconfigured.  And on every such schedule from there, before the call has ended, these three make at most
    7 * 1024 + 22 steps, and seven more for each request that comes from D-Bus in the meantime: 1024 is the length of
    the request queue, and a fetch counts as one step.  (So a call that does not end, while the three are
    scheduled, takes an endless stream of requests from D-Bus.) *)
Theorem Authorize_ends `{FileOs D} `{OpenSSL D PrivateKey} `{Id : IdentityDataGetter D} `{Transport D} `{HttpErrors}
    `{ProxyController D} (m : Manager D PrivateKey) (es : list Event) (s : Sys D PrivateKey)
    (Hstop : forallb not_stop es = true) (Hrun : run es (started m) = Some s) (Hcall : caller s <> NotCalled) :
  (if panicked s then authToken (manager s) <> EmptyString /\ String.length (authToken (manager s)) < 7
   else exists e, internal e = true /\ is_Some (step e s)) /\
  (forall es' s', forallb not_stop es' = true -> run es' s = Some s' -> length (calls s') = length (calls s) ->
     occurs internal es' <= 7 * 1024 + 22 + 7 * occurs from_dbus es').
Proof.
  assert (Inv s) as HI by (eapply run_Inv; [apply Inv_started|exact Hrun]).
  assert (running s = true) as Hr by (eapply run_running; [exact Hstop|exact Hrun|done]).
  split.
  - destruct (panicked s) eqn:Hpan; [|by apply call_goes_on].
    assert (panics_on_short_token s) as HP by (eapply run_panics; [|exact Hrun]; done). by apply HP.
  - intros es' s' Hint Hrun' Hlen. transitivity (measure s + 7 * occurs from_dbus es'); [by apply (call_bound es' s s')|].
    apply Nat.add_le_mono_r, call_measure_bound. by destruct HI as (_ & _ & _ & _ & ? & _).
Qed.

(** C37: what [Authorize] returns is fresh.  On every schedule, a call that returns a token and an address returns
    what the worker broadcast, as one message, after the call had begun; neither is empty. *)
Theorem Authorize_is_fresh `{FileOs D} `{OpenSSL D PrivateKey} `{Id : IdentityDataGetter D} `{Transport D} `{HttpErrors}
    `{ProxyController D} (m : Manager D PrivateKey) (es : list Event) (s : Sys D PrivateKey) (c : Call)
    (token url : string)
    (Hrun : run es (started m) = Some s) (Hcall : c ∈ calls s) (Hres : call_result s c = Ok (token, url)) :
  token <> EmptyString /\ url <> EmptyString /\
  exists n, call_mark c <= n /\ broadcasts s !! n = Some (token, url).
Proof.
  assert (Inv s) as (_ & _ & _ & _ & _ & Hcalls) by (eapply run_Inv; [apply Inv_started|exact Hrun]).
  unfold call_result in Hres. destruct (received c) as [n|] eqn:Hrec; [|done]. cbn in Hres.
  destruct (broadcasts s !! n) as [[t u]|] eqn:Hb; [|done].
  destruct (bool_decide (t = EmptyString)) eqn:Ht; [done|]. destruct (bool_decide (u = EmptyString)) eqn:Hu; [done|].
  injection Hres as <- <-. apply bool_decide_eq_false in Ht, Hu. split; [done|]. split; [done|].
  exists n. split; [|done]. by destruct (Hcalls c n Hcall Hrec).
Qed.

(** ** Schedules *)

(** A proxy that always runs. *)
#[export] Instance Net_proxy : ProxyController (Logged Net) := {
  proxy_Stop d := d;
  proxy_Reconfigure _ _ := mret ();
  proxy_Start d := d;
  GetServerUrl _ := "http://127.0.0.1:4711"
}.

#[export] Instance Net_identity : IdentityDataGetter (Logged Net) := quiet_identity (fun d : Net => (Ok "{mac:1}", d)).

Definition run_on (net : Net) (es : list Event) : option (Sys (Logged Net) Ascii.ascii) := run es (started (AuthSpec.manager net)).

(** A call up to its request, the main loop, the worker, and the end of the call. *)
Definition asks_for_token : list Event := [StepMender; StepMender; StepMender; StepMain; StepMender].
Definition worker_fetches : list Event := [StepWorker; StepWorker; StepWorker; StepWorker; StepWorker; StepWorker].

(** What the calls of a schedule returned. *)
Definition results (s : option (Sys (Logged Net) Ascii.ascii)) : option (list (result (string * string))) :=
  (fun s => call_result s <$> calls s) <$> s.

Example token_is_returned :
  results (run_on second_accepts (asks_for_token ++ worker_fetches ++ [StepMender])) =
  Some [Ok ("new token", "http://127.0.0.1:4711")].
Proof. vm_compute. reflexivity. Qed.

(** No server can be reached: the fetch fails, the old token is broadcast, and the
    call returns it without an error. *)
Example failed_fetch_is_a_success :
  results (run_on ∅ (asks_for_token ++ worker_fetches ++ [StepMender])) =
  Some [Ok ("old token", "http://127.0.0.1:4711")].
Proof. vm_compute. reflexivity. Qed.

(** A request for the token that is answered while the worker assigns: the new
    token with the old server. *)
Example torn_answer :
  answers <$> run_on second_accepts
    (asks_for_token ++ [StepWorker; StepWorker; StepWorker; StepDBus false; StepMain]) =
  Some [("new token", "one.example.com")].
Proof. vm_compute. reflexivity. Qed.

(** Fetches for others fill the channel; the second closes it under a call that has
    just got it, which then fails. *)
Example channel_is_closed :
  results (run_on second_accepts
    ([StepMender] ++ [StepDBus true; StepMain] ++ worker_fetches ++ [StepDBus true; StepMain] ++ worker_fetches ++
     [StepMender; StepMender; StepMain; StepMender; StepMender])) =
  Some [Err (EMender false (EText "authorization request failed: channel read failed"))].
Proof. vm_compute. reflexivity. Qed.

Lemma Authorize_ends_witness :
  exists s, run_on second_accepts asks_for_token = Some s /\ caller s <> NotCalled /\
    (exists e, internal e = true /\ is_Some (step e s)).
Proof.
  destruct (run_on second_accepts asks_for_token) as [s|] eqn:Hrun;
    [|exfalso; revert Hrun; vm_compute; discriminate].
  exists s. split; [done|].
  assert (Hc : caller <$> run_on second_accepts asks_for_token = Some (AwaitingBroadcast 0 0)) by (vm_compute; reflexivity).
  rewrite Hrun in Hc. injection Hc as Hc.
  assert (Hcall : caller s <> NotCalled) by by rewrite Hc.
  split; [exact Hcall|].
  pose proof (Authorize_ends (AuthSpec.manager second_accepts) asks_for_token s eq_refl Hrun Hcall) as [Hgo _].
  assert (Hp : panicked <$> run_on second_accepts asks_for_token = Some false) by (vm_compute; reflexivity).
  rewrite Hrun in Hp. injection Hp as Hp. rewrite Hp in Hgo. exact Hgo.
Defined.

Lemma Authorize_is_fresh_witness :
  exists s c, run_on second_accepts (asks_for_token ++ worker_fetches ++ [StepMender]) = Some s /\ c ∈ calls s /\
    exists n, call_mark c <= n /\ broadcasts s !! n = Some ("new token", "http://127.0.0.1:4711").
Proof.
  destruct (run_on second_accepts (asks_for_token ++ worker_fetches ++ [StepMender])) as [s|] eqn:Hrun;
    [|exfalso; revert Hrun; vm_compute; discriminate].
  assert (Hc : calls <$> run_on second_accepts (asks_for_token ++ worker_fetches ++ [StepMender]) = Some [mkCall 0 (Some 0)])
    by (vm_compute; reflexivity).
  assert (Hb : broadcasts <$> run_on second_accepts (asks_for_token ++ worker_fetches ++ [StepMender]) =
    Some [("new token", "http://127.0.0.1:4711")]) by (vm_compute; reflexivity).
  rewrite Hrun in Hc, Hb. injection Hc as Hc. injection Hb as Hb.
  exists s, (mkCall 0 (Some 0)). split; [done|]. assert (Hin : mkCall 0 (Some 0) ∈ calls s) by (rewrite Hc; by left).
  split; [exact Hin|].
  apply (Authorize_is_fresh (AuthSpec.manager second_accepts) _ s (mkCall 0 (Some 0)) "new token" "http://127.0.0.1:4711" Hrun Hin).
  unfold call_result. cbn. by rewrite Hb.
Defined.
