(* ===== verification/KeyVal.v ===== *)
(** * KeyVal: names and values from helper programs

    utils/kvparser.go parses lines of the form name=value; device/identity_data.go
    and inventory/inventory_data.go collect what helper programs print in that
    form.  The programs are the class [Tools].  The theorems say which lines are
    read, and that the inventory has the values that the programs printed. *)

From S2P Require Import Prelude Json Text Os Manifest.
From Stdlib Require Import Ascii.

Open Scope Z_scope.

(** ** The parser *)

Notation KeyValData := (gmap string (list string)).

Definition errIncorrectLine (line : string) : error := EText ("incorrect line '" +:+ line +:+ "'").

(** One line more for its name. *)
Definition add_value (k v : string) (data : KeyValData) : KeyValData :=
  <[k := default [] (data !! k) ++ [v]]> data.

(** What was parsed before an error stays. *)
Fixpoint parse_lines (lines : list string) (data : KeyValData) : KeyValData * option error :=
  match lines with
  | [] => (data, None)
  | line :: lines =>
      if bool_decide (line = EmptyString) then parse_lines lines data
      else
        match cut "=" line with
        | None => (data, Some (errIncorrectLine line))
        | Some (k, v) => parse_lines lines (add_value k v data)
        end
  end.

(** The error of the scanner is asked for only after a line was read, when there
    is none: a line that is too long ends the input. *)
Definition Parse (raw : string) (data : KeyValData) : KeyValData * option error :=
  parse_lines (Scan raw).1 data.

(** ** Helper programs *)

(** How a program ran: no pipe, not started, or its output and how it ended. *)
Inductive ToolRun : Type :=
  | NoPipe (err : error)
  | NotStarted (err : error)
  | Finished (out : string) (wait : option error).

Record ToolFile := mkTool { tool_name : string; tool_mode : Z }.

Class Tools (D : Type) := {
  RunTool : string -> D -> ToolRun * D;
  ReadToolDir : string -> D -> result (list ToolFile)
}.

(** A value is a string or a list of them. *)
Inductive Value : Type := One (v : string) | Many (l : list string).

Definition value_json (v : Value) : json :=
  match v with One v => JStr v | Many l => JArr (JStr <$> l) end.

Definition value_of (l : list string) : Value := match l with [v] => One v | l => Many l end.

(** ** The identity of the device *)

Module Identity.

(** encoding/json writes the names of a map in order. *)
Definition sorted_names (data : gmap string Value) : list (string * Value) :=
  merge_sort (fun a b => Is_true (String.leb a.1 b.1)) (map_to_list data).

Definition encode (data : gmap string Value) : string :=
  marshal_text (JObj ((fun kv => (kv.1, value_json kv.2)) <$> sorted_names data)).

Section identity.
Context `{Tools D}.
(** The helper below the data directory, which is looked for when the program
    starts. *)
Variable IdentityDataHelper : string.

Definition Get (Helper : string) : IO D string := fun d =>
  let helper := if bool_decide (Helper = EmptyString) then IdentityDataHelper else Helper in
  match RunTool helper d with
  | (NoPipe err, d) => (Err (EWrap "failed to open pipe for reading" err), d)
  | (NotStarted err, d) => (Err (EWrap ("failed to call " +:+ helper) err), d)
  | (Finished out wait, d) =>
      let '(collected, parseErr) := Parse out ∅ in
      match wait with
      | Some err =>
          let err := match parseErr with Some p => EWrap "failed to parse identity data" p | None => err end in
          (Err (EWrap "wait for helper failed" err), d)
      | None =>
          match parseErr with
          | Some p => (Err (EWrap "failed to parse identity data" p), d)
          | None =>
              if bool_decide (collected = ∅) then (Err (EText "no identity data colleted"), d)
              else (Ok (encode (value_of <$> collected)), d)
          end
      end
  end.

End identity.
End Identity.

(** ** The inventory *)

Module Inventory.

Definition inventoryToolPrefix : string := "mender-inventory-".

(** S_IXUSR, S_IXGRP and S_IXOTH. *)
Definition runBits : Z := 73.

Notation InventoryData := (gmap string Value).

(** The values as a list. *)
Definition as_list (v : Value) : list string := match v with One v => [v] | Many l => l end.

(** One name of [AppendFromRaw]: a name that is there already gets a list. *)
Definition append_one (k : string) (v : list string) (data : InventoryData) : InventoryData :=
  match data !! k with
  | Some old => <[k := Many (as_list old ++ v)]> data
  | None => <[k := value_of v]> data
  end.

Definition AppendFromRaw (data : InventoryData) (raw : KeyValData) : InventoryData := map_fold append_one data raw.

(** InventoryData.ReplaceAttributes of client/inventory.go: the names given win. *)
Definition ReplaceAttributes (attr : list (string * Value)) (data : InventoryData) : InventoryData :=
  foldl (fun data ia => <[ia.1 := ia.2]> data) data attr.

(** InventoryAttribute, and the data as it is submitted, in the order in which the
    map is visited. *)
Definition attribute_json (ia : string * Value) : json := JObj [("name", JStr ia.1); ("value", value_json ia.2)].
Definition inventory_json (data : InventoryData) : json := JArr (attribute_json <$> map_to_list data).

(** Nothing at all is nil. *)
Definition GetInventoryData (data : InventoryData) : option InventoryData :=
  if bool_decide (data = ∅) then None else Some data.

Section inventory.
Context `{Tools D}.

Definition is_runnable (f : ToolFile) : bool :=
  HasPrefix (tool_name f) inventoryToolPrefix && negb (Z.land (tool_mode f) runBits =? 0).

Definition listRunnable (dpath : string) (d : D) : result (list string) :=
  match ReadToolDir dpath d with
  | Err err => Err (EWrap "failed to readdir" err)
  | Ok finfos => Ok ((fun f => join_path dpath (tool_name f)) <$> List.filter is_runnable finfos)
  end.

(** A program that cannot be started or prints something else is left out; one
    that prints and then fails is not. *)
Fixpoint run_tools (tools : list string) (data : InventoryData) (d : D) : InventoryData * D :=
  match tools with
  | [] => (data, d)
  | t :: tools =>
      match RunTool t d with
      | (NoPipe _, d) | (NotStarted _, d) => run_tools tools data d
      | (Finished out _, d) =>
          match Parse out ∅ with
          | (collected, None) => run_tools tools (AppendFromRaw data collected) d
          | (_, Some _) => run_tools tools data d
          end
      end
  end.

Definition Get (dir : string) : IO D (option InventoryData) := fun d =>
  match listRunnable dir d with
  | Err err => (Err (EWrap "failed to list tools for inventory data" err), d)
  | Ok tools => let '(data, d) := run_tools tools ∅ d in (Ok (GetInventoryData data), d)
  end.

End inventory.
End Inventory.

(** * What the programs print is what is reported *)

(** ** Names and values *)

Definition pair_line (kv : string * string) : string := kv.1 +:+ "=" +:+ kv.2.

(** The values of a name. *)
Definition values (k : string) (l : list (string * string)) : list string :=
  snd <$> List.filter (fun kv => bool_decide (kv.1 = k)) l.

(** A map has the values of the names, and no others. *)
Definition groups (data : KeyValData) (l : list (string * string)) : Prop :=
  forall k, data !! k = match values k l with [] => None | vs => Some vs end.

Definition clean_pair (kv : string * string) : bool :=
  all_str (fun c => negb (bool_decide (c = "="%char))) kv.1 && clean_line (pair_line kv).

Lemma values_app k l l' : values k (l ++ l') = values k l ++ values k l'.
Proof. unfold values. by rewrite List.filter_app, fmap_app. Qed.

Lemma values_one j k v : values j [(k, v)] = if bool_decide (k = j) then [v] else [].
Proof. unfold values. cbn [List.filter fst]. by case_bool_decide. Qed.

Lemma groups_snoc data l k v : groups data l -> groups (add_value k v data) (l ++ [(k, v)]).
Proof.
  intros Hg j. specialize (Hg j). rewrite values_app, values_one. unfold add_value.
  case_bool_decide as Hj; [subst j|].
  - rewrite lookup_insert_eq, Hg. by destruct (values k l).
  - by rewrite lookup_insert_ne, Hg, app_nil_r by done.
Qed.

Lemma cut_pair k v : all_str (fun c => negb (bool_decide (c = "="%char))) k = true ->
  cut "=" (k +:+ "=" +:+ v) = Some (k, v).
Proof.
  induction k as [|c k IH]; intros Hk; [done|]. cbn [all_str] in Hk.
  apply andb_true_iff in Hk as [Hc%negb_true_iff Hk]. rewrite app_cons_str. cbn [cut].
  by rewrite Hc, (IH Hk).
Qed.

Lemma parse_pairs data l seen : forallb clean_pair l = true -> groups data seen ->
  exists data', parse_lines (pair_line <$> l) data = (data', None) /\ groups data' (seen ++ l).
Proof.
  revert data seen. induction l as [|[k v] l IH]; intros data seen Hl Hg.
  - exists data. by rewrite app_nil_r.
  - cbn [forallb] in Hl. apply andb_true_iff in Hl as [Hkv Hl].
    apply andb_true_iff in Hkv as [Hk _]. cbn [fst] in Hk.
    destruct (IH (add_value k v data) (seen ++ [(k, v)]) Hl) as (data' & Hp & Hd); [by apply groups_snoc|].
    exists data'. rewrite <- app_assoc in Hd. split; [|done].
    cbn [fmap list_fmap]. unfold parse_lines; fold parse_lines.
    rewrite bool_decide_false by (unfold pair_line; by destruct k).
    unfold pair_line at 1. cbn [fst snd]. by rewrite cut_pair.
Qed.

Lemma Parse_groups l : forallb clean_pair l = true ->
  exists data, Parse (write_lines (pair_line <$> l)) ∅ = (data, None) /\ groups data l.
Proof.
  intros Hl. unfold Parse. rewrite Scan_write_lines.
  - cbn [fst]. apply (parse_pairs ∅ l []); [done|]. intros k. done.
  - rewrite forallb_forall in Hl |- *. intros line Hin. apply list_elem_of_In, list_elem_of_fmap in Hin.
    destruct Hin as (kv & -> & Hin%list_elem_of_In). specialize (Hl _ Hin).
    unfold clean_pair in Hl. by apply andb_true_iff in Hl as [_ Hl].
Qed.

(** ** A line that is too long *)

(** Lines before one that is too long are parsed as if it, and all that follows,
    were not there. *)
Lemma scan_tokens_app l long rest : forallb clean_line l = true -> fits long = false ->
  scan_tokens (l ++ long :: rest) = (l, true).
Proof.
  intros Hl Hf. induction l as [|x l IH]; cbn [app scan_tokens]; [by rewrite Hf|].
  cbn [forallb] in Hl. apply andb_true_iff in Hl as [Hx Hl]. unfold clean_line in Hx.
  apply andb_true_iff in Hx as [[_ Hr]%andb_true_iff Hfx]. rewrite Hfx, (IH Hl). by rewrite dropCR_none.
Qed.

Lemma raw_lines_app l text : forallb clean_line l = true ->
  raw_lines EmptyString (write_lines l +:+ text) = l ++ raw_lines EmptyString text.
Proof.
  induction l as [|x l IH]; intros Hl; [done|]. cbn [forallb] in Hl. apply andb_true_iff in Hl as [Hx Hl].
  unfold clean_line in Hx. apply andb_true_iff in Hx as [[Hn _]%andb_true_iff _].
  change (write_lines (x :: l)) with (x +:+ newline +:+ write_lines l). rewrite !app_assoc_str.
  rewrite raw_lines_cons, IH by done. done.
Qed.

Lemma long_line_is_silent l long rest data : forallb clean_line l = true -> no_newline long = true -> fits long = false ->
  Parse (write_lines l +:+ long +:+ newline +:+ rest) data = Parse (write_lines l) data.
Proof.
  intros Hl Hn Hf. unfold Parse. rewrite Scan_write_lines by done. unfold Scan.
  rewrite raw_lines_app, raw_lines_cons, scan_tokens_app by done. done.
Qed.

(** ** The inventory *)

Import Inventory.

(** The values of a name, in order. *)
Definition listed (data : InventoryData) (k : string) : list string := from_option as_list [] (data !! k).

Definition raw_values (raw : KeyValData) (k : string) : list string := default [] (raw !! k).

Lemma as_list_value_of l : as_list (value_of l) = l.
Proof. by destruct l as [|x [|y l]]. Qed.

Lemma AppendFromRaw_values data raw k : listed (AppendFromRaw data raw) k = listed data k ++ raw_values raw k.
Proof.
  unfold AppendFromRaw. revert k. apply (map_fold_weak_ind (fun res raw => forall k, listed res k = listed data k ++ raw_values raw k)).
  - intros k. unfold raw_values. rewrite lookup_empty. by rewrite app_nil_r.
  - intros j v raw' res Hj IH k. unfold listed at 1, append_one, raw_values. destruct (decide (j = k)) as [->|Hne].
    + rewrite lookup_insert_eq. specialize (IH k). unfold raw_values in IH. rewrite Hj, app_nil_r in IH.
      unfold listed at 1 in IH. destruct (res !! k) as [old|]; rewrite lookup_insert_eq; cbn in *; [by rewrite IH|].
      by rewrite <- IH, as_list_value_of.
    + rewrite lookup_insert_ne by done. specialize (IH k). unfold raw_values in IH. rewrite <- IH.
      destruct (res !! j); by rewrite lookup_insert_ne.
Qed.

(** What a program adds to a name: nothing unless it ran and its lines parse. *)
Definition contributes (r : ToolRun) (k : string) : list string :=
  match r with
  | Finished out _ => match Parse out ∅ with (raw, None) => raw_values raw k | _ => [] end
  | _ => []
  end.

Section inventory.
Context `{Tools D}.

(** How the programs ran, one after the other. *)
Fixpoint runs (tools : list string) (d : D) : list ToolRun * D :=
  match tools with
  | [] => ([], d)
  | t :: tools => let '(r, d) := RunTool t d in let '(rs, d) := runs tools d in (r :: rs, d)
  end.

Lemma run_tools_values tools data d : let '(rs, d') := runs tools d in
  exists data', run_tools tools data d = (data', d') /\
    forall k, listed data' k = listed data k ++ flat_map (fun r => contributes r k) rs.
Proof.
  revert data d. induction tools as [|t tools IH]; intros data d; cbn [runs run_tools].
  { exists data. split; [done|]. intros k. by rewrite app_nil_r. }
  destruct (RunTool t d) as [r d1]. specialize (IH (match r with
    | Finished out _ => match Parse out ∅ with (raw, None) => AppendFromRaw data raw | _ => data end
    | _ => data end) d1). destruct (runs tools d1) as [rs d']. destruct IH as (data' & Hrun & Hv). exists data'.
  split; [destruct r; try done; by destruct (Parse out ∅) as [raw [e|]]|]. intros k. rewrite Hv. cbn [flat_map].
  rewrite app_assoc. f_equal. destruct r as [e|e|out w]; cbn [contributes]; rewrite ?app_nil_r; try done.
  destruct (Parse out ∅) as [raw [e|]]; [by rewrite app_nil_r|apply AppendFromRaw_values].
Qed.

Definition listed_opt (data : option InventoryData) (k : string) : list string := from_option (fun d => listed d k) [] data.

Lemma listed_opt_Get data k : listed_opt (GetInventoryData data) k = listed data k.
Proof. unfold GetInventoryData. case_bool_decide as Hd; [|done]. by subst. Qed.

Lemma Inventory_collects dir d tools : listRunnable dir d = Ok tools ->
  exists data, Inventory.Get dir d = (Ok data, (runs tools d).2) /\
    forall k, listed_opt data k = flat_map (fun r => contributes r k) (runs tools d).1.
Proof.
  intros Ht. unfold Inventory.Get. rewrite Ht. pose proof (run_tools_values tools ∅ d) as Hv.
  destruct (runs tools d) as [rs d']. destruct Hv as (data & -> & Hv). exists (GetInventoryData data).
  split; [done|]. intros k. rewrite listed_opt_Get, Hv. done.
Qed.

(** What a run printed: a line for each name and value, or something else. *)
Definition printed (r : ToolRun) (l : list (string * string)) : Prop :=
  match r with
  | Finished out _ =>
      forallb clean_pair l = true /\ out = write_lines (pair_line <$> l) \/
      l = [] /\ exists err, (Parse out ∅).2 = Some err
  | _ => l = []
  end.

Lemma contributes_printed r l k : printed r l -> contributes r k = values k l.
Proof.
  destruct r as [e|e|out w]; cbn [printed]; [by intros ->..|]. intros [[Hl ->]|[-> [err Hp]]].
  - destruct (Parse_groups l Hl) as (data & Hp & Hg). cbn [contributes]. rewrite Hp.
    unfold raw_values. rewrite Hg. by destruct (values k l).
  - cbn [contributes]. destruct (Parse out ∅) as [raw [e|]]; [done|]. by cbn in Hp.
Qed.

(** C25: the inventory has what the programs print.  When the directory can be read, every program in it whose name and
    mode are right is run once, in order; if each of them printed one line for each of some names and values, or could
    not be started, or printed something that does not parse, then every name has in the inventory the values
    that were printed for it, those of all programs one after the other and of each in the order of its lines, and a
    name that nobody printed is not there. *)
Theorem inventory_has_what_is_printed dir d tools lines : listRunnable dir d = Ok tools ->
  Forall2 printed (runs tools d).1 lines ->
  exists data, Inventory.Get dir d = (Ok data, (runs tools d).2) /\
    forall k, listed_opt data k = values k (concat lines).
Proof.
  intros Ht Hp. destruct (Inventory_collects dir d tools Ht) as (data & Hget & Hv). exists data.
  split; [done|]. intros k. rewrite Hv. clear -Hp. induction Hp as [|r l rs ls Hr _ IH]; [done|].
  cbn [flat_map concat]. by rewrite values_app, IH, (contributes_printed r l).
Qed.

End inventory.

(** ** Three programs *)

#[export] Instance Example_Tools : Tools nat := {
  RunTool t d :=
    (if bool_decide (t = "/inv/mender-inventory-a") then Finished (write_lines ["mac=1"; "os=linux"; "mac=2"]) None
     else if bool_decide (t = "/inv/mender-inventory-b") then Finished (write_lines ["no equals sign"]) None
     else Finished (write_lines ["mac=3=x"]) (Some (EText "exit status 1")), S d);
  ReadToolDir p d := Ok [mkTool "mender-inventory-a" 493; mkTool "mender-inventory-b" 493; mkTool "mender-inventory-c" 64;
                         mkTool "README" 493; mkTool "mender-inventory-d" 420]
}.

Lemma inventory_has_what_is_printed_witness : exists data, Inventory.Get "/inv" 0%nat = (Ok data, 3%nat) /\
  listed_opt data "mac" = ["1"; "2"; "3=x"] /\ listed_opt data "os" = ["linux"] /\ listed_opt data "no" = [].
Proof.
  destruct (inventory_has_what_is_printed "/inv" 0%nat
    ["/inv/mender-inventory-a"; "/inv/mender-inventory-b"; "/inv/mender-inventory-c"]
    [[("mac", "1"); ("os", "linux"); ("mac", "2")]; []; [("mac", "3=x")]]) as (data & Hget & Hv).
  - vm_compute. reflexivity.
  - constructor; [left; split; vm_compute; reflexivity|]. constructor; [right; split; [reflexivity|]|].
    { eexists. vm_compute. reflexivity. }
    constructor; [left; split; vm_compute; reflexivity|constructor].
  - exists data. split; [exact Hget|]. rewrite !Hv. repeat split.
Defined.

(** The identity has a list for a name with more than one value, in the order of names. *)
Example identity : Identity.encode (value_of <$> (Parse (write_lines ["mac=1"; "id=x"; "mac=2"]) ∅).1) =
  marshal_text (JObj [("id", JStr "x"); ("mac", JArr [JStr "1"; JStr "2"])]).
Proof. vm_compute. reflexivity. Qed.
