(* ===== verification/DeploymentLog.v ===== *)
(** * DeploymentLog: the logs of deployments

    [DeploymentLogManager] of app/deployment_logger.go, which keeps the logs of the
    last deployments in numbered files, and the hook of app/deployment_log_hook.go,
    through which the logger of the program writes to them.  The files are the
    class [LogFs]. *)

From S2P Require Import Prelude Json Text Os.
From Stdlib Require Import Ascii.

Open Scope Z_scope.

(** ** The files *)

(** filepath.Glob of the files in a directory whose names start so; os.Remove and
    os.Rename, whose errors are ignored; os.OpenFile for appending, and writing;
    reading a file to its end; and the free blocks and their size, zero when
    statfs fails. *)
Class LogFs (D : Type) := {
  Glob : string -> string -> D -> result (list string);
  RemoveLog : string -> D -> D;
  RenameLog : string -> string -> D -> D;
  OpenAppend : string -> D -> bool * D;
  AppendLog : string -> string -> D -> option error * D;
  CloseLog : string -> D -> option error * D;
  ReadLog : string -> D -> result string;
  Statfs : string -> D -> Z * Z
}.

Definition ErrLoggerNotInitialized : error := EText "logger not initialized".
Definition ErrNotEnoughSpaceForLogs : error := EText "not enough space for storing logs".
Definition ErrTooLong : error := EText "bufio.Scanner: token too long".

(** ** The manager *)

(** An open logger is the name of its file, which is not renamed while it is open. *)
Record DeploymentLogManager (D : Type) := mkManager {
  logLocation : string;
  deploymentID : string;
  logger : option string;
  maxLogFiles : nat;
  minLogSizeBytes : Z;
  loggingEnabled : bool;
  disk : D
}.
Arguments mkManager {D}.
Arguments logLocation {D}.
Arguments deploymentID {D}.
Arguments logger {D}.
Arguments maxLogFiles {D}.
Arguments minLogSizeBytes {D}.
Arguments loggingEnabled {D}.
Arguments disk {D}.

Definition baseLogFileName : string := "deployments".

(** The verb %04d, whose width counts the sign. *)
Definition seq_text (n : Z) : string :=
  if n <? 0 then
    let s := FormatInt 10 false (- n) in "-" +:+ String.concat EmptyString (repeat "0" (3 - String.length s)) +:+ s
  else pad4 n.

(** [logFileNameScheme]. *)
Definition log_file_name (n : Z) (id : string) : string :=
  baseLogFileName +:+ "." +:+ seq_text n +:+ "." +:+ id +:+ ".log".

(** filepath.Base of a clean path. *)
Definition Base (name : string) : string := default EmptyString (last (Split name "/")).

(** A name that is not one of ours stays. *)
Definition rotateLogFileName (name : string) : string :=
  match Split (Base name) "." with
  | [_; n; id; _] =>
      match Atoi n with
      | Some seq => join_path (Dir name) (log_file_name (seq + 1) id)
      | None => name
      end
  | _ => name
  end.

(** The lines of a log that are JSON. *)
Fixpoint valid_lines (lines : list string) : list json :=
  match lines with
  | [] => []
  | line :: lines => match unmarshal_text line with Some j => j :: valid_lines lines | None => valid_lines lines end
  end.

Definition format_logs (l : list json) : string := marshal_text (JObj [("messages", JArr l)]).

Section manager.
Context `{LogFs D}.
Implicit Types dlm : DeploymentLogManager D.

Definition NewDeploymentLogManager (logDirLocation : string) (d : D) : DeploymentLogManager D :=
  mkManager logDirLocation EmptyString None 5 (1024 * 100) false d.

Definition set_disk (d : D) dlm : DeploymentLogManager D :=
  mkManager (logLocation dlm) (deploymentID dlm) (logger dlm) (maxLogFiles dlm) (minLogSizeBytes dlm) (loggingEnabled dlm) d.
Definition set_deploymentID (id : string) dlm : DeploymentLogManager D :=
  mkManager (logLocation dlm) id (logger dlm) (maxLogFiles dlm) (minLogSizeBytes dlm) (loggingEnabled dlm) (disk dlm).
Definition set_logger (l : option string) dlm : DeploymentLogManager D :=
  mkManager (logLocation dlm) (deploymentID dlm) l (maxLogFiles dlm) (minLogSizeBytes dlm) (loggingEnabled dlm) (disk dlm).
Definition set_loggingEnabled (b : bool) dlm : DeploymentLogManager D :=
  mkManager (logLocation dlm) (deploymentID dlm) (logger dlm) (maxLogFiles dlm) (minLogSizeBytes dlm) b (disk dlm).

(** *** Files in the order of their age *)

Definition name_ge (a b : string) : Prop := String.le b a.
#[export] Instance name_ge_dec : RelDecision name_ge.
Proof. intros a b. unfold name_ge. apply _. Defined.

(** The oldest first. *)
Definition getSortedLogFiles dlm : result (list string) :=
  merge_sort name_ge <$> Glob (logLocation dlm) (baseLogFileName +:+ ".") (disk dlm).

Fixpoint drop_oldest (keep : nat) (logFiles : list string) (d : D) : list string * D :=
  match logFiles with
  | [] => ([], d)
  | f :: rest => if (keep <? length logFiles)%nat then drop_oldest keep rest (RemoveLog f d) else (logFiles, d)
  end.

Fixpoint rename_all (logFiles : list string) (d : D) : D :=
  match logFiles with
  | [] => d
  | f :: rest => rename_all rest (RenameLog f (rotateLogFileName f) d)
  end.

Definition Rotate dlm : DeploymentLogManager D :=
  match getSortedLogFiles dlm with
  | Err _ => dlm
  | Ok logFiles =>
      match last logFiles with
      | None => dlm
      | Some newest =>
          let '(logFiles, d) := drop_oldest (maxLogFiles dlm) logFiles (disk dlm) in
          if Contains (default newest (last logFiles)) (deploymentID dlm) then set_disk d dlm
          else
            let '(logFiles, d) := drop_oldest (maxLogFiles dlm - 1) logFiles d in
            set_disk (rename_all logFiles d) dlm
      end
  end.

(** *** Starting and stopping *)

Definition haveEnoughSpaceForStoringLogs dlm : bool :=
  let '(bavail, bsize) := Statfs (logLocation dlm) (disk dlm) in
  minLogSizeBytes dlm <? uint64 (bavail * uint64 bsize).

Definition Enable (id : string) dlm : option error * DeploymentLogManager D :=
  if loggingEnabled dlm then (None, dlm)
  else if negb (haveEnoughSpaceForStoringLogs dlm) then (Some ErrNotEnoughSpaceForLogs, dlm)
  else
    let dlm := Rotate (set_deploymentID id dlm) in
    let file := join_path (logLocation dlm) (log_file_name 1 id) in
    match OpenAppend file (disk dlm) with
    | (false, d) => (Some ErrLoggerNotInitialized, set_logger None (set_disk d dlm))
    | (true, d) => (None, set_loggingEnabled true (set_logger (Some file) (set_disk d dlm)))
    end.

(** Enabled without a logger, [Deinit] would follow a nil pointer: a manager that
    is enabled has one ([DeploymentLogSpec.enabled_has_logger]). *)
Definition Disable dlm : option error * DeploymentLogManager D :=
  match loggingEnabled dlm, logger dlm with
  | true, Some file =>
      match CloseLog file (disk dlm) with
      | (Some err, d) => (Some err, set_disk d dlm)
      | (None, d) => (None, set_loggingEnabled false (set_disk d dlm))
      end
  | _, _ => (None, dlm)
  end.

Definition WriteLog (text : string) dlm : option error * DeploymentLogManager D :=
  match logger dlm with
  | None => (Some ErrLoggerNotInitialized, dlm)
  | Some file => let '(err, d) := AppendLog file text (disk dlm) in (err, set_disk d dlm)
  end.

(** *** Reading *)

(** The first whose path has the id in it. *)
Definition findLogsForSpecificID (id : string) dlm : result (option string) :=
  (fun files => head (List.filter (fun file => Contains file id) files)) <$> getSortedLogFiles dlm.

Definition GetLogs (id : string) dlm : result string :=
  match findLogsForSpecificID id dlm with
  | Err err => Err err
  | Ok None => Ok (format_logs [])
  | Ok (Some file) =>
      match ReadLog file (disk dlm) with
      | Err err => Err err
      | Ok text =>
          let '(lines, too_long) := Scan text in
          if too_long then Err ErrTooLong else Ok (format_logs (valid_lines lines))
      end
  end.

(** ** The hook *)

(** An entry of the program's logger, with its time already formatted. *)
Record Entry := mkEntry { Timestamp : string; Level : string; Message : string }.

Definition entry_json (e : Entry) : json :=
  JObj [("level", JStr (Level e)); ("message", JStr (Message e)); ("timestamp", JStr (Timestamp e))].

Definition Format (e : Entry) : string := marshal_text (entry_json e) +:+ newline.

Definition Fire (e : Entry) dlm : option error * DeploymentLogManager D :=
  if loggingEnabled dlm then WriteLog (Format e) dlm else (None, dlm).

End manager.
