(* ===== verification/Decode.v ===== *)
(** * Decode: what a failed decoding leaves behind

    json.Unmarshal goes on after a value of the wrong type and reports the first of
    them; the error of an UnmarshalJSON method ends it.  The decoders of
    [StateData] and [ControlMap] say only that there was an error; these also say
    what was filled in before and after it, for the answers of the server whose
    update is used although they do not parse. *)

From S2P Require Import Prelude Json StateData.
From Stdlib Require Import Ascii.

Open Scope Z_scope.

(** The error, and whether it ended the decoding. *)
Inductive Failure : Type := Saved (err : error) | Ended (err : error).

Definition failure_error (f : Failure) : error := match f with Saved e | Ended e => e end.

Definition pdecoder (R : Type) : Type := json -> R -> R * option Failure.

(** What follows is decoded unless the decoding ended; the first error is kept,
    unless a later one ends the decoding. *)
Definition and_then {R} (m : R * option Failure) (k : R -> R * option Failure) : R * option Failure :=
  match m with
  | (r, Some (Ended e)) => (r, Some (Ended e))
  | (r, Some (Saved e)) =>
      let '(r, f) := k r in (r, Some match f with Some (Ended e') => Ended e' | _ => Saved e end)
  | (r, None) => k r
  end.

(** A value of the wrong type leaves what was there. *)
Definition atom {R} (d : decoder R) : pdecoder R := fun j old =>
  match d j old with Ok v => (v, None) | Err e => (old, Some (Saved e)) end.

(** An element of the wrong type has the zero value. *)
Fixpoint p_elems (l : list json) : list string * option Failure :=
  match l with
  | [] => ([], None)
  | j :: l =>
      let '(s, f) := atom dec_string j EmptyString in
      let '(ss, g) := p_elems l in
      (s :: ss, match f with Some f => Some f | None => g end)
  end.

Definition p_nilable_strings : pdecoder (option (list string)) := fun j old =>
  match j with
  | JArr l => let '(ss, f) := p_elems l in (Some ss, f)
  | JNull => (None, None)
  | _ => (old, Some (Saved mismatch))
  end.

Definition p_strings : pdecoder (list string) := fun j old =>
  let '(l, f) := p_nilable_strings j (Some old) in (default [] l, f).

Fixpoint p_entries (l : list (string * json)) (m : gmap string string) : gmap string string * option Failure :=
  match l with
  | [] => (m, None)
  | (k, j) :: l =>
      let '(s, f) := atom dec_string j EmptyString in
      and_then (<[k := s]> m, f) (p_entries l)
  end.

Definition p_nilable_map : pdecoder (option (gmap string string)) := fun j old =>
  match j with
  | JObj l => let '(m, f) := p_entries l (default ∅ old) in (Some m, f)
  | JNull => (None, None)
  | _ => (old, Some (Saved mismatch))
  end.

Fixpoint find_pfield {R} (p : string -> bool) (fs : list (string * pdecoder R)) : option (pdecoder R) :=
  match fs with
  | [] => None
  | (k, d) :: fs => if p k then Some d else find_pfield p fs
  end.

(** The field of that name, or one that differs in case. *)
Definition lookup_pfield {R} (fs : list (string * pdecoder R)) (k : string) : option (pdecoder R) :=
  match find_pfield (String.eqb k) fs with
  | Some d => Some d
  | None => find_pfield (fun f => String.eqb (fold_name k) (fold_name f)) fs
  end.

Fixpoint p_members {R} (fs : list (string * pdecoder R)) (l : list (string * json)) (r : R) : R * option Failure :=
  match l with
  | [] => (r, None)
  | (k, j) :: l =>
      and_then (match lookup_pfield fs k with Some d => d j r | None => (r, None) end) (p_members fs l)
  end.

Definition p_struct {R} (fs : list (string * pdecoder R)) : pdecoder R := fun j r =>
  match j with
  | JObj l => p_members fs l r
  | JNull => (r, None)
  | _ => (r, Some (Saved mismatch))
  end.

Definition on_pfield {R F} (get : R -> F) (set : F -> R -> R) (d : pdecoder F) : pdecoder R := fun j r =>
  let '(v, f) := d j (get r) in (set v r, f).

(** ** The update *)

Definition Source_pfields : list (string * pdecoder Artifact) :=
  [("URI", on_pfield Source_URI set_Source_URI (atom dec_string));
   ("Expire", on_pfield Source_Expire set_Source_Expire (atom dec_string))].

Definition Artifact_pfields : list (string * pdecoder Artifact) :=
  [("Source", p_struct Source_pfields);
   ("device_types_compatible", on_pfield CompatibleDevices set_CompatibleDevices p_strings);
   ("PayloadTypes", on_pfield PayloadTypes set_PayloadTypes p_strings);
   ("artifact_name", on_pfield ArtifactName set_ArtifactName (atom dec_string));
   ("artifact_group", on_pfield ArtifactGroup set_ArtifactGroup (atom dec_string));
   ("artifact_provides", on_pfield TypeInfoProvides set_TypeInfoProvides p_nilable_map);
   ("clears_artifact_provides", on_pfield ClearsArtifactProvides set_ClearsArtifactProvides p_nilable_strings)].

Definition UpdateInfo_pfields : list (string * pdecoder UpdateInfo) :=
  [("Artifact", on_pfield artifact set_Artifact (p_struct Artifact_pfields));
   ("ID", on_pfield ID set_ID (atom dec_string));
   ("RebootRequested", on_pfield RebootRequested set_RebootRequested p_strings);
   ("SupportsRollback", on_pfield SupportsRollback set_SupportsRollback (atom dec_string));
   ("StateDataStoreCount", on_pfield StateDataStoreCount set_StateDataStoreCount (atom dec_int));
   ("HasDBSchemaUpdate", on_pfield HasDBSchemaUpdate set_HasDBSchemaUpdate (atom dec_bool));
   ("StatusReportRetryAttempts",
      on_pfield StatusReportRetryAttempts set_StatusReportRetryAttempts (atom dec_int))].

(** ** Both ways of decoding agree *)

(** What decodes without an error decodes to the same. *)
Definition agrees {R} (p : pdecoder R) (d : decoder R) : Prop :=
  forall j r v, d j r = Ok v <-> p j r = (v, None).

Definition fields_agree {R} : list (string * pdecoder R) -> list (string * decoder R) -> Prop :=
  Forall2 (fun p d => p.1 = d.1 /\ agrees p.2 d.2).

Lemma agrees_atom {R} (d : decoder R) : agrees (atom d) d.
Proof. intros j r v. unfold atom. destruct (d j r); split; intros [=]; by subst. Qed.

Lemma agrees_on_field {R F} (get : R -> F) set p (d : decoder F) : agrees p d ->
  agrees (on_pfield get set p) (on_field get set d).
Proof.
  intros Hp j r v. unfold on_pfield, on_field. specialize (Hp j (get r)).
  destruct (d j (get r)) as [x|e] eqn:Hd; cbn.
  - destruct (Hp x) as [Hx _]. rewrite Hx by done. split; intros [=]; by subst.
  - destruct (p j (get r)) as [x [f|]] eqn:Hx; [split; intros [=]|].
    destruct (Hp x) as [_ H]. discriminate H. done.
Qed.

Lemma p_elems_agree l v : dec_elems l = Ok v <-> p_elems l = (v, None).
Proof.
  revert v. induction l as [|j l IH]; intros v; [split; intros [=]; by subst|].
  cbn [dec_elems p_elems]. unfold atom. destruct (dec_string j EmptyString) as [s|e]; cbn.
  - destruct (p_elems l) as [ss [g|]].
    + destruct (dec_elems l) as [ss'|e]; cbn; [|split; intros [=]].
      destruct (IH ss') as [H _]. discriminate H. done.
    + destruct (IH ss) as [_ H]. rewrite H by done. cbn. split; intros [=]; by subst.
  - destruct (p_elems l). split; intros [=].
Qed.

Lemma agrees_nilable_strings : agrees p_nilable_strings dec_nilable_strings.
Proof.
  intros j r v. destruct j; try (split; intros [=]; by subst). cbn.
  destruct (p_elems l) as [ss [f|]] eqn:Hp.
  - destruct (dec_elems l) as [ss'|] eqn:Hd; cbn; [|split; intros [=]].
    apply p_elems_agree in Hd. congruence.
  - apply p_elems_agree in Hp. rewrite Hp. cbn. split; intros [=]; by subst.
Qed.

Lemma agrees_strings : agrees p_strings dec_strings.
Proof.
  intros j r v. unfold p_strings, dec_strings. pose proof (agrees_nilable_strings j (Some r)) as Hn.
  destruct (p_nilable_strings j (Some r)) as [o [f|]], (dec_nilable_strings j (Some r)) as [x|]; cbn.
  - destruct (Hn x) as [H _]. discriminate H. done.
  - split; intros [=].
  - destruct (Hn o) as [_ H]. specialize (H eq_refl). injection H as ->. split; intros [=]; by subst.
  - destruct (Hn o) as [_ H]. discriminate H. done.
Qed.

Lemma and_then_ok {R} (m : R * option Failure) (k : R -> R * option Failure) v :
  and_then m k = (v, None) <-> exists r, m = (r, None) /\ k r = (v, None).
Proof.
  unfold and_then. destruct m as [r [[e|e]|]].
  - destruct (k r) as [x f]. split; [by intros [=]|by intros (?&[=]&_)].
  - split; [by intros [=]|by intros (?&[=]&_)].
  - split; [by exists r|by intros (?&[= ->]&?)].
Qed.

Lemma p_entries_agree l m v : dec_entries l m = Ok v <-> p_entries l m = (v, None).
Proof.
  revert m. induction l as [|[k j] l IH]; intros m; [split; intros [=]; by subst|].
  cbn [dec_entries p_entries]. unfold atom. destruct (dec_string j EmptyString) as [s|e]; cbn [mbind result_bind].
  - rewrite and_then_ok, IH. split; [by eexists|by intros (?&[= <-]&?)].
  - rewrite and_then_ok. split; [by intros [=]|by intros (?&[=]&_)].
Qed.

Lemma agrees_nilable_map : agrees p_nilable_map dec_nilable_map.
Proof.
  intros j r v. destruct j; try (split; intros [=]; by subst). cbn.
  destruct (p_entries l (default ∅ r)) as [m [f|]] eqn:Hp.
  - destruct (dec_entries l (default ∅ r)) as [m'|] eqn:Hd; cbn; [|split; intros [=]].
    apply p_entries_agree in Hd. congruence.
  - apply p_entries_agree in Hp. rewrite Hp. cbn. split; intros [=]; by subst.
Qed.

Lemma find_agree {R} (ps : list (string * pdecoder R)) ds p : fields_agree ps ds ->
  match find_pfield p ps, find_field p ds with
  | Some x, Some y => agrees x y
  | None, None => True
  | _, _ => False
  end.
Proof.
  induction 1 as [|[k x] [k' y] ps ds [Hk Hxy] _ IH]; [done|]. cbn in *. subst k'. by destruct (p k).
Qed.

Lemma lookup_agree {R} (ps : list (string * pdecoder R)) ds k : fields_agree ps ds ->
  match lookup_pfield ps k, lookup_field ds k with
  | Some x, Some y => agrees x y
  | None, None => True
  | _, _ => False
  end.
Proof.
  intros Ha. unfold lookup_pfield, lookup_field. pose proof (find_agree ps ds (String.eqb k) Ha) as H1.
  destruct (find_pfield _ ps), (find_field _ ds); try done. by apply find_agree.
Qed.

Lemma p_members_agree {R} (ps : list (string * pdecoder R)) ds l r v : fields_agree ps ds ->
  dec_members ds l r = Ok v <-> p_members ps l r = (v, None).
Proof.
  intros Ha. revert r. induction l as [|[k j] l IH]; intros r; [split; intros [=]; by subst|].
  cbn [dec_members p_members]. rewrite and_then_ok. pose proof (lookup_agree ps ds k Ha) as Hk.
  destruct (lookup_pfield ps k) as [x|], (lookup_field ds k) as [y|]; try done; cbn [mbind result_bind].
  - destruct (y j r) as [r'|e] eqn:Hy; cbn.
    + apply Hk in Hy. rewrite Hy, IH. split; [by eexists|by intros (?&[= <-]&?)].
    + split; [by intros [=]|]. intros (r' & Hx & _). apply Hk in Hx. congruence.
  - rewrite IH. split; [by eexists|by intros (?&[= <-]&?)].
Qed.

Lemma agrees_struct {R} (ps : list (string * pdecoder R)) ds : fields_agree ps ds ->
  agrees (p_struct ps) (dec_struct ds).
Proof.
  intros Ha j r v. destruct j; try (split; intros [=]; by subst). by apply p_members_agree.
Qed.

Create HintDb decode.
#[export] Hint Resolve agrees_atom agrees_on_field agrees_strings agrees_nilable_strings agrees_nilable_map
  agrees_struct : decode.

(** The fields of a structure, one after the other. *)
Ltac agree_fields :=
  first [ apply List.Forall2_nil
        | apply List.Forall2_cons; [split; [reflexivity | eauto 6 with decode] | agree_fields] ].

Lemma UpdateInfo_fields_agree : fields_agree UpdateInfo_pfields UpdateInfo_fields.
Proof.
  assert (fields_agree Source_pfields Source_fields) by agree_fields.
  assert (fields_agree Artifact_pfields Artifact_fields) by agree_fields.
  agree_fields.
Qed.
