(* ===== verification/ServerApi.v ===== *)
(** * ServerApi: asking the server for updates, reporting the inventory

    client/client_update.go and client/client_inventory.go: the requests, the
    methods and endpoints that are tried one after the other, and what the
    answers mean.  Who sends the requests is the interface [ApiRequester], which
    the client of [ReauthClient] implements. *)

From S2P Require Import Prelude Json Text Os StateData ControlMap Client Decode ReauthClient Auth.
From Stdlib Require Import Ascii.

Open Scope Z_scope.

Class ApiRequester (D : Type) := {
  ApiDo : Request -> IO D Response;
  (** net/url.Parse, on which http.NewRequest fails. *)
  NewURL : string -> result URL
}.

Definition MethodGet : string := "GET".
Definition MethodPut : string := "PUT".
Definition MethodPatch : string := "PATCH".
Definition MethodPost : string := "POST".
Definition StatusMethodNotAllowed : Z := 405.

Definition json_header : Headers := header_set "Content-Type" "application/json" ∅.

Section server_api.
Context `{ApiRequester D}.

(** http.NewRequest, with the header of a body. *)
Definition NewRequest (method url : string) (body : option string) : result Request :=
  u ← NewURL url;
  Ok (mkRequest method u (match body with Some _ => json_header | None => ∅ end) (Ok <$> body)).

(** ** The inventory *)

Definition makeInventorySubmitRequest (method server : string) (data : json) : result Request :=
  match NewRequest method (buildApiURL server "/v1/inventory/device/attributes") (Some (marshal_text data +:+ newline)) with
  | Err err => Err (EWrap "failed to create inventory HTTP request" err)
  | Ok req => Ok req
  end.

(** The answer is there when the server gave one, also with an error. *)
Definition doSubmitInventory (method url : string) (data : json) (d : D) : (option Response * option error) * D :=
  match makeInventorySubmitRequest method url data with
  | Err err => ((None, Some (EWrap "failed to prepare inventory submit request" err)), d)
  | Ok req =>
      match ApiDo req d with
      | (Err err, d) => ((None, Some (EWrap "inventory submit failed" err)), d)
      | (Ok r, d) =>
          if negb (StatusCode r =? StatusOK)
          then ((Some r, Some (APIError_of (EText "Got unexpected HTTP status when submitting to inventory") r)), d)
          else ((Some r, None), d)
      end
  end.

(** InventoryClient.Submit: PATCH when the server does not know PUT. *)
Definition Submit (url : string) (data : json) (d : D) : option error * D :=
  match doSubmitInventory MethodPut url data d with
  | ((_, None), d) => (None, d)
  | ((Some r, Some err), d) =>
      if StatusCode r =? StatusMethodNotAllowed
      then let '((_, err), d) := doSubmitInventory MethodPatch url data d in (err, d)
      else (Some err, d)
  | ((None, Some err), d) => (Some err, d)
  end.

(** ** Requests for an update *)

Record CurrentUpdate := mkCurrentUpdate {
  cu_Artifact : string;
  cu_DeviceType : string;
  cu_Provides : gmap string string
}.

(** CurrentUpdate.MarshalJSON; the map it changes is not used again but here. *)
Definition current_json (u : CurrentUpdate) : json :=
  enc_map (<["device_type" := cu_DeviceType u]> (<["artifact_name" := cu_Artifact u]> (cu_Provides u))).

Definition v2_body (u : CurrentUpdate) : json :=
  JObj [("device_provides", current_json u); ("update_control_map", JBool true)].

(** net/url.QueryEscape. *)
Definition query_char (c : ascii) : string :=
  let n := Z.of_N (N_of_ascii c) in
  if (48 <=? n) && (n <=? 57) || (65 <=? n) && (n <=? 90) || (97 <=? n) && (n <=? 122)
     || existsb (fun x => bool_decide (x = c)) ["-"; "_"; "."; "~"]%char then String c EmptyString
  else if n =? 32 then "+"
  else "%" +:+ (if n <? 16 then "0" else EmptyString) +:+ FormatInt 16 true n.

Fixpoint query_escape (s : string) : string :=
  match s with EmptyString => EmptyString | String c s => query_char c +:+ query_escape s end.

(** url.Values.Encode of what is set, by name. *)
Definition query (u : CurrentUpdate) : string :=
  let artifact := if bool_decide (cu_Artifact u = EmptyString) then [] else ["artifact_name=" +:+ query_escape (cu_Artifact u)] in
  let device := if bool_decide (cu_DeviceType u = EmptyString) then [] else ["device_type=" +:+ query_escape (cu_DeviceType u)] in
  match (artifact ++ device)%list with
  | [] => EmptyString
  | l => "?" +:+ String.concat "&" l
  end.

Definition makeUpdateCheckRequest (server : string) (current : CurrentUpdate) : result (list Request) :=
  let ep := "/v1/deployments/device/deployments/next" in
  postV2 ← NewRequest MethodPost (buildApiURL server "/v2/deployments/device/deployments/next")
             (Some (marshal_text (v2_body current)));
  postV1 ← NewRequest MethodPost (buildApiURL server ep) (Some (marshal_text (current_json current)));
  getV1 ← NewRequest MethodGet (buildApiURL server (ep +:+ query current)) None;
  Ok [postV2; postV1; getV1].

Definition errCheckFailed : error := EText "failed to check update info on the server. Response:".
Definition errUnexpectedStatus : error := EText "received unexpected HTTP status code".

(** The next request is made when the endpoint does not exist. *)
Fixpoint findFirstWorkingEndpoint (reqs : list Request) : IO D Response := fun d =>
  match reqs with
  | [] => (Err errCheckFailed, d)
  | req :: reqs =>
      match ApiDo req d with
      | (Err err, d) => (Err (EWrap "update check request failed" err), d)
      | (Ok r, d) =>
          if (StatusCode r =? StatusUnauthorized) || (StatusCode r =? StatusOK) || (StatusCode r =? StatusNoContent)
          then (Ok r, d)
          else if StatusCode r =? StatusNotFound then findFirstWorkingEndpoint reqs d
          else if (400 <=? StatusCode r) && (StatusCode r <? 600) then (Err errCheckFailed, d)
          else (Err errUnexpectedStatus, d)
      end
  end.

(** ** Reports and logs (client/client_status.go, client_log.go) *)

Record StatusReport := mkStatusReport { report_DeploymentID : string; report_Status : string; report_SubState : string }.

Definition status_body (report : StatusReport) : string :=
  marshal_text (JObj (("status", JStr (report_Status report)) ::
    (if bool_decide (report_SubState report = EmptyString) then [] else [("substate", JStr (report_SubState report))])))
  +:+ newline.

Definition makeStatusReportRequest (server : string) (report : StatusReport) : result Request :=
  match NewRequest MethodPut
          (buildApiURL server ("/v1/deployments/device/deployments/" +:+ report_DeploymentID report +:+ "/status"))
          (Some (status_body report)) with
  | Err err => Err (EWrap "failed to create status HTTP request" err)
  | Ok req => Ok req
  end.

(** StatusClient.Report: the meaning of the status codes is in [Client.Report] for
    the state machine. *)
Definition StatusClient_Report (url : string) (report : StatusReport) (d : D) : option error * D :=
  match makeStatusReportRequest url report with
  | Err err => (Some (EWrap "failed to prepare status report request" err), d)
  | Ok req =>
      match ApiDo req d with
      | (Err err, d) => (Some (EWrap "reporting status failed" err), d)
      | (Ok r, d) =>
          if (StatusCode r =? StatusConflict) || (StatusCode r =? StatusNotFound) || (StatusCode r =? StatusGone)
          then (Some (APIError_of ErrDeploymentAborted r), d)
          else if negb (StatusCode r =? StatusNoContent)
          then (Some (APIError_of (EText "reporting status failed, bad status") r), d)
          else (None, d)
      end
  end.

Definition makeLogUploadRequest (server deploymentID messages : string) : result Request :=
  match NewRequest MethodPost (buildApiURL server ("/v1/deployments/device/deployments/" +:+ deploymentID +:+ "/log"))
          (Some messages) with
  | Err err => Err (EWrap "failed to create log sending HTTP request" err)
  | Ok req => Ok req
  end.

(** LogUploadClient.Upload. *)
Definition LogUploadClient_Upload (url deploymentID messages : string) (d : D) : option error * D :=
  match makeLogUploadRequest url deploymentID messages with
  | Err err => (Some (EWrap "failed to prepare log upload request" err), d)
  | Ok req =>
      match ApiDo req d with
      | (Err err, d) => (Some (EWrap "uploading logs failed" err), d)
      | (Ok r, d) =>
          if negb (StatusCode r =? StatusNoContent)
          then (Some (APIError_of (EText "uploading logs failed, bad status") r), d)
          else (None, d)
      end
  end.

(** The same error, or none, apart from what the server says about it. *)
Definition same_failure (a b : option error) : Prop :=
  match a, b with Some a, Some b => Cause a = Cause b | None, None => True | _, _ => False end.

(** What the state machine takes a status code for is what the client makes of the
    server's answer. *)
Lemma report_as_answered url report req d : makeStatusReportRequest url report = Ok req ->
  same_failure (StatusClient_Report url report d).1 (Report (StatusCode <$> (ApiDo req d).1)).
Proof.
  intros Hr. unfold StatusClient_Report, Report. rewrite Hr. destruct (ApiDo req d) as [[r|err] d']; [|done]. cbn [fst fmap result_fmap].
  destruct (StatusCode r =? StatusConflict); [done|]. cbn [orb].
  destruct ((StatusCode r =? StatusNotFound) || (StatusCode r =? StatusGone)); [done|].
  by destruct (negb (StatusCode r =? StatusNoContent)).
Qed.

Lemma upload_as_answered url id messages req d : makeLogUploadRequest url id messages = Ok req ->
  same_failure (LogUploadClient_Upload url id messages d).1 (Upload (StatusCode <$> (ApiDo req d).1)).
Proof.
  intros Hr. unfold LogUploadClient_Upload, Upload. rewrite Hr. destruct (ApiDo req d) as [[r|err] d']; [|done].
  cbn [fst fmap result_fmap]. by destruct (negb (StatusCode r =? StatusNoContent)).
Qed.

End server_api.

(** ** The answer *)

(** The update is nil until a field of it is seen. *)
Record UpdateResponse := mkUpdateResponse {
  ur_UpdateInfo : option UpdateInfo;
  ur_ControlMap : option ControlMap.UpdateControlMap
}.

Definition no_UpdateResponse : UpdateResponse := mkUpdateResponse None None.

(** A field of the embedded update, which is allocated for it. *)
Definition embedded (d : pdecoder UpdateInfo) : pdecoder UpdateResponse :=
  on_pfield (fun ur => default no_UpdateInfo (ur_UpdateInfo ur))
    (fun u ur => mkUpdateResponse (Some u) (ur_ControlMap ur)) d.

(** The control map's own method decodes it, and its error ends the decoding. *)
Definition p_control_map : pdecoder (option ControlMap.UpdateControlMap) := fun j old =>
  match j with
  | JNull => (None, None)
  | _ =>
      match ControlMap.UnmarshalJSON j (default ControlMap.no_ControlMap old) with
      | Ok m => (Some m, None)
      | Err e => (Some (default ControlMap.no_ControlMap old), Some (Ended e))
      end
  end.

Definition UpdateResponse_pfields : list (string * pdecoder UpdateResponse) :=
  ((fun f => (f.1, embedded f.2)) <$> UpdateInfo_pfields) ++
  [("update_control_map", on_pfield ur_ControlMap (fun m ur => mkUpdateResponse (ur_UpdateInfo ur) m) p_control_map)].

(** json.Unmarshal. *)
Definition p_unmarshal {R} (d : pdecoder R) (data : string) (r : R) : R * option error :=
  match unmarshal_text data with
  | None => (r, Some (EText "invalid character in JSON"))
  | Some j => let '(r, f) := d j r in (r, failure_error <$> f)
  end.

(** Decoding into a nil pointer does nothing. *)
Definition reparse (data : string) (ur : UpdateResponse) : UpdateResponse :=
  match ur_UpdateInfo ur with
  | None => ur
  | Some u => mkUpdateResponse (Some (p_unmarshal (p_struct UpdateInfo_pfields) data u).1) (ur_ControlMap ur)
  end.

Definition ErrNotAuthorized : error := EText "client not authorized".
Definition ErrServerInvalidResponse : error := EText "Invalid response received from the server".

Definition Validate_response (ur : UpdateResponse) : option error :=
  match ur_UpdateInfo ur with
  | None => Some (EText "not an update response?")
  | Some update =>
      match Validate update with
      | Some err => Some (EWrap "Failed to validate the update information in the response" err)
      | None => None
      end
  end.

(** Nothing, or what was read of an update, and an error. *)
Definition Scheduled : Type := option UpdateResponse * option error.

Definition processUpdateResponse (code : Z) (respBody : string) : Scheduled :=
  if code =? StatusOK then
    match p_unmarshal (p_struct UpdateResponse_pfields) respBody no_UpdateResponse with
    | (ur, Some err) => (Some (reparse respBody ur), Some (EWrap "failed to parse the HTTP update response" err))
    | (ur, None) => (Some ur, Validate_response ur)
    end
  else if code =? StatusNoContent then (None, Some ErrNoDeploymentAvailable)
  else if code =? StatusUnauthorized then (None, Some ErrNotAuthorized)
  else (None, Some ErrServerInvalidResponse).

(** UpdateClient.getUpdateInfo, with the answers to an update check. *)
Definition GetScheduledUpdate `{ApiRequester D} (server : string) (current : CurrentUpdate) (d : D) : Scheduled * D :=
  match makeUpdateCheckRequest server current with
  | Err err => ((None, Some (EWrap "failed to create update check request" err)), d)
  | Ok reqs =>
      match findFirstWorkingEndpoint reqs d with
      | (Err err, d) => ((None, Some err), d)
      | (Ok r, d) =>
          match Body r with
          | Err err => ((None, Some (EWrap "failed to read the request body" err)), d)
          | Ok respdata =>
              match processUpdateResponse (StatusCode r) respdata with
              | (data, Some err) => ((data, Some (APIError_of err r)), d)
              | (data, None) => ((data, None), d)
              end
          end
      end
  end.

(** ** The control map of a deployment *)

(** A nil pointer is followed when the answer is null. *)
Inductive Outcome (A : Type) : Type := Returned (r : A) | Panicked.
Arguments Returned {A}.
Arguments Panicked {A}.

Definition control_map_response (respBody : string) : Outcome (result (option ControlMap.UpdateControlMap)) :=
  match unmarshal_text respBody with
  | Some JNull => Panicked
  | _ =>
      match p_unmarshal (p_struct [("update_control_map", p_control_map)]) respBody None with
      | (None, _) => Returned (Err (EText "No control map returned"))
      | (Some m, Some err) => Returned (Err err)
      | (Some m, None) => Returned (Ok (Some m))
      end
  end.

Definition GetUpdateControlMap `{ApiRequester D} (serverURL deploymentID : string) (d : D) :
    Outcome (result (option ControlMap.UpdateControlMap)) * D :=
  match NewRequest MethodGet (buildApiURL serverURL
          ("/v2/deployments/device/deployments/" +:+ deploymentID +:+ "/update_control_map")) None with
  | Err err => (Returned (Err err), d)
  | Ok request =>
      match ApiDo request d with
      | (Err err, d) => (Returned (Err err), d)
      | (Ok response, d) =>
          (if StatusCode response =? StatusOK then
             match Body response with
             | Err err => Returned (Err err)
             | Ok body => control_map_response body
             end
           else if StatusCode response =? StatusNotFound then Returned (Err ErrNoDeploymentAvailable)
           else Returned (Err (EText "Invalid response received from the server")), d)
      end
  end.
