(* ===== verification/ServerApiSpec.v ===== *)
(** * ServerApiSpec: what an update check asks and accepts

    Theorems about [ServerApi], for everything that sends requests: which requests
    an update check and a report of the inventory make, what the controller gets
    to see of an answer, and what of a broken answer is used. *)

From S2P Require Import Prelude Json Text Os StateData ControlMap Client Decode ReauthClient Auth ServerApi.

Open Scope Z_scope.

(** ** Recording what is asked *)

Notation Asked := (Request * result Response)%type.

Record Recorded (D : Type) := mkRecorded { asked : list Asked; below : D }.
Arguments mkRecorded {D}.
Arguments asked {D}.
Arguments below {D}.

#[export] Instance Recorded_ApiRequester `{ApiRequester D} : ApiRequester (Recorded D) := {
  ApiDo q s := let '(r, d) := ApiDo q (below s) in (r, mkRecorded (asked s ++ [(q, r)]) d);
  NewURL := NewURL
}.

Definition status (a : Asked) : option Z := match a.2 with Ok r => Some (StatusCode r) | Err _ => None end.

Definition is_final (code : Z) : bool := (code =? StatusUnauthorized) || (code =? StatusOK) || (code =? StatusNoContent).

Section asking.
Context `{ApiRequester D}.
Implicit Types s : Recorded D.

Lemma ApiDo_recorded q s : exists r d, ApiDo q s = (r, mkRecorded (asked s ++ [(q, r)]) d).
Proof. cbn. destruct (ApiDo q (below s)) as [r d]. by eexists _, _. Qed.

(** The endpoints that are asked: the next after a 404 only. *)
Lemma find_asks reqs s : exists r s' l, findFirstWorkingEndpoint reqs s = (r, s') /\ asked s' = asked s ++ l /\
  (fst <$> l) `prefix_of` reqs /\
  (reqs <> [] -> exists before q a, l = before ++ [(q, a)] /\ Forall (fun b => status b = Some StatusNotFound) before /\
    (status (q, a) = Some StatusNotFound -> fst <$> l = reqs) /\
    match r with
    | Ok rsp => a = Ok rsp /\ is_final (StatusCode rsp) = true
    | Err _ => forall code, status (q, a) = Some code -> is_final code = false
    end).
Proof.
  revert s. induction reqs as [|q reqs IH]; intros s.
  { eexists _, s, []. rewrite app_nil_r. by repeat split. }
  cbn [findFirstWorkingEndpoint]. destruct (ApiDo_recorded q s) as (a & d & ->).
  assert (forall (k : list Request), [q] `prefix_of` q :: k) as Hpre by (intros k; by exists k).
  destruct a as [rsp|err].
  2: { eexists _, _, [(q, Err err)]. split; [done|]; split; [done|]; split; [apply Hpre|]. intros _.
    by eexists [], q, (Err err). }
  destruct (_ || _ || _) eqn:Hfinal.
  { eexists _, _, [(q, Ok rsp)]. split; [done|]; split; [done|]; split; [apply Hpre|]. intros _.
    eexists [], q, (Ok rsp). split; [done|]. split; [done|]. split; [|done].
    intros [= Hs]. unfold is_final in Hfinal. by rewrite Hs in Hfinal. }
  destruct (Z.eqb_spec (StatusCode rsp) StatusNotFound) as [Hnf|Hnf].
  - destruct (IH (mkRecorded (asked s ++ [(q, Ok rsp)]) d)) as (r & s' & l & Hr & Hl & Hp & Hne).
    eexists r, s', ((q, Ok rsp) :: l). split; [done|]. split; [by rewrite Hl; cbn; rewrite <- app_assoc|].
    split; [by apply prefix_cons|]. intros _. destruct reqs as [|q' reqs].
    + injection Hr as <- <-. cbn in Hl. assert (l = []) as ->.
      { rewrite <- (app_nil_r (asked s ++ [_])) in Hl at 1. by apply app_inv_head in Hl. }
      eexists [], q, (Ok rsp). split; [done|]. split; [done|]. split; [done|]. intros code [= <-]. by rewrite Hnf.
    + destruct Hne as (before & q1 & a1 & -> & Hb & H1 & H2); [done|].
      eexists ((q, Ok rsp) :: before), q1, a1. split; [done|]. split; [constructor; [by cbn; rewrite Hnf|done]|].
      split; [|done]. intros Hs. cbn [fmap list_fmap fst]. f_equal. by apply H1.
  - destruct (_ && _); (eexists _, _, [(q, Ok rsp)]; split; [done|]; split; [done|]; split; [apply Hpre|]; intros _;
      eexists [], q, (Ok rsp); split; [done|]; split; [done|]; split; [by intros [= ?]|by intros code [= <-]]).
Qed.

End asking.

(** ** What decodes without an error *)

Lemma find_pfield_Forall {R} (Q : pdecoder R -> Prop) p fs d :
  Forall (fun f => Q f.2) fs -> find_pfield p fs = Some d -> Q d.
Proof. induction 1 as [|[k x] fs Hx _ IH]; [done|]. cbn in *. destruct (p k); [by intros [= <-]|auto]. Qed.

Lemma lookup_pfield_Forall {R} (Q : pdecoder R -> Prop) fs k d :
  Forall (fun f => Q f.2) fs -> lookup_pfield fs k = Some d -> Q d.
Proof.
  intros Hf. unfold lookup_pfield. destruct (find_pfield (String.eqb k) fs) as [x|] eqn:H1.
  - intros [= <-]. by eapply find_pfield_Forall.
  - by apply find_pfield_Forall.
Qed.

(** [P] is kept by decoding without an error. *)
Definition keeps {R} (P : R -> Prop) (d : pdecoder R) : Prop := forall j r r', P r -> d j r = (r', None) -> P r'.

Lemma p_struct_keeps {R} (P : R -> Prop) fs : Forall (fun f => keeps P f.2) fs -> keeps P (p_struct fs).
Proof.
  intros Hf j r r' Hr. destruct j; try (intros [=]; by subst). cbn. revert r Hr.
  induction l as [|[k j] l IH]; intros r Hr; [by intros [= <-]|]. cbn [p_members].
  intros (r1 & H1 & H2)%and_then_ok. apply (IH r1); [|done].
  destruct (lookup_pfield fs k) as [d|] eqn:Hd; [|by injection H1 as <-].
  by apply (lookup_pfield_Forall (keeps P) fs k d Hf Hd j r).
Qed.

(** A control map that was accepted: checked, with what was left out filled in. *)
Definition map_fine (m : ControlMap.UpdateControlMap) : Prop :=
  ControlMap.Validate m = None /\ ControlMap.Sanitize m = m.

Definition response_fine (ur : UpdateResponse) : Prop := forall m, ur_ControlMap ur = Some m -> map_fine m.

Lemma Sanitize_fine m : ControlMap.Validate m = None -> map_fine (ControlMap.Sanitize m).
Proof.
  intros Hv. split; [|apply ControlMap.Sanitize_idemp].
  apply ControlMap.Validate_None in Hv as (Hid & Hp & Hs). apply ControlMap.Validate_None.
  split; [by destruct m|]. split; [by destruct m|]. intros k s. rewrite ControlMap.Sanitize_lookup.
  destruct (ControlMap.States m !! k) as [t|] eqn:Hk; [|done]. cbn.
  destruct (Hs k t Hk) as [Hkey Hok]. case_bool_decide; [done|]. intros [= <-].
  split; [done|]. by apply ControlMap.state_Sanitize_ok.
Qed.

Lemma UnmarshalJSON_fine j m m' : j <> JNull -> ControlMap.UnmarshalJSON j m = Ok m' -> map_fine m'.
Proof.
  intros Hj. unfold ControlMap.UnmarshalJSON. destruct j; try done.
  all: match goal with |- context [ControlMap.dec_struct_strict ?f ?x ?y] =>
         destruct (ControlMap.dec_struct_strict f x y) as [u|]; [|done] end.
  all: destruct (ControlMap.Validate u) eqn:Hv; [done|]; intros [= <-]; by apply Sanitize_fine.
Qed.

Lemma p_control_map_fine j old m : p_control_map j old = (Some m, None) -> map_fine m.
Proof.
  unfold p_control_map. pose proof (fun H => UnmarshalJSON_fine j (default ControlMap.no_ControlMap old) m H) as Hf.
  destruct (ControlMap.UnmarshalJSON j (default ControlMap.no_ControlMap old)).
  - destruct j; [done|..]; intros [= ->]; by apply Hf.
  - by destruct j.
Qed.

Lemma response_keeps_fine : keeps response_fine (p_struct UpdateResponse_pfields).
Proof.
  apply p_struct_keeps, Forall_app. split.
  - apply Forall_fmap, Forall_forall. intros [k d] _ j ur ur' Hur. cbn. unfold embedded, on_pfield.
    destruct (d j _) as [u [f|]]; [done|]. intros [= <-]. exact Hur.
  - apply Forall_singleton. intros j ur ur' Hur. cbn [snd]. unfold on_pfield.
    destruct (p_control_map j (ur_ControlMap ur)) as [o [f|]] eqn:Hm; [done|]. intros [= <-] m [= ->].
    by apply p_control_map_fine in Hm.
Qed.

(** ** The update check *)

(** What an answer has to be for its update to be taken. *)
Definition offers (a : result Response) (ur : UpdateResponse) : Prop :=
  exists rsp body, a = Ok rsp /\ StatusCode rsp = StatusOK /\ Body rsp = Ok body /\
    processUpdateResponse StatusOK body = (Some ur, None).

Lemma APIError_Is err rsp target : (forall m c, target <> EWrap m c) ->
  error_Is (APIError_of err rsp) target = error_Is err target.
Proof. intros Ht. unfold APIError_of. cbn [error_Is]. by rewrite bool_decide_eq_false_2. Qed.

(** What an accepted answer promises. *)
Lemma accepted_fine body ur : processUpdateResponse StatusOK body = (Some ur, None) ->
  exists u, ur_UpdateInfo ur = Some u /\ Validate u = None /\ response_fine ur.
Proof.
  unfold processUpdateResponse. rewrite Z.eqb_refl. unfold p_unmarshal.
  destruct (unmarshal_text body) as [j|]; [|done].
  destruct (p_struct UpdateResponse_pfields j no_UpdateResponse) as [ur' [f|]] eqn:Hp; [done|]. cbn.
  intros [= -> Hv]. unfold Validate_response in Hv. destruct (ur_UpdateInfo ur) as [u|]; [|done].
  exists u. destruct (Validate u); [done|]. split; [done|]. split; [done|].
  apply (response_keeps_fine j no_UpdateResponse); [|done]. by intros m.
Qed.

Section checking.
Context `{ApiRequester D}.
Implicit Types s : Recorded D.

(** C23: an update check asks the endpoints one after the other.  For everything that sends requests, every server and
    device: the requests made are the first of the three (POST to version 2, POST to version 1, GET with the
    parameters in the URL), each after the one before it was answered 404, and an update is returned without an error
    only for a last answer 200 whose body parses; it then has an id, compatible devices, an artifact name and an
    address, and a control map that was checked and completed.  After an answer 204 the error is that there is no
    deployment. *)
Theorem update_check_asks_in_order server current s reqs : makeUpdateCheckRequest server current = Ok reqs ->
  exists res s' before q a, GetScheduledUpdate server current s = (res, s') /\
    asked s' = asked s ++ before ++ [(q, a)] /\
    (fst <$> before ++ [(q, a)]) `prefix_of` reqs /\
    Forall (fun b => status b = Some StatusNotFound) before /\
    (status (q, a) = Some StatusNotFound -> length before = 2%nat) /\
    (res.2 = None -> exists ur u, res.1 = Some ur /\ offers a ur /\ ur_UpdateInfo ur = Some u /\
       Validate u = None /\ response_fine ur) /\
    (forall rsp body, a = Ok rsp -> StatusCode rsp = StatusNoContent -> Body rsp = Ok body ->
       exists err, res = (None, Some err) /\ error_Is err ErrNoDeploymentAvailable = true).
Proof.
  intros Hreqs. unfold GetScheduledUpdate. change (makeUpdateCheckRequest (D := Recorded D) server current = Ok reqs) in Hreqs. rewrite Hreqs.
  destruct (find_asks reqs s) as (r & s' & l & -> & Hl & Hp & Hne).
  assert (length reqs = 3%nat) as Hlen.
  { revert Hreqs. unfold makeUpdateCheckRequest. do 3 (destruct (NewRequest _ _ _); cbn [mbind result_bind]). all: intros [=]; by subst. }
  destruct Hne as (before & q & a & -> & Hb & Hnf & Hr); [by destruct reqs|].
  assert (status (q, a) = Some StatusNotFound -> length before = 2%nat) as Hnf'.
  { intros Hs. specialize (Hnf Hs). apply (f_equal length) in Hnf.
    rewrite length_fmap, length_app in Hnf. cbn in Hnf. lia. }
  destruct r as [rsp|err].
  2: { eexists (None, Some err), s', before, q, a. do 5 (split; [done|]). split; [by intros [=]|].
    intros rsp body -> Hc Hbody. specialize (Hr (StatusCode rsp) eq_refl). by rewrite Hc in Hr. }
  destruct Hr as [-> Hfinal]. destruct (Body rsp) as [body|err] eqn:Hbody.
  2: { eexists (None, Some _), s', before, q, (Ok rsp). do 5 (split; [done|]). split; [by intros [=]|].
    intros rsp' body [= <-] _ Hbody'. congruence. }
  destruct (processUpdateResponse (StatusCode rsp) body) as [data [err|]] eqn:Hproc.
  - eexists (data, Some _), s', before, q, (Ok rsp). do 5 (split; [done|]). split; [by intros [=]|].
    intros rsp' body' [= <-] Hc Hbody'. rewrite Hbody in Hbody'. injection Hbody' as <-.
    rewrite Hc in Hproc. injection Hproc as <- <-. eexists. split; [done|]. by rewrite APIError_Is.
  - eexists (data, None), s', before, q, (Ok rsp). do 5 (split; [done|]).
    assert (StatusCode rsp = StatusOK) as Hok.
    { unfold processUpdateResponse in Hproc. destruct (Z.eqb_spec (StatusCode rsp) StatusOK); [done|].
      destruct (_ =? _); [done|]. by destruct (_ =? _). }
    split.
    + intros _. rewrite Hok in Hproc. destruct data as [ur|].
      * destruct (accepted_fine _ _ Hproc) as (u & Hu & Hv & Hm). exists ur, u. split; [done|]. split; [|done].
        by exists rsp, body.
      * unfold processUpdateResponse in Hproc. cbn in Hproc. by destruct (p_unmarshal _ _ _) as [? []].
    + intros rsp' body' [= <-] Hc. by rewrite Hok in Hc.
Qed.

End checking.

(** ** Decoding twice *)

Lemma dec_entries_same l m : Forall (fun kv => m !! kv.1 = Some kv.2) l ->
  dec_entries ((fun kv => (kv.1, JStr kv.2)) <$> l) m = Ok m.
Proof. induction 1 as [|[k v] l Hk _ IH]; [done|]. cbn in *. by rewrite insert_id. Qed.

Lemma dec_enc_map_again m : dec_nilable_map (enc_map m) (Some m) = Ok (Some m).
Proof.
  unfold enc_map, dec_nilable_map. cbn [default]. rewrite dec_entries_same; [done|].
  apply Forall_forall. intros [k v] Hin. rewrite merge_sort_Permutation in Hin.
  by apply elem_of_map_to_list in Hin.
Qed.

Lemma dec_enc_Artifact_again a : let n := normalize_Artifact a in
  dec_struct Artifact_fields (enc_Artifact a) n = Ok n.
Proof.
  intros n. unfold enc_Artifact. cbn [dec_struct app]. do 5 dec_member.
  destruct a as [u x cd pt an ag m l]. subst n. unfold normalize_Artifact.
  cbn [app TypeInfoProvides ClearsArtifactProvides].
  assert (Hclears : forall a', ClearsArtifactProvides a' = (match l with Some [] => None | o => o end) ->
    dec_members Artifact_fields (omitempty_strings "clears_artifact_provides" l) a' = Ok a').
  { intros a' Ha'. destruct l as [[|s l]|]; [done| |done]. cbn [omitempty_strings].
    erewrite dec_members_cons; [|reflexivity|apply on_field_ok, (dec_enc_nilable_strings (Some (s :: l)))].
    destruct a'. cbn in *. by subst. }
  destruct m as [m|]; cbn [omitempty_map app]; [case_bool_decide as Hm; cbn [app]|];
    [apply Hclears; by destruct l as [[]|]| |apply Hclears; by destruct l as [[]|]].
  erewrite dec_members_cons; [|reflexivity|].
  2: { apply on_field_ok. cbn. apply dec_enc_map_again. }
  apply Hclears. by destruct l as [[]|].
Qed.

(** The update as the server knows it, after [omitempty]. *)
Definition as_sent (u : UpdateInfo) : UpdateInfo := set_Artifact (normalize_Artifact (artifact u)) u.

Definition counts_ok (u : UpdateInfo) : Prop :=
  int64_min <= StateDataStoreCount u <= int64_max /\ int64_min <= StatusReportRetryAttempts u <= int64_max.

Lemma dec_enc_UpdateInfo_again u : counts_ok u ->
  dec_struct UpdateInfo_fields (enc_UpdateInfo u) (as_sent u) = Ok (as_sent u).
Proof.
  intros [H1 H2]. unfold enc_UpdateInfo. cbn [dec_struct].
  pose proof (dec_enc_Artifact_again (artifact u)) as Ha. do 7 dec_member. destruct u; reflexivity.
Qed.

(** ** The members of an answer *)

Definition members (j : json) : list (string * json) := match j with JObj l => l | _ => [] end.

Lemma p_members_app {R} (fs : list (string * pdecoder R)) l k r r' : p_members fs l r = (r', None) ->
  p_members fs (l ++ k) r = p_members fs k r'.
Proof.
  revert r. induction l as [|[n j] l IH]; intros r; [by intros [= <-]|]. cbn [p_members app].
  intros (r1 & H1 & H2)%and_then_ok. rewrite H1. cbn [and_then]. by apply IH.
Qed.

(** A name that the update has. *)
Definition known (k : string) : Prop := exists d,
  lookup_pfield UpdateInfo_pfields k = Some d /\ lookup_pfield UpdateResponse_pfields k = Some (embedded d).

Lemma p_members_embedded l ur u : Forall (fun kv => known kv.1) l -> l <> [] ->
  p_members UpdateInfo_pfields l (default no_UpdateInfo (ur_UpdateInfo ur)) = (u, None) ->
  p_members UpdateResponse_pfields l ur = (mkUpdateResponse (Some u) (ur_ControlMap ur), None).
Proof.
  intros Hl. revert ur. induction Hl as [|[k j] l (d & H1 & H2) Hl IH]; intros ur Hne; [done|]. cbn [fst] in *.
  cbn [p_members]. rewrite H1, H2. intros (u1 & Hd & Hr)%and_then_ok. unfold embedded at 1, on_pfield.
  rewrite Hd. cbn [and_then]. destruct l as [|kv l]; [by injection Hr as <-|]. by rewrite IH.
Qed.

Lemma members_known u : Forall (fun kv => known kv.1) (members (enc_UpdateInfo u)).
Proof. unfold enc_UpdateInfo. cbn [members]. repeat constructor; eexists; split; reflexivity. Qed.

Section answers.
Variable u : UpdateInfo.
Hypothesis Hu : counts_ok u.

Lemma update_members (m : option ControlMap.UpdateControlMap) :
  p_members UpdateResponse_pfields (members (enc_UpdateInfo u)) (mkUpdateResponse None m) =
    (mkUpdateResponse (Some (as_sent u)) m, None).
Proof.
  apply p_members_embedded; [apply members_known|done|]. destruct Hu as [H1 H2].
  apply (p_members_agree _ UpdateInfo_fields); [apply UpdateInfo_fields_agree|]. by apply dec_enc_UpdateInfo.
Qed.

Lemma update_members_again : p_members UpdateInfo_pfields (members (enc_UpdateInfo u)) (as_sent u) = (as_sent u, None).
Proof. apply (p_members_agree _ UpdateInfo_fields); [apply UpdateInfo_fields_agree|]. by apply dec_enc_UpdateInfo_again. Qed.

End answers.

(** An answer of the server: the update, and its control map before or after. *)
Definition answer_map_last (u : UpdateInfo) (m : json) : string :=
  marshal_text (JObj (members (enc_UpdateInfo u) ++ [("update_control_map", m)])).
Definition answer_map_first (u : UpdateInfo) (m : json) : string :=
  marshal_text (JObj (("update_control_map", m) :: members (enc_UpdateInfo u))).

Lemma process_ok text j : text = marshal_text j -> processUpdateResponse StatusOK text =
  match p_struct UpdateResponse_pfields j no_UpdateResponse with
  | (ur, Some f) => (Some (reparse text ur), Some (EWrap "failed to parse the HTTP update response" (failure_error f)))
  | (ur, None) => (Some ur, Validate_response ur)
  end.
Proof.
  intros ->. unfold processUpdateResponse. rewrite Z.eqb_refl. unfold p_unmarshal at 1.
  rewrite unmarshal_marshal_text. by destruct (p_struct UpdateResponse_pfields j no_UpdateResponse) as [ur [f|]].
Qed.

Definition refused_map (m : json) (err : error) : Prop :=
  m <> JNull /\ ControlMap.UnmarshalJSON m ControlMap.no_ControlMap = Err err.

Lemma map_member_fails m err ur k : refused_map m err -> ur_ControlMap ur = None ->
  p_members UpdateResponse_pfields (("update_control_map", m) :: k) ur =
    (mkUpdateResponse (ur_UpdateInfo ur) (Some ControlMap.no_ControlMap), Some (Ended err)).
Proof.
  intros [Hm He] Hur. cbn [p_members].
  change (lookup_pfield UpdateResponse_pfields "update_control_map") with
    (Some (on_pfield ur_ControlMap (fun m ur => mkUpdateResponse (ur_UpdateInfo ur) m) p_control_map)).
  unfold on_pfield, p_control_map. rewrite Hur. cbn [default]. rewrite He. by destruct m.
Qed.

Section offers.
Variables (u : UpdateInfo).
Hypotheses (Hcounts : counts_ok u) (Hvalid : Validate u = None).

Lemma Validate_as_sent : Validate (as_sent u) = None.
Proof. revert Hvalid. by destruct u as [[]]. Qed.

(** C24: what the server offers is what the controller gets.  For every update that has what an update needs and whose
    counters fit, and every valid control map, an answer with both, the control map first or last, parses without an
    error, to the update (with maps and lists that are empty left out) and the control map completed; with null
    for the control map, to the update without one. *)
Theorem update_answer_reads_back (m : ControlMap.UpdateControlMap) : ControlMap.Validate m = None ->
  let got := mkUpdateResponse (Some (as_sent u)) (Some (ControlMap.Sanitize (ControlMap.strip_times m))) in
  processUpdateResponse StatusOK (answer_map_last u (ControlMap.enc_ControlMap m)) = (Some got, None) /\
  processUpdateResponse StatusOK (answer_map_first u (ControlMap.enc_ControlMap m)) = (Some got, None) /\
  processUpdateResponse StatusOK (answer_map_last u JNull) =
    (Some (mkUpdateResponse (Some (as_sent u)) None), None).
Proof.
  intros Hm got.
  assert (forall k ur, ur_ControlMap ur = None ->
    p_members UpdateResponse_pfields (("update_control_map", ControlMap.enc_ControlMap m) :: k) ur =
    p_members UpdateResponse_pfields k (mkUpdateResponse (ur_UpdateInfo ur) (ur_ControlMap got))) as Hmap.
  { intros k ur Hur. change (("update_control_map", ControlMap.enc_ControlMap m) :: k)
      with ([("update_control_map", ControlMap.enc_ControlMap m)] ++ k). apply p_members_app. cbn [p_members].
    change (lookup_pfield UpdateResponse_pfields "update_control_map") with
      (Some (on_pfield ur_ControlMap (fun m ur => mkUpdateResponse (ur_UpdateInfo ur) m) p_control_map)).
    unfold on_pfield, p_control_map. rewrite ControlMap.unmarshal_enc by done. done. }
  pose proof Validate_as_sent as Hv. split; [|split].
  - rewrite (process_ok (answer_map_last u _) _ eq_refl). cbn [p_struct].
    rewrite (p_members_app _ _ _ _ _ (update_members u Hcounts None)), Hmap by done. cbn [p_members ur_UpdateInfo].
    unfold Validate_response. cbn [ur_UpdateInfo]. by rewrite Hv.
  - rewrite (process_ok (answer_map_first u _) _ eq_refl). cbn [p_struct]. rewrite Hmap by done.
    rewrite (update_members u Hcounts). unfold Validate_response. cbn [ur_UpdateInfo]. by rewrite Hv.
  - rewrite (process_ok (answer_map_last u _) _ eq_refl). cbn [p_struct].
    rewrite (p_members_app _ _ _ _ _ (update_members u Hcounts None)). cbn [p_members].
    change (lookup_pfield UpdateResponse_pfields "update_control_map") with
      (Some (on_pfield ur_ControlMap (fun m ur => mkUpdateResponse (ur_UpdateInfo ur) m) p_control_map)).
    unfold Validate_response. cbn. by rewrite Hv.
Qed.

(** An update whose control map is refused.  When the control map comes after the update in the answer, the error
    comes with the whole update, so that its failure is reported; when it comes before, the same answer gives the
    error without an update, and the deployment is not failed but asked for again. *)
Theorem refused_map_keeps_update (m : json) (err : error) : refused_map m err ->
  let parse_error := Some (EWrap "failed to parse the HTTP update response" err) in
  (exists ur, processUpdateResponse StatusOK (answer_map_last u m) = (Some ur, parse_error) /\
     ur_UpdateInfo ur = Some (as_sent u)) /\
  (exists ur, processUpdateResponse StatusOK (answer_map_first u m) = (Some ur, parse_error) /\
     ur_UpdateInfo ur = None).
Proof.
  intros Hm parse_error. split.
  - pose proof (process_ok (answer_map_last u m) _ eq_refl) as Hp. revert Hp. cbn [p_struct].
    rewrite (p_members_app _ _ _ _ _ (update_members u Hcounts None)), (map_member_fails m err) by done.
    intros ->. eexists. split; [done|]. unfold reparse. cbn [ur_UpdateInfo]. unfold p_unmarshal, answer_map_last.
    rewrite unmarshal_marshal_text. cbn [p_struct].
    by rewrite (p_members_app _ _ _ _ _ (update_members_again u Hcounts)).
  - pose proof (process_ok (answer_map_first u m) _ eq_refl) as Hp. revert Hp. cbn [p_struct].
    rewrite (map_member_fails m err) by done. intros ->. by eexists.
Qed.

End offers.

(** ** The control map of a deployment *)

Lemma control_map_response_cases body :
  match control_map_response body with
  | Panicked => unmarshal_text body = Some JNull
  | Returned (Ok r) => (exists m, r = Some m /\ map_fine m) /\ unmarshal_text body <> Some JNull
  | Returned (Err _) => unmarshal_text body <> Some JNull
  end.
Proof.
  unfold control_map_response, p_unmarshal. destruct (unmarshal_text body) as [j|]; [|done].
  assert (match (let '(r, f) := p_struct [("update_control_map", p_control_map)] j None in (r, failure_error <$> f)) with
    | (None, _) => True | (Some m, Some _) => True | (Some m, None) => map_fine m end) as Hp.
  { destruct (p_struct _ j None) as [[m|] [f|]] eqn:Hp; try done. cbn.
    apply (p_struct_keeps (fun o => forall m, o = Some m -> map_fine m)
      [("update_control_map", p_control_map)]) in Hp; [by apply Hp| |done].
    apply Forall_singleton. intros j' o o' _ Hd m' ->. by apply p_control_map_fine in Hd. }
  destruct j; [done|..]; match goal with |- context [let '(r, f) := ?p in _] => destruct p as [[m|] [f|]] end;
    cbn in *; try done; split; eauto.
Qed.

(** The last answer is 200 and its body is null. *)
Definition null_answer (l : list Asked) : Prop := exists q rsp body,
  l = [(q, Ok rsp)] /\ StatusCode rsp = StatusOK /\ Body rsp = Ok body /\ unmarshal_text body = Some JNull.

Definition map_or_panic (o : Outcome (result (option ControlMap.UpdateControlMap))) (l : list Asked) : Prop :=
  (forall r, o = Returned (Ok r) -> exists m, r = Some m /\ map_fine m) /\ (o = Panicked <-> null_answer l).

Lemma error_no_panic err l : ~ null_answer l -> map_or_panic (Returned (Err err)) l.
Proof. intros Hl. split; [by intros r [=]|by split]. Qed.

Lemma null_answer_status q rsp : null_answer [(q, Ok rsp)] -> StatusCode rsp = StatusOK /\
  exists body, Body rsp = Ok body /\ unmarshal_text body = Some JNull.
Proof. intros (? & ? & body & [= <- <-] & Hs & Hb & Hn). split; [done|]. by exists body. Qed.

Section refreshing.
Context `{ApiRequester D}.

(** Refreshing a control map.  Whatever the server answers, what comes back without an error is a control map
    that was checked and completed; the client follows a nil pointer exactly when the answer is 200 and its body is
    null. *)
Theorem GetUpdateControlMap_spec server id (s : Recorded D) :
  exists o s' l, GetUpdateControlMap server id s = (o, s') /\ asked s' = asked s ++ l /\ (length l <= 1)%nat /\
    (forall r, o = Returned (Ok r) -> exists m, r = Some m /\ map_fine m) /\ (o = Panicked <-> null_answer l).
Proof.
  unfold GetUpdateControlMap. destruct (NewRequest _ _ _) as [q|err].
  2: { eexists _, s, []. rewrite app_nil_r. split; [done|]. split; [done|]. split; [cbn; lia|].
    apply error_no_panic. by intros (?&?&?&?&_). }
  destruct (ApiDo_recorded q s) as (a & d & ->). destruct a as [rsp|err].
  2: { eexists _, _, [(q, Err err)]. split; [done|]. split; [done|]. split; [cbn; lia|].
    apply error_no_panic. by intros (?&?&?&[=]&_). }
  eexists _, _, [(q, Ok rsp)]. split; [done|]. split; [done|]. split; [cbn; lia|].
  destruct (Z.eqb_spec (StatusCode rsp) StatusOK) as [Hok|Hok].
  2: { destruct (_ =? _); apply error_no_panic; by intros [? _]%null_answer_status. }
  destruct (Body rsp) as [body|err] eqn:Hbody.
  2: { apply error_no_panic. intros [_ (body & Hb & _)]%null_answer_status. congruence. }
  assert (null_answer [(q, Ok rsp)] -> unmarshal_text body = Some JNull) as Hnull.
  { intros [_ (b & Hb & Hn)]%null_answer_status. congruence. }
  pose proof (control_map_response_cases body) as Hc.
  destruct (control_map_response body) as [[r|err]|]; [|by apply error_no_panic; intros ?%Hnull|].
  - destruct Hc as [Hr Hn]. split; [by intros r' [= <-]|]. split; [done|by intros ?%Hnull].
  - split; [done|]. split; [|done]. intros _. by exists q, rsp, body.
Qed.

(** ** The inventory *)

Definition answer_of (a : Asked) : option Response := match a.2 with Ok r => Some r | Err _ => None end.

(** One request with the method, unless the address is not an URL. *)
Lemma doSubmit_asks method url data (s : Recorded D) :
  match NewRequest method (buildApiURL url "/v1/inventory/device/attributes") (Some (marshal_text data +:+ newline)) with
  | Err _ => exists err, doSubmitInventory method url data s = ((None, Some err), s)
  | Ok q => exists a e s', doSubmitInventory method url data s = ((answer_of (q, a), e), s') /\
      asked s' = asked s ++ [(q, a)] /\ (e = None <-> status (q, a) = Some StatusOK)
  end.
Proof.
  unfold doSubmitInventory, makeInventorySubmitRequest.
  change (NewRequest (D := Recorded D)) with (NewRequest (D := D)).
  destruct (NewRequest method _ _) as [q|err]; [|by eexists].
  destruct (ApiDo_recorded q s) as (a & d & ->). exists a. destruct a as [rsp|err]; [|by eexists _, _].
  destruct (Z.eqb_spec (StatusCode rsp) StatusOK) as [Hok|Hok]; cbn [negb]; eexists _, _; split; [done| |done|].
  - split; [done|]. cbn. by rewrite Hok.
  - split; [done|]. by split; [|intros [= ?]].
Qed.

(** C0: reporting the inventory: at most two requests, the first with PUT and the second, after an answer 405 only,
    with PATCH, for the same address and with the same body; it succeeds exactly when the last answer is 200. *)
Theorem Submit_spec url data (s : Recorded D) :
  exists e s' l, Submit url data s = (e, s') /\ asked s' = asked s ++ l /\
    (Method ∘ fst <$> l) `prefix_of` [MethodPut; MethodPatch] /\
    (length l = 2%nat -> exists a b, l = [a; b] /\ status a = Some StatusMethodNotAllowed /\
       ReqURL a.1 = ReqURL b.1 /\ GetBody a.1 = GetBody b.1) /\
    (forall a, l = [a] -> status a <> Some StatusMethodNotAllowed) /\
    (e = None <-> exists a, last l = Some a /\ status a = Some StatusOK).
Proof.
  unfold Submit. pose proof (doSubmit_asks MethodPut url data s) as Hput.
  pose proof (doSubmit_asks MethodPatch url data) as Hpatch.
  unfold NewRequest in Hput, Hpatch. destruct (NewURL _) as [u|err]; cbn [mbind result_bind] in Hput, Hpatch.
  2: { destruct Hput as (err' & ->). eexists _, s, []. rewrite app_nil_r. split; [done|]. split; [done|].
    split; [by eexists|]. split; [done|]. split; [done|]. split; [done|by intros (?&?&_)]. }
  set (put := mkRequest MethodPut u json_header (Ok <$> Some (marshal_text data +:+ newline))) in Hput.
  destruct Hput as (a & e & s1 & -> & Ha & He). assert ([MethodPut] `prefix_of` [MethodPut; MethodPatch]) as Hp
    by (by exists [MethodPatch]).
  assert (status (put, a) <> Some StatusMethodNotAllowed -> exists e' s' l, (e, s1) = (e', s') /\ asked s' = asked s ++ l /\
    (Method ∘ fst <$> l) `prefix_of` [MethodPut; MethodPatch] /\
    (length l = 2%nat -> exists a b, l = [a; b] /\ status a = Some StatusMethodNotAllowed /\
       ReqURL a.1 = ReqURL b.1 /\ GetBody a.1 = GetBody b.1) /\
    (forall a, l = [a] -> status a <> Some StatusMethodNotAllowed) /\
    (e' = None <-> exists a, last l = Some a /\ status a = Some StatusOK)) as Hone.
  { intros Hna. exists e, s1, [(put, a)]. split; [done|]. split; [exact Ha|]. split; [exact Hp|]. split; [done|].
    split; [by intros x [= <-]|]. rewrite He. split; [by eexists|by intros (?&[= <-]&?)]. }
  destruct e as [err|].
  2: { destruct (answer_of _); apply Hone; rewrite (proj1 He eq_refl); by intros [= ?]. }
  destruct a as [rsp|err']; cbn [answer_of snd]; [|by apply Hone].
  destruct (Z.eqb_spec (StatusCode rsp) StatusMethodNotAllowed) as [Hna|Hna]; [|by apply Hone; intros [= ?]].
  destruct (Hpatch s1) as (b & e2 & s2 & -> & Hb & He2).
  eexists e2, s2, [_; _]. split; [done|]. split; [by rewrite Hb, Ha, <- app_assoc|]. split; [done|]. split.
  { intros _. eexists _, _. split; [done|]. split; [cbn; by rewrite Hna|done]. }
  split; [done|]. rewrite He2. split; [by eexists|by intros (?&[= <-]&?)].
Qed.

End refreshing.

(** * A server whose answers are given, and the witnesses *)

(** ** A server whose answers are given *)

Definition any_url (u : string) : result URL := Ok (mkURL "https" "s" u EmptyString).

#[export] Instance Script_ApiRequester : ApiRequester (list (result Response)) := {
  ApiDo q d := match d with [] => (Err (EText "connection refused"), []) | r :: d => (r, d) end;
  NewURL := any_url
}.

Definition reply (code : Z) (body : string) : result Response := Ok (ReauthClient.mkResponse code EmptyString (Ok body)).

Definition at_start (l : list (result Response)) : Recorded (list (result Response)) := mkRecorded [] l.

Definition device : CurrentUpdate := mkCurrentUpdate "release 1" "beagle&bone" ∅.

Definition example_map : ControlMap.UpdateControlMap :=
  ControlMap.mkControlMap "01234567-0123-0123-0123-0123456789ab" 1
    {["ArtifactReboot_Enter" := ControlMap.mkMapState "pause" EmptyString EmptyString]} 0 0 0 false.

Definition offer : string := answer_map_last (updateInfo example_StateData) (ControlMap.enc_ControlMap example_map).

(** An old server, which knows only GET; then one that has nothing. *)
Example old_server :
  let '(res, s) := GetScheduledUpdate "s" device (at_start [reply 404 "-"; reply 404 "-"; reply 200 offer]) in
  res.2 = None /\ ((fun a => (Method a.1, Path (ReqURL a.1))) <$> asked s) =
    [("POST", "https://s/api/devices/v2/deployments/device/deployments/next");
     ("POST", "https://s/api/devices/v1/deployments/device/deployments/next");
     ("GET", "https://s/api/devices/v1/deployments/device/deployments/next?artifact_name=release+1&device_type=beagle%26bone")].
Proof. vm_compute. split; reflexivity. Qed.

Lemma update_check_asks_in_order_witness :
  exists res s' before q a, GetScheduledUpdate "s" device (at_start [reply 404 "-"; reply 200 offer]) = (res, s') /\
    asked s' = [] ++ before ++ [(q, a)] /\ length before = 1%nat /\ res.2 = None /\
    exists ur u, res.1 = Some ur /\ ur_UpdateInfo ur = Some u /\ Validate u = None.
Proof.
  assert (exists reqs, makeUpdateCheckRequest "s" device = Ok reqs) as [reqs Hreqs]
    by (eexists; vm_compute; reflexivity).
  destruct (update_check_asks_in_order "s" device (at_start [reply 404 "-"; reply 200 offer]) reqs Hreqs)
    as (res & s' & before & q & a & Hrun & Hasked & _ & _ & _ & Hok & _).
  exists res, s', before, q, a. split; [exact Hrun|]. split; [exact Hasked|].
  assert (res.2 = None /\ length (asked s') = 2%nat) as [Hres Hlen].
  { assert ((fun x : Scheduled * Recorded (list (result Response)) => (x.1.2, length (asked x.2)))
      (GetScheduledUpdate "s" device (at_start [reply 404 "-"; reply 200 offer])) = (None, 2%nat)) as Hc
      by (vm_compute; reflexivity).
    rewrite Hrun in Hc. split; [exact (f_equal fst Hc)|exact (f_equal snd Hc)]. }
  rewrite Hasked, !length_app in Hlen. cbn [asked at_start length Nat.add] in Hlen.
  split; [clear -Hlen; lia|]. split; [exact Hres|].
  destruct (Hok Hres) as (ur & u & Hur & _ & Hu & Hv & _). exists ur, u. split; [exact Hur|split; [exact Hu|exact Hv]].
Defined.

Lemma example_counts : counts_ok (updateInfo example_StateData).
Proof. split; vm_compute; split; discriminate. Qed.

Lemma example_valid : Validate (updateInfo example_StateData) = None.
Proof. vm_compute. reflexivity. Qed.

Lemma update_answer_reads_back_witness :
  processUpdateResponse StatusOK offer =
    (Some (mkUpdateResponse (Some (as_sent (updateInfo example_StateData)))
       (Some (ControlMap.Sanitize (ControlMap.strip_times example_map)))), None) /\
  ControlMap.States (ControlMap.Sanitize (ControlMap.strip_times example_map)) =
    {["ArtifactReboot_Enter" := ControlMap.mkMapState "pause" "fail" "pause"]}.
Proof.
  split; [|vm_compute; reflexivity].
  exact (proj1 (update_answer_reads_back _ example_counts example_valid example_map (eq_refl : ControlMap.Validate example_map = None))).
Defined.

(** A control map with a name that is not known. *)
Definition strange_map : json := JObj [("id", JStr "01234567-0123-0123-0123-0123456789ab"); ("colour", JStr "blue")].

Lemma refused_map_keeps_update_witness : exists err,
  refused_map strange_map err /\
  exists ur, processUpdateResponse StatusOK (answer_map_first (updateInfo example_StateData) strange_map) =
    (Some ur, Some (EWrap "failed to parse the HTTP update response" err)) /\ ur_UpdateInfo ur = None.
Proof.
  eexists. assert (refused_map strange_map (ControlMap.unsupported_fields (EText "json: unknown field"))) as Hm
    by (split; [discriminate|vm_compute; reflexivity]).
  split; [exact Hm|].
  exact (proj2 (refused_map_keeps_update _ example_counts _ _ Hm)).
Defined.

(** A server that does not know PUT. *)
Example patched : let '(e, s) := Submit "s" (JArr []) (at_start [reply 405 "no"; reply 200 EmptyString]) in
  e = None /\ (Method ∘ fst <$> asked s) = ["PUT"; "PATCH"].
Proof. vm_compute. split; reflexivity. Qed.

(** ** Through the client that fetches tokens *)

(** [Reauth_Do_spec]: two passes are always enough. *)
Definition Reauth_ApiRequester `{Transport D} (revoke : IO D (string * string)) : ApiRequester (Reauth D) := {|
  ApiDo q s := match Reauth_Do revoke 2 q s with
               | (Some r, s) => (r, s)
               | (None, s) => (Err (EText "not reached"), s)
               end;
  NewURL := ParseURL
|}.

(** A server that wants a token and has an update. *)
#[export] Instance Guarded_Transport : Transport nat := {
  RoundTrip q d := (if bool_decide (sent_header q !! "Authorization" = Some ["Bearer token"])
                    then reply 200 offer else reply 401 "who are you", S d);
  ParseURL := any_url
}.

Example authorized_check :
  let requester := Reauth_ApiRequester (fun d : nat => (Ok ("token", "s"), d)) in
  let '(res, s) := GetScheduledUpdate "s" device (mkReauth EmptyString EmptyString ∅ 0%nat) in
  res.2 = None /\ auth s = "token" /\ env s = 1%nat.
Proof. vm_compute. repeat split. Qed.
