(* ===== verification/FetchUpdate.v ===== *)
(** * FetchUpdate: starting the download of an artifact

    [UpdateClient.FetchUpdate] of client/client_update.go, which gives the reader
    of [Resumer], and the look at the quality of the wireless network before it,
    client/network_quality.go. *)

From S2P Require Import Prelude Text Os Client ReauthClient Auth Resumer.
From Stdlib Require Import Ascii.

Open Scope Z_scope.

(** ** The wireless network *)

(** /proc/net/wireless, what iw says of the signal, and the process's environment. *)
Class Wireless (D : Type) := {
  ProcNetWireless : D -> result string;
  IwSignal : string -> IO D string;
  Getenv : string -> D -> string
}.

Definition colon : ascii := ":".

Fixpoint TrimSuffix_colon (s : string) : string :=
  match s with
  | EmptyString => EmptyString
  | String c EmptyString => if bool_decide (c = colon) then EmptyString else s
  | String c s => String c (TrimSuffix_colon s)
  end.

(** The first interface below the two lines of the head. *)
Fixpoint first_interface (lines : list string) : string :=
  match lines with
  | [] => EmptyString
  | line :: lines =>
      match Fields (TrimSpace line) with
      | [] => first_interface lines
      | field :: _ =>
          let iface := TrimSuffix_colon field in
          if bool_decide (iface = EmptyString) then first_interface lines else iface
      end
  end.

Definition defaultMinAcceptableSignalDBm : Z := -75.
Definition minSignalEnvVar : string := "OTAPULSE_WIFI_MIN_SIGNAL_DBM".
Definition enforceEnvVar : string := "OTAPULSE_WIFI_QUALITY_ENFORCE".

Section wireless.
Context `{Wireless D}.

Definition detectPrimaryWirelessInterface (d : D) : string :=
  match ProcNetWireless d with
  | Err _ => EmptyString
  | Ok text => first_interface (drop 2 (Scan text).1)
  end.

Definition minAcceptableSignal (d : D) : Z :=
  let v := Getenv minSignalEnvVar d in
  if bool_decide (v = EmptyString) then defaultMinAcceptableSignalDBm
  else default defaultMinAcceptableSignalDBm (Atoi v).

Definition CheckNetworkQuality (d : D) : bool * D :=
  let iface := detectPrimaryWirelessInterface d in
  if bool_decide (iface = EmptyString) then (true, d)
  else
    match IwSignal iface d with
    | (Err _, d) => (true, d)
    | (Ok output, d) =>
        if bool_decide (output = EmptyString) then (true, d)
        else
          match Atoi (TrimSpace output) with
          | None => (true, d)
          | Some signalDBm =>
              if (signalDBm <? minAcceptableSignal d) && negb (signalDBm =? 0)
              then (negb (bool_decide (Getenv enforceEnvVar d = "1")), d)
              else (true, d)
          end
    end.

End wireless.

(** ** The download *)

(** What is used of the answer; a header that is not there is the empty string. *)
Record FetchResponse (stream : Type) := mkFetched {
  fetch_status : Response;
  ContentLength : Z;
  HeaderGet : string -> string;
  fetch_body : stream
}.
Arguments mkFetched {stream}.
Arguments fetch_status {stream}.
Arguments ContentLength {stream}.
Arguments HeaderGet {stream}.
Arguments fetch_body {stream}.

Class Fetcher (D : Type) `{Http D} := {
  FetchDo : string -> IO D (FetchResponse Stream);
  ParseFetchURL : string -> option error
}.

Definition minimumImageSize : Z := 4096.

Definition header_length {stream} (r : FetchResponse stream) (name : string) : option Z :=
  if bool_decide (HeaderGet r name = EmptyString) then None else ParseInt 10 (HeaderGet r name).

(** What the transport says, or a header. *)
Definition content_length {stream} (r : FetchResponse stream) : Z :=
  let len := ContentLength r in
  let len := if len <? 0 then default len (header_length r "Content-Length") else len in
  if len <? 0 then default len (header_length r "X-File-Size") else len.

Section fetching.
Context `{Wireless D} `{Fetcher D}.

(** Gives the answer back: an error closes the body. *)
Definition refuse {A} (r : FetchResponse Stream) (err : error) : IO D A := fun d =>
  (Err err, (CloseStream (fetch_body r) d).2).

Definition FetchUpdate (url : string) (maxWait : Z) : IO D (UpdateResumer Stream * Z) := fun d =>
  match CheckNetworkQuality d with
  | (false, d) => (Err (EText "Network quality insufficient for OTA download. Will retry later."), d)
  | (true, d) =>
      match ParseFetchURL url with
      | Some err => (Err (EWrap "failed to create update fetch request" err), d)
      | None =>
          match FetchDo url d with
          | (Err err, d) => (Err (EWrap "update fetch request failed" err), d)
          | (Ok r, d) =>
              if negb (ReauthClient.StatusCode (fetch_status r) =? StatusOK)
              then refuse r (APIError_of (EText "error receiving scheduled update information") (fetch_status r)) d
              else
                let contentLength := content_length r in
                if contentLength <? 0 then refuse r (EText "Will not continue with unknown image size.") d
                else if contentLength <? minimumImageSize
                then refuse r (EText "Image size is smaller than expected. Aborting.") d
                else (Ok (NewUpdateResumer (fetch_body r) contentLength maxWait, contentLength), d)
          end
      end
  end.

End fetching.

(** ** What a download starts with *)

Section rules.
Context `{Wireless D} `{Fetcher D}.

(** A download is put off only for a signal below the limit, when that is asked for. *)
Lemma CheckNetworkQuality_blocks (d d' : D) : CheckNetworkQuality d = (false, d') ->
  exists iface output signal, iface <> EmptyString /\ IwSignal iface d = (Ok output, d') /\
    Atoi (TrimSpace output) = Some signal /\ signal < minAcceptableSignal d' /\ signal <> 0 /\
    Getenv enforceEnvVar d' = "1".
Proof.
  unfold CheckNetworkQuality. case_bool_decide as Hi; [by intros [=]|].
  destruct (IwSignal _ d) as [[output|err] d1] eqn:Hiw; [|by intros [=]]. case_bool_decide; [by intros [=]|].
  destruct (Atoi (TrimSpace output)) as [signal|] eqn:Ha; [|by intros [=]].
  destruct (_ && _) eqn:Hs; [|by intros [=]]. intros [= Henf ->].
  apply andb_true_iff in Hs as [Hlt%Z.ltb_lt Hz%negb_true_iff%Z.eqb_neq].
  apply negb_false_iff, bool_decide_eq_true in Henf. exists (detectPrimaryWirelessInterface d), output, signal.
  by repeat split.
Qed.

(** What [FetchUpdate] gives: a reader at the start of the answer's body, of a size
    that is known and not too small; otherwise the body, if there is one, was closed. *)
Theorem FetchUpdate_spec url maxWait (d d' : D) r : FetchUpdate url maxWait d = (r, d') ->
  match r with
  | Ok (h, size) => exists d1 rsp, FetchDo url d1 = (Ok rsp, d') /\
      ReauthClient.StatusCode (fetch_status rsp) = 200 /\ size = content_length rsp /\ 4096 <= size /\
      h = NewUpdateResumer (fetch_body rsp) size maxWait
  | Err _ => (exists ok, CheckNetworkQuality d = (ok, d')) \/
      exists d1 rsp d2, FetchDo url d1 = (rsp, d2) /\
        match rsp with Ok rsp => d' = (CloseStream (fetch_body rsp) d2).2 | Err _ => d' = d2 end
  end.
Proof.
  unfold FetchUpdate. destruct (CheckNetworkQuality d) as [[|] d1] eqn:Hq; [|intros [= <- <-]; left; by eexists].
  destruct (ParseFetchURL url); [intros [= <- <-]; left; by eexists|].
  destruct (FetchDo url d1) as [[rsp|err] d2] eqn:Hdo; [|intros [= <- <-]; right; by exists d1, (Err err), d2].
  destruct (Z.eqb_spec (ReauthClient.StatusCode (fetch_status rsp)) StatusOK) as [Hok|Hok]; cbn [negb].
  2: { intros [= <- <-]. right. by exists d1, (Ok rsp), d2. }
  destruct (Z.ltb_spec (content_length rsp) 0); [intros [= <- <-]; right; by exists d1, (Ok rsp), d2|].
  destruct (Z.ltb_spec (content_length rsp) minimumImageSize) as [Hs|Hs];
    [intros [= <- <-]; right; by exists d1, (Ok rsp), d2|].
  intros [= <- <-]. exists d1, rsp. split; [done|]. split; [exact Hok|]. split; [done|]. by split; [exact Hs|].
Qed.

End rules.

(** Two radios, the first with a weak signal. *)
Definition proc_net_wireless : string :=
  write_lines ["Inter-| sta-|   Quality        |"; " face | tus | link level noise |"; " mlan0: 0000   54.  -80.  -256"; "wlan0: 0000"].

#[export] Instance Radio : Wireless string := {
  ProcNetWireless _ := Ok proc_net_wireless;
  IwSignal iface d := (Ok (if bool_decide (iface = "mlan0") then "-80" +:+ newline else "-40"), d);
  Getenv name d := if bool_decide (name = enforceEnvVar) then d else EmptyString
}.

Example weak_signal : detectPrimaryWirelessInterface EmptyString = "mlan0" /\
  CheckNetworkQuality EmptyString = (true, EmptyString) /\ CheckNetworkQuality "1" = (false, "1").
Proof. vm_compute. repeat split. Qed.
