(* ===== verification/DeploymentLogSpec.v ===== *)
(** * DeploymentLogSpec: a queue of five logs

    On files that work, the numbered files are a queue: the log of a new deployment
    goes to its head, and what is beyond the fifth place is forgotten.  What was
    logged for a deployment is what [GetLogs] gives. *)

From S2P Require Import Prelude Json Text Os DeploymentLog.
From Stdlib Require Import Ascii.

Open Scope Z_scope.

(** ** A manager that is enabled has a logger *)

Definition has_logger `{LogFs D} (dlm : DeploymentLogManager D) : Prop := loggingEnabled dlm = true -> logger dlm <> None.

Lemma Rotate_enabled `{LogFs D} (dlm : DeploymentLogManager D) : loggingEnabled (Rotate dlm) = loggingEnabled dlm.
Proof.
  unfold Rotate. destruct (getSortedLogFiles dlm) as [l|]; [|done]. destruct (last l); [|done].
  destruct (drop_oldest _ l _) as [l1 d1]. destruct (Contains _ _); [done|]. by destruct (drop_oldest _ l1 d1).
Qed.

(** Whatever the files do, no operation leaves a manager that is enabled without
    a logger. *)
Lemma enabled_has_logger `{LogFs D} (dlm : DeploymentLogManager D) id e dir d :
  has_logger (NewDeploymentLogManager dir d) /\
  (has_logger dlm -> has_logger (Enable id dlm).2 /\ has_logger (Disable dlm).2 /\ has_logger (Fire e dlm).2).
Proof.
  split; [done|]. intros Hl. split; [|split].
  - unfold Enable. destruct (loggingEnabled dlm) eqn:Hon; [exact Hl|]. destruct (negb _); [exact Hl|].
    destruct (OpenAppend _ _) as [[|] d1]; [done|]. unfold has_logger. cbn. by rewrite Rotate_enabled; cbn; rewrite Hon.
  - unfold Disable. destruct (loggingEnabled dlm), (logger dlm); try exact Hl.
    destruct (CloseLog _ _) as [[err|] d1]; [exact Hl|done].
  - unfold Fire, WriteLog. destruct (loggingEnabled dlm); [|exact Hl]. destruct (logger dlm) eqn:Hlog; [|exact Hl].
    destruct (AppendLog _ _ _) as [err d1]. unfold has_logger. cbn. by rewrite Hlog.
Qed.

(** ** Files that work *)

Notation Files := (gmap string string).

Class LogFsLaws (D : Type) `{LogFs D} := {
  (** The files of the log directory whose names start with the name of the logs. *)
  log_files : D -> Files;
  Glob_law dir d : exists l, Glob dir (baseLogFileName +:+ ".") d = Ok l /\ l ≡ₚ (map_to_list (log_files d)).*1;
  Remove_law f d : log_files (RemoveLog f d) = delete f (log_files d);
  Rename_law f g d text : log_files d !! f = Some text ->
    log_files (RenameLog f g d) = <[g := text]> (delete f (log_files d));
  OpenAppend_law f d : exists d', OpenAppend f d = (true, d') /\
    log_files d' = <[f := default EmptyString (log_files d !! f)]> (log_files d);
  AppendLog_law f text d old : log_files d !! f = Some old ->
    exists d', AppendLog f text d = (None, d') /\ log_files d' = <[f := old +:+ text]> (log_files d);
  CloseLog_law f d : exists d', CloseLog f d = (None, d') /\ log_files d' = log_files d;
  ReadLog_law f d text : log_files d !! f = Some text -> ReadLog f d = Ok text;
  Statfs_law dir d : 1024 * 100 < uint64 ((Statfs dir d).1 * uint64 (Statfs dir d).2)
}.

(** ** The order of names *)

Lemma le_app_prefix p a b : String.le (p +:+ a) (p +:+ b) <-> String.le a b.
Proof.
  induction p as [|c p IH]; [done|]. rewrite !app_cons_str, <- IH. unfold String.le, String.leb. cbn.
  unfold Ascii.compare. by rewrite N.compare_refl.
Qed.

Lemma le_app_length a b s t : String.length a = String.length b -> a <> b -> String.le a b ->
  String.le (a +:+ s) (b +:+ t).
Proof.
  revert b. induction a as [|x a IH]; intros [|y b]; try done. cbn [String.length]. intros [= Hl] Hne Hle.
  rewrite !app_cons_str. revert Hle. unfold String.le, String.leb. cbn.
  destruct (Ascii.compare x y) eqn:Hxy; [|done..]. apply Ascii.compare_eq_iff in Hxy as ->.
  apply IH; [done|by intros ->].
Qed.

Lemma pad4_adjacent : forallb (fun i => String.leb (pad4 (Z.of_nat i)) (pad4 (Z.of_nat i + 1))) (seq 0 (Z.to_nat 9999)) = true.
Proof. vm_compute. reflexivity. Qed.

Lemma pad4_le m n : 0 <= m <= n -> n <= 9999 -> String.le (pad4 m) (pad4 n).
Proof.
  intros Hm. replace n with (m + (n - m)) by lia. assert (0 <= n - m) as Hk by lia. revert Hk.
  generalize (n - m). intros k Hk. revert k Hk. apply (natlike_ind (fun k => m + k <= 9999 -> String.le (pad4 m) (pad4 (m + k)))).
  - intros _. rewrite Z.add_0_r. reflexivity.
  - intros k Hk IH Hb. transitivity (pad4 (m + k)); [apply IH; lia|]. pose proof pad4_adjacent as Ha.
    rewrite forallb_forall in Ha. specialize (Ha (Z.to_nat (m + k)) ltac:(apply in_seq; lia)).
    rewrite Z2Nat.id in Ha by lia. replace (m + Z.succ k) with (m + k + 1) by lia. by apply Is_true_true.
Qed.

#[local] Instance name_ge_trans : Transitive name_ge.
Proof. intros a b c Hab Hbc. unfold name_ge in *. by transitivity b. Qed.

#[local] Instance name_ge_anti : AntiSymm (=) name_ge.
Proof. intros a b Hab Hba. unfold name_ge in *. by apply (anti_symm String.le). Qed.

#[local] Instance name_ge_total : Total name_ge.
Proof. intros a b. unfold name_ge. destruct (total String.le a b); auto. Qed.

Lemma sorted_unique l ps : l ≡ₚ ps -> StronglySorted name_ge ps -> merge_sort name_ge l = ps.
Proof.
  intros Hp Hs. apply (StronglySorted_unique name_ge); [apply (StronglySorted_merge_sort _ _)|done|].
  transitivity l; [apply merge_sort_Permutation|done].
Qed.

(** ** Names of logs *)

(** A directory as configurations name it: not empty, and without a slash at its end. *)
Definition plain_dir (dir : string) : Prop := dir <> EmptyString /\
  TrimRightFunc (fun c => bool_decide (c = "/"%char)) dir = dir.

(** An id that can be part of a name. *)
Definition plain_id (id : string) : Prop := no_char "." id = true /\ no_char "/" id = true.

Lemma seq_text_pad n : 0 <= n -> seq_text n = pad4 n.
Proof. intros Hn. unfold seq_text. by destruct (Z.ltb_spec n 0); [lia|]. Qed.

Lemma pad4_digits n : 0 <= n -> all_str is_digit (pad4 n) = true.
Proof.
  intros Hn. unfold pad4. rewrite all_str_app, FormatInt_digits by done. rewrite andb_true_r.
  generalize (4 - String.length (FormatInt 10 false n))%nat. intros k.
  induction k as [|k IH]; [done|]. cbn [repeat]. destruct k; [done|]. exact IH.
Qed.

Lemma pad4_no_char c n : is_digit c = false -> 0 <= n -> no_char c (pad4 n) = true.
Proof.
  intros Hc Hn. pose proof (pad4_digits n Hn) as Hd. revert Hd. apply all_str_impl. intros x Hx.
  apply negb_true_iff, bool_decide_eq_false. by intros ->; rewrite Hc in Hx.
Qed.

Lemma Split_last a b : no_char "/" b = true -> last (Split (a +:+ "/" +:+ b) "/") = Some b.
Proof.
  intros Hb. unfold Split. generalize EmptyString at 1. induction a as [|x a IH]; intros cur.
  - change (EmptyString +:+ "/" +:+ b) with (String "/" b). cbn [split_from].
    rewrite bool_decide_true by done. by rewrite split_from_none.
  - rewrite app_cons_str. cbn [split_from]. case_bool_decide; [|apply IH].
    specialize (IH EmptyString). destruct (split_from _ EmptyString _); [done|]. cbn in *. done.
Qed.

(** *** Ids in names *)

Lemma HasPrefix_sep c s a b : no_char c s = true -> HasPrefix (a +:+ String c b) s = HasPrefix a s.
Proof.
  unfold HasPrefix. revert a. induction s as [|x s IH]; intros a Hs; [by destruct a|].
  apply no_char_cons in Hs as [Hx Hs]. destruct a as [|y a].
  - change (EmptyString +:+ String c b) with (String c b). cbn. by destruct (ascii_dec x c).
  - rewrite app_cons_str. cbn. destruct (ascii_dec x y); [by apply IH|done].
Qed.

Lemma Contains_sep c s a b : no_char c s = true -> s <> EmptyString ->
  Contains (a +:+ String c b) s = Contains a s || Contains b s.
Proof.
  intros Hs Hne. induction a as [|x a IH].
  - change (EmptyString +:+ String c b) with (String c b). cbn [Contains].
    pose proof (HasPrefix_sep c s EmptyString b Hs) as Hp.
    change (EmptyString +:+ String c b) with (String c b) in Hp. rewrite Hp. by destruct s.
  - rewrite app_cons_str. cbn [Contains]. rewrite IH.
    pose proof (HasPrefix_sep c s (String x a) b Hs) as Hp. rewrite app_cons_str in Hp. rewrite Hp. by rewrite orb_assoc.
Qed.

Lemma HasPrefix_length a s : HasPrefix a s = true -> (String.length s <= String.length a)%nat.
Proof.
  unfold HasPrefix. revert a. induction s as [|x s IH]; intros [|y a]; cbn; try lia; try done.
  destruct (ascii_dec x y); [intros Ha%IH; lia|done].
Qed.

Lemma Contains_short a s : (String.length a < String.length s)%nat -> Contains a s = false.
Proof.
  induction a as [|x a IH]; intros Hl; cbn [Contains].
  - destruct (HasPrefix EmptyString s) eqn:Hp; [|done]. apply HasPrefix_length in Hp. lia.
  - destruct (HasPrefix (String x a) s) eqn:Hp; [apply HasPrefix_length in Hp; lia|].
    apply IH. cbn in Hl. lia.
Qed.

Lemma Contains_same_length a s : String.length a = String.length s -> Contains a s = bool_decide (a = s).
Proof.
  intros Hl. assert (HasPrefix a s = bool_decide (a = s)) as Hp.
  { case_bool_decide as Heq; [subst; unfold HasPrefix; rewrite <- (app_nil_str s) at 2; apply prefix_app|].
    destruct (HasPrefix a s) eqn:Hp; [|done]. destruct Heq. apply (prefix_same_length a s a); [|done..].
    unfold HasPrefix. rewrite <- (app_nil_str a) at 2. apply prefix_app. }
  destruct a as [|x a]; cbn [Contains]; rewrite Hp; [by rewrite orb_false_r|].
  rewrite Contains_short by (cbn in Hl; lia). by rewrite orb_false_r.
Qed.

(** A deployment's id and its log, the newest first. *)
Notation Queue := (list (string * string)).

Section queue.
Variable dir : string.
Hypothesis Hdir : plain_dir dir.

Definition log_path (n : Z) (id : string) : string := join_path dir (log_file_name n id).

Lemma log_file_name_plain n id : 0 <= n -> plain_id id -> no_char "/" (log_file_name n id) = true.
Proof.
  intros Hn [_ Hid]. unfold log_file_name. rewrite !no_char_app, Hid, seq_text_pad, pad4_no_char by done. done.
Qed.

Lemma Dir_log_path n id : 0 <= n -> plain_id id -> Dir (log_path n id) = dir.
Proof.
  intros Hn Hid. destruct Hdir as [Hne Ht]. unfold Dir, log_path, join_path.
  change (dir +:+ "/" +:+ log_file_name n id) with (dir +:+ String "/" (log_file_name n id)).
  rewrite TrimRightFunc_stop; [|done|by apply log_file_name_plain].
  assert (forall s, TrimRightFunc (fun c => bool_decide (c = "/"%char)) (s +:+ String "/" EmptyString) =
    TrimRightFunc (fun c => bool_decide (c = "/"%char)) s) as Hs.
  { clear. induction s as [|c s IH]; [done|]. rewrite app_cons_str. cbn [TrimRightFunc]. by rewrite IH. }
  rewrite Hs, Ht. by rewrite bool_decide_false.
Qed.

Lemma rotate_log_path n id : 0 <= n <= 9998 -> plain_id id -> rotateLogFileName (log_path n id) = log_path (n + 1) id.
Proof.
  intros Hn Hid. unfold rotateLogFileName. rewrite Dir_log_path by (lia || done).
  assert (Base (log_path n id) = log_file_name n id) as ->.
  { unfold Base, log_path, join_path. rewrite Split_last; [done|]. apply log_file_name_plain; [lia|done]. }
  unfold log_file_name at 1, baseLogFileName. rewrite seq_text_pad by lia.
  change ("deployments" +:+ "." +:+ pad4 n +:+ "." +:+ id +:+ ".log")
    with ("deployments" +:+ String "." (pad4 n +:+ String "." (id +:+ String "." "log"))).
  destruct Hid as [Hdot Hslash]. rewrite Split_app, Split_app, Split_app, Split_none; try done.
  2: by apply pad4_no_char; [|lia].
  unfold Atoi. by rewrite ParseInt_pad4 by lia.
Qed.

Lemma log_path_le m n id id' : 0 <= m < n -> n <= 9999 -> String.le (log_path m id) (log_path n id').
Proof.
  intros Hm Hn. unfold log_path, join_path, log_file_name. rewrite !seq_text_pad by lia.
  apply le_app_prefix, le_app_prefix, le_app_prefix, le_app_prefix.
  apply le_app_length; [by rewrite !pad4_length by lia| |apply pad4_le; lia].
  intros ?%pad4_inj; lia.
Qed.

Lemma log_path_inj m n id id' : 0 <= m <= 9999 -> 0 <= n <= 9999 -> log_path m id = log_path n id' -> m = n.
Proof.
  intros Hm Hn Heq. unfold log_path, join_path, log_file_name in Heq. rewrite !seq_text_pad in Heq by lia.
  apply (inj (String.app _)), (inj (String.app _)), (inj (String.app _)), (inj (String.app _)) in Heq.
  apply pad4_inj; [done..|].
  apply (prefix_same_length _ _ (pad4 m +:+ "." +:+ id +:+ ".log")); [apply prefix_app|rewrite Heq; apply prefix_app|].
  by rewrite !pad4_length.
Qed.

(** ** The files of a queue *)


Fixpoint entries (k : Z) (q : Queue) : list (string * string) :=
  match q with
  | [] => []
  | x :: q => (log_path k x.1, x.2) :: entries (k + 1) q
  end.

Definition paths (k : Z) (q : Queue) : list string := (entries k q).*1.

Lemma entries_app k q1 q2 : entries k (q1 ++ q2) = entries k q1 ++ entries (k + Z.of_nat (length q1)) q2.
Proof.
  revert k. induction q1 as [|x q1 IH]; intros k; cbn [entries app length].
  - by rewrite Z.add_0_r.
  - rewrite IH. do 3 f_equal. lia.
Qed.

Lemma elem_paths k q p : p ∈ paths k q -> exists i id, k <= i < k + Z.of_nat (length q) /\ p = log_path i id.
Proof.
  unfold paths. revert k. induction q as [|x q IH]; intros k; cbn [entries fmap list_fmap]; [by intros ?%elem_of_nil|].
  intros [->|(i & id & Hi & ->)%IH]%elem_of_cons.
  - exists k, x.1. cbn [length]. split; [lia|done].
  - exists i, id. cbn [length]. split; [lia|done].
Qed.

Lemma paths_sorted k q : 0 <= k -> k + Z.of_nat (length q) <= 10000 ->
  StronglySorted name_ge (reverse (paths k q)) /\ NoDup (paths k q).
Proof.
  revert k. induction q as [|x q IH]; intros k Hk Hb; [split; constructor|]. cbn [length] in Hb.
  destruct (IH (k + 1)) as [Hs Hnd]; [lia..|]. unfold paths in *. cbn [entries fmap list_fmap fst].
  assert (forall p, p ∈ (entries (k + 1) q).*1 -> name_ge p (log_path k x.1) /\ p <> log_path k x.1) as Hp.
  { intros p (i & id & Hi & ->)%elem_paths. split; [apply log_path_le; lia|]. intros ?%log_path_inj; lia. }
  split.
  - rewrite reverse_cons. apply StronglySorted_app. split; [|split; [done|by repeat constructor]].
    intros a b Ha Hb'%list_elem_of_singleton. subst b. apply Hp. by apply elem_of_reverse.
  - constructor; [|done]. intros [_ Hne]%Hp. done.
Qed.

(** ** The operations on the files *)

Context `{LogFsLaws D}.
Implicit Types (dlm : DeploymentLogManager D) (d : D).

Definition holds d (e : list (string * string)) : Prop := log_files d = list_to_map e /\ NoDup e.*1.

Lemma remove_holds d e1 f t e2 : holds d (e1 ++ (f, t) :: e2) -> holds (RemoveLog f d) (e1 ++ e2).
Proof.
  intros [Hf Hnd]. rewrite fmap_app, fmap_cons in Hnd. cbn [fst] in Hnd.
  apply NoDup_app in Hnd as (H1 & Hdisj & [Hn H2]%NoDup_cons). unfold holds. rewrite Remove_law, Hf.
  split; [|rewrite fmap_app; apply NoDup_app; split; [done|]; split; [|done]; intros x Hx Hx2;
    by apply (Hdisj x Hx), list_elem_of_further].
  rewrite !list_to_map_app, delete_union. cbn [list_to_map foldr]. rewrite delete_insert_eq.
  rewrite (delete_id (list_to_map e1)), (delete_id (list_to_map e2)); [done|..]; apply not_elem_of_list_to_map_1; [done|].
  intros Hx. by apply (Hdisj f Hx), list_elem_of_here.
Qed.

Lemma rename_holds d e1 f t e2 g : holds d (e1 ++ (f, t) :: e2) -> g ∉ (e1 ++ e2).*1 ->
  holds (RenameLog f g d) (e1 ++ (g, t) :: e2).
Proof.
  intros Hd Hg. pose proof Hd as [Hf Hnd]. destruct (remove_holds _ _ _ _ _ Hd) as [Hrem Hnd2].
  assert (log_files d !! f = Some t) as Ht.
  { rewrite Hf. apply elem_of_list_to_map_1; [done|]. apply elem_of_app. right. apply list_elem_of_here. }
  rewrite Remove_law in Hrem. assert ((e1 ++ (g, t) :: e2).*1 ≡ₚ g :: (e1 ++ e2).*1) as Hp.
  { rewrite !fmap_app, fmap_cons. cbn [fst]. symmetry. apply Permutation_middle. }
  split; [|rewrite Hp; by constructor]. rewrite (Rename_law f g d t Ht), Hrem.
  rewrite (list_to_map_proper (M := gmap string) (e1 ++ (g, t) :: e2) ((g, t) :: e1 ++ e2)); [done| |].
  - rewrite Hp. by constructor.
  - symmetry. apply Permutation_middle.
Qed.

Lemma sorted_holds dlm q : logLocation dlm = dir -> holds (disk dlm) (entries 1 q) -> Z.of_nat (length q) <= 9999 ->
  getSortedLogFiles dlm = Ok (reverse (paths 1 q)).
Proof.
  intros Hloc [Hf Hnd] Hlen. unfold getSortedLogFiles. destruct (Glob_law (logLocation dlm) (disk dlm)) as (l & -> & Hl).
  cbn. f_equal. apply sorted_unique; [|apply paths_sorted; lia]. rewrite Hl, Hf.
  rewrite (map_to_list_to_map _ Hnd). unfold paths. by rewrite reverse_Permutation.
Qed.

Lemma paths_snoc k q x : reverse (paths k (q ++ [x])) = log_path (k + Z.of_nat (length q)) x.1 :: reverse (paths k q).
Proof. unfold paths. rewrite entries_app, fmap_app. cbn [entries fmap list_fmap fst]. by rewrite reverse_snoc. Qed.

Lemma length_paths k q : length (paths k q) = length q.
Proof. unfold paths. rewrite length_fmap. revert k. induction q as [|x q IH]; intros k; cbn; [done|by rewrite IH]. Qed.

Lemma drop_holds keep q d : holds d (entries 1 q) ->
  exists d', drop_oldest keep (reverse (paths 1 q)) d = (reverse (paths 1 (take keep q)), d') /\
    holds d' (entries 1 (take keep q)).
Proof.
  revert d. induction q as [|x q IH] using rev_ind; intros d Hd; [exists d; by rewrite take_nil|].
  rewrite paths_snoc. cbn [drop_oldest length]. rewrite length_reverse, length_paths.
  destruct (Nat.ltb_spec keep (S (length q))) as [Hk|Hk].
  - rewrite entries_app in Hd. cbn [entries] in Hd. apply remove_holds in Hd. rewrite app_nil_r in Hd.
    destruct (IH _ Hd) as (d' & Hrun & Hd'). exists d'. by rewrite take_app_le by lia.
  - exists d. rewrite take_ge by (rewrite length_app; cbn; lia). by rewrite paths_snoc.
Qed.

Lemma rename_all_holds q rest d : Forall (fun x => plain_id x.1) q -> Z.of_nat (length q + length rest) <= 9000 ->
  holds d (entries 1 q ++ entries (Z.of_nat (length q) + 2) rest) ->
  holds (rename_all (reverse (paths 1 q)) d) (entries 2 (q ++ rest)).
Proof.
  revert rest d. induction q as [|x q IH] using rev_ind; intros rest d Hid Hlen Hd; [done|].
  apply Forall_app in Hid as [Hid [Hx _]%Forall_cons]. rewrite length_app in Hlen, Hd. cbn [length] in *.
  rewrite paths_snoc. cbn [rename_all]. rewrite rotate_log_path by (lia || exact Hx). rewrite <- app_assoc. cbn [app].
  apply IH; [done|cbn; lia|]. cbn [entries]. rewrite entries_app in Hd. cbn [entries] in Hd.
  rewrite <- app_assoc in Hd. cbn [app] in Hd.
  replace (1 + Z.of_nat (length q) + 1) with (Z.of_nat (length q) + 2) by lia.
  replace (Z.of_nat (length q) + 2 + 1) with (Z.of_nat (length q + 1) + 2) by lia.
  apply (rename_holds _ _ _ _ _ _ Hd). rewrite fmap_app.
  intros [(i & id & Hi & Heq)%elem_paths|(i & id & Hi & Heq)%elem_paths]%elem_of_app; apply log_path_inj in Heq; lia.
Qed.

(** ** The manager *)

(** Ids that are told apart by their place in a name, as UUIDs are. *)
Definition proper (id : string) : Prop := plain_id id /\ String.length id = 36%nat /\ Contains dir id = false.

Lemma Contains_log_path n id old : 0 <= n <= 9999 -> proper id -> proper old ->
  Contains (log_path n old) id = bool_decide (old = id).
Proof.
  intros Hn ([Hdot Hslash] & Hlen & Hd) ([_ _] & Hlen' & _). unfold log_path, join_path, log_file_name, baseLogFileName.
  assert (id <> EmptyString) as Hne by (by intros ->).
  change (dir +:+ "/" +:+ "deployments" +:+ "." +:+ seq_text n +:+ "." +:+ old +:+ ".log") with
    (dir +:+ String "/" ("deployments" +:+ String "." (seq_text n +:+ String "." (old +:+ String "." "log")))).
  rewrite !Contains_sep by done. rewrite Hd, (Contains_same_length old) by congruence.
  rewrite (Contains_short "deployments"), (Contains_short "log") by (rewrite Hlen; cbn; lia).
  rewrite (Contains_short (seq_text n)); [by rewrite orb_false_r|]. rewrite seq_text_pad, pad4_length by lia. lia.
Qed.

(** A manager with the logs of a queue. *)
Definition keeps_logs dlm (q : Queue) : Prop :=
  logLocation dlm = dir /\ maxLogFiles dlm = 5%nat /\ minLogSizeBytes dlm = 1024 * 100 /\
  holds (disk dlm) (entries 1 q) /\ Forall (fun x => proper x.1) q /\ Z.of_nat (length q) <= 9999.

(** What enabling the log of a deployment does to the queue. *)
Definition enqueue (id : string) (q : Queue) : Queue :=
  match q with
  | (newest, text) :: _ => if bool_decide (newest = id) then take 5 q else (id, EmptyString) :: take 4 q
  | [] => [(id, EmptyString)]
  end.

Lemma Rotate_keeps id q dlm : keeps_logs dlm q -> proper id -> deploymentID dlm = id ->
  exists d, Rotate dlm = set_disk d dlm /\
    holds d (match q with
             | (newest, _) :: _ => if bool_decide (newest = id) then entries 1 (take 5 q) else entries 2 (take 4 q)
             | [] => [] end).
Proof.
  intros (Hloc & Hmax & Hmin & Hd & Hq & Hlen) Hid Hdep. unfold Rotate.
  rewrite (sorted_holds dlm q Hloc Hd Hlen). destruct q as [|[newest text] q].
  { exists (disk dlm). split; [by destruct dlm|done]. }
  assert (forall k, last (reverse (paths 1 (take (S k) ((newest, text) :: q)))) = Some (log_path 1 newest)) as Hlast
    by (intros k; by rewrite last_reverse).
  assert (last (reverse (paths 1 ((newest, text) :: q))) = Some (log_path 1 newest)) as -> by (by rewrite last_reverse).
  rewrite Hmax. destruct (drop_holds 5 _ _ Hd) as (d1 & -> & Hd1). rewrite Hlast, Hdep.
  apply Forall_cons in Hq as [Hnew Hq]. cbn [default from_option Datatypes.id].
  rewrite Contains_log_path by (lia || done). cbn [fst]. case_bool_decide as Heq; [by exists d1|].
  destruct (drop_holds 4 _ _ Hd1) as (d2 & Hrun & Hd2). cbn [Nat.sub]. rewrite Hrun.
  rewrite take_take, Nat.min_l in Hd2 |- * by lia. eexists. split; [done|].
  rewrite <- (app_nil_r (take 4 _)) at 2. apply rename_all_holds; [| |by rewrite app_nil_r].
  - apply Forall_take. constructor; [by apply Hnew|]. eapply Forall_impl; [done|]. by intros x [].
  - rewrite length_take. cbn [length]. lia.
Qed.

Lemma holds_new d e f : holds d e -> f ∉ e.*1 ->
  exists d', OpenAppend f d = (true, d') /\ holds d' ((f, EmptyString) :: e).
Proof.
  intros [Hf Hnd] Hnew. destruct (OpenAppend_law f d) as (d' & Hrun & Hf'). exists d'. split; [done|].
  split; [|by constructor]. rewrite Hf', Hf. by rewrite (not_elem_of_list_to_map_1 _ _ Hnew).
Qed.

Lemma holds_old d f t e : holds d ((f, t) :: e) -> exists d', OpenAppend f d = (true, d') /\ holds d' ((f, t) :: e).
Proof.
  intros [Hf Hnd]. destruct (OpenAppend_law f d) as (d' & Hrun & Hf'). exists d'. split; [done|].
  split; [|done]. rewrite Hf', Hf. cbn [list_to_map foldr]. by rewrite lookup_insert_eq, insert_insert_eq.
Qed.

Lemma enqueue_proper id q : proper id -> Forall (fun x => proper x.1) q ->
  Forall (fun x => proper x.1) (enqueue id q) /\ (length (enqueue id q) <= 5)%nat.
Proof.
  intros Hid Hq. unfold enqueue. destruct q as [|[newest text] q]; [split; [constructor; [exact Hid|constructor]|cbn; lia]|].
  case_bool_decide; split; [by apply Forall_take|rewrite length_take; lia|constructor; [exact Hid|by apply Forall_take]|].
  cbn [length]. rewrite length_take. lia.
Qed.

Lemma Enable_keeps id q dlm : keeps_logs dlm q -> proper id -> loggingEnabled dlm = false ->
  exists dlm', Enable id dlm = (None, dlm') /\ keeps_logs dlm' (enqueue id q) /\ loggingEnabled dlm' = true /\
    logger dlm' = Some (log_path 1 id).
Proof.
  intros Hk Hid Hoff. pose proof Hk as (Hloc & Hmax & Hmin & _ & Hq & _). unfold Enable. rewrite Hoff.
  assert (haveEnoughSpaceForStoringLogs dlm = true) as ->.
  { unfold haveEnoughSpaceForStoringLogs. pose proof (Statfs_law (logLocation dlm) (disk dlm)) as Hs.
    destruct (Statfs _ _) as [bavail bsize]. rewrite Hmin. apply Z.ltb_lt. cbn [fst snd] in Hs.
    revert Hs. unfold uint64. by rewrite Z.mul_mod_idemp_r by done. }
  cbn [negb]. destruct (Rotate_keeps id q (set_deploymentID id dlm)) as (d & -> & Hd); [done..|].
  cbn [logLocation disk set_disk set_deploymentID]. rewrite Hloc. fold (log_path 1 id).
  assert (exists d', OpenAppend (log_path 1 id) d = (true, d') /\ holds d' (entries 1 (enqueue id q))) as (d' & -> & Hd').
  { destruct q as [|[newest text] q]; [apply holds_new; [done|by intros ?%elem_of_nil]|]. cbn [enqueue].
    case_bool_decide as Heq.
    - subst newest. by apply holds_old.
    - apply holds_new; [done|]. intros (i & x & Hi & Hx)%elem_paths. apply log_path_inj in Hx; [lia..|].
      rewrite length_take in Hi. lia. }
  eexists. split; [done|]. destruct (enqueue_proper id q Hid Hq) as [Hq' Hlen].
  split; [|done]. repeat split; cbn; try done; [apply Hd'..|lia].
Qed.

Lemma Fire_keeps e id text q dlm : keeps_logs dlm ((id, text) :: q) -> loggingEnabled dlm = true ->
  logger dlm = Some (log_path 1 id) ->
  exists dlm', Fire e dlm = (None, dlm') /\ keeps_logs dlm' ((id, text +:+ Format e) :: q) /\
    loggingEnabled dlm' = true /\ logger dlm' = Some (log_path 1 id).
Proof.
  intros (Hloc & Hmax & Hmin & [Hf Hnd] & Hq & Hlen) Hon Hlog. unfold Fire, WriteLog. rewrite Hon, Hlog.
  destruct (AppendLog_law (log_path 1 id) (Format e) (disk dlm) text) as (d' & -> & Hf').
  { rewrite Hf. cbn [entries list_to_map foldr fst]. apply lookup_insert_eq. }
  eexists. split; [done|]. split; [|done]. split; [done|]. split; [done|]. split; [done|]. split; [|split; [|done]].
  - split; [|done]. cbn [disk set_disk]. rewrite Hf', Hf. cbn [entries list_to_map foldr fst snd].
    by rewrite insert_insert_eq.
  - apply Forall_cons in Hq as [H1 H2]. by constructor.
Qed.

Lemma Disable_keeps id q dlm : keeps_logs dlm q -> loggingEnabled dlm = true -> logger dlm = Some (log_path 1 id) ->
  exists dlm', Disable dlm = (None, dlm') /\ keeps_logs dlm' q /\ loggingEnabled dlm' = false.
Proof.
  intros (Hloc & Hmax & Hmin & [Hf Hnd] & Hq & Hlen) Hon Hlog. unfold Disable. rewrite Hon, Hlog.
  destruct (CloseLog_law (log_path 1 id) (disk dlm)) as (d' & -> & Hf'). eexists. split; [done|]. split; [|done].
  repeat split; cbn; try done. by rewrite Hf'.
Qed.

(** ** Deployments, one after the other *)

Fixpoint fire_all (es : list Entry) dlm : option error * DeploymentLogManager D :=
  match es with
  | [] => (None, dlm)
  | e :: es => match Fire e dlm with (None, dlm) => fire_all es dlm | o => o end
  end.

(** A deployment: its log is enabled, written to, and disabled. *)
Definition deployment (s : string * list Entry) dlm : option error * DeploymentLogManager D :=
  match Enable s.1 dlm with
  | (None, dlm) => match fire_all s.2 dlm with (None, dlm) => Disable dlm | o => o end
  | o => o
  end.

Fixpoint deployments (ss : list (string * list Entry)) dlm : option error * DeploymentLogManager D :=
  match ss with
  | [] => (None, dlm)
  | s :: ss => match deployment s dlm with (None, dlm) => deployments ss dlm | o => o end
  end.

(** The specification: ids and what was logged, the newest first. *)
Definition log_deployment (s : string * list Entry) (q : list (string * list Entry)) : list (string * list Entry) :=
  match q with
  | (newest, es) :: older => if bool_decide (newest = s.1) then (s.1, es ++ s.2) :: take 4 older else s :: take 4 q
  | [] => [s]
  end.

Definition line_of (e : Entry) : string := marshal_text (entry_json e).
Definition log_text (es : list Entry) : string := write_lines (line_of <$> es).
Definition texts (q : list (string * list Entry)) : Queue := (fun x => (x.1, log_text x.2)) <$> q.

Lemma log_text_snoc es e : log_text (es ++ [e]) = log_text es +:+ Format e.
Proof.
  unfold log_text, write_lines, Format. rewrite fmap_app, foldr_app. cbn [fmap list_fmap foldr].
  rewrite app_nil_str. induction es as [|x es IH]; [done|]. cbn [fmap list_fmap foldr]. by rewrite IH, !app_assoc_str.
Qed.

Lemma fire_all_keeps es id old q dlm : keeps_logs dlm ((id, log_text old) :: q) -> loggingEnabled dlm = true ->
  logger dlm = Some (log_path 1 id) ->
  exists dlm', fire_all es dlm = (None, dlm') /\ keeps_logs dlm' ((id, log_text (old ++ es)) :: q) /\
    loggingEnabled dlm' = true /\ logger dlm' = Some (log_path 1 id).
Proof.
  revert old dlm. induction es as [|e es IH]; intros old dlm Hk Hon Hl; [exists dlm; by rewrite app_nil_r|].
  cbn [fire_all]. destruct (Fire_keeps e id _ q dlm Hk Hon Hl) as (dlm1 & -> & Hk1 & Hon1 & Hl1).
  rewrite <- log_text_snoc in Hk1. destruct (IH _ _ Hk1 Hon1 Hl1) as (dlm2 & Hrun & Hk2 & Hrest).
  exists dlm2. rewrite <- app_assoc in Hk2. done.
Qed.

Lemma enqueue_texts id q : exists old rest, enqueue id (texts q) = (id, log_text old) :: texts rest /\
  forall es, log_deployment (id, es) q = (id, old ++ es) :: rest.
Proof.
  destruct q as [|[newest es] q]; [exists [], []; split; [done|by intros]|]. cbn [texts fmap list_fmap enqueue fst snd].
  unfold log_deployment. cbn [fst snd]. case_bool_decide as Heq.
  - subst newest. exists es, (take 4 q). split; [|done]. unfold texts. rewrite fmap_take. done.
  - exists [], (take 4 ((newest, es) :: q)). split; [|done]. unfold texts. by rewrite fmap_take.
Qed.

Lemma deployment_keeps s q dlm : keeps_logs dlm (texts q) -> proper s.1 -> loggingEnabled dlm = false ->
  exists dlm', deployment s dlm = (None, dlm') /\ keeps_logs dlm' (texts (log_deployment s q)) /\
    loggingEnabled dlm' = false.
Proof.
  intros Hk Hid Hoff. unfold deployment. destruct (Enable_keeps _ _ _ Hk Hid Hoff) as (d1 & -> & Hk1 & Hon1 & Hl1).
  destruct s as [id es]. cbn [fst snd] in *. destruct (enqueue_texts id q) as (old & rest & Heq & Hlog). rewrite Heq in Hk1.
  destruct (fire_all_keeps es id old _ d1 Hk1 Hon1 Hl1) as (d2 & -> & Hk2 & Hon2 & Hl2).
  destruct (Disable_keeps id _ d2 Hk2 Hon2 Hl2) as (d3 & Hrun & Hk3 & Hoff3). exists d3. by rewrite Hlog.
Qed.

Lemma deployments_keep ss q dlm : keeps_logs dlm (texts q) -> Forall (fun s => proper s.1) ss -> loggingEnabled dlm = false ->
  exists dlm', deployments ss dlm = (None, dlm') /\ keeps_logs dlm' (texts (foldl (flip log_deployment) q ss)) /\
    loggingEnabled dlm' = false.
Proof.
  revert q dlm. induction ss as [|s ss IH]; intros q dlm Hk Hss Hoff; [by exists dlm|].
  apply Forall_cons in Hss as [Hs Hss]. cbn [deployments foldl].
  destruct (deployment_keeps s q dlm Hk Hs Hoff) as (d1 & -> & Hk1 & Hoff1). by apply IH.
Qed.

(** ** Reading the logs *)

(** The oldest log of a deployment. *)
Definition oldest {A} (id : string) (q : list (string * A)) : option A :=
  snd <$> head (List.filter (fun x => bool_decide (x.1 = id)) (reverse q)).

Lemma find_log id k q : proper id -> Forall (fun x => proper x.1) q -> 0 <= k -> k + Z.of_nat (length q) <= 10000 ->
  match head (List.filter (fun f => Contains f id) (reverse (paths k q))) with
  | Some f => exists text, oldest id q = Some text /\ (f, text) ∈ entries k q
  | None => oldest id q = None
  end.
Proof.
  intros Hid Hq Hk Hlen. induction q as [|[old text] q IH] using rev_ind; [done|].
  apply Forall_app in Hq as [Hq [Hold _]%Forall_cons]. rewrite length_app in Hlen. cbn [length] in Hlen.
  rewrite paths_snoc. unfold oldest. rewrite reverse_snoc. cbn [List.filter fst].
  rewrite Contains_log_path by (lia || done). rewrite entries_app.
  case_bool_decide as Heq; cbn [head fmap option_fmap option_map snd].
  - exists text. split; [done|]. apply elem_of_app. right. apply list_elem_of_here.
  - specialize (IH Hq ltac:(lia)). destruct (head _) as [f|]; [|done].
    destruct IH as (t & Ht & Hin). exists t. split; [done|]. apply elem_of_app. by left.
Qed.

Lemma oldest_texts id q : oldest id (texts q) = log_text <$> oldest id q.
Proof.
  unfold oldest, texts. rewrite <- fmap_reverse. induction (reverse q) as [|[x es] l IH]; [done|].
  cbn [fmap list_fmap List.filter fst]. by case_bool_decide.
Qed.

Lemma GetLogs_holds id dlm q : keeps_logs dlm (texts q) -> proper id ->
  GetLogs id dlm = match oldest id q with
                   | None => Ok (format_logs [])
                   | Some es =>
                       let '(lines, too_long) := Scan (log_text es) in
                       if too_long then Err ErrTooLong else Ok (format_logs (valid_lines lines))
                   end.
Proof.
  intros (Hloc & _ & _ & Hd & Hq & Hlen) Hid. unfold GetLogs, findLogsForSpecificID.
  rewrite (sorted_holds dlm _ Hloc Hd Hlen). cbn [fmap result_fmap].
  pose proof (find_log id 1 (texts q) Hid Hq ltac:(lia) ltac:(lia)) as Hf. rewrite oldest_texts in Hf.
  destruct (head _) as [f|].
  - destruct Hf as (text & Htext & Hin). destruct (oldest id q) as [es|]; [|done]. injection Htext as <-.
    destruct Hd as [Hfiles Hnd]. rewrite (ReadLog_law f (disk dlm) (log_text es)); [done|].
    rewrite Hfiles. by apply elem_of_list_to_map_1.
  - by destruct (oldest id q).
Qed.

End queue.

(** ** What was logged is what is read *)

Lemma escape_all p c rest : p = "010"%char \/ p = "013"%char ->
  no_char p (escape c rest) = no_char p rest.
Proof. intros [-> | ->]; destruct c as [[] [] [] [] [] [] [] []]; reflexivity. Qed.

Lemma print_string_all p s rest : p = "010"%char \/ p = "013"%char -> no_char p (print_string s rest) = no_char p rest.
Proof.
  intros Hp. assert (forall r, no_char p (String "034" r) = no_char p r) as Hq by (intros r; by destruct Hp as [-> | ->]).
  unfold print_string. rewrite Hq. induction s as [|c s IH]; cbn [print_chars]; [apply Hq|]. by rewrite escape_all.
Qed.

Lemma line_of_clean e : no_newline (line_of e) = true /\ no_return (line_of e) = true.
Proof.
  assert (forall p, p = "010"%char \/ p = "013"%char -> no_char p (line_of e) = true) as Hall.
  { intros p Hp. unfold line_of, marshal_text, entry_json. cbn [print].
    assert (forall c r, c ∈ ["{"; ":"; ","; "}"]%char -> no_char p (String c r) = no_char p r) as Hsep.
    { intros c r Hc. destruct Hp as [-> | ->]; repeat (apply elem_of_cons in Hc as [->|Hc]; [done|]);
        by apply elem_of_nil in Hc. }
    repeat (rewrite (print_string_all p _ _ Hp) || (rewrite Hsep by set_solver)). done. }
  split; apply Hall; auto.
Qed.

Lemma raw_lines_log es : raw_lines EmptyString (log_text es) = line_of <$> es.
Proof.
  induction es as [|e es IH]; [done|]. unfold log_text, write_lines in *. cbn [fmap list_fmap foldr].
  rewrite (raw_lines_cons _ _ _ (proj1 (line_of_clean e))), IH. reflexivity.
Qed.

Lemma valid_lines_log es : valid_lines (line_of <$> es) = entry_json <$> es.
Proof.
  induction es as [|e es IH]; [done|]. cbn [fmap list_fmap valid_lines]. unfold line_of at 1.
  by rewrite unmarshal_marshal_text, IH.
Qed.

Definition entry_fits (e : Entry) : bool := fits (line_of e).

Lemma Scan_log es : let '(lines, too_long) := Scan (log_text es) in
  too_long = negb (forallb entry_fits es) /\ (too_long = false -> lines = line_of <$> es).
Proof.
  unfold Scan. rewrite raw_lines_log. induction es as [|e es IH]; [done|]. cbn [fmap list_fmap scan_tokens forallb].
  unfold entry_fits at 1. destruct (fits (line_of e)); [|done]. cbn [andb].
  destruct (scan_tokens (line_of <$> es)) as [lines too_long]. destruct IH as [Ht Hl].
  split; [done|]. intros Hno. by rewrite (Hl Hno), (dropCR_none _ (proj2 (line_of_clean e))).
Qed.

(** C17: the logs of deployments are a queue.  On files that work, whatever deployments follow each other, and with
    whatever entries: enabling, logging and disabling report no error; at most the last five deployments have a
    log; a deployment that is enabled again as the last one, as after a restart, goes on with its log; and for each
    id, [GetLogs] gives the entries of its (oldest) log, in order, and an empty list for one that has none, but fails
    when one of the entries is longer than the scanner's buffer.

    The files work: there is space left, and no operation on them fails.  The ids are of the form the server gives:
    36 characters, without a dot and a slash, and none of them is part of the name of the directory.  The log of an
    id is searched for by strings.Contains in the path, so that ids of which one holds another are mixed up
    ([ids_that_hold_another]).  At the start the directory has the logs of a queue, or none. *)
Theorem log_manager_refines_queue `{LogFsLaws D} dir (dlm : DeploymentLogManager D) q ss : plain_dir dir ->
  keeps_logs dir dlm (texts q) -> loggingEnabled dlm = false -> Forall (fun s => proper dir s.1) ss ->
  exists dlm', deployments ss dlm = (None, dlm') /\ loggingEnabled dlm' = false /\
    let q' := foldl (flip log_deployment) q ss in
    (ss <> [] -> (length q' <= 5)%nat) /\
    forall id, proper dir id -> GetLogs id dlm' =
      match oldest id q' with
      | None => Ok (format_logs [])
      | Some es => if forallb entry_fits es then Ok (format_logs (entry_json <$> es)) else Err ErrTooLong
      end.
Proof.
  intros Hdir Hk Hoff Hss. destruct (deployments_keep dir Hdir ss q dlm Hk Hss Hoff) as (dlm' & Hrun & Hk' & Hoff').
  exists dlm'. split; [done|]. split; [done|]. cbn zeta. split.
  - intros Hne. destruct ss as [|s ss] using rev_ind; [done|]. rewrite foldl_snoc. unfold flip, log_deployment.
    destruct (foldl _ q ss) as [|[newest es] older]; [cbn; lia|].
    case_bool_decide; cbn [length]; rewrite ?length_take; lia.
  - intros id Hid. rewrite (GetLogs_holds dir id dlm' _ Hk' Hid). destruct (oldest id _) as [es|]; [|done].
    pose proof (Scan_log es) as Hs. destruct (Scan (log_text es)) as [lines too_long]. destruct Hs as [-> Hl].
    destruct (forallb entry_fits es); cbn [negb]; [|done]. by rewrite (Hl eq_refl), valid_lines_log.
Qed.

(** * Logs in a map, and the witness *)

(** The files whose names start as those of logs do; a gigabyte is free. *)
Definition SimLogs : Type := Files.

#[export] Instance SimLogs_LogFs : LogFs SimLogs := {
  Glob _ _ d := Ok (map_to_list (d : Files)).*1;
  RemoveLog f d := delete f (d : Files);
  RenameLog f g d := match (d : Files) !! f with Some text => <[g := text]> (delete f (d : Files)) | None => d end;
  OpenAppend f d := (true, <[f := default EmptyString ((d : Files) !! f)]> (d : Files));
  AppendLog f text d :=
    match (d : Files) !! f with
    | Some old => (None, <[f := old +:+ text]> (d : Files))
    | None => (Some (EText "bad file descriptor"), d)
    end;
  CloseLog _ d := (None, d);
  ReadLog f d := match (d : Files) !! f with Some text => Ok text | None => Err (EText "no such file") end;
  Statfs _ _ := (1024 * 256, 4096)
}.

#[export] Instance SimLogs_laws : LogFsLaws SimLogs.
Proof.
  refine {| log_files := fun d : SimLogs => (d : Files) |}.
  - intros dir d. by eexists.
  - done.
  - intros f g d text Hf. cbn. by rewrite Hf.
  - intros f d. by eexists.
  - intros f text d old Hf. cbn. rewrite Hf. by eexists.
  - intros f d. by eexists.
  - intros f d text Hf. cbn. by rewrite Hf.
  - done.
Defined.

Definition log_dir : string := "/var/lib/otapulse".
Definition id_a : string := "aaaaaaaa-0000-0000-0000-000000000001".
Definition id_b : string := "bbbbbbbb-0000-0000-0000-000000000002".

Definition entry (text : string) : Entry := mkEntry "2026-01-01T00:00:00Z" "info" text.

Definition manager : DeploymentLogManager SimLogs := NewDeploymentLogManager log_dir (∅ : Files).

(** A deployment that restarts, and another one. *)
Definition history : list (string * list Entry) :=
  [(id_a, [entry "installing"]); (id_a, [entry "rebooted"; entry "done"]); (id_b, [entry "installing"])].

Example files_of_history : (map_to_list (log_files (disk (deployments history manager).2))).*1 ≡ₚ
  ["/var/lib/otapulse/deployments.0002.aaaaaaaa-0000-0000-0000-000000000001.log";
   "/var/lib/otapulse/deployments.0001.bbbbbbbb-0000-0000-0000-000000000002.log"].
Proof. vm_compute. apply perm_swap || reflexivity. Qed.

Lemma log_manager_refines_queue_witness : exists dlm', deployments history manager = (None, dlm') /\
  GetLogs id_a dlm' = Ok (format_logs (entry_json <$> [entry "installing"; entry "rebooted"; entry "done"])) /\
  GetLogs id_b dlm' = Ok (format_logs (entry_json <$> [entry "installing"])).
Proof.
  assert (forall id, id = id_a \/ id = id_b -> proper log_dir id) as Hproper.
  { intros id [-> | ->]; (split; [split; vm_compute; reflexivity|split; vm_compute; reflexivity]). }
  destruct (log_manager_refines_queue log_dir manager [] history) as (dlm' & Hrun & _ & _ & Hget).
  - split; [discriminate|vm_compute; reflexivity].
  - split; [reflexivity|]. split; [reflexivity|]. split; [reflexivity|].
    split; [split; [reflexivity|constructor]|]. split; [constructor|vm_compute; discriminate].
  - reflexivity.
  - repeat (constructor; [apply Hproper; auto|]). constructor.
  - exists dlm'. split; [exact Hrun|].
    split; [rewrite (Hget id_a) by (apply Hproper; auto)|rewrite (Hget id_b) by (apply Hproper; auto)];
      vm_compute; reflexivity.
Defined.

(** An id that comes again after another has two logs; [GetLogs] gives the older. *)
Example two_logs : GetLogs id_a (deployments [(id_a, [entry "one"]); (id_b, []); (id_a, [entry "two"])] manager).2 =
  Ok (format_logs [entry_json (entry "one")]).
Proof. vm_compute. reflexivity. Qed.

(** An id that is part of another one: its logs are those of the other. *)
Example ids_that_hold_another :
  GetLogs "deployment-1" (deployments [("deployment-12", [entry "of 12"])] manager).2 =
    Ok (format_logs [entry_json (entry "of 12")]).
Proof. vm_compute. reflexivity. Qed.
