(* ===== verification/Supervisor.v ===== *)
(** * Supervisor: the tunnel's child process

    tunnel/supervisor.go: the supervisor of the program that keeps the tunnel
    open.  It starts the program again when it ends, waits longer after each
    failure, and ends it when it is told to stop.  Supervisor, child and clock are
    one system that makes a step for each event; the events come in any order that
    the system allows. *)

From S2P Require Import Prelude Text.
From Stdlib Require Import Ascii QArith Qround.

Open Scope Z_scope.

(** ** The configuration *)

(** Durations are nanoseconds.  The jitter is a float64 in the program. *)
Record Config := mkConfig {
  FrpcPath : string;
  ConfigPath : string;
  BackoffBase : Z;
  BackoffCap : Z;
  BackoffJitter : Q;
  DisableJitter : bool;
  StabilityThreshold : Z;
  ShutdownGrace : Z
}.

Definition Second : Z := 1000000000.

Definition positive_or (default v : Z) : Z := if v <=? 0 then default else v.

Definition default_jitter (disabled : bool) (j : Q) : Q :=
  let j := if Qle_bool j 0 then (if disabled then 0%Q else (1 # 5)%Q) else j in
  if Qle_bool j 1 then j else 1%Q.

Definition applyDefaults (c : Config) : Config :=
  mkConfig (FrpcPath c) (ConfigPath c) (positive_or Second (BackoffBase c))
    (positive_or (5 * 60 * Second) (BackoffCap c)) (default_jitter (DisableJitter c) (BackoffJitter c)) (DisableJitter c)
    (positive_or (30 * Second) (StabilityThreshold c)) (positive_or (5 * Second) (ShutdownGrace c)).

(** ** The time between two starts *)

(** [r] is what rand.Float64 gave.  The products are exact here; a float64 may be
    rounded, but not beyond the bounds. *)
Definition nextBackoffDuration (attempt base cap : Z) (jitter r : Q) : Z :=
  let attempt := if 62 <? attempt then 62 else attempt in
  let base := inject_Z base in
  let cap := inject_Z cap in
  let d := (base * inject_Z (2 ^ attempt))%Q in
  let d := if Qle_bool d cap then d else cap in
  let d := if Qle_bool jitter 0 then d else (d + d * jitter * (r * 2 - 1))%Q in
  let d := if Qle_bool base d then d else base in
  let d := if Qle_bool d cap then d else cap in
  Qfloor d.

(** ** The system *)

(** [Exited]: [Wait] can return, for the program has ended and nothing holds
    its output open. *)
Inductive Process : Type := NoProcess | Alive | Exited (err : option error).

(** Where [Run] and [runOnce] are, with the time that [startedAt] holds and that of
    a timer.  [Launching] lies between the check of the context and the start of the
    program, which does not look at the context. *)
Inductive Phase : Type :=
  | Top
  | Launching (startedAt : Z)
  | Running (startedAt : Z)
  | Terminating (startedAt deadline : Z)
  | Killing (startedAt : Z)
  | Sleeping (until : Z)
  | Returned.

(** What the supervisor does to the child, with the time. *)
Inductive Action : Type :=
  | Launched (t : Z)
  | LaunchFailed (t : Z)
  | SentSIGTERM (t : Z)
  | SentSIGKILL (t : Z)
  | Waited (t : Z).

(** The actions are listed with the last one first. *)
Record Supervisor := mkSupervisor {
  cfg : Config;
  phase : Phase;
  attempt : Z;
  child : Process;
  cancelled : bool;
  clock : Z;
  actions : list Action
}.

Definition NewSupervisor (frpc_stat : option error) (c : Config) (t : Z) : result Supervisor :=
  if bool_decide (FrpcPath c = EmptyString) then Err (EText "tunnel: FrpcPath must not be empty")
  else if bool_decide (ConfigPath c = EmptyString) then Err (EText "tunnel: ConfigPath must not be empty")
  else
    match frpc_stat with
    | Some err => Err (EWrap "tunnel: frpc binary not accessible" err)
    | None => Ok (mkSupervisor (applyDefaults c) Top 0 NoProcess false t [])
    end.

(** The first three happen outside; the others are steps of the supervisor: the
    check of the context at the top of the loop; the start of the child, which may fail; that it sees the end of the child, the
    cancellation, or a timer.  What rand.Float64 gives is part of the event. *)
Inductive Event : Type :=
  | Cancel
  | Pass (dt : Z)
  | ChildEnds (err : option error)
  | CheckContext
  | Launch (started : bool) (r : Q)
  | SeeExit (r : Q)
  | SeeCancel
  | SeeTimer.

Definition own (e : Event) : bool := match e with Cancel | Pass _ | ChildEnds _ => false | _ => true end.

Definition nextBackoff (s : Supervisor) (attempt : Z) (r : Q) : Z :=
  nextBackoffDuration attempt (BackoffBase (cfg s)) (BackoffCap (cfg s)) (BackoffJitter (cfg s)) r.

Definition act (l : list Action) (p : Phase) (child : Process) (s : Supervisor) : Supervisor :=
  mkSupervisor (cfg s) p (attempt s) child (cancelled s) (clock s) (l ++ actions s).

(** The rest of the loop after [runOnce], up to the select. *)
Definition after_run (startedAt : Z) (r : Q) (s : Supervisor) : Supervisor :=
  if cancelled s then act [] Returned (child s) s
  else
    let attempt := if StabilityThreshold (cfg s) <=? clock s - startedAt then 0 else attempt s in
    let delay := nextBackoff s attempt r in
    mkSupervisor (cfg s) (Sleeping (clock s + delay)) (attempt + 1) (child s) (cancelled s) (clock s) (actions s).

(** A select between channels that are ready takes any of them. *)
Definition step (e : Event) (s : Supervisor) : option Supervisor :=
  match e with
  | Cancel => Some (mkSupervisor (cfg s) (phase s) (attempt s) (child s) true (clock s) (actions s))
  | Pass dt =>
      if dt <? 0 then None
      else Some (mkSupervisor (cfg s) (phase s) (attempt s) (child s) (cancelled s) (clock s + dt) (actions s))
  | ChildEnds err =>
      match child s with
      | Alive => Some (act [] (phase s) (Exited err) s)
      | _ => None
      end
  | CheckContext =>
      match phase s with
      | Top => Some (act [] (if cancelled s then Returned else Launching (clock s)) (child s) s)
      | _ => None
      end
  | Launch started r =>
      match phase s with
      | Launching startedAt =>
          if started then Some (act [Launched (clock s)] (Running startedAt) Alive s)
          else Some (after_run startedAt r (act [LaunchFailed (clock s)] Top (child s) s))
      | _ => None
      end
  | SeeExit r =>
      match phase s, child s with
      | Running startedAt, Exited _ | Terminating startedAt _, Exited _ | Killing startedAt, Exited _ =>
          Some (after_run startedAt r (act [Waited (clock s)] (phase s) NoProcess s))
      | _, _ => None
      end
  | SeeCancel =>
      if cancelled s then
        match phase s with
        | Running startedAt =>
            Some (act [SentSIGTERM (clock s)] (Terminating startedAt (clock s + ShutdownGrace (cfg s))) (child s) s)
        | Sleeping _ => Some (act [] Returned (child s) s)
        | _ => None
        end
      else None
  | SeeTimer =>
      match phase s with
      | Terminating startedAt deadline =>
          if deadline <=? clock s then Some (act [SentSIGKILL (clock s)] (Killing startedAt) (child s) s) else None
      | Sleeping until => if until <=? clock s then Some (act [] Top (child s) s) else None
      | _ => None
      end
  end.

Fixpoint run (es : list Event) (s : Supervisor) : option Supervisor :=
  match es with
  | [] => Some s
  | e :: es => match step e s with Some s => run es s | None => None end
  end.

(** ** The output of the child *)

(** [logWriter]: what is written to it goes to the logger by lines; [logged] are the
    lines that the logger got. *)
Record logWriter := mkLogWriter { lw_prefix : string; buf : string; logged : list string }.

(** The text before the first newline, and the text after it. *)
Fixpoint cut_line (s : string) : option (string * string) :=
  match s with
  | EmptyString => None
  | String c s =>
      if bool_decide (c = newline_char) then Some (EmptyString, s)
      else match cut_line s with Some (line, rest) => Some (String c line, rest) | None => None end
  end.

(** Each round takes a byte at least: the length of the buffer is enough. *)
Fixpoint flush (fuel : nat) (lw : logWriter) : logWriter :=
  match fuel with
  | O => lw
  | S fuel =>
      match cut_line (buf lw) with
      | None => lw
      | Some (line, rest) => flush fuel (mkLogWriter (lw_prefix lw) rest (logged lw ++ [lw_prefix lw +:+ line]))
      end
  end.

Definition Write (lw : logWriter) (p : string) : logWriter :=
  let b := buf lw +:+ p in flush (String.length b) (mkLogWriter (lw_prefix lw) b (logged lw)).

(** ** The backoff *)

Lemma Qle_bool_false x y : Qle_bool x y = false -> (y < x)%Q.
Proof. intros H. apply Qnot_le_lt. intros Hle. apply Qle_bool_iff in Hle. congruence. Qed.

(** The clamps at the end decide. *)
Lemma clamp_bounds (base cap : Z) (d : Q) :
  let d1 := if Qle_bool (inject_Z base) d then d else inject_Z base in
  let d2 := if Qle_bool d1 (inject_Z cap) then d1 else inject_Z cap in
  Z.min base cap <= Qfloor d2 <= cap.
Proof.
  intros d1 d2. assert (inject_Z base <= d1)%Q as H1.
  { unfold d1. destruct (Qle_bool (inject_Z base) d) eqn:H; [by apply Qle_bool_iff|apply Qle_refl]. }
  unfold d2. destruct (Qle_bool d1 (inject_Z cap)) eqn:H.
  - apply Qle_bool_iff in H. pose proof (Qfloor_resp_le _ _ H1) as Hl. pose proof (Qfloor_resp_le _ _ H) as Hu.
    rewrite !Qfloor_Z in *. lia.
  - rewrite Qfloor_Z. lia.
Qed.

Lemma nextBackoffDuration_bounds attempt base cap jitter r :
  Z.min base cap <= nextBackoffDuration attempt base cap jitter r <= cap.
Proof. apply clamp_bounds. Qed.

(** Without jitter the time is doubled up to the cap. *)
Lemma nextBackoffDuration_doubles attempt base cap jitter r : (jitter <= 0)%Q -> 0 < base <= cap -> 0 <= attempt ->
  nextBackoffDuration attempt base cap jitter r = Z.min (base * 2 ^ Z.min attempt 62) cap.
Proof.
  intros Hj Hb Ha. unfold nextBackoffDuration. apply Qle_bool_iff in Hj. rewrite Hj.
  assert ((if 62 <? attempt then 62 else attempt) = Z.min attempt 62) as -> by (destruct (Z.ltb_spec 62 attempt); lia).
  assert (inject_Z base * inject_Z (2 ^ Z.min attempt 62) == inject_Z (base * 2 ^ Z.min attempt 62))%Q as Hd
    by (by rewrite inject_Z_mult).
  assert (base <= base * 2 ^ Z.min attempt 62) as Hge.
  { rewrite <- (Z.mul_1_r base) at 1. apply Z.mul_le_mono_nonneg_l; [lia|].
    pose proof (Z.pow_pos_nonneg 2 (Z.min attempt 62)). lia. }
  set (d := (inject_Z base * inject_Z (2 ^ Z.min attempt 62))%Q) in *.
  destruct (Qle_bool d (inject_Z cap)) eqn:Hc.
  - assert (Qle_bool (inject_Z base) d = true) as ->.
    { apply Qle_bool_iff. rewrite Hd. by rewrite <- Zle_Qle. }
    rewrite Hc. apply Qle_bool_iff in Hc. rewrite Hd, <- Zle_Qle in Hc. rewrite (Qfloor_comp _ _ Hd), Qfloor_Z. lia.
  - apply Qle_bool_false in Hc. rewrite Hd, <- Zlt_Qlt in Hc.
    assert (Qle_bool (inject_Z base) (inject_Z cap) = true) as ->.
    { apply Qle_bool_iff. rewrite <- Zle_Qle. lia. }
    assert (Qle_bool (inject_Z cap) (inject_Z cap) = true) as -> by (apply Qle_bool_iff, Qle_refl).
    rewrite Qfloor_Z. lia.
Qed.

(** ** What holds on every run *)

Definition busy (p : Phase) : bool :=
  match p with Running _ | Terminating _ _ | Killing _ => true | _ => false end.

(** The times of the starts, the last one first. *)
Definition launches (l : list Action) : list Z :=
  omap (fun a => match a with Launched t | LaunchFailed t => Some t | _ => None end) l.

Definition is_launched (a : Action) : bool := match a with Launched _ => true | _ => false end.
Definition is_waited (a : Action) : bool := match a with Waited _ => true | _ => false end.
Definition count (p : Action -> bool) (l : list Action) : nat := length (List.filter p l).

Fixpoint spaced (gap : Z) (l : list Z) : Prop :=
  match l with
  | t1 :: (t2 :: _) as l => t2 + gap <= t1 /\ spaced gap l
  | _ => True
  end.

(** Each SIGKILL comes the grace period after a SIGTERM. *)
Definition graceful (grace : Z) (l : list Action) : Prop :=
  forall t, SentSIGKILL t ∈ l -> exists t0, SentSIGTERM t0 ∈ l /\ t0 + grace <= t.

Definition shortest (c : Config) : Z := Z.min (BackoffBase c) (BackoffCap c).

Definition may_start (s : Supervisor) : Prop :=
  match head (launches (actions s)), phase s with
  | Some t, (Top | Launching _) => t + shortest (cfg s) <= clock s
  | Some t, Sleeping until => t + shortest (cfg s) <= until
  | Some t, (Running _ | Terminating _ _ | Killing _) => t <= clock s
  | Some _, Returned => True
  | None, (Top | Launching _ | Returned) => True
  | None, _ => False
  end.

Record Inv (s : Supervisor) : Prop := mkInv {
  inv_child : child s = NoProcess <-> busy (phase s) = false;
  inv_cancelled : match phase s with Terminating _ _ | Killing _ | Returned => cancelled s = true | _ => True end;
  inv_count : count is_launched (actions s) =
    (count is_waited (actions s) + (if busy (phase s) then 1 else 0))%nat;
  inv_spaced : spaced (shortest (cfg s)) (launches (actions s));
  inv_start : may_start s;
  inv_deadline : match phase s with
    | Terminating _ deadline => exists t0, SentSIGTERM t0 ∈ actions s /\ deadline = t0 + ShutdownGrace (cfg s)
    | _ => True end;
  inv_graceful : graceful (ShutdownGrace (cfg s)) (actions s)
}.

Lemma spaced_cons gap t l : spaced gap l -> (forall t0, head l = Some t0 -> t0 + gap <= t) -> spaced gap (t :: l).
Proof. destruct l as [|t0 l]; [done|]. intros Hl Ht. split; [by apply Ht|done]. Qed.

Lemma graceful_cons grace a l : graceful grace l -> (forall t, a <> SentSIGKILL t) -> graceful grace (a :: l).
Proof.
  intros Hl Ha t [Heq|Hin]%elem_of_cons; [by destruct (Ha t)|]. destruct (Hl t Hin) as (t0 & H0 & Ht).
  exists t0. split; [by apply list_elem_of_further|done].
Qed.

Lemma backoff_at_least s attempt r : shortest (cfg s) <= nextBackoff s attempt r.
Proof. apply nextBackoffDuration_bounds. Qed.

(** The end of [runOnce]: the start was at [t], and the child is gone. *)
Lemma after_run_Inv s t start r : child s = NoProcess ->
  count is_launched (actions s) = count is_waited (actions s) ->
  spaced (shortest (cfg s)) (launches (actions s)) -> head (launches (actions s)) = Some t -> t <= clock s ->
  graceful (ShutdownGrace (cfg s)) (actions s) -> Inv (after_run start r s).
Proof.
  intros Hc Hn Hs Hh Ht Hg. unfold after_run. destruct (cancelled s) eqn:Hcan.
  - split; cbn; rewrite ?Hh; try done; [by rewrite Nat.add_0_r|]. unfold may_start. cbn [actions phase cfg act app]. by rewrite Hh.
  - split; cbn; try done; [by rewrite Nat.add_0_r|]. unfold may_start. cbn [actions phase cfg]. rewrite Hh.
    pose proof (backoff_at_least s (if StabilityThreshold (cfg s) <=? clock s - start then 0 else attempt s) r). lia.
Qed.

Lemma after_run_cfg s start r : cfg (after_run start r s) = cfg s.
Proof. unfold after_run. by destruct (cancelled s). Qed.

Lemma exit_Inv s t start r : busy (phase s) = true ->
  count is_launched (actions s) = (count is_waited (actions s) + 1)%nat ->
  spaced (shortest (cfg s)) (launches (actions s)) -> head (launches (actions s)) = Some t -> t <= clock s ->
  graceful (ShutdownGrace (cfg s)) (actions s) ->
  Inv (after_run start r (act [Waited (clock s)] (phase s) NoProcess s)).
Proof.
  intros Hb Hn Hs Hh Ht Hg. apply (after_run_Inv _ t); [done| |exact Hs|exact Hh|exact Ht|by apply graceful_cons].
  cbn [actions act app]. unfold count in *. cbn [List.filter is_launched is_waited length]. lia.
Qed.

Lemma may_start_busy s : busy (phase s) = true -> may_start s ->
  exists t, head (launches (actions s)) = Some t /\ t <= clock s.
Proof. unfold may_start. destruct (phase s), (head _); try done; intros _ Ht; by eexists. Qed.

Lemma supervisor_step_Inv e s s' : Inv s -> step e s = Some s' -> Inv s' /\ cfg s' = cfg s.
Proof.
  intros HI. pose proof HI as [Hc Hcan Hn Hs Hst Hd Hg]. destruct e as [|dt|err| |started r|r| |]; cbn [step].
  - intros [= <-]. split; [|done]. split; cbn; try done. by destruct (phase s).
  - destruct (Z.ltb_spec dt 0); [done|]. intros [= <-]. split; [|done]. split; cbn; try done.
    unfold may_start in *. cbn. destruct (head _), (phase s); try done; try lia.
  - destruct (child s) eqn:Hch; try done. intros [= <-]. split; [|done].
    split; cbn; try done. split; [done|]. intros Hb. apply Hc in Hb. done.
  - destruct (phase s) eqn:Hp; try done. unfold may_start in Hst. rewrite Hp in Hst. cbn in Hn.
    destruct (cancelled s) eqn:Hx; intros [= <-]; (split; [|done]); split; cbn; try done;
      unfold may_start; cbn; by destruct (head _).
  - destruct (phase s) eqn:Hp; try done. cbn in Hn. unfold may_start in Hst. rewrite Hp in Hst.
    assert (forall t0, head (launches (actions s)) = Some t0 -> t0 + shortest (cfg s) <= clock s) as Hlast
      by (intros t0 Ht0; by rewrite Ht0 in Hst).
    destruct started.
    + intros [= <-]. split; [|done]. split; cbn; try done.
      * unfold count in *. cbn. lia.
      * by apply spaced_cons.
      * by apply graceful_cons.
    + intros [= <-]. split; [|by rewrite after_run_cfg].
      apply (after_run_Inv _ (clock s)); cbn; try done; [by apply Hc|unfold count in *; cbn; lia|by apply spaced_cons|by apply graceful_cons].
  - assert (forall st, match phase s with Running x | Terminating x _ | Killing x => x = st | _ => False end ->
      Inv (after_run st r (act [Waited (clock s)] (phase s) NoProcess s)) /\
      cfg (after_run st r (act [Waited (clock s)] (phase s) NoProcess s)) = cfg s) as Hexit.
    { intros st Hps. assert (busy (phase s) = true) as Hb by (by destruct (phase s)). rewrite Hb in Hn.
      destruct (may_start_busy s Hb Hst) as (t & Hh & Ht).
      split; [by apply (exit_Inv _ t)|]. by rewrite after_run_cfg. }
    destruct (phase s) eqn:Hp, (child s); try done; intros [= <-]; by apply Hexit.
  - destruct (cancelled s) eqn:Hx; [|done]. destruct (phase s) eqn:Hp; try done; intros [= <-]; (split; [|done]).
    + split; cbn; try done; [|by eexists; split; [apply list_elem_of_here|]|by apply graceful_cons].
      unfold may_start in *. rewrite Hp in Hst. exact Hst.
    + split; cbn; try done. unfold may_start in *. cbn. rewrite Hp in Hst. by destruct (head _).
  - destruct (phase s) eqn:Hp; try done.
    + destruct (Z.leb_spec deadline (clock s)) as [Hle|]; [|done]. intros [= <-]. split; [|done].
      split; cbn; try done; [unfold may_start in *; rewrite Hp in Hst; exact Hst|].
      destruct Hd as (t0 & Hin & ->). intros t [[= ->]|Ht]%elem_of_cons.
      * exists t0. split; [by apply list_elem_of_further|done].
      * destruct (Hg t Ht) as (t1 & H1 & H2). exists t1. split; [by apply list_elem_of_further|done].
    + destruct (Z.leb_spec until (clock s)) as [Hle|]; [|done]. intros [= <-]. split; [|done].
      split; cbn; try done. unfold may_start in *. cbn. rewrite Hp in Hst. destruct (head _); [lia|done].
Qed.

Lemma supervisor_run_Inv es s s' : Inv s -> run es s = Some s' -> Inv s' /\ cfg s' = cfg s.
Proof.
  revert s. induction es as [|e es IH]; intros s HI; cbn [run]; [by intros [= <-]|].
  destruct (step e s) as [s1|] eqn:He; [|done]. destruct (supervisor_step_Inv e s s1 HI He) as [HI1 Hc1].
  intros Hrun. destruct (IH s1 HI1 Hrun) as [HI2 Hc2]. by rewrite Hc2.
Qed.

Lemma NewSupervisor_Inv frpc_stat c t s0 : NewSupervisor frpc_stat c t = Ok s0 ->
  Inv s0 /\ 0 < shortest (cfg s0) /\ 0 < ShutdownGrace (cfg s0).
Proof.
  unfold NewSupervisor. destruct (bool_decide _); [done|]. destruct (bool_decide _); [done|].
  destruct frpc_stat; [done|]. intros [= <-]. split.
  { split; cbn; try done. intros t' Ht'. by apply not_elem_of_nil in Ht'. }
  unfold shortest. cbn [cfg applyDefaults BackoffBase BackoffCap ShutdownGrace].
  assert (forall d v, 0 < d -> 0 < positive_or d v) as Hpos by (intros d v; unfold positive_or; destruct (Z.leb_spec v 0); lia).
  split; [apply Z.min_glb_lt|]; by apply Hpos.
Qed.

(** ** The shutdown *)

(** How many steps the supervisor makes at most once it is told to stop. *)
Definition rank (s : Supervisor) : nat :=
  match phase s with
  | Returned => 0
  | Top | Killing _ => 1
  | Sleeping _ | Terminating _ _ => 2
  | Running _ => 3
  | Launching _ => 4
  end.

Definition launching (p : Phase) : bool := match p with Launching _ => true | _ => false end.

Definition own_steps (es : list Event) : nat := length (List.filter own es).

Lemma after_run_cancelled s start r : cancelled s = true -> after_run start r s = act [] Returned (child s) s.
Proof. intros H. unfold after_run. by rewrite H. Qed.

(** What was started from [s] to [s']: nothing but what was about to be. *)
Definition no_new_start (s s' : Supervisor) : Prop :=
  if launching (phase s) then launching (phase s') = true /\ launches (actions s') = launches (actions s) \/
    launching (phase s') = false /\ exists t, launches (actions s') = t :: launches (actions s)
  else launching (phase s') = false /\ launches (actions s') = launches (actions s).

Lemma no_new_start_refl s s' : phase s' = phase s -> actions s' = actions s -> no_new_start s s'.
Proof. intros Hp Ha. unfold no_new_start. rewrite Hp, Ha. destruct (launching (phase s)); auto. Qed.

Lemma no_new_start_trans s1 s2 s3 : no_new_start s1 s2 -> no_new_start s2 s3 -> no_new_start s1 s3.
Proof.
  unfold no_new_start. destruct (launching (phase s1)).
  - intros [[-> H1]|[-> [t H1]]].
    + rewrite H1. done.
    + rewrite H1. intros [H2 H3]. right. split; [done|]. by exists t.
  - intros [-> H1]. by rewrite H1.
Qed.

(** A step that starts nothing. *)
Lemma quiet_step s s' p : phase s = p -> launching p = false -> launching (phase s') = false ->
  cancelled s' = true -> launches (actions s') = launches (actions s) -> (rank s' + 1 <= rank s)%nat ->
  cancelled s' = true /\ no_new_start s s' /\ (rank s' + 1 <= rank s)%nat.
Proof. intros Hp Hl Hl' Hc Ha Hr. unfold no_new_start. by rewrite Hp, Hl. Qed.

Ltac nothing_started Hp := apply (quiet_step _ _ _ Hp); try done; unfold rank; rewrite Hp; cbn; lia.

Lemma step_cancelled e s s' : cancelled s = true -> step e s = Some s' ->
  cancelled s' = true /\ no_new_start s s' /\ (rank s' + (if own e then 1 else 0) <= rank s)%nat.
Proof.
  intros Hc. destruct e as [|dt|err| |started r|r| |]; cbn [step own].
  - intros [= <-]. split; [done|]. split; [by apply no_new_start_refl|]. unfold rank. cbn [phase]. lia.
  - destruct (dt <? 0); [done|]. intros [= <-]. split; [done|]. split; [by apply no_new_start_refl|].
    unfold rank. cbn [phase]. lia.
  - destruct (child s); try done. intros [= <-]. split; [done|]. split; [by apply no_new_start_refl|].
    unfold rank. cbn [phase act]. lia.
  - destruct (phase s) eqn:Hp; try done. rewrite Hc. intros [= <-].
    nothing_started Hp.
  - destruct (phase s) eqn:Hp; try done. destruct started; [|rewrite after_run_cancelled by done]; intros [= <-];
      (split; [done|]); unfold no_new_start, rank; rewrite Hp; cbn; (split; [right; by eauto|lia]).
  - destruct (phase s) eqn:Hp, (child s); try done; rewrite after_run_cancelled by done; intros [= <-];
      nothing_started Hp.
  - rewrite Hc. destruct (phase s) eqn:Hp; try done; intros [= <-]; nothing_started Hp.
  - destruct (phase s) eqn:Hp; try done; (destruct (_ <=? clock s); [|done]); intros [= <-];
      nothing_started Hp.
Qed.

Lemma run_cancelled es s s' : cancelled s = true -> run es s = Some s' ->
  cancelled s' = true /\ no_new_start s s' /\ (rank s' + own_steps es <= rank s)%nat.
Proof.
  revert s. induction es as [|e es IH]; intros s Hc; cbn [run].
  - intros [= <-]. split; [done|]. split; [by apply no_new_start_refl|]. cbn. lia.
  - destruct (step e s) as [s1|] eqn:He; [|done]. intros Hrun.
    destruct (step_cancelled e s s1 Hc He) as (Hc1 & Hl1 & Hr1). destruct (IH s1 Hc1 Hrun) as (Hc2 & Hl2 & Hr2).
    split; [done|]. split; [by eapply no_new_start_trans|]. unfold own_steps in *. cbn [List.filter]. destruct (own e); cbn [length]; lia.
Qed.

(** Then it waits for nothing but the child, which has SIGTERM and the grace period
    or SIGKILL. *)
Definition waits_for_child (s : Supervisor) : Prop :=
  child s = Alive /\
  match phase s with Terminating _ deadline => clock s < deadline | Killing _ => True | _ => False end.

Lemma cancelled_proceeds s : Inv s -> cancelled s = true ->
  phase s = Returned \/ (exists e s', own e = true /\ step e s = Some s') \/ waits_for_child s.
Proof.
  intros HI Hc. pose proof (inv_child s HI) as Hch. unfold waits_for_child.
  assert (forall err, child s = Exited err -> busy (phase s) = true ->
    exists e s', own e = true /\ step e s = Some s') as Hexit.
  { intros err Hx Hb. exists (SeeExit 0%Q). cbn [step]. rewrite Hx. destruct (phase s); try done; by eexists. }
  destruct (phase s) eqn:Hp.
  - right. left. exists CheckContext. cbn [step]. rewrite Hp. by eexists.
  - right. left. exists (Launch true 0%Q). cbn [step]. rewrite Hp. by eexists.
  - right. left. exists SeeCancel. cbn [step]. rewrite Hp, Hc. by eexists.
  - right. destruct (child s) as [| |err] eqn:Hx; [by discriminate (proj1 Hch eq_refl)| |left; by apply (Hexit err)].
    destruct (Z.leb_spec deadline (clock s)) as [Hle|Hlt]; [|by right].
    left. exists SeeTimer. cbn [step]. rewrite Hp. apply Z.leb_le in Hle. rewrite Hle. by eexists.
  - right. destruct (child s) as [| |err] eqn:Hx; [by discriminate (proj1 Hch eq_refl)|by right|left; by apply (Hexit err)].
  - right. left. exists SeeCancel. cbn [step]. rewrite Hp, Hc. by eexists.
  - by left.
Qed.

(** ** The lines of the output *)

Lemma cut_line_spec s :
  match cut_line s with
  | Some (line, rest) => s = line +:+ newline +:+ rest /\ no_newline line = true
  | None => no_newline s = true
  end.
Proof.
  induction s as [|c s IH]; [done|]. cbn [cut_line]. case_bool_decide as Hc; [by rewrite Hc|].
  destruct (cut_line s) as [[line rest]|].
  - destruct IH as [-> Hl]. split; [done|]. unfold no_newline in *. cbn [all_str]. rewrite bool_decide_false by done. exact Hl.
  - unfold no_newline in *. cbn [all_str]. rewrite bool_decide_false by done. exact IH.
Qed.

Lemma write_lines_snoc l line : write_lines (l ++ [line]) = write_lines l +:+ line +:+ newline.
Proof.
  induction l as [|x l IH]; [by cbn; rewrite !app_nil_str|]. unfold write_lines in *. cbn [app foldr].
  by rewrite IH, !app_assoc_str.
Qed.

(** [text] is what was written so far. *)
Definition has_logged (text : string) (lw : logWriter) : Prop :=
  exists lines, logged lw = map (fun line => lw_prefix lw +:+ line) lines /\
    forallb no_newline lines = true /\ text = write_lines lines +:+ buf lw.

Lemma flush_has_logged text fuel : forall lw, (String.length (buf lw) <= fuel)%nat -> has_logged text lw ->
  has_logged text (flush fuel lw) /\ no_newline (buf (flush fuel lw)) = true /\ lw_prefix (flush fuel lw) = lw_prefix lw.
Proof.
  induction fuel as [|fuel IH]; intros lw Hlen Hlw; cbn [flush].
  - split; [done|]. destruct (buf lw); [done|]. cbn in Hlen. lia.
  - pose proof (cut_line_spec (buf lw)) as Hcut. destruct (cut_line (buf lw)) as [[line rest]|]; [|done].
    destruct Hcut as [Hbuf Hline]. destruct Hlw as (lines & Hlog & Hall & Htext).
    apply (IH (mkLogWriter (lw_prefix lw) rest (logged lw ++ [lw_prefix lw +:+ line]))); cbn [buf lw_prefix logged].
    + rewrite Hbuf, !length_app_str in Hlen. cbn in Hlen. lia.
    + exists (lines ++ [line]). cbn [buf lw_prefix logged]. rewrite Hlog, map_app. split; [done|]. split.
      * rewrite forallb_app, Hall. cbn [forallb]. by rewrite Hline.
      * by rewrite write_lines_snoc, Htext, Hbuf, !app_assoc_str.
Qed.

Lemma Write_has_logged text lw p : has_logged text lw ->
  has_logged (text +:+ p) (Write lw p) /\ no_newline (buf (Write lw p)) = true /\ lw_prefix (Write lw p) = lw_prefix lw.
Proof.
  intros (lines & Hlog & Hall & ->). unfold Write.
  apply (flush_has_logged _ _ (mkLogWriter (lw_prefix lw) (buf lw +:+ p) (logged lw))); [done|].
  exists lines. split; [done|]. split; [done|]. cbn [buf]. by rewrite app_assoc_str.
Qed.

(** ** The properties *)


(** C27: Once it is told to stop, the supervisor starts no program, and it makes at
    most three steps; but when it is told between its look at the context and the start
    of the program, it does start that one, and makes one step more to end it.  It stops with no child left; until then it can make a step,
    or it waits for the child, which has got SIGTERM less than the grace period
    ago, or SIGKILL. *)
Theorem supervisor_shuts_down frpc_stat c t s0 es s es' s' :
  NewSupervisor frpc_stat c t = Ok s0 -> run es s0 = Some s -> cancelled s = true -> run es' s = Some s' ->
  (launches (actions s') = launches (actions s) \/
   launching (phase s) = true /\ exists t, launches (actions s') = t :: launches (actions s)) /\
  (own_steps es' <= if launching (phase s) then 4 else 3)%nat /\
  (phase s' = Returned /\ child s' = NoProcess \/
   (exists e s'', own e = true /\ step e s' = Some s'') \/ waits_for_child s').
Proof.
  intros Hnew Hrun Hc Hrun'. destruct (NewSupervisor_Inv _ _ _ _ Hnew) as (HI0 & _ & _).
  destruct (supervisor_run_Inv es s0 s HI0 Hrun) as [HI _]. destruct (supervisor_run_Inv es' s s' HI Hrun') as [HI' _].
  destruct (run_cancelled es' s s' Hc Hrun') as (Hc' & Hl & Hr).
  split; [|split; [unfold rank in Hr; destruct (phase s); cbn; lia|]].
  { unfold no_new_start in Hl. destruct (launching (phase s)); [destruct Hl as [[_ ?]|[_ ?]]|destruct Hl]; auto. }
  destruct (cancelled_proceeds s' HI' Hc') as [Hp|H]; [left|by right].
  split; [done|]. apply (inv_child s' HI'). by rewrite Hp.
Qed.

(** However the output of the program is cut into writes, the logger gets
    exactly its lines, in order and each with the prefix; what follows the last
    newline waits in the buffer. *)
Theorem logWriter_logs_lines prefix chunks :
  let lw := fold_left Write chunks (mkLogWriter prefix EmptyString []) in
  exists lines, logged lw = map (fun line => prefix +:+ line) lines /\ forallb no_newline lines = true /\
    no_newline (buf lw) = true /\ foldr (fun a b => a +:+ b) EmptyString chunks = write_lines lines +:+ buf lw.
Proof.
  intros lw. assert (forall text lw0, has_logged text lw0 -> no_newline (buf lw0) = true ->
    let lw1 := fold_left Write chunks lw0 in
    has_logged (text +:+ foldr (fun a b => a +:+ b) EmptyString chunks) lw1 /\ no_newline (buf lw1) = true /\
    lw_prefix lw1 = lw_prefix lw0) as H.
  { clear lw. induction chunks as [|p chunks IH]; intros text lw0 H0 Hb; cbn [fold_left foldr].
    - by rewrite app_nil_str.
    - destruct (Write_has_logged text lw0 p H0) as (H1 & H2 & H3).
      destruct (IH _ _ H1 H2) as (H4 & H5 & H6). rewrite <- app_assoc_str, <- H3. by split. }
  destruct (H EmptyString (mkLogWriter prefix EmptyString [])) as ((lines & H1 & H2 & H3) & H4 & H5); [by exists []|done|].
  cbn [lw_prefix] in H5. fold lw in H1, H3, H4, H5. rewrite H5 in H1. exists lines. by split.
Qed.

(** ** A run *)

(** The program ends after two seconds, is started again, and the second one does
    not heed SIGTERM. *)
Definition frpc_config : Config := mkConfig "/usr/bin/frpc" "/data/frp/frpc.toml" 0 0 0 true 0 0.

Definition restarts : list Event :=
  [CheckContext; Launch true 0%Q; Pass (2 * Second); ChildEnds (Some (EText "exit status 1")); SeeExit 0%Q;
   Pass Second; SeeTimer; CheckContext; Launch true 0%Q; Pass Second; Cancel].

Definition kills : list Event :=
  [SeeCancel; Pass (5 * Second); SeeTimer; ChildEnds (Some (EText "signal: killed")); SeeExit 0%Q].

Definition at_start : Supervisor := mkSupervisor (applyDefaults frpc_config) Top 0 NoProcess false 0 [].

Definition at_stop : option Supervisor := run restarts at_start.


Lemma supervisor_shuts_down_witness : exists s s',
  run restarts at_start = Some s /\ run kills s = Some s' /\ phase s' = Returned /\ child s' = NoProcess /\
  head (actions s') = Some (Waited (9 * Second)) /\ launches (actions s') = launches (actions s) /\
  own_steps kills = 3%nat /\ (own_steps kills <= 3)%nat.
Proof.
  destruct at_stop as [s|] eqn:Hs; [|vm_compute in Hs; discriminate Hs]. exists s.
  destruct (run kills s) as [s'|] eqn:Hs'; [|vm_compute in Hs; injection Hs as <-; vm_compute in Hs'; discriminate Hs'].
  exists s'. split; [exact Hs|]. split; [reflexivity|].
  assert (cancelled s = true) as Hc by (vm_compute in Hs; injection Hs as <-; reflexivity).
  pose proof (supervisor_shuts_down None frpc_config 0 at_start restarts s kills s' eq_refl Hs Hc Hs') as (H1 & H2 & _).
  vm_compute in Hs. injection Hs as <-. vm_compute in Hs'. injection Hs' as <-.
  split; [reflexivity|]. split; [reflexivity|]. split; [vm_compute; reflexivity|]. split.
  { destruct H1 as [H1|[H1 _]]; [exact H1|discriminate H1]. }
  split; [vm_compute; reflexivity|exact H2].
Defined.

(** It is told to stop when it has looked at the context, and starts the program all
    the same: four steps. *)
Example stopped_while_launching :
  let es := [Launch true 0%Q; SeeCancel; Pass (5 * Second); SeeTimer; ChildEnds None; SeeExit 0%Q] in
  own_steps es = 4%nat /\
  match run ([CheckContext; Cancel] ++ es) at_start with
  | Some s => phase s = Returned /\ launches (actions s) = [0]
  | None => False
  end.
Proof. vm_compute. by repeat split. Qed.
