(* ===== verification/Tunnel.v ===== *)
(** * Tunnel: the configuration of the tunnel and its daemon

    tunnel/config.go and tunnel/creds.go: the configuration of the tunnel daemon,
    from a file and the environment, its validation, the text that the child
    process is configured with, and the files of that text and of the credential,
    which are private and are replaced in one step; run of
    cmd/soc-ota-tunneld/main.go up to the supervisor of [Supervisor].  The files
    are a class [TunnelFs] with laws. *)

From S2P Require Import Prelude Json Text StateData Decode Os Supervisor.
From Stdlib Require Import Ascii QArith.

Open Scope Z_scope.

(** ** The configuration *)

Record DaemonConfig := mkDaemonConfig {
  ServerAddr : string;
  ServerPort : Z;
  LocalSSHPort : Z;
  ProxyName : string;
  daemon_FrpcPath : string;
  CredentialPath : string;
  RenderedConfigPath : string;
  RemotePortHint : Z
}.

Definition DefaultRenderedConfigPath : string := "/data/frp/frpc.toml".
Definition DefaultCredentialPath : string := "/data/frp/credential".

Definition DefaultDaemonConfig : DaemonConfig :=
  mkDaemonConfig EmptyString 7000 22 EmptyString "/usr/bin/frpc" DefaultCredentialPath DefaultRenderedConfigPath 0.

Definition set_ServerAddr v c := mkDaemonConfig v (ServerPort c) (LocalSSHPort c) (ProxyName c) (daemon_FrpcPath c)
  (CredentialPath c) (RenderedConfigPath c) (RemotePortHint c).
Definition set_ServerPort v c := mkDaemonConfig (ServerAddr c) v (LocalSSHPort c) (ProxyName c) (daemon_FrpcPath c)
  (CredentialPath c) (RenderedConfigPath c) (RemotePortHint c).
Definition set_LocalSSHPort v c := mkDaemonConfig (ServerAddr c) (ServerPort c) v (ProxyName c) (daemon_FrpcPath c)
  (CredentialPath c) (RenderedConfigPath c) (RemotePortHint c).
Definition set_ProxyName v c := mkDaemonConfig (ServerAddr c) (ServerPort c) (LocalSSHPort c) v (daemon_FrpcPath c)
  (CredentialPath c) (RenderedConfigPath c) (RemotePortHint c).
Definition set_FrpcPath v c := mkDaemonConfig (ServerAddr c) (ServerPort c) (LocalSSHPort c) (ProxyName c) v
  (CredentialPath c) (RenderedConfigPath c) (RemotePortHint c).
Definition set_CredentialPath v c := mkDaemonConfig (ServerAddr c) (ServerPort c) (LocalSSHPort c) (ProxyName c)
  (daemon_FrpcPath c) v (RenderedConfigPath c) (RemotePortHint c).
Definition set_RenderedConfigPath v c := mkDaemonConfig (ServerAddr c) (ServerPort c) (LocalSSHPort c) (ProxyName c)
  (daemon_FrpcPath c) (CredentialPath c) v (RemotePortHint c).
Definition set_RemotePortHint v c := mkDaemonConfig (ServerAddr c) (ServerPort c) (LocalSSHPort c) (ProxyName c)
  (daemon_FrpcPath c) (CredentialPath c) (RenderedConfigPath c) v.

Definition DaemonConfig_pfields : list (string * pdecoder DaemonConfig) :=
  [("serverAddr", on_pfield ServerAddr set_ServerAddr (atom dec_string));
   ("serverPort", on_pfield ServerPort set_ServerPort (atom dec_int));
   ("localSshPort", on_pfield LocalSSHPort set_LocalSSHPort (atom dec_int));
   ("proxyName", on_pfield ProxyName set_ProxyName (atom dec_string));
   ("frpcPath", on_pfield daemon_FrpcPath set_FrpcPath (atom dec_string));
   ("credentialPath", on_pfield CredentialPath set_CredentialPath (atom dec_string));
   ("renderedConfigPath", on_pfield RenderedConfigPath set_RenderedConfigPath (atom dec_string));
   ("remotePortHint", on_pfield RemotePortHint set_RemotePortHint (atom dec_int))].

(** What was decoded into the configuration before the error stays in it. *)
Definition LoadDaemonConfig (read : result string) : DaemonConfig * option error :=
  let cfg := DefaultDaemonConfig in
  match read with
  | Err err => if IsNotExist err then (cfg, None) else (cfg, Some (EWrap "tunnel/config: read config" err))
  | Ok data =>
      match unmarshal_text data with
      | None => (cfg, Some (EWrap "tunnel/config: parse JSON config" (EText "invalid character in JSON")))
      | Some j =>
          let '(cfg, f) := p_struct DaemonConfig_pfields j cfg in
          (cfg, EWrap "tunnel/config: parse JSON config" ∘ failure_error <$> f)
      end
  end.

Definition parsePort (envName val : string) : Z * option error :=
  match Atoi (TrimSpace val) with
  | None => (0, Some (EText ("tunnel/config: env " +:+ envName +:+ ": not a valid integer")))
  | Some n =>
      if (n <? 1) || (65535 <? n) then
        (0, Some (EText ("tunnel/config: env " +:+ envName +:+ ": port " +:+ num_text n +:+ " out of range [1, 65535]")))
      else (n, None)
  end.

(** A variable that is not set is the empty string (os.Getenv). *)
Definition Getenv (env : gmap string string) (name : string) : string := default EmptyString (env !! name).

Definition env_string (env : gmap string string) (name : string) (set : string -> DaemonConfig -> DaemonConfig)
    (c : DaemonConfig) : DaemonConfig :=
  let v := Getenv env name in if bool_decide (v = EmptyString) then c else set v c.

Definition env_port (env : gmap string string) (name : string) (set : Z -> DaemonConfig -> DaemonConfig)
    (c : DaemonConfig) : DaemonConfig * option error :=
  let v := Getenv env name in
  if bool_decide (v = EmptyString) then (c, None) else let '(n, err) := parsePort name v in (set n c, err).

Definition ApplyEnvOverrides (env : gmap string string) (c : DaemonConfig) : DaemonConfig * option error :=
  let c := env_string env "TUNNEL_SERVER_ADDR" set_ServerAddr c in
  let c := env_string env "TUNNEL_PROXY_NAME" set_ProxyName c in
  let c := env_string env "TUNNEL_FRPC_PATH" set_FrpcPath c in
  let c := env_string env "TUNNEL_CREDENTIAL_PATH" set_CredentialPath c in
  let c := env_string env "TUNNEL_RENDERED_CONFIG_PATH" set_RenderedConfigPath c in
  match env_port env "TUNNEL_SERVER_PORT" set_ServerPort c with
  | (c, Some err) => (c, Some err)
  | (c, None) => env_port env "TUNNEL_LOCAL_SSH_PORT" set_LocalSSHPort c
  end.

Definition blank (s : string) : bool := bool_decide (TrimSpace s = EmptyString).

Definition Validate (c : DaemonConfig) : option error :=
  if blank (ServerAddr c) then Some (EText "tunnel/config: ServerAddr must not be empty")
  else if (ServerPort c <? 1) || (65535 <? ServerPort c) then Some (EText "tunnel/config: ServerPort out of range [1, 65535]")
  else if (LocalSSHPort c <? 1) || (65535 <? LocalSSHPort c) then
    Some (EText "tunnel/config: LocalSSHPort out of range [1, 65535]")
  else if (RemotePortHint c <? 0) || (65535 <? RemotePortHint c) then
    Some (EText "tunnel/config: RemotePortHint out of range [0, 65535]")
  else if blank (daemon_FrpcPath c) then Some (EText "tunnel/config: FrpcPath must not be empty")
  else if blank (CredentialPath c) then Some (EText "tunnel/config: CredentialPath must not be empty")
  else if blank (RenderedConfigPath c) then Some (EText "tunnel/config: RenderedConfigPath must not be empty")
  else None.

(** ** The verb %q *)

(** utf8.DecodeRuneInString: the rune and how many bytes it has; a byte that does
    not begin a valid encoding is (RuneError, 1). *)
Definition RuneError : Z := 65533.

Definition byte_val (c : ascii) : Z := Z.of_nat (nat_of_ascii c).

Definition between (lo hi x : Z) : bool := (lo <=? x) && (x <=? hi).

(** The bytes that may follow the first one. *)
Definition second_range (b0 : Z) : Z * Z :=
  if b0 =? 224 then (160, 191) else if b0 =? 237 then (128, 159)
  else if b0 =? 240 then (144, 191) else if b0 =? 244 then (128, 143) else (128, 191).

Definition rune_size (b0 : Z) : nat :=
  if between 194 223 b0 then 2 else if between 224 239 b0 then 3 else if between 240 244 b0 then 4 else 1.

Definition continued (acc : Z) (b : ascii) : Z := acc * 64 + Z.land (byte_val b) 63.

Definition DecodeRune (s : string) : Z * nat :=
  match s with
  | EmptyString => (RuneError, 0%nat)
  | String c0 s =>
      let b0 := byte_val c0 in
      let '(lo, hi) := second_range b0 in
      if b0 <? 128 then (b0, 1%nat)
      else
        match rune_size b0, s with
        | 2%nat, String c1 _ =>
            if between lo hi (byte_val c1) then (continued (Z.land b0 31) c1, 2%nat) else (RuneError, 1%nat)
        | 3%nat, String c1 (String c2 _) =>
            if between lo hi (byte_val c1) && between 128 191 (byte_val c2) then
              (continued (continued (Z.land b0 15) c1) c2, 3%nat)
            else (RuneError, 1%nat)
        | 4%nat, String c1 (String c2 (String c3 _)) =>
            if between lo hi (byte_val c1) && between 128 191 (byte_val c2) && between 128 191 (byte_val c3) then
              (continued (continued (continued (Z.land b0 7) c1) c2) c3, 4%nat)
            else (RuneError, 1%nat)
        | _, _ => (RuneError, 1%nat)
        end
  end.

(** The last [n] hexadecimal digits. *)
Fixpoint hex_digits (n : nat) (v : Z) (acc : string) : string :=
  match n with
  | O => acc
  | S n => hex_digits n (v / 16) (String (hex_digit (Z.to_nat (v mod 16))) acc)
  end.

Fixpoint take_bytes (n : nat) (s : string) : string :=
  match n, s with S n, String c s => String c (take_bytes n s) | _, _ => EmptyString end.

Definition backslash : ascii := ascii_of_nat 92.
Definition quote_char : ascii := ascii_of_nat 34.

(** A backslash, a letter and hexadecimal digits. *)
Definition escaped (letter : ascii) (digits : string) : string := String backslash (String letter digits).

(** The escapes of one letter. *)
Definition letter_escape (r : Z) : option ascii :=
  match r with
  | 7 => Some "a"%char | 8 => Some "b"%char | 12 => Some "f"%char | 10 => Some "n"%char
  | 13 => Some "r"%char | 9 => Some "t"%char | 11 => Some "v"%char | _ => None
  end.

Section quote.
(** unicode.IsPrint on the runes that are not ASCII: tables of the Unicode standard. *)
Context (wide_IsPrint : Z -> bool).

Definition strconv_IsPrint (r : Z) : bool := if r <? 128 then between 32 126 r else wide_IsPrint r.

(** What stands for the first rune of [s], and how many bytes it has. *)
Definition quote_rune (s : string) : string * nat :=
  let '(r, width) := DecodeRune s in
  let b := match s with String c _ => byte_val c | EmptyString => 0 end in
  if (width =? 1)%nat && (r =? RuneError) then (escaped "x" (hex_digits 2 b EmptyString), 1%nat)
  else if (r =? 34) || (r =? 92) then (escaped (ascii_of_nat (Z.to_nat r)) EmptyString, width)
  else if strconv_IsPrint r then (take_bytes width s, width)
  else
    match letter_escape r with
    | Some letter => (escaped letter EmptyString, width)
    | None =>
        if (r <? 32) || (r =? 127) then (escaped "x" (hex_digits 2 r EmptyString), width)
        else if r <? 65536 then (escaped "u" (hex_digits 4 r EmptyString), width)
        else (escaped "U" (hex_digits 8 r EmptyString), width)
    end.

(** [skip] bytes belong to the rune before. *)
Fixpoint quote_from (skip : nat) (s : string) : string :=
  match s with
  | EmptyString => EmptyString
  | String c rest =>
      match skip with
      | S skip => quote_from skip rest
      | O => let '(text, width) := quote_rune s in text +:+ quote_from (width - 1) rest
      end
  end.

(** strconv.Quote. *)
Definition Quote (s : string) : string :=
  String quote_char (quote_from 0 s +:+ String quote_char EmptyString).

(** ** The configuration of the child process *)

Definition line (parts : list string) : string := String.concat EmptyString parts +:+ newline.

Definition quotes : string := String quote_char (String quote_char EmptyString).
Definition quoted (word : string) : string := String quote_char (word +:+ String quote_char EmptyString).

Definition RenderFrpcTOML (c : DaemonConfig) (token : string) : string :=
  String.concat EmptyString
    ([line ["serverAddr = "; Quote (ServerAddr c)];
      line ["serverPort = "; num_text (ServerPort c)];
      line ["metadatas = { sotc_token = "; Quote token; " }"];
      line [];
      line ["[auth]"];
      line ["method = "; quoted "token"];
      line ["token = "; quotes];
      line [];
      line ["[[proxies]]"];
      line ["name = "; Quote (ProxyName c)];
      line ["type = "; quoted "tcp"];
      line ["localIP = "; quoted "127.0.0.1"];
      line ["localPort = "; num_text (LocalSSHPort c)]]
     ++ (if RemotePortHint c =? 0 then [] else [line ["remotePort = "; num_text (RemotePortHint c)]])
     ++ [line ["[proxies.metadatas]"]; line ["sotc_token = "; Quote token]]).

Definition CredentialAuthLines (token : string) : string :=
  String.concat EmptyString [line ["[auth]"]; line ["method = "; quoted "token"]; line ["token = "; Quote token]].

End quote.

(** ** The files *)

(** A file has permissions and contents.  [TempFile] is ioutil.TempFile: the name of
    a new file, open for writing, which stands for its descriptor; [StatBinary] is
    the error of os.Stat. *)
Class TunnelFs (D : Type) := {
  ReadFile : string -> D -> result string;
  MkdirAll : string -> Z -> IO D unit;
  TempFile : string -> string -> IO D string;
  WriteString : string -> string -> IO D unit;
  CloseTemp : string -> IO D unit;
  Chmod : string -> Z -> IO D unit;
  Rename : string -> string -> IO D unit;
  RemoveTemp : string -> IO D unit;
  StatBinary : string -> D -> option error
}.

Definition private : Z := 384.        (* 0600 *)
Definition private_dir : Z := 448.    (* 0700 *)

(** What the documentation promises: a temporary file is new and has permissions
    0600; a write that fails has written a part; renaming happens or not. *)
Class TunnelFsLaws (D : Type) `{TunnelFs D} := {
  files : D -> gmap string (Z * string);
  ReadFile_ok p d v : ReadFile p d = Ok v -> exists mode, files d !! p = Some (mode, v);
  MkdirAll_files p mode d r d' : MkdirAll p mode d = (r, d') -> files d' = files d;
  TempFile_ok dir pattern d name d' : TempFile dir pattern d = (Ok name, d') ->
    files d !! name = None /\ files d' = <[name := (private, EmptyString)]> (files d);
  TempFile_err dir pattern d err d' : TempFile dir pattern d = (Err err, d') -> files d' = files d;
  WriteString_ok name v d d' mode : files d !! name = Some (mode, EmptyString) -> WriteString name v d = (Ok (), d') ->
    files d' = <[name := (mode, v)]> (files d);
  WriteString_err name v d err d' mode : files d !! name = Some (mode, EmptyString) ->
    WriteString name v d = (Err err, d') ->
    exists part, HasPrefix v part = true /\ files d' = <[name := (mode, part)]> (files d);
  CloseTemp_files name d r d' : CloseTemp name d = (r, d') -> files d' = files d;
  Chmod_ok name mode d d' : Chmod name mode d = (Ok (), d') ->
    files d' = alter (fun f => (mode, f.2)) name (files d);
  Chmod_err name mode d err d' : Chmod name mode d = (Err err, d') -> files d' = files d;
  Rename_ok a b d d' : Rename a b d = (Ok (), d') ->
    exists f, files d !! a = Some f /\ files d' = <[b := f]> (delete a (files d));
  Rename_err a b d err d' : Rename a b d = (Err err, d') -> files d' = files d;
  RemoveTemp_ok name d d' : RemoveTemp name d = (Ok (), d') -> files d' = delete name (files d);
  RemoveTemp_err name d err d' : RemoveTemp name d = (Err err, d') -> files d' = files d
}.

Section daemon.
Context `{TunnelFs D}.
Context (wide_IsPrint : Z -> bool).

(** The deferred function: the temporary file goes unless it was renamed. *)
Definition unless_committed {A} (tmpPath : string) (m : IO D A) : IO D A := fun d =>
  match m d with
  | (Ok a, d) => (Ok a, d)
  | (Err err, d) => (Err err, (RemoveTemp tmpPath d).2)
  end.

(** The bodies of SaveCredential and WriteRenderedConfig, which differ in the
    pattern and the texts of the errors. *)
Definition replace_private (pkg pattern path content : string) : IO D unit :=
  _ ← wrap (pkg +:+ ": create parent directory") (MkdirAll (Dir path) private_dir);
  tmpPath ← wrap (pkg +:+ ": create temp file") (TempFile (Dir path) pattern);
  unless_committed tmpPath
    (r ← try (WriteString tmpPath content);
     match r with
     | Err err => _ ← try (CloseTemp tmpPath); fail (EWrap (pkg +:+ ": write to temp file") err)
     | Ok _ =>
         _ ← wrap (pkg +:+ ": close temp file") (CloseTemp tmpPath);
         _ ← wrap (pkg +:+ ": chmod 0600 temp file") (Chmod tmpPath private);
         wrap (pkg +:+ ": rename") (Rename tmpPath path)
     end).

Definition SaveCredential (path token : string) : IO D unit :=
  replace_private "tunnel/creds" ".cred-*.tmp" path token.

Definition WriteRenderedConfig (c : DaemonConfig) (content : string) : IO D unit :=
  replace_private "tunnel/config" ".frpc-*.toml.tmp" (RenderedConfigPath c) content.

Definition LoadCredential (path : string) (d : D) : result string :=
  match ReadFile path d with
  | Err err => Err (EWrap "tunnel/creds: read credential" err)
  | Ok data =>
      let token := TrimSpace data in
      if bool_decide (token = EmptyString) then Err (EText "tunnel/creds: credential file is empty") else Ok token
  end.

(** ** The daemon *)

(** The first part of run: the file, the environment, the validation and the name. *)
Definition daemon_config (read : result string) (env : gmap string string) (hostname : result string) :
    result DaemonConfig :=
  match LoadDaemonConfig read with
  | (_, Some err) => Err (EWrap "load config" err)
  | (cfg, None) =>
      match ApplyEnvOverrides env cfg with
      | (_, Some err) => Err (EWrap "env overrides" err)
      | (cfg, None) =>
          match Validate cfg with
          | Some err => Err (EWrap "config validation" err)
          | None =>
              if bool_decide (ProxyName cfg = EmptyString) then
                match hostname with
                | Err err => Err (EWrap "derive proxy name from hostname" err)
                | Ok host => Ok (set_ProxyName host cfg)
                end
              else Ok cfg
          end
      end
  end.

Definition supervisor_config (cfg : DaemonConfig) : Config :=
  mkConfig (daemon_FrpcPath cfg) (RenderedConfigPath cfg) 0 0 0 false 0 0.

(** run up to sup.Run, which is [Supervisor.run] and returns nil. *)
Definition start_daemon (configPath : string) (env : gmap string string) (hostname : result string) (now : Z) :
    IO D Supervisor :=
  read ← gets (ReadFile configPath);
  cfg ← asks (fun _ => daemon_config read env hostname);
  token ← wrap "load tunnel credential" (asks (LoadCredential (CredentialPath cfg)));
  _ ← wrap "write rendered frpc config" (WriteRenderedConfig cfg (RenderFrpcTOML wide_IsPrint cfg token));
  frpc_stat ← gets (StatBinary (daemon_FrpcPath cfg));
  wrap "create supervisor" (asks (fun _ => NewSupervisor frpc_stat (supervisor_config cfg) now)).

End daemon.

(** ** The configuration is well formed *)

Lemma out_of_range_false lo hi x : (x <? lo) || (hi <? x) = false -> lo <= x <= hi.
Proof. intros [H1 H2]%orb_false_elim. lia. Qed.

Definition port (n : Z) : Prop := 1 <= n <= 65535.

(** What the daemon needs of its configuration. *)
Record well_formed (c : DaemonConfig) : Prop := mkWellFormed {
  wf_server : blank (ServerAddr c) = false;
  wf_server_port : port (ServerPort c);
  wf_ssh_port : port (LocalSSHPort c);
  wf_remote_port : RemotePortHint c = 0 \/ port (RemotePortHint c);
  wf_frpc : blank (daemon_FrpcPath c) = false;
  wf_credential : blank (CredentialPath c) = false;
  wf_rendered : blank (RenderedConfigPath c) = false
}.

Lemma Validate_well_formed c : Validate c = None -> well_formed c.
Proof.
  unfold Validate. intros Hv.
  repeat match type of Hv with (if ?b then _ else _) = _ => destruct b eqn:?; [done|] end.
  repeat match goal with E : _ || _ = false |- _ => apply out_of_range_false in E end.
  split; try done. unfold port. lia.
Qed.

Lemma parsePort_ok name v n : parsePort name v = (n, None) -> Atoi (TrimSpace v) = Some n /\ port n.
Proof.
  unfold parsePort. destruct (Atoi (TrimSpace v)) as [m|]; [|done].
  destruct ((m <? 1) || (65535 <? m)) eqn:Hr; [done|]. intros [= <-]. split; [done|]. by apply out_of_range_false.
Qed.

Lemma env_port_ok env name set c c' : env_port env name set c = (c', None) ->
  (Getenv env name = EmptyString /\ c' = c) \/
  exists n, Atoi (TrimSpace (Getenv env name)) = Some n /\ port n /\ c' = set n c.
Proof.
  unfold env_port. case_bool_decide as Hv; [intros [= <-]; by left|].
  destruct (parsePort name (Getenv env name)) as [n err] eqn:Hp. intros [= <- ->].
  destruct (parsePort_ok _ _ _ Hp) as [Ha Hr]. right. by exists n.
Qed.

(** A variable that is set decides the field. *)
Definition follows (v field : string) : Prop := v <> EmptyString -> field = v.
Definition port_follows (v : string) (field : Z) : Prop := v <> EmptyString -> Atoi (TrimSpace v) = Some field.

Record overridden (env : gmap string string) (c : DaemonConfig) : Prop := mkOverridden {
  ov_server : follows (Getenv env "TUNNEL_SERVER_ADDR") (ServerAddr c);
  ov_proxy : follows (Getenv env "TUNNEL_PROXY_NAME") (ProxyName c);
  ov_frpc : follows (Getenv env "TUNNEL_FRPC_PATH") (daemon_FrpcPath c);
  ov_credential : follows (Getenv env "TUNNEL_CREDENTIAL_PATH") (CredentialPath c);
  ov_rendered : follows (Getenv env "TUNNEL_RENDERED_CONFIG_PATH") (RenderedConfigPath c);
  ov_server_port : port_follows (Getenv env "TUNNEL_SERVER_PORT") (ServerPort c);
  ov_ssh_port : port_follows (Getenv env "TUNNEL_LOCAL_SSH_PORT") (LocalSSHPort c)
}.

Lemma env_string_same {A} (get : DaemonConfig -> A) env name set c : (forall v c, get (set v c) = get c) ->
  get (env_string env name set c) = get c.
Proof. intros Hs. unfold env_string. by case_bool_decide. Qed.

Lemma env_string_set get env name set c : (forall v c, get (set v c) = v) ->
  follows (Getenv env name) (get (env_string env name set c)).
Proof. intros Hs Hv. unfold env_string. by rewrite bool_decide_false. Qed.

(** The other variables leave the field. *)
Ltac env_field get := rewrite ?(env_string_same get) by done; by apply env_string_set.

Lemma ApplyEnvOverrides_ok env c c' : ApplyEnvOverrides env c = (c', None) -> overridden env c'.
Proof.
  unfold ApplyEnvOverrides.
  destruct (env_port env "TUNNEL_SERVER_PORT" _ _) as [c1 [err|]] eqn:H1; [done|]. intros H2.
  apply env_port_ok in H1, H2.
  destruct H1 as [[Hv1 ->]|(n1 & Ha1 & _ & ->)], H2 as [[Hv2 ->]|(n2 & Ha2 & _ & ->)]; split;
    cbn [ServerAddr ProxyName daemon_FrpcPath CredentialPath RenderedConfigPath ServerPort LocalSSHPort
         set_ServerPort set_LocalSSHPort];
    first [by intros ? | env_field ServerAddr | env_field ProxyName | env_field daemon_FrpcPath | env_field CredentialPath
          | env_field RenderedConfigPath].
Qed.

(** ** Replacing a private file *)

Section replaced.
Context `{TunnelFsLaws D}.

(** Nothing is different but that a new file, which only the owner can read, may
    have been left. *)
Definition untouched (d d' : D) : Prop :=
  files d' = files d \/
  exists tmp part, files d !! tmp = None /\ files d' = <[tmp := (private, part)]> (files d).

Lemma unless_committed_inv {A} tmp (m : IO D A) d r d' : unless_committed tmp m d = (r, d') ->
  (exists a, r = Ok a /\ m d = (Ok a, d')) \/
  exists err d1, r = Err err /\ m d = (Err err, d1) /\ (files d' = files d1 \/ files d' = delete tmp (files d1)).
Proof.
  unfold unless_committed. destruct (m d) as [[a|err] d1]; intros [= <- <-]; [left; by eexists|right].
  exists err, d1. split; [done|]. split; [done|]. destruct (RemoveTemp tmp d1) as [[[]|e] d2] eqn:Hr.
  - right. by apply RemoveTemp_ok in Hr.
  - left. by apply RemoveTemp_err in Hr.
Qed.

(** What the program within [unless_committed] did, with the temporary file new. *)
Lemma write_and_rename_spec pkg path content tmp d r d' : files d !! tmp = Some (private, EmptyString) ->
  (r ← try (WriteString tmp content);
   match r with
   | Err err => _ ← try (CloseTemp tmp); fail (EWrap (pkg +:+ ": write to temp file") err)
   | Ok _ =>
       _ ← wrap (pkg +:+ ": close temp file") (CloseTemp tmp);
       _ ← wrap (pkg +:+ ": chmod 0600 temp file") (Chmod tmp private);
       wrap (pkg +:+ ": rename") (Rename tmp path)
   end) d = (r, d') ->
  (r = Ok () /\ files d' = <[path := (private, content)]> (delete tmp (files d))) \/
  exists err part, r = Err err /\ files d' = <[tmp := (private, part)]> (files d).
Proof.
  intros Htmp. unfold mbind, IO_bind, try, wrap, fail. destruct (WriteString tmp content d) as [[[]|e] d1] eqn:Hw.
  - pose proof (WriteString_ok _ _ _ _ _ Htmp Hw) as H1.
    destruct (CloseTemp tmp d1) as [[[]|e] d2] eqn:Hc; pose proof (CloseTemp_files _ _ _ _ Hc) as H2.
    2: { intros [= <- <-]. right. eexists _, _. split; [done|]. by rewrite H2. }
    destruct (Chmod tmp private d2) as [[[]|e] d3] eqn:Hm.
    2: { intros [= <- <-]. right. apply Chmod_err in Hm. eexists _, _. split; [done|]. by rewrite Hm, H2. }
    apply Chmod_ok in Hm. rewrite H2, H1, alter_insert_eq in Hm. cbn [snd] in Hm.
    destruct (Rename tmp path d3) as [[[]|e] d4] eqn:Hr; intros [= <- <-].
    + left. split; [done|]. destruct (Rename_ok _ _ _ _ Hr) as (f & Hf & Hd'). rewrite Hm in Hf, Hd'.
      rewrite lookup_insert_eq in Hf. injection Hf as <-. by rewrite Hd', delete_insert_eq.
    + right. apply Rename_err in Hr. eexists _, _. split; [done|]. by rewrite Hr.
  - destruct (WriteString_err _ _ _ _ _ _ Htmp Hw) as (part & _ & H1).
    destruct (CloseTemp tmp d1) as [r2 d2] eqn:Hc. apply CloseTemp_files in Hc.
    intros [= <- <-]. right. eexists _, part. split; [done|]. by rewrite Hc.
Qed.

Lemma replace_private_spec pkg pattern path content d r d' : replace_private pkg pattern path content d = (r, d') ->
  (r = Ok () /\ files d' = <[path := (private, content)]> (files d)) \/
  (exists err, r = Err err) /\ untouched d d'.
Proof.
  unfold replace_private. intros Hr.
  destruct (MkdirAll (Dir path) private_dir d) as [rm d1] eqn:Hm. pose proof (MkdirAll_files _ _ _ _ _ Hm) as H1.
  unfold mbind at 1, IO_bind at 1, wrap at 1 in Hr. rewrite Hm in Hr. destruct rm as [[]|e].
  2: { injection Hr as <- <-. right. split; [by eexists|by left]. }
  unfold mbind at 1, IO_bind at 1, wrap at 1 in Hr. destruct (TempFile (Dir path) pattern d1) as [[tmp|e] d2] eqn:Ht.
  2: { injection Hr as <- <-. right. split; [by eexists|]. apply TempFile_err in Ht. left. congruence. }
  destruct (TempFile_ok _ _ _ _ _ Ht) as [Hnew H2]. rewrite H1 in Hnew, H2.
  assert (files d2 !! tmp = Some (private, EmptyString)) as Htmp by (rewrite H2; apply lookup_insert_eq).
  apply unless_committed_inv in Hr as [([] & -> & Hok)|(err & d3 & -> & Herr & Hend)].
  - apply (write_and_rename_spec pkg path content tmp _ _ _ Htmp) in Hok as [[_ Hf]|(? & ? & [=] & _)].
    left. split; [done|]. by rewrite Hf, H2, delete_insert_id.
  - apply (write_and_rename_spec pkg path content tmp _ _ _ Htmp) in Herr as [[[=] _]|(e & part & _ & Hf)].
    right. split; [by eexists|]. rewrite H2, insert_insert_eq in Hf. destruct Hend as [Hend|Hend]; rewrite Hf in Hend.
    + right. by exists tmp, part.
    + left. by rewrite Hend, delete_insert_id.
Qed.

End replaced.

(** ** The quoted values *)

(** What follows the closing quote, when a reader is inside a quoted value and
    takes the character after a backslash as it is. *)
Fixpoint closes (escaping : bool) (s : string) : option string :=
  match s with
  | EmptyString => None
  | String c s =>
      if escaping then closes false s
      else if bool_decide (c = quote_char) then Some s
      else closes (bool_decide (c = backslash)) s
  end.

(** A character that a reader takes as it is. *)
Definition plain (c : ascii) : bool :=
  negb (bool_decide (c = quote_char)) && negb (bool_decide (c = backslash)) && negb (bool_decide (c = newline_char)).

(** A text that stays within the value, and the line. *)
Definition stays (text : string) : Prop :=
  (forall rest, closes false (text +:+ rest) = closes false rest) /\ no_char newline_char text = true.

Lemma stays_nil : stays EmptyString.
Proof. by split. Qed.

Lemma stays_app a b : stays a -> stays b -> stays (a +:+ b).
Proof.
  intros [Ha1 Ha2] [Hb1 Hb2]. split; [intros rest; by rewrite app_assoc_str, Ha1|]. by rewrite no_char_app, Ha2, Hb2.
Qed.

Lemma stays_plain text : all_str plain text = true -> stays text.
Proof.
  induction text as [|c s IH]; [intros _; apply stays_nil|]. cbn [all_str]. intros [Hc Hs]%andb_prop.
  destruct (IH Hs) as [H1 H2]. unfold plain in Hc. apply andb_prop in Hc as [Hc Hn]. apply andb_prop in Hc as [Hq Hb].
  apply negb_true_iff in Hq, Hb. split.
  - intros rest. rewrite app_cons_str. cbn [closes]. rewrite Hq, Hb. apply H1.
  - unfold no_char in *. cbn [all_str]. by rewrite Hn.
Qed.

Lemma stays_escaped letter digits : letter <> newline_char -> all_str plain digits = true -> stays (escaped letter digits).
Proof.
  intros Hl Hd. destruct (stays_plain digits Hd) as [H1 H2]. split.
  - intros rest. unfold escaped. rewrite !app_cons_str. cbn [closes].
    rewrite (bool_decide_false (backslash = quote_char)), (bool_decide_true (backslash = backslash)) by done. apply H1.
  - unfold no_char, escaped in *. cbn [all_str]. rewrite (bool_decide_false (backslash = newline_char)) by done.
    by rewrite bool_decide_false.
Qed.

Lemma hex_digit_plain n : (n < 16)%nat -> plain (hex_digit n) = true.
Proof. intros Hn. do 16 (destruct n as [|n]; [reflexivity|]). lia. Qed.

Lemma hex_digits_plain n : forall v acc, all_str plain acc = true -> all_str plain (hex_digits n v acc) = true.
Proof.
  induction n as [|n IH]; intros v acc Ha; [done|]. cbn [hex_digits]. apply IH. cbn [all_str].
  rewrite Ha, hex_digit_plain; [done|]. pose proof (Z.mod_pos_bound v 16). lia.
Qed.

Lemma byte_val_range c : 0 <= byte_val c < 256.
Proof. unfold byte_val. pose proof (nat_ascii_bounded c). lia. Qed.

(** Only three bytes are not plain, and they are ASCII. *)
Lemma plain_byte c : byte_val c <> 34 -> byte_val c <> 92 -> byte_val c <> 10 -> plain c = true.
Proof.
  intros H1 H2 H3. unfold plain. rewrite !bool_decide_false; [done| | |];
    intros ->; [by apply H3|by apply H2|by apply H1].
Qed.

Lemma wide_plain c : 128 <= byte_val c -> plain c = true.
Proof. intros Hc. apply plain_byte; lia. Qed.

Lemma between_wide lo hi c : 128 <= lo -> between lo hi (byte_val c) = true -> plain c = true.
Proof. unfold between. intros Hlo [H1 H2]%andb_prop. apply wide_plain. lia. Qed.

Lemma second_range_wide b : 128 <= (second_range b).1.
Proof. unfold second_range. repeat destruct (_ =? _); cbn; lia. Qed.

(** A rune of one byte is that byte or an error, and a longer one has no ASCII byte. *)
Lemma DecodeRune_bytes c s r width : DecodeRune (String c s) = (r, width) ->
  (width = 1%nat /\ (r = RuneError \/ r = byte_val c)) \/
  all_str plain (take_bytes width (String c s)) = true.
Proof.
  unfold DecodeRune. pose proof (second_range_wide (byte_val c)) as Hlo.
  destruct (second_range (byte_val c)) as [lo hi]. cbn [fst] in Hlo.
  destruct (Z.ltb_spec (byte_val c) 128) as [Hb|Hb]; [intros [= <- <-]; left; by auto|]. apply wide_plain in Hb.
  assert ((RuneError, 1%nat) = (r, width) -> (width = 1%nat /\ (r = RuneError \/ r = byte_val c)) \/
    all_str plain (take_bytes width (String c s)) = true) as Herr by (intros [= <- <-]; left; by auto).
  destruct (rune_size (byte_val c)) as [|[|[|[|[|n]]]]]; destruct s as [|c1 [|c2 [|c3 s]]]; try exact Herr.
  all: repeat match goal with |- context [between ?lo ?hi ?x] => destruct (between lo hi x) eqn:?; try exact Herr end.
  all: cbn [andb]; intros [= _ <-]; right; cbn [take_bytes all_str]; rewrite Hb;
    repeat match goal with E : between ?l ?h (byte_val ?x) = true |- context [plain ?x] =>
      rewrite (between_wide l h x ltac:(lia) E) end; done.
Qed.

Section quoting.
Context (wide_IsPrint : Z -> bool).

Lemma letter_escape_ne r letter : letter_escape r = Some letter -> letter <> newline_char.
Proof.
  unfold letter_escape. intros Hl.
  repeat match type of Hl with match ?x with _ => _ end = _ => destruct x; try discriminate Hl end; by injection Hl as <-.
Qed.

Lemma quote_rune_stays c s : stays (quote_rune wide_IsPrint (String c s)).1.
Proof.
  unfold quote_rune. destruct (DecodeRune (String c s)) as [r width] eqn:Hd. apply DecodeRune_bytes in Hd.
  destruct ((width =? 1)%nat && (r =? RuneError)) eqn:He; [by apply stays_escaped, hex_digits_plain|].
  destruct ((r =? 34) || (r =? 92)) eqn:Hq.
  { apply stays_escaped; [|done]. by apply orb_prop in Hq as [->%Z.eqb_eq | ->%Z.eqb_eq]. }
  apply orb_false_elim in Hq as [H1 H2]. apply Z.eqb_neq in H1, H2.
  destruct (strconv_IsPrint wide_IsPrint r) eqn:Hp.
  - apply stays_plain. destruct Hd as [[-> [-> | ->]]|Hd]; [done| |done]. cbn [fst take_bytes all_str].
    rewrite plain_byte; [done..|]. intros Hn. by rewrite Hn in Hp.
  - destruct (letter_escape r) as [letter|] eqn:Hl; [by apply stays_escaped; [apply (letter_escape_ne r)|]|].
    destruct ((r <? 32) || (r =? 127)); [|destruct (r <? 65536)]; by apply stays_escaped, hex_digits_plain.
Qed.

Lemma quote_from_stays s : forall skip, stays (quote_from wide_IsPrint skip s).
Proof.
  induction s as [|c s IH]; intros [|skip]; cbn [quote_from]; try apply stays_nil; [|apply IH].
  pose proof (quote_rune_stays c s) as Hc. destruct (quote_rune wide_IsPrint (String c s)) as [text width].
  apply stays_app; [done|apply IH].
Qed.

(** A reader finds the end of the value where it is, and the value has no newline. *)
Lemma Quote_closes s rest : closes false (drop_str 1 (Quote wide_IsPrint s +:+ rest)) = Some rest.
Proof.
  unfold Quote. cbn [String.app drop_str]. rewrite app_cons_str. cbn [drop_str]. destruct (quote_from_stays s 0) as [Hs _].
  rewrite app_assoc_str, Hs, app_cons_str. cbn [closes]. by rewrite bool_decide_true.
Qed.

Lemma Quote_no_newline s : no_char newline_char (Quote wide_IsPrint s) = true.
Proof.
  unfold Quote. destruct (quote_from_stays s 0) as [_ Hs]. unfold no_char in *. cbn [all_str]. rewrite all_str_app, Hs. done.
Qed.

(** ** The lines of the configuration *)

Lemma Split_lines parts : forallb (fun p => no_char newline_char (String.concat EmptyString p)) parts = true ->
  Split (String.concat EmptyString (map line parts)) newline_char = map (String.concat EmptyString) parts ++ [EmptyString].
Proof.
  induction parts as [|p parts IH]; [done|]. cbn [forallb map]. intros [Hp Hps]%andb_prop.
  assert (String.concat EmptyString (line p :: map line parts) =
    String.concat EmptyString p +:+ String newline_char (String.concat EmptyString (map line parts))) as ->.
  { unfold line at 1, newline. destruct (map line parts) as [|x l]; cbn [String.concat].
    - done.
    - by rewrite app_assoc_str. }
  rewrite Split_app by done. cbn [app]. by rewrite IH.
Qed.

Lemma num_text_no_newline n : no_char newline_char (num_text n) = true.
Proof.
  pose proof (all_num_text n) as Hn. revert Hn. unfold no_char. generalize (num_text n). intros s.
  induction s as [|c s IH]; [done|]. cbn [all_num all_str]. intros [Hc Hs]%andb_prop. rewrite (IH Hs), andb_true_r.
  case_bool_decide as E; [by rewrite E in Hc|done].
Qed.

(** The lines of RenderFrpcTOML, each as the pieces it is made of. *)
Definition frpc_lines (c : DaemonConfig) (token : string) : list (list string) :=
  [["serverAddr = "; Quote wide_IsPrint (ServerAddr c)]; ["serverPort = "; num_text (ServerPort c)];
   ["metadatas = { sotc_token = "; Quote wide_IsPrint token; " }"]; [];
   ["[auth]"]; ["method = "; quoted "token"]; ["token = "; quotes]; [];
   ["[[proxies]]"]; ["name = "; Quote wide_IsPrint (ProxyName c)]; ["type = "; quoted "tcp"];
   ["localIP = "; quoted "127.0.0.1"]; ["localPort = "; num_text (LocalSSHPort c)]]
  ++ (if RemotePortHint c =? 0 then [] else [["remotePort = "; num_text (RemotePortHint c)]])
  ++ [["[proxies.metadatas]"]; ["sotc_token = "; Quote wide_IsPrint token]].

Lemma RenderFrpcTOML_concat c token :
  RenderFrpcTOML wide_IsPrint c token = String.concat EmptyString (map line (frpc_lines c token)).
Proof. unfold RenderFrpcTOML, frpc_lines. by destruct (RemotePortHint c =? 0). Qed.

Lemma no_newline_prefix p q : no_char newline_char p = true -> no_char newline_char q = true ->
  no_char newline_char (String.concat EmptyString [p; q]) = true.
Proof. intros Hp Hq. cbn [String.concat]. by rewrite !no_char_app, Hp, Hq. Qed.

Lemma frpc_lines_no_newline c token :
  forallb (fun p => no_char newline_char (String.concat EmptyString p)) (frpc_lines c token) = true.
Proof.
  assert (no_char newline_char (String.concat EmptyString ["metadatas = { sotc_token = "; Quote wide_IsPrint token; " }"]) = true)
    as Hm by (cbn [String.concat]; by rewrite !no_char_app, Quote_no_newline).
  unfold frpc_lines. rewrite !forallb_app. cbn [forallb]. rewrite Hm.
  rewrite !no_newline_prefix by first [done|apply Quote_no_newline|apply num_text_no_newline].
  destruct (RemotePortHint c =? 0); [done|]. cbn [forallb]. by rewrite no_newline_prefix by first [done|apply num_text_no_newline].
Qed.

End quoting.

(** ** The properties *)

(** C30: A daemon that gets as far as starting has a well-formed configuration: the
    ports are ports, the port hint is one or zero, and no address or path that it
    needs is blank.  A variable of the environment that is not empty decided its
    field, whatever the file said, and the ports of the environment were numbers. *)
Theorem daemon_config_well_formed read env hostname c : daemon_config read env hostname = Ok c ->
  well_formed c /\ overridden env c /\ (ProxyName c = EmptyString -> hostname = Ok EmptyString).
Proof.
  unfold daemon_config. destruct (LoadDaemonConfig read) as [c0 [err|]]; [done|].
  destruct (ApplyEnvOverrides env c0) as [c1 [err|]] eqn:He; [done|]. apply ApplyEnvOverrides_ok in He.
  destruct (Validate c1) eqn:Hv; [done|]. apply Validate_well_formed in Hv.
  case_bool_decide as Hp.
  - destruct hostname as [host|]; [|done]. intros [= <-]. destruct Hv, He as [H1 H2 H3 H4 H5 H6 H7]. split; [by split|]. split; [|by cbn; intros ->].
    split; try done. intros Hne. by rewrite H2 in Hp.
  - intros [= <-]. by split.
Qed.

Section files_of_the_tunnel.
Context `{TunnelFsLaws D}.
Context (wide_IsPrint : Z -> bool).

Lemma LoadCredential_not_empty path d token : LoadCredential path d = Ok token -> token <> EmptyString.
Proof.
  unfold LoadCredential. destruct (ReadFile path d); [|done]. case_bool_decide as He; [done|]. by intros [= <-].
Qed.

(** A credential that was saved without an error is in its file, which only the
    owner can read, and no other file is different; it is then loaded without the
    space around it, if the file can be read and there is more in it than space.  When there was an error,
    the file is as it was, and at most a new file with a part of the credential,
    which only the owner can read, is left. *)
Theorem saved_credential_is_loaded path token d r d' : SaveCredential path token d = (r, d') ->
  (r = Ok () /\ files d' = <[path := (private, token)]> (files d) /\
   forall data, ReadFile path d' = Ok data ->
     LoadCredential path d' = if blank token then Err (EText "tunnel/creds: credential file is empty")
                              else Ok (TrimSpace token)) \/
  (exists err, r = Err err) /\ untouched d d'.
Proof.
  intros [[-> Hf]|Herr]%replace_private_spec; [left|by right]. split; [done|]. split; [done|]. intros data Hr.
  destruct (ReadFile_ok _ _ _ Hr) as [mode Hin]. rewrite Hf, lookup_insert_eq in Hin. injection Hin as _ ->.
  unfold LoadCredential. by rewrite Hr.
Qed.

(** C29: When the daemon starts the supervisor, the file that the child reads is the
    text rendered from its configuration and the credential, only the owner can
    read it, and no other file is different; the supervisor has its path and that
    of the program.  When it does not start, no file is different but that one,
    complete, or a new private one. *)
Theorem start_daemon_spec configPath env hostname now d r d' :
  start_daemon wide_IsPrint configPath env hostname now d = (r, d') ->
  let rendered c token := <[RenderedConfigPath c := (private, RenderFrpcTOML wide_IsPrint c token)]> (files d) in
  match r with
  | Ok sup => exists c token,
      daemon_config (ReadFile configPath d) env hostname = Ok c /\
      LoadCredential (CredentialPath c) d = Ok token /\ token <> EmptyString /\ files d' = rendered c token /\
      FrpcPath (cfg sup) = daemon_FrpcPath c /\ ConfigPath (cfg sup) = RenderedConfigPath c /\ phase sup = Top
  | Err _ => untouched d d' \/ exists c token,
      daemon_config (ReadFile configPath d) env hostname = Ok c /\
      LoadCredential (CredentialPath c) d = Ok token /\ files d' = rendered c token
  end.
Proof.
  intros Hs rendered. revert Hs. unfold start_daemon, mbind, IO_bind, gets, asks, wrap.
  destruct (daemon_config (ReadFile configPath d) env hostname) as [c|e] eqn:Hc; [|intros [= <- <-]; left; by left].
  destruct (LoadCredential (CredentialPath c) d) as [token|e] eqn:Ht; [|intros [= <- <-]; left; by left].
  destruct (WriteRenderedConfig c (RenderFrpcTOML wide_IsPrint c token) d) as [rw d1] eqn:Hw.
  apply replace_private_spec in Hw as [[-> Hf]|[[err ->] Hu]]; [|intros [= <- <-]; by left].
  destruct (NewSupervisor _ _ _) as [sup|e] eqn:Hn; intros [= <- <-]; [|right; by exists c, token].
  exists c, token. split; [done|]. split; [done|]. split.
  { exact (LoadCredential_not_empty _ _ _ Ht). }
  split; [done|]. revert Hn. unfold NewSupervisor. destruct (bool_decide _); [done|]. destruct (bool_decide _); [done|].
  destruct (StatBinary _ d1); [done|]. intros [= <-]. split; [reflexivity|]. split; reflexivity.
Qed.

End files_of_the_tunnel.

(** C31: The text for the child has one line for each setting, whatever the values
    are: no address, name or credential can add a line or end its own value, as a
    reader that skips what follows a backslash finds the closing quote where it
    was written. *)
Theorem RenderFrpcTOML_lines wide_IsPrint c token :
  Split (RenderFrpcTOML wide_IsPrint c token) newline_char =
    map (String.concat EmptyString) (frpc_lines wide_IsPrint c token) ++ [EmptyString] /\
  forall value rest, closes false (drop_str 1 (Quote wide_IsPrint value +:+ rest)) = Some rest.
Proof.
  split; [|intros value rest; apply Quote_closes]. rewrite RenderFrpcTOML_concat. apply Split_lines, frpc_lines_no_newline.
Qed.

(** ** A file system in a map *)

(** The temporary file of a directory has one name; there is no second one. *)
Definition sim_temp (dir : string) : string := dir +:+ "/.tmp-1".

#[export] Instance sim_TunnelFs : TunnelFs (gmap string (Z * string)) := {
  ReadFile p d := match d !! p with Some (_, v) => Ok v | None => Err ErrNotExist end;
  MkdirAll p mode d := (Ok (), d);
  TempFile dir pattern d :=
    match d !! sim_temp dir with
    | Some _ => (Err (EText "file exists"), d)
    | None => (Ok (sim_temp dir), <[sim_temp dir := (private, EmptyString)]> d)
    end;
  WriteString name v d := (Ok (), alter (fun f => (f.1, f.2 +:+ v)) name d);
  CloseTemp name d := (Ok (), d);
  Chmod name mode d := (Ok (), alter (fun f => (mode, f.2)) name d);
  Rename a b d := match d !! a with Some f => (Ok (), <[b := f]> (delete a d)) | None => (Err ErrNotExist, d) end;
  RemoveTemp name d := (Ok (), delete name d);
  StatBinary p d := match d !! p with Some _ => None | None => Some ErrNotExist end
}.

#[export] Instance sim_TunnelFsLaws : TunnelFsLaws (gmap string (Z * string)).
Proof.
  refine {| files := fun d => d |}; cbn.
  - intros p d v. destruct (d !! p) as [[mode w]|]; [|done]. intros [= ->]. by exists mode.
  - by intros p mode d r d' [= _ <-].
  - intros dir pattern d name d'. destruct (d !! sim_temp dir) eqn:Hn; [done|]. by intros [= <- <-].
  - intros dir pattern d err d'. destruct (d !! sim_temp dir); [|done]. by intros [= _ <-].
  - intros name v d d' mode Hn [= <-].
    apply map_eq. intros k. destruct (decide (k = name)) as [->|Hk].
    + by rewrite lookup_alter_eq, Hn, lookup_insert_eq.
    + by rewrite lookup_alter_ne, lookup_insert_ne.
  - done.
  - by intros name d r d' [= _ <-].
  - by intros name mode d d' [= <-].
  - done.
  - intros a b d d'. destruct (d !! a) as [f|]; [|done]. intros [= <-]. by exists f.
  - intros a b d err d'. destruct (d !! a); [done|]. by intros [= _ <-].
  - by intros name d d' [= <-].
  - done.
Defined.

Definition device : gmap string (Z * string) :=
  {[ "/usr/bin/frpc" := (493, "ELF"); "/data/frp/credential" := (private, "sotc_1" +:+ newline) ]}.

Definition device_env : gmap string string :=
  {[ "TUNNEL_SERVER_ADDR" := "gateway"; "TUNNEL_SERVER_PORT" := " 7001 " ]}.

Definition device_config : DaemonConfig :=
  mkDaemonConfig "gateway" 7001 22 "soc-1" "/usr/bin/frpc" DefaultCredentialPath DefaultRenderedConfigPath 0.

Lemma daemon_config_well_formed_witness :
  daemon_config (Err ErrNotExist) device_env (Ok "soc-1") = Ok device_config /\ well_formed device_config.
Proof.
  assert (daemon_config (Err ErrNotExist) device_env (Ok "soc-1") = Ok device_config) as Hc by (vm_compute; reflexivity).
  split; [exact Hc|]. exact (proj1 (daemon_config_well_formed _ _ _ _ Hc)).
Defined.

Definition new_credential : string := "sotc_2" +:+ newline.

Definition device_after_save : gmap string (Z * string) := (SaveCredential "/data/frp/credential" new_credential device).2.

Lemma saved_credential_is_loaded_witness :
  SaveCredential "/data/frp/credential" new_credential device = (Ok (), device_after_save) /\
  LoadCredential "/data/frp/credential" device_after_save = Ok "sotc_2" /\
  ((Ok () : result unit) = Ok () /\ device_after_save = <["/data/frp/credential" := (private, new_credential)]> device \/
   untouched device device_after_save).
Proof.
  assert (SaveCredential "/data/frp/credential" new_credential device = (Ok (), device_after_save)) as Hs
    by (vm_compute; reflexivity).
  split; [exact Hs|]. split; [vm_compute; reflexivity|].
  destruct (saved_credential_is_loaded _ _ _ _ _ Hs) as [(Hok & Hf & _)|[_ Hu]]; [left; split; [exact Hok|exact Hf]|right; exact Hu].
Defined.

Definition daemon_started : result Supervisor * gmap string (Z * string) :=
  start_daemon (fun _ => true) "/etc/otapulse/tunnel.conf" device_env (Ok "soc-1") 0 device.

Definition device_supervisor : Supervisor :=
  mkSupervisor (applyDefaults (supervisor_config device_config)) Top 0 NoProcess false 0 [].

Lemma start_daemon_spec_witness :
  daemon_started = (Ok device_supervisor, daemon_started.2) /\
  daemon_started.2 !! "/data/frp/frpc.toml" = Some (private, RenderFrpcTOML (fun _ => true) device_config "sotc_1") /\
  exists c token, LoadCredential (CredentialPath c) device = Ok token /\ token <> EmptyString.
Proof.
  assert (daemon_started = (Ok device_supervisor, daemon_started.2)) as Hs by (vm_compute; reflexivity).
  split; [exact Hs|]. split; [vm_compute; reflexivity|].
  destruct (start_daemon_spec (fun _ => true) "/etc/otapulse/tunnel.conf" device_env (Ok "soc-1") 0 device _ _ Hs)
    as (c & token & _ & Ht & Hne & _).
  exists c, token. split; [exact Ht|exact Hne].
Defined.

Example Quote_escapes : Quote (fun _ => false) ("a" +:+ newline +:+ quotes) =
  String quote_char ("a\n\" +:+ String quote_char ("\" +:+ quotes)).
Proof. reflexivity. Qed.
