(* ===== verification/Pty.v ===== *)
(** * Pty: the shell of a remote terminal

    tunnel/pty.go: the user that the shell of a session runs as, and the session:
    starting the shell on a pseudo-terminal, resizing it, signals, and closing.
    The session, its shell, the goroutine that waits for the shell and the clock
    are one system that makes a step for each event. *)

From S2P Require Import Prelude Text.
From Stdlib Require Import Ascii.

Open Scope Z_scope.

(** ** The configuration *)

Record PTYConfig := mkPTYConfig {
  Shell : string;
  User : string;
  Uid : Z;
  Gid : Z;
  Home : string;
  Env : list string;
  Rows : Z;
  Cols : Z;
  ShutdownGrace : Z;
  skipCredential : bool
}.

Definition DefaultShellUser : string := "support".
Definition defaultShutdownGrace : Z := 5000000000.

Definition errSessionClosed : error := EText "tunnel/pty: session is closed".
Definition errSessionNotStarted : error := EText "tunnel/pty: session has not been started".

(** What os/user knows of an account; numbers are texts. *)
Record Account := mkAccount { account_Uid : string; account_Gid : string; Username : string; HomeDir : string }.

(** strconv.ParseUint in base 10 for 32 bits: digits only. *)
Definition ParseUint32 (s : string) : option Z :=
  if bool_decide (s = EmptyString) || negb (all_str is_digit s) then None
  else
    match parse_digits 10 0 s with
    | Some n => if n <? 2 ^ 32 then Some n else None
    | None => None
    end.

Definition or_default {A} `{EqDecision A} (zero default v : A) : A := if bool_decide (v = zero) then default else v.

Definition set_account (c : PTYConfig) (user : string) (uid gid : Z) (home : string) (skip : bool) : PTYConfig :=
  mkPTYConfig (Shell c) user uid gid home (Env c) (Rows c) (Cols c) (ShutdownGrace c) skip.

Definition with_defaults (c : PTYConfig) : PTYConfig :=
  mkPTYConfig (or_default EmptyString "/bin/sh" (Shell c)) (User c) (Uid c) (Gid c) (Home c) (Env c)
    (or_default 0 24 (Rows c)) (or_default 0 80 (Cols c))
    (if ShutdownGrace c <=? 0 then defaultShutdownGrace else ShutdownGrace c) (skipCredential c).

(** ** The user *)

Section users.
(** user.Lookup, user.Current, and the user and group of this process. *)
Context (Lookup : string -> result Account) (Current : result Account) (curUID curGID : Z).

(** The account of a name, and the name; without a name it is that of the default
    user, and of this process if there is no such user. *)
Definition resolve_user (requested : string) : result (Account * string) :=
  let user := or_default EmptyString DefaultShellUser requested in
  match Lookup user with
  | Ok u => Ok (u, user)
  | Err err =>
      if negb (bool_decide (requested = EmptyString)) then Err (EWrap "tunnel/pty: resolve user" err)
      else
        match Current with
        | Err err => Err (EWrap "tunnel/pty: resolve current user" err)
        | Ok u => Ok (u, Username u)
        end
  end.

(** NewPTYSession, up to the session itself. *)
Definition session_config (c : PTYConfig) : result PTYConfig :=
  let c := with_defaults c in
  let callerExplicitRoot := bool_decide (User c = "root") in
  '(u, user) ← resolve_user (User c);
  match ParseUint32 (account_Uid u) with
  | None => Err (EText "tunnel/pty: parse uid")
  | Some uid =>
      match ParseUint32 (account_Gid u) with
      | None => Err (EText "tunnel/pty: parse gid")
      | Some gid =>
          if (uid =? 0) && negb callerExplicitRoot then
            Err (EText "tunnel/pty: resolved to uid 0 but caller did not explicitly request root")
          else Ok (set_account c user uid gid (HomeDir u) (((uid =? curUID) && (gid =? curGID)) || skipCredential c))
      end
  end.

End users.

(** ** The session *)

(** The shell; it is reaped when cmd.Wait has returned. *)
Inductive Shell_state : Type := NoShell | Alive | Exited | Reaped.

(** Where Close is, with the time of its timer. *)
Inductive Closer : Type := Idle | Waiting (deadline : Z) | Killing | Finished.

Inductive Terminal : Type := NoTerminal | Open (rows cols : Z) | Closed.

(** The attributes of a process that was started: the credential, if there is one,
    and the environment. *)
Record Spawn := mkSpawn { Credential : option (Z * Z); environ : list string }.

(** What the session did, with the last first: a signal to the process group, with
    the shell at that time. *)
Record PTYSession := mkSession {
  cfg : PTYConfig;
  started : bool;
  closed : bool;
  shell : Shell_state;
  terminal : Terminal;
  closer : Closer;
  clock : Z;
  spawned : list Spawn;
  sent : list (Z * Shell_state)
}.

Definition SIGTERM : Z := 15.
Definition SIGKILL : Z := 9.

Definition buildEnv (c : PTYConfig) : list string :=
  ["HOME=" +:+ Home c; "USER=" +:+ User c; "SHELL=" +:+ Shell c; "TERM=xterm-256color"] ++ Env c.

Definition NewPTYSession (Lookup : string -> result Account) (Current : result Account) (curUID curGID : Z)
    (c : PTYConfig) (now : Z) : result PTYSession :=
  c ← session_config Lookup Current curUID curGID c;
  Ok (mkSession c false false NoShell NoTerminal Idle now [] []).

(** The errors of opening a terminal, of its size, and of starting the process. *)
Definition Start (open_err size_err start_err : option error) (s : PTYSession) : option error * PTYSession :=
  if started s then (Some (EText "tunnel/pty: Start called more than once"), s)
  else if closed s then (Some errSessionClosed, s)
  else
    match open_err, size_err, start_err with
    | Some err, _, _ => (Some (EWrap "tunnel/pty: open PTY pair" err), s)
    | None, Some err, _ => (Some (EWrap "tunnel/pty: set initial window size" err), s)
    | None, None, Some err => (Some (EWrap "tunnel/pty: start PTY shell" err), s)
    | None, None, None =>
        let c := cfg s in
        let credential := if skipCredential c then None else Some (Uid c, Gid c) in
        (None, mkSession c true (closed s) Alive (Open (Rows c) (Cols c)) (closer s) (clock s)
                 (mkSpawn credential (buildEnv c) :: spawned s) (sent s))
    end.

(** What PTY, Resize and Signal check first. *)
Definition usable (s : PTYSession) : option error :=
  if closed s then Some errSessionClosed else if started s then None else Some errSessionNotStarted.

Definition Resize (rows cols : Z) (size_err : option error) (s : PTYSession) : option error * PTYSession :=
  match usable s, size_err with
  | Some err, _ => (Some err, s)
  | None, Some err => (Some (EWrap "tunnel/pty: resize" err), s)
  | None, None =>
      (None, mkSession (cfg s) (started s) (closed s) (shell s) (Open rows cols) (closer s) (clock s) (spawned s) (sent s))
  end.

Definition send (sig : Z) (s : PTYSession) : PTYSession :=
  mkSession (cfg s) (started s) (closed s) (shell s) (terminal s) (closer s) (clock s) (spawned s) ((sig, shell s) :: sent s).

(** A signal that is not one of the system's is [None]. *)
Definition Signal (sig : option Z) (kill_err : option error) (s : PTYSession) : option error * PTYSession :=
  match usable s with
  | Some err => (Some err, s)
  | None =>
      match sig with
      | None => (Some (EText "tunnel/pty: signal is not a syscall.Signal"), s)
      | Some sig => (EWrap "tunnel/pty: send signal to process group" <$> kill_err, send sig s)
      end
  end.

Definition set_closer (c : Closer) (t : Terminal) (s : PTYSession) : PTYSession :=
  mkSession (cfg s) (started s) true (shell s) t c (clock s) (spawned s) (sent s).

(** Close up to its select; the rest are the events below.  It returns at once
    when another Close has begun. *)
Definition Close (s : PTYSession) : PTYSession :=
  if closed s then s
  else if started s then set_closer (Waiting (clock s + ShutdownGrace (cfg s))) (terminal s) (send SIGTERM s)
  else set_closer (closer s) (terminal s) s.

Definition set_shell (p : Shell_state) (s : PTYSession) : PTYSession :=
  mkSession (cfg s) (started s) (closed s) p (terminal s) (closer s) (clock s) (spawned s) (sent s).

(** The cancellation of the context is a call of Close.  Then: the goroutine of
    Close sees cmd.Wait return; Close sees that, or its timer. *)
Inductive Event : Type :=
  | CallStart (open_err size_err start_err : option error)
  | CallResize (rows cols : Z) (size_err : option error)
  | CallSignal (sig : option Z) (kill_err : option error)
  | CallClose
  | Pass (dt : Z)
  | ShellEnds
  | Wait
  | SeeExit
  | SeeTimer.

Definition step (e : Event) (s : PTYSession) : option PTYSession :=
  match e with
  | CallStart e1 e2 e3 => Some (Start e1 e2 e3 s).2
  | CallResize rows cols err => Some (Resize rows cols err s).2
  | CallSignal sig err => Some (Signal sig err s).2
  | CallClose => Some (Close s)
  | Pass dt =>
      if dt <? 0 then None
      else Some (mkSession (cfg s) (started s) (closed s) (shell s) (terminal s) (closer s) (clock s + dt) (spawned s) (sent s))
  | ShellEnds => match shell s with Alive => Some (set_shell Exited s) | _ => None end
  | Wait =>
      match closer s, shell s with
      | (Waiting _ | Killing), Exited => Some (set_shell Reaped s)
      | _, _ => None
      end
  | SeeExit =>
      match closer s, shell s with
      | (Waiting _ | Killing), Reaped => Some (set_closer Finished Closed s)
      | _, _ => None
      end
  | SeeTimer =>
      match closer s with
      | Waiting deadline => if deadline <=? clock s then Some (set_closer Killing (terminal s) (send SIGKILL s)) else None
      | _ => None
      end
  end.

Fixpoint run (es : list Event) (s : PTYSession) : option PTYSession :=
  match es with
  | [] => Some s
  | e :: es => match step e s with Some s => run es s | None => None end
  end.

(** ** The user of the shell *)

(** The user and group a process runs as: those of this process without a
    credential. *)
Definition runs_as (current : Z * Z) (p : Spawn) : Z * Z := default current (Credential p).

Lemma session_config_ok Lookup Current curUID curGID c c' : session_config Lookup Current curUID curGID c = Ok c' ->
  (Uid c' = 0 -> User c = "root") /\
  (skipCredential c = false -> skipCredential c' = true -> (curUID, curGID) = (Uid c', Gid c')) /\
  exists u, resolve_user Lookup Current (User c) = Ok (u, User c') /\
    ParseUint32 (account_Uid u) = Some (Uid c') /\ ParseUint32 (account_Gid u) = Some (Gid c').
Proof.
  unfold session_config. cbn [User with_defaults].
  destruct (resolve_user Lookup Current (User c)) as [[u user]|] eqn:Hu; [|done]. cbn [mbind result_bind].
  destruct (ParseUint32 (account_Uid u)) as [uid|] eqn:Huid; [|done].
  destruct (ParseUint32 (account_Gid u)) as [gid|] eqn:Hgid; [|done].
  destruct ((uid =? 0) && negb (bool_decide (User c = "root"))) eqn:Hroot; [done|]. intros [= <-].
  cbn [Uid Gid User skipCredential set_account with_defaults]. split; [|split].
  - intros ->. cbn in Hroot. apply negb_false_iff in Hroot. by apply bool_decide_eq_true in Hroot.
  - intros -> Hs. rewrite orb_false_r in Hs. apply andb_prop in Hs as [->%Z.eqb_eq ->%Z.eqb_eq]. done.
  - by exists u.
Qed.

(** ** What holds on every run *)

(** A signal goes to a shell that was started and not reaped, but for SIGKILL,
    whose timer may win against the end of the shell. *)
Definition well_sent (x : Z * Shell_state) : Prop := x.2 <> NoShell /\ (x.2 = Reaped -> x.1 = SIGKILL).

Record Inv (s : PTYSession) : Prop := mkInv {
  inv_started : if started s then shell s <> NoShell /\ (exists p, spawned s = [p] /\
      p = mkSpawn (if skipCredential (cfg s) then None else Some (Uid (cfg s), Gid (cfg s))) (buildEnv (cfg s)))
    else shell s = NoShell /\ spawned s = [] /\ sent s = [] /\ closer s = Idle /\ terminal s = NoTerminal;
  inv_idle : closer s = Idle -> shell s <> Reaped /\ (started s = true -> closed s = false);
  inv_closing : closer s <> Idle -> closed s = true /\ exists p, (SIGTERM, p) ∈ sent s;
  inv_finished : closer s = Finished -> shell s = Reaped /\ terminal s = Closed;
  inv_sent : forall x, x ∈ sent s -> well_sent x
}.

Lemma NewPTYSession_Inv Lookup Current curUID curGID c now s : NewPTYSession Lookup Current curUID curGID c now = Ok s ->
  Inv s /\ session_config Lookup Current curUID curGID c = Ok (cfg s).
Proof.
  unfold NewPTYSession. destruct (session_config _ _ _ _ c) as [c'|]; [|done]. cbn [mbind result_bind].
  intros [= <-]. split; [|done]. split; cbn; try done. by intros x ?%elem_of_nil.
Qed.

Lemma usable_None s : usable s = None -> closed s = false /\ started s = true.
Proof. unfold usable. destruct (closed s), (started s); done. Qed.

Lemma Start_Inv e1 e2 e3 s : Inv s -> Inv (Start e1 e2 e3 s).2 /\ cfg (Start e1 e2 e3 s).2 = cfg s.
Proof.
  intros HI. unfold Start. pose proof HI as [Hst Hid Hcl Hfin Hse].
  destruct (started s) eqn:Hs; [done|]. destruct (closed s) eqn:Hc; [done|].
  destruct e1, e2, e3; try done. split; [|done]. destruct Hst as (Hsh & -> & Hsent & Hcloser & _).
  split; cbn; try done; try congruence.
  - split; [done|]. by eexists.
Qed.

Lemma Resize_Inv rows cols err s : Inv s -> Inv (Resize rows cols err s).2 /\ cfg (Resize rows cols err s).2 = cfg s.
Proof.
  intros HI. unfold Resize. destruct (usable s) eqn:Hu; [done|]. destruct err; [done|]. split; [|done].
  apply usable_None in Hu as [Hc Hs]. pose proof HI as [Hst Hid Hcl Hfin Hse]. rewrite Hs in Hst.
  rewrite Hs in Hid. split; cbn; rewrite ?Hs; try done.
  intros Hf. destruct Hcl as [Hcl _]; congruence.
Qed.

Lemma Signal_Inv sig err s : Inv s -> Inv (Signal sig err s).2 /\ cfg (Signal sig err s).2 = cfg s.
Proof.
  intros HI. unfold Signal. destruct (usable s) eqn:Hu; [done|]. destruct sig as [sig|]; [|done]. split; [|done].
  apply usable_None in Hu as [Hc Hs]. pose proof HI as [Hst Hid Hcl Hfin Hse]. rewrite Hs in Hst, Hid.
  split; cbn; rewrite ?Hs; try done.
  - intros Hn. destruct (Hcl Hn). congruence.
  - intros x [-> | Hx]%elem_of_cons; [|by apply Hse]. split; [apply Hst|]. cbn. intros Hr.
    destruct (closer s) eqn:Hcl'; [by destruct (proj1 (Hid eq_refl))|..]; destruct Hcl; congruence.
Qed.

Lemma Close_Inv s : Inv s -> Inv (Close s) /\ cfg (Close s) = cfg s.
Proof.
  intros HI. unfold Close. destruct (closed s) eqn:Hc; [done|]. pose proof HI as [Hst Hid Hcl Hfin Hse].
  assert (closer s = Idle) as Hidle by (destruct (closer s) eqn:?; [done|..]; destruct Hcl; congruence).
  destruct (started s) eqn:Hs; (split; [|done]).
  - split; cbn; rewrite ?Hs; try done.
    + intros _. split; [done|]. exists (shell s). apply list_elem_of_here.
    + intros x [-> | Hx]%elem_of_cons; [|by apply Hse]. split; [apply Hst|]. intros Hr. by destruct (proj1 (Hid Hidle)).
  - split; cbn; rewrite ?Hs, ?Hidle; try done.
    + by destruct Hst as (? & ? & ? & _ & ?).
    + intros _. split; [by apply Hid|done].
Qed.

Lemma step_keeps_Inv e s s' : Inv s -> step e s = Some s' -> Inv s' /\ cfg s' = cfg s.
Proof.
  intros HI. destruct e as [e1 e2 e3|rows cols err|sig err| |dt| | | |]; cbn [step].
  - intros [= <-]. by apply Start_Inv.
  - intros [= <-]. by apply Resize_Inv.
  - intros [= <-]. by apply Signal_Inv.
  - intros [= <-]. by apply Close_Inv.
  - destruct (dt <? 0); [done|]. intros [= <-]. split; [|done]. by destruct HI; split.
  - pose proof HI as [Hst Hid Hcl Hfin Hse]. destruct (shell s) eqn:Hsh; try done. intros [= <-]. split; [|done].
    split; cbn; try done.
    + destruct (started s); [by split; [|apply Hst]|by destruct Hst].
    + intros Hi. split; [done|by apply Hid].
    + intros Hf. by destruct (Hfin Hf).
  - pose proof HI as [Hst Hid Hcl Hfin Hse]. destruct (closer s) eqn:Hc, (shell s) eqn:Hsh; try done; intros [= <-];
      (split; [|done]); split; cbn; rewrite ?Hc; try done; (destruct (started s); [by split; [|apply Hst]|by destruct Hst]).
  - pose proof HI as [Hst Hid Hcl Hfin Hse]. destruct (closer s) eqn:Hc, (shell s) eqn:Hsh; try done; intros [= <-];
      (split; [|done]); split; cbn; rewrite ?Hsh; try done;
      first [intros _; by destruct (Hcl ltac:(done))|destruct (started s); [done|by destruct Hst]].
  - pose proof HI as [Hst Hid Hcl Hfin Hse]. destruct (closer s) eqn:Hc; try done.
    destruct (deadline <=? clock s); [|done]. intros [= <-]. destruct (Hcl ltac:(done)) as [Hclosed [p Hp]].
    destruct (started s) eqn:Hs; [|by destruct Hst as (_ & _ & _ & [=] & _)]. split; [|done].
    split; cbn; rewrite ?Hs; try done.
    + intros _. split; [done|]. exists p. by apply list_elem_of_further.
    + intros x [-> | Hx]%elem_of_cons; [|by apply Hse]. split; [apply Hst|done].
Qed.

Lemma run_keeps_Inv es s s' : Inv s -> run es s = Some s' -> Inv s' /\ cfg s' = cfg s.
Proof.
  revert s. induction es as [|e es IH]; intros s HI; cbn [run]; [by intros [= <-]|].
  destruct (step e s) as [s1|] eqn:He; [|done]. destruct (step_keeps_Inv e s s1 HI He) as [HI1 Hc1].
  intros Hrun. destruct (IH s1 HI1 Hrun) as [HI2 Hc2]. by rewrite Hc2.
Qed.

(** ** Closing *)

Definition own (e : Event) : bool := match e with Wait | SeeExit | SeeTimer => true | _ => false end.
Definition own_steps (es : list Event) : nat := length (List.filter own es).

(** How many steps Close and its goroutine still make at most. *)
Definition rank (s : PTYSession) : nat :=
  match closer s, shell s with
  | Waiting _, Reaped => 2
  | Waiting _, _ => 3
  | Killing, Reaped => 1
  | Killing, _ => 2
  | _, _ => 0
  end.

Lemma closed_refuses s rows cols e1 e2 e3 err sig : closed s = true -> started s = true ->
  Start e1 e2 e3 s = (Some (EText "tunnel/pty: Start called more than once"), s) /\
  Resize rows cols err s = (Some errSessionClosed, s) /\ Signal sig err s = (Some errSessionClosed, s) /\ Close s = s.
Proof. intros Hc Hs. unfold Start, Resize, Signal, usable, Close. by rewrite Hc, Hs. Qed.

Lemma step_closed e s s' : closed s = true -> started s = true -> step e s = Some s' ->
  closed s' = true /\ started s' = true /\ (rank s' + (if own e then 1 else 0) <= rank s)%nat.
Proof.
  intros Hc Hs. destruct e as [e1 e2 e3|rows cols err|sig err| |dt| | | |]; cbn [step own].
  1-4: destruct (closed_refuses s 0 0 None None None None None Hc Hs) as (_ & _ & _ & Hclose).
  - destruct (closed_refuses s 0 0 e1 e2 e3 None None Hc Hs) as (-> & _). intros [= <-]. split; [done|]. split; [done|]. cbn [snd]. lia.
  - destruct (closed_refuses s rows cols None None None err None Hc Hs) as (_ & -> & _). intros [= <-]. split; [done|]. split; [done|]. cbn [snd]. lia.
  - destruct (closed_refuses s 0 0 None None None err sig Hc Hs) as (_ & _ & -> & _). intros [= <-]. split; [done|]. split; [done|]. cbn [snd]. lia.
  - rewrite Hclose. intros [= <-]. split; [done|]. split; [done|]. lia.
  - destruct (dt <? 0); [done|]. intros [= <-]. split; [done|]. split; [done|]. unfold rank. cbn [closer shell]. lia.
  - destruct (shell s) eqn:Hsh; try done. intros [= <-]. split; [done|]. split; [done|]. unfold rank. rewrite Hsh.
    cbn [closer shell set_shell]. destruct (closer s); lia.
  - destruct (closer s) eqn:Hcl, (shell s) eqn:Hsh; try done; intros [= <-]; (split; [done|]); (split; [done|]);
      unfold rank; rewrite Hcl, Hsh; cbn [closer shell set_shell]; rewrite Hcl; lia.
  - destruct (closer s) eqn:Hcl, (shell s) eqn:Hsh; try done; intros [= <-]; (split; [done|]); (split; [done|]);
      unfold rank; rewrite Hcl, Hsh; cbn [closer shell set_closer]; lia.
  - destruct (closer s) eqn:Hcl; try done. destruct (_ <=? clock s); [|done]. intros [= <-]. split; [done|]. split; [done|].
    unfold rank. rewrite Hcl. cbn [closer shell set_closer send]. destruct (shell s); lia.
Qed.

Lemma run_closed es s s' : closed s = true -> started s = true -> run es s = Some s' ->
  closed s' = true /\ started s' = true /\ (rank s' + own_steps es <= rank s)%nat.
Proof.
  revert s. induction es as [|e es IH]; intros s Hc Hs; cbn [run].
  - intros [= <-]. split; [done|]. split; [done|]. cbn. lia.
  - destruct (step e s) as [s1|] eqn:He; [|done]. intros Hrun.
    destruct (step_closed e s s1 Hc Hs He) as (Hc1 & Hs1 & Hr1). destruct (IH s1 Hc1 Hs1 Hrun) as (Hc2 & Hs2 & Hr2).
    split; [done|]. split; [done|]. unfold own_steps in *. cbn [List.filter]. destruct (own e); cbn [length]; lia.
Qed.

(** Close waits for nothing but the shell, which has SIGTERM and the grace period
    or SIGKILL. *)
Definition waits_for_shell (s : PTYSession) : Prop :=
  shell s = Alive /\ match closer s with Waiting deadline => clock s < deadline | Killing => True | _ => False end.

Lemma closed_proceeds s : Inv s -> closed s = true -> started s = true ->
  (closer s = Finished /\ shell s = Reaped /\ terminal s = Closed) \/
  (exists e s', own e = true /\ step e s = Some s') \/ waits_for_shell s.
Proof.
  intros [Hst Hid Hcl Hfin Hse] Hc Hs. rewrite Hs in Hst. destruct Hst as [Hsh _]. unfold waits_for_shell.
  destruct (closer s) as [|deadline| |] eqn:Hcloser.
  - destruct (Hid eq_refl) as [_ H]. rewrite H in Hc; done.
  - right. destruct (shell s) eqn:Hshell; [done| | |].
    + destruct (Z.leb_spec deadline (clock s)) as [Hle|Hlt]; [|by right]. left. exists SeeTimer. cbn [step].
      rewrite Hcloser. apply Z.leb_le in Hle. rewrite Hle. by eexists.
    + left. exists Wait. cbn [step]. rewrite Hcloser, Hshell. by eexists.
    + left. exists SeeExit. cbn [step]. rewrite Hcloser, Hshell. by eexists.
  - right. destruct (shell s) eqn:Hshell; [done|by right| |].
    + left. exists Wait. cbn [step]. rewrite Hcloser, Hshell. by eexists.
    + left. exists SeeExit. cbn [step]. rewrite Hcloser, Hshell. by eexists.
  - left. split; [done|by apply Hfin].
Qed.

(** ** The properties *)

(** C28: The shell of a session runs as root only if the caller named root: whatever
    accounts there are and whatever happens in the session, each process it starts,
    of which there is at most one, runs as the user and the group of the account of the name that was asked
    for; without a name that is the default user, or, if there is none, the user of
    this process, if that is not root. *)
Theorem root_is_asked_for Lookup Current curUID curGID c now s0 es s p :
  NewPTYSession Lookup Current curUID curGID c now = Ok s0 -> skipCredential c = false ->
  run es s0 = Some s -> p ∈ spawned s ->
  spawned s = [p] /\ runs_as (curUID, curGID) p = (Uid (cfg s), Gid (cfg s)) /\
  (Uid (cfg s) = 0 -> User c = "root") /\
  exists u, resolve_user Lookup Current (User c) = Ok (u, User (cfg s)) /\
    ParseUint32 (account_Uid u) = Some (Uid (cfg s)) /\ ParseUint32 (account_Gid u) = Some (Gid (cfg s)).
Proof.
  intros Hnew Hskip Hrun Hp. destruct (NewPTYSession_Inv _ _ _ _ _ _ _ Hnew) as [HI0 Hc0].
  destruct (run_keeps_Inv es s0 s HI0 Hrun) as [HI Hcfg]. rewrite <- Hcfg in Hc0.
  destruct (session_config_ok _ _ _ _ _ _ Hc0) as (Hroot & Hcur & Hu). pose proof (inv_started s HI) as Hst.
  destruct (started s); [|destruct Hst as (_ & Hnil & _); rewrite Hnil in Hp; by apply elem_of_nil in Hp].
  destruct Hst as (_ & q & Hq & ->). rewrite Hq in Hp |- *. apply list_elem_of_singleton in Hp as ->.
  split; [done|]. split; [|by split]. unfold runs_as. cbn [Credential].
  destruct (skipCredential (cfg s)) eqn:Hs; [by apply Hcur|done].
Qed.

(** C0: A session that was started and closed ends: the shell has got SIGTERM, Close
    makes at most three steps more, and then the shell is reaped and the terminal
    closed; until then it can make a step or waits for a shell that has got SIGTERM
    less than the grace period ago, or SIGKILL.  No signal was ever sent to a shell that was not
    started or had been reaped, but for SIGKILL, whose timer may win; and from then
    on the session refuses to be resized or signalled. *)
Theorem closed_session_ends Lookup Current curUID curGID c now s0 es s es' s' :
  NewPTYSession Lookup Current curUID curGID c now = Ok s0 -> run es s0 = Some s ->
  started s = true -> closed s = true -> run es' s = Some s' ->
  (exists p, (SIGTERM, p) ∈ sent s') /\ (own_steps es' <= 3)%nat /\
  ((closer s' = Finished /\ shell s' = Reaped /\ terminal s' = Closed) \/
   (exists e s'', own e = true /\ step e s' = Some s'') \/ waits_for_shell s') /\
  (forall x, x ∈ sent s' -> well_sent x) /\
  forall rows cols sig err, Resize rows cols err s' = (Some errSessionClosed, s') /\ Signal sig err s' = (Some errSessionClosed, s').
Proof.
  intros Hnew Hrun Hs Hc Hrun'. destruct (NewPTYSession_Inv _ _ _ _ _ _ _ Hnew) as [HI0 _].
  destruct (run_keeps_Inv es s0 s HI0 Hrun) as [HI _]. destruct (run_keeps_Inv es' s s' HI Hrun') as [HI' _].
  destruct (run_closed es' s s' Hc Hs Hrun') as (Hc' & Hs' & Hr).
  split.
  { apply (inv_closing s' HI'). intros Hi. destruct (inv_idle s' HI' Hi) as [_ H]. rewrite H in Hc'; done. }
  split; [unfold rank in Hr; destruct (closer s), (shell s); lia|].
  split; [by apply closed_proceeds|]. split; [exact (inv_sent s' HI')|]. intros rows cols sig err.
  destruct (closed_refuses s' rows cols None None None err sig Hc' Hs') as (_ & H1 & H2 & _). by split.
Qed.

(** ** A session *)

Definition accounts (name : string) : result Account :=
  if String.eqb name "support" then Ok (mkAccount "1000" "1000" "support" "/home/support")
  else if String.eqb name "root" then Ok (mkAccount "0" "0" "root" "/root")
  else if String.eqb name "toor" then Ok (mkAccount "0" "0" "toor" "/root")
  else Err (EText "unknown user").

Definition asked (user : string) : PTYConfig := mkPTYConfig EmptyString user 0 0 EmptyString [] 0 0 0 false.

Definition session_for (user : string) : result PTYSession :=
  NewPTYSession accounts (accounts "root") 0 0 (asked user) 0.

(** The default user is not root, and root has no other name. *)
Example default_is_support : (Uid ∘ cfg <$> session_for EmptyString) = Ok 1000.
Proof. reflexivity. Qed.

Example root_by_name : (Uid ∘ cfg <$> session_for "root") = Ok 0.
Proof. reflexivity. Qed.

Example no_other_root : is_ok (session_for "toor") = false.
Proof. reflexivity. Qed.

Example no_fallback_to_root : is_ok (NewPTYSession (fun _ => Err (EText "unknown user")) (accounts "root") 0 0
  (asked EmptyString) 0) = false.
Proof. reflexivity. Qed.

Definition session_start : PTYSession :=
  match session_for EmptyString with Ok s => s | Err _ => mkSession (asked EmptyString) false false NoShell NoTerminal Idle 0 [] [] end.

Definition opens : list Event := [CallStart None None None; CallResize 40 120 None; CallSignal (Some 2) None; CallClose].

Definition ends : list Event := [Pass defaultShutdownGrace; SeeTimer; ShellEnds; Wait; SeeExit].

Definition session_at (es : list Event) : PTYSession := default session_start (run es session_start).

Lemma root_is_asked_for_witness :
  run opens session_start = Some (session_at opens) /\
  runs_as (0, 0) (mkSpawn (Some (1000, 1000)) (buildEnv (cfg session_start))) = (1000, 1000).
Proof.
  assert (run opens session_start = Some (session_at opens)) as Hrun by reflexivity. split; [exact Hrun|].
  destruct (root_is_asked_for accounts (accounts "root") 0 0 (asked EmptyString) 0 session_start opens (session_at opens)
    (mkSpawn (Some (1000, 1000)) (buildEnv (cfg session_start))) eq_refl eq_refl Hrun (list_elem_of_here _ _)) as (_ & Has & _).
  exact Has.
Defined.

Definition session_ended : PTYSession := default session_start (run ends (session_at opens)).

Lemma closed_session_ends_witness :
  run ends (session_at opens) = Some session_ended /\ closer session_ended = Finished /\ shell session_ended = Reaped /\
  own_steps ends = 3%nat /\ (own_steps ends <= 3)%nat.
Proof.
  assert (NewPTYSession accounts (accounts "root") 0 0 (asked EmptyString) 0 = Ok session_start) as H0 by (vm_compute; reflexivity).
  assert (run opens session_start = Some (session_at opens)) as H1 by (vm_compute; reflexivity).
  assert (started (session_at opens) = true) as H2 by (vm_compute; reflexivity).
  assert (closed (session_at opens) = true) as H3 by (vm_compute; reflexivity).
  assert (run ends (session_at opens) = Some session_ended) as H4 by (vm_compute; reflexivity).
  split; [exact H4|]. split; [vm_compute; reflexivity|]. split; [vm_compute; reflexivity|]. split; [reflexivity|].
  exact (proj1 (proj2 (closed_session_ends _ _ _ _ _ _ _ _ _ _ _ H0 H1 H2 H3 H4))).
Defined.

(** The timer wins against the end of the shell: SIGKILL goes to a process group
    whose leader is gone. *)
Example kill_after_reaping :
  head ∘ sent <$> run [ShellEnds; Wait; Pass defaultShutdownGrace; SeeTimer] (session_at opens) = Some (Some (SIGKILL, Reaped)).
Proof. reflexivity. Qed.
