(* ===== verification/Tls.v ===== *)
(** * Tls: the connections to the servers

    client/client.go: the TLS context of a configuration, with the certificates
    that are trusted and the client's own certificate and key, the connection to a
    server, direct or through a proxy, and the client that is made from it.  The
    binding of OpenSSL is the class [Openssl]; files are the class [CertFiles]. *)

From S2P Require Import Prelude Text Auth.
From Stdlib Require Import Ascii.

Open Scope Z_scope.

(** ** OpenSSL and the files *)

(** What is done to a context. *)
Inductive CtxCall (Cert Key : Type) : Type :=
  | SetDefaultVerifyPaths
  | LoadVerifyLocations (file : string)
  | UseCertificate (c : Cert)
  | AddChainCertificate (c : Cert)
  | UsePrivateKey (k : Key).
Arguments SetDefaultVerifyPaths {Cert Key}.
Arguments LoadVerifyLocations {Cert Key}.
Arguments UseCertificate {Cert Key}.
Arguments AddChainCertificate {Cert Key}.
Arguments UsePrivateKey {Cert Key}.

(** A context is what was done to it, the first call first; [CtxAnswer] is the error
    of one more.  [Dial] and [DialUpgrade] connect, the latter over a connection to
    a proxy; [VerifyResult] is what became of the check of the certificate. *)
Class Openssl := {
  Cert : Type;
  Key : Type;
  Engine : Type;
  RawConn : Type;
  Conn : Type;
  SplitPEM : string -> list string;
  LoadCertificateFromPEM : string -> result Cert;
  LoadPrivateKeyFromPEM : string -> result Key;
  EngineById : string -> result Engine;
  EngineLoadPrivateKey : Engine -> string -> result Key;
  GetDefaultCertificateDirectory : result string;
  NewCtx : option error;
  CtxAnswer : list (CtxCall Cert Key) -> CtxCall Cert Key -> option error;
  Dial : string -> list (CtxCall Cert Key) -> Z -> result Conn;
  DialUpgrade : string -> RawConn -> list (CtxCall Cert Key) -> Z -> result Conn;
  VerifyResult : Conn -> Z
}.

(** ioutil.ReadDir, os.Stat with IsRegular, and ioutil.ReadFile. *)
Class CertFiles := {
  ReadDir : string -> result (list string);
  StatRegular : string -> result bool;
  ReadCertFile : string -> result string
}.

Definition X509_Ok : Z := 0.
Definition InsecureSkipHostVerification : Z := 1.
Definition CertHasExpired : Z := 10.
Definition DepthZeroSelfSignedCert : Z := 18.
Definition UnableToGetIssuerCertLocally : Z := 20.
Definition EndEntityKeyTooSmall : Z := 66.

(** ** The configuration *)

Record HttpsClient := mkHttpsClient { Certificate : string; ClientKey : string; SSLEngine : string }.

Record Connectivity := mkConnectivity { DisableKeepAlive : bool; IdleConnTimeoutSeconds : Z }.

Record Config := mkConfig {
  ServerCert : string;
  client_cert : option HttpsClient;
  connectivity : option Connectivity;
  NoVerify : bool
}.

Definition pkcs11URIPrefix : string := "pkcs11:".

(** The errors that Validate writes to the log. *)
Definition HttpsClient_Validate (h : option HttpsClient) : list string :=
  match h with
  | None => []
  | Some h =>
      if bool_decide (Certificate h = EmptyString) && bool_decide (ClientKey h = EmptyString) then []
      else
        (if bool_decide (Certificate h = EmptyString) then ["no Certificate"] else []) ++
        (if bool_decide (ClientKey h = EmptyString) then ["no Key"]
         else if HasPrefix (ClientKey h) pkcs11URIPrefix && bool_decide (SSLEngine h = EmptyString) then ["no SSLEngine"]
         else [])
  end.

(** ** The context *)

Section tls.
Context `{Openssl} `{CertFiles}.

Definition Ctx : Type := list (CtxCall Cert Key).

Definition call (c : CtxCall Cert Key) (ctx : Ctx) : Ctx * option error := (ctx ++ [c], CtxAnswer ctx c).

(** How many certificates a file holds; what cannot be read is skipped. *)
Definition certs_in (certDir name : string) : nat :=
  match StatRegular (join_path certDir name) with
  | Ok true =>
      match ReadCertFile (join_path certDir name) with
      | Ok certBytes => length (List.filter (fun pem => is_ok (LoadCertificateFromPEM pem)) (SplitPEM certBytes))
      | Err _ => 0
      end
  | _ => 0
  end.

Definition nrOfSystemCertsFound (certDir : string) : result nat :=
  match ReadDir certDir with
  | Err err => Err (EWrap "Failed to read the OpenSSL default directory" err)
  | Ok names => Ok (sum_list_with (certs_in certDir) names)
  end.

(** The last part of the result is whether the log says that no certificate is
    trusted. *)
Definition loadServerTrust (ctx : Ctx) (conf : Config) : Ctx * option error * bool :=
  match GetDefaultCertificateDirectory with
  | Err err => (ctx, Some (EWrap "Failed to get the default OpenSSL certificate directory" err), false)
  | Ok defaultCertDir =>
      let sysCertsFound := match nrOfSystemCertsFound defaultCertDir with Ok n => n | Err _ => 0%nat end in
      let none := bool_decide (sysCertsFound = 0%nat) in
      match call SetDefaultVerifyPaths ctx with
      | (ctx, Some err) => (ctx, Some (EWrap "Failed to set the default OpenSSL directory" err), false)
      | (ctx, None) =>
          if bool_decide (ServerCert conf = EmptyString) then (ctx, None, none)
          else
            match call (LoadVerifyLocations (ServerCert conf)) ctx with
            | (ctx, Some err) => (ctx, Some err, none)
            | (ctx, None) => (ctx, None, false)
            end
      end
  end.

Definition loadPrivateKey (keyFile engineId : string) : result Key :=
  if HasPrefix keyFile pkcs11URIPrefix then
    engine ← EngineById engineId; EngineLoadPrivateKey engine keyFile
  else
    match ReadCertFile keyFile with
    | Err err => Err (EWrap "Private key file from the HttpsClient configuration not found" err)
    | Ok keyBytes => LoadPrivateKeyFromPEM keyBytes
    end.

Fixpoint add_chain (pems : list string) (ctx : Ctx) : Ctx * option error :=
  match pems with
  | [] => (ctx, None)
  | pem :: pems =>
      match LoadCertificateFromPEM pem with
      | Err err => (ctx, Some err)
      | Ok cert =>
          match call (AddChainCertificate cert) ctx with
          | (ctx, Some err) => (ctx, Some err)
          | (ctx, None) => add_chain pems ctx
          end
      end
  end.

Definition loadClientTrust (ctx : Ctx) (conf : Config) : Ctx * option error :=
  match client_cert conf with
  | None => (ctx, Some (EText "Empty HttpsClient config given"))
  | Some h =>
      match ReadCertFile (Certificate h) with
      | Err err => (ctx, Some (EWrap "Failed to read the certificate file for the HttpsClient" err))
      | Ok certBytes =>
          match SplitPEM certBytes with
          | [] => (ctx, Some (EText "No PEM certificate found"))
          | first :: certs =>
              match LoadCertificateFromPEM first with
              | Err err => (ctx, Some err)
              | Ok cert =>
                  match call (UseCertificate cert) ctx with
                  | (ctx, Some err) => (ctx, Some err)
                  | (ctx, None) =>
                      match add_chain certs ctx with
                      | (ctx, Some err) => (ctx, Some err)
                      | (ctx, None) =>
                          match loadPrivateKey (ClientKey h) (SSLEngine h) with
                          | Err err => (ctx, Some err)
                          | Ok key => call (UsePrivateKey key) ctx
                          end
                      end
                  end
              end
          end
      end
  end.

(** The errors of the two are written to the log only. *)
Definition newOpenSSLCtx (conf : Config) : result Ctx :=
  match NewCtx with
  | Some err => Err err
  | None =>
      let '(ctx, _, _) := loadServerTrust [] conf in
      Ok (match client_cert conf with Some _ => (loadClientTrust ctx conf).1 | None => ctx end)
  end.

(** ** The connection *)

(** The URL of a proxy: user and password are optional. *)
Record ProxyURL := mkProxyURL { Scheme : string; Host : string; proxy_user : option (string * option string) }.

(** strings.LastIndex for one character: minus one when there is none. *)
Fixpoint last_index (c : ascii) (i : Z) (found : Z) (s : string) : Z :=
  match s with
  | EmptyString => found
  | String x s => last_index c (i + 1) (if bool_decide (x = c) then i else found) s
  end.
Definition LastIndex (s : string) (c : ascii) : Z := last_index c 0 (-1) s.

Definition getHostPort (u : ProxyURL) : string :=
  if LastIndex (Host u) "]" <? LastIndex (Host u) ":" then Host u
  else if bool_decide (Scheme u = "https") then Host u +:+ ":443" else Host u +:+ ":80".

(** What the proxy is asked: the address and the header Proxy-Authorization. *)
Record ConnectReq := mkConnectReq { connect_to : string; Proxy_Authorization : option string }.

Definition connect_request (addr : string) (u : ProxyURL) : ConnectReq :=
  mkConnectReq addr
    match proxy_user u with
    | Some (user, Some password) => Some ("Basic " +:+ base64 (user +:+ ":" +:+ password))
    | _ => None
    end.

(** What becomes of the request: one minute passes, it cannot be written, the
    answer cannot be read, or there is an answer with a status. *)
Inductive Exchange : Type :=
  | TimedOut
  | WriteFailed (err : error)
  | ReadFailed (err : error)
  | Answered (status : Z).

Definition DeadlineExceeded : error := EText "context deadline exceeded".

(** The network as this program sees it: net.Dial, and the exchange with a proxy. *)
Class Network := {
  NetDial : string -> result RawConn;
  Connect : RawConn -> ConnectReq -> Exchange
}.

(** A panic is an outcome of its own: when the request cannot be written the
    goroutine's error is its own variable, and there is no response to close. *)
Inductive Outcome (A : Type) : Type := Returned (r : result A) | Panicked.
#[global] Arguments Returned {A}.
#[global] Arguments Panicked {A}.

Context `{Network}.

(** The second part says whether a connection that was opened was closed. *)
Definition dialProxy (addr : string) (proxyURL : ProxyURL) : Outcome RawConn * bool :=
  match NetDial (getHostPort proxyURL) with
  | Err err => (Returned (Err err), false)
  | Ok conn =>
      match Connect conn (connect_request addr proxyURL) with
      | TimedOut => (Returned (Err DeadlineExceeded), true)
      | WriteFailed _ => (Panicked, false)
      | ReadFailed err => (Returned (Err err), true)
      | Answered status =>
          if bool_decide (status = 200) then (Returned (Ok conn), false)
          else (Returned (Err (EText "Response line received from proxy")), true)
      end
  end.

Definition establishSSLConnection (addr : string) (proxyURL : option ProxyURL) (ctx : Ctx) (flags : Z) : Outcome Conn :=
  match proxyURL with
  | None => Returned (Dial addr ctx flags)
  | Some u =>
      match (dialProxy addr u).1 with
      | Panicked => Panicked
      | Returned (Err err) => Returned (Err (EWrap "Failed to connect to proxy" err))
      | Returned (Ok proxyConn) => Returned (DialUpgrade addr proxyConn ctx flags)
      end
  end.

Definition verify_error (v : Z) : error :=
  EText (if v =? CertHasExpired then "certificate has expired"
         else if v =? DepthZeroSelfSignedCert then "depth zero self-signed certificate"
         else if v =? EndEntityKeyTooSmall then "end entity key too short"
         else if v =? UnableToGetIssuerCertLocally then "certificate signed by unknown authority"
         else "not a valid certificate").

(** [proxy] is ProxyURLFromHostPortGetter: no proxy, or its URL, for an address. *)
Definition dialOpenSSL (proxy : string -> result (option ProxyURL)) (ctx : Ctx) (conf : Config) (addr : string) :
    Outcome Conn :=
  match proxy addr with
  | Err err => Returned (Err (EWrap "Failed to get http-proxy configurations during dial" err))
  | Ok proxyURL =>
      let flags := if NoVerify conf then InsecureSkipHostVerification else 0 in
      match establishSSLConnection addr proxyURL ctx flags with
      | Returned (Ok conn) =>
          if NoVerify conf then Returned (Ok conn)
          else
            let v := VerifyResult conn in
            if v =? X509_Ok then Returned (Ok conn) else Returned (Err (verify_error v))
      | o => o
      end
  end.

(** ** The client *)

Definition Second : Z := 1000000000.
Definition defaultClientReadingTimeout : Z := 4 * 3600 * Second.
Definition connectionKeepaliveTime : Z := 10 * Second.

(** A client of net/http: [DialTLS] has the context and configuration that
    [dialOpenSSL] gets, and without it the library makes its own connections. *)
Record HttpClient := mkHttpClient {
  DialTLS : option (Ctx * Config);
  ProxyFromEnvironment : bool;
  DisableKeepAlives : bool;
  IdleConnTimeout : Z;
  KeepAlive : Z;
  Timeout : Z
}.

Definition is_empty (conf : Config) : bool :=
  match conf with mkConfig EmptyString None None false => true | _ => false end.

Definition newHttpsClient (conf : Config) : result HttpClient :=
  ctx ← newOpenSSLCtx conf;
  let c := default (mkConnectivity false 0) (connectivity conf) in
  Ok (mkHttpClient (Some (ctx, conf)) false (DisableKeepAlive c) (int64 (IdleConnTimeoutSeconds c * Second)) 0 0).

Definition NewApiClient (conf : Config) : result HttpClient :=
  client ← if is_empty conf then Ok (mkHttpClient None true false 0 0 0) else newHttpsClient conf;
  Ok (mkHttpClient (DialTLS client) (ProxyFromEnvironment client) (DisableKeepAlives client) (IdleConnTimeout client)
        connectionKeepaliveTime defaultClientReadingTimeout).

(** How net/http connects for a request, by the scheme of its URL: DialTLS for
    https, the client's DialContext, without TLS, for http, and not at all for
    another scheme.  Without DialTLS the library has TLS of its own. *)
Inductive Dialled : Type :=
  | OverTLS (o : Outcome Conn)
  | OverTCP (r : result RawConn)
  | LibraryTLS
  | UnsupportedScheme.

Definition transport_dial (proxy : string -> result (option ProxyURL)) (client : HttpClient) (scheme addr : string) : Dialled :=
  if bool_decide (scheme = "https") then
    match DialTLS client with Some (ctx, conf) => OverTLS (dialOpenSSL proxy ctx conf addr) | None => LibraryTLS end
  else if bool_decide (scheme = "http") then OverTCP (NetDial addr)
  else UnsupportedScheme.

(** The dialer of a websocket: the library's own, or one with a context. *)
Definition NewWebsocketDialer (conf : Config) : result (option (Ctx * Config)) :=
  if is_empty conf then Ok None else ctx ← newOpenSSLCtx conf; Ok (Some (ctx, conf)).

End tls.

(** ** The context of a client *)

Section contexts.
Context `{Openssl} `{CertFiles}.

(** The calls of loadServerTrust are about the trusted certificates only. *)
Definition server_call (c : CtxCall Cert Key) : Prop :=
  match c with SetDefaultVerifyPaths | LoadVerifyLocations _ => True | _ => False end.

Lemma loadServerTrust_calls conf ctx err none : loadServerTrust [] conf = (ctx, err, none) ->
  Forall server_call ctx /\
  (err = None -> ctx = SetDefaultVerifyPaths ::
     (if bool_decide (ServerCert conf = EmptyString) then [] else [LoadVerifyLocations (ServerCert conf)])).
Proof.
  unfold loadServerTrust, call. destruct GetDefaultCertificateDirectory as [dir|e]; [|by intros [= <- <- _]].
  destruct (CtxAnswer [] SetDefaultVerifyPaths); [intros [= <- <- _]; split; [by repeat constructor|done]|].
  destruct (bool_decide _); [intros [= <- <- _]; split; [by repeat constructor|done]|].
  destruct (CtxAnswer _ _); intros [= <- <- _]; (split; [by repeat constructor|done]).
Qed.

Lemma add_chain_ok pems : forall ctx ctx', add_chain pems ctx = (ctx', None) ->
  exists certs, Forall2 (fun pem cert => LoadCertificateFromPEM pem = Ok cert) pems certs /\
    ctx' = ctx ++ map AddChainCertificate certs.
Proof.
  induction pems as [|pem pems IH]; intros ctx ctx'; cbn [add_chain].
  - intros [= <-]. exists []. split; [constructor|]. by rewrite app_nil_r.
  - unfold call. destruct (LoadCertificateFromPEM pem) as [cert|] eqn:Hc; [|done].
    destruct (CtxAnswer ctx (AddChainCertificate cert)); [done|]. intros (certs & Hcs & ->)%IH.
    exists (cert :: certs). split; [by constructor|]. by rewrite <- app_assoc.
Qed.

(** The key comes from the engine if its name says so, and else from a file. *)
Definition key_source (h : HttpsClient) (key : Key) : Prop :=
  if HasPrefix (ClientKey h) pkcs11URIPrefix then
    exists engine, EngineById (SSLEngine h) = Ok engine /\ EngineLoadPrivateKey engine (ClientKey h) = Ok key
  else exists data, ReadCertFile (ClientKey h) = Ok data /\ LoadPrivateKeyFromPEM data = Ok key.

Lemma loadPrivateKey_ok h key : loadPrivateKey (ClientKey h) (SSLEngine h) = Ok key -> key_source h key.
Proof.
  unfold loadPrivateKey, key_source. destruct (HasPrefix _ _).
  - destruct (EngineById (SSLEngine h)) as [engine|]; [|done]. cbn [mbind result_bind]. intros Hk. by exists engine.
  - destruct (ReadCertFile (ClientKey h)) as [data|]; [|done]. intros Hk. by exists data.
Qed.

(** The certificates of the file, all of them and in order, and the key. *)
Theorem loadClientTrust_spec conf ctx ctx' : loadClientTrust ctx conf = (ctx', None) ->
  exists h data first pems cert certs key, client_cert conf = Some h /\ ReadCertFile (Certificate h) = Ok data /\
    SplitPEM data = first :: pems /\ LoadCertificateFromPEM first = Ok cert /\
    Forall2 (fun pem cert => LoadCertificateFromPEM pem = Ok cert) pems certs /\ key_source h key /\
    ctx' = ctx ++ UseCertificate cert :: map AddChainCertificate certs ++ [UsePrivateKey key].
Proof.
  unfold loadClientTrust. destruct (client_cert conf) as [h|] eqn:Hh; [|done].
  destruct (ReadCertFile (Certificate h)) as [data|] eqn:Hd; [|done].
  destruct (SplitPEM data) as [|first pems] eqn:Hp; [done|].
  destruct (LoadCertificateFromPEM first) as [cert|] eqn:Hc; [|done]. unfold call at 1.
  destruct (CtxAnswer ctx (UseCertificate cert)); [done|]. destruct (add_chain pems _) as [ctx1 [err|]] eqn:Hch; [done|].
  apply add_chain_ok in Hch as (certs & Hcs & ->). destruct (loadPrivateKey _ _) as [key|] eqn:Hk; [|done].
  unfold call. intros [= <- _]. apply loadPrivateKey_ok in Hk. exists h, data, first, pems, cert, certs, key.
  split; [done|]. split; [done|]. split; [done|]. split; [done|]. split; [done|]. split; [done|].
  by rewrite <- !app_assoc.
Qed.

End contexts.

(** ** The connection *)

Section connections.
Context `{Openssl} `{CertFiles} `{!Network}.

(** What dialProxy opened it closes, unless it returns it or panics. *)
Lemma dialProxy_spec addr u :
  match dialProxy addr u with
  | (Returned (Ok conn), was_closed) => was_closed = false /\ NetDial (getHostPort u) = Ok conn /\
      Connect conn (connect_request addr u) = Answered 200
  | (Returned (Err _), was_closed) => was_closed = true <-> is_ok (NetDial (getHostPort u)) = true
  | (Panicked, _) => exists conn err, NetDial (getHostPort u) = Ok conn /\
      Connect conn (connect_request addr u) = WriteFailed err
  end.
Proof.
  unfold dialProxy. destruct (NetDial (getHostPort u)) as [conn|err] eqn:Hd; [|done].
  destruct (Connect conn (connect_request addr u)) as [|err|err|status] eqn:Hc; [done|by eexists _, _|done|].
  case_bool_decide as Hs; [subst status; done|done].
Qed.

(** Unless the configuration says that certificates are not verified, a
    connection to a server is handed out only if OpenSSL verified its certificate:
    it was made with the given context and with no flag that skips a check, and
    through a proxy only over a connection for which the proxy answered 200 to the
    request for that address. *)
Lemma connection_is_verified proxy ctx conf addr conn :
  dialOpenSSL proxy ctx conf addr = Returned (Ok conn) -> NoVerify conf = false ->
  VerifyResult conn = X509_Ok /\
  exists proxyURL, proxy addr = Ok proxyURL /\
    match proxyURL with
    | None => Dial addr ctx 0 = Ok conn
    | Some u => exists raw, NetDial (getHostPort u) = Ok raw /\ Connect raw (connect_request addr u) = Answered 200 /\
        DialUpgrade addr raw ctx 0 = Ok conn
    end.
Proof.
  unfold dialOpenSSL. intros Hd Hv. rewrite Hv in Hd. destruct (proxy addr) as [proxyURL|]; [|done].
  destruct (establishSSLConnection addr proxyURL ctx 0) as [[c|e]|] eqn:Hs; [|done|done].
  destruct (Z.eqb_spec (VerifyResult c) X509_Ok) as [Hok|]; [|done]. injection Hd as ->. split; [done|].
  exists proxyURL. split; [done|]. revert Hs. unfold establishSSLConnection. destruct proxyURL as [u|]; [|by intros [=]].
  pose proof (dialProxy_spec addr u) as Hp. destruct (dialProxy addr u) as [[[raw|e]|] was_closed]; [|done|done].
  cbn [fst]. intros [= Hu]. exists raw. by destruct Hp as (_ & Hnet & Hans).
Qed.

(** A client of a configuration with a certificate and a key, or anything else in
    it, connects by [dialOpenSSL] with that configuration. *)
Lemma NewApiClient_dials conf client : NewApiClient conf = Ok client -> is_empty conf = false ->
  exists ctx, newOpenSSLCtx conf = Ok ctx /\ DialTLS client = Some (ctx, conf).
Proof.
  unfold NewApiClient. intros Hn He. rewrite He in Hn. unfold newHttpsClient in Hn.
  destruct (newOpenSSLCtx conf) as [ctx|]; [|done]. cbn in Hn. injection Hn as <-. by exists ctx.
Qed.

End connections.

(** ** A server and a proxy *)

(** Instances of the classes, for those who import them. *)
Module Toy.

Definition trusts {C K} (file : string) (ctx : list (CtxCall C K)) : bool :=
  existsb (fun c => match c with LoadVerifyLocations f => String.eqb f file | _ => false end) ctx.

(** Certificates, keys and connections are their names; a connection is verified if
    the context trusts the certificate that it is named by. *)
#[export] Instance toy_openssl : Openssl := {
  Cert := string; Key := string; Engine := string; RawConn := string; Conn := string * bool;
  SplitPEM s := Fields s;
  LoadCertificateFromPEM s := Ok s;
  LoadPrivateKeyFromPEM s := Ok s;
  EngineById s := Ok s;
  EngineLoadPrivateKey e k := Ok (e +:+ k);
  GetDefaultCertificateDirectory := Ok "/etc/ssl/certs";
  NewCtx := None;
  CtxAnswer ctx c := None;
  Dial addr ctx flags := Ok (addr, trusts (addr +:+ ".crt") ctx);
  DialUpgrade addr raw ctx flags := Ok (addr, trusts (addr +:+ ".crt") ctx);
  VerifyResult c := if c.2 then 0 else 18
}.

#[export] Instance toy_files : CertFiles := {
  ReadDir dir := Ok [];
  StatRegular p := Ok true;
  ReadCertFile p := Ok "leaf issuer"
}.

#[export] Instance toy_network : Network := {
  NetDial hostPort := Ok hostPort;
  Connect raw req := if String.eqb raw "proxy:80" then Answered 200 else WriteFailed (EText "broken pipe")
}.

Definition toy_proxy (host : string) (addr : string) : result (option ProxyURL) := Ok (Some (mkProxyURL "http" host None)).

Definition toy_config : Config := mkConfig "gateway.crt" (Some (mkHttpsClient "/cert.pem" "pkcs11:key" "pkcs11")) None false.

Definition toy_ctx : Ctx := match newOpenSSLCtx toy_config with Ok ctx => ctx | Err _ => [] end.

(** The whole context: the server's certificate, the chain of the client, its key. *)
Example toy_ctx_calls : toy_ctx =
  [SetDefaultVerifyPaths; LoadVerifyLocations "gateway.crt"; UseCertificate "leaf"; AddChainCertificate "issuer";
   UsePrivateKey "pkcs11pkcs11:key"].
Proof. reflexivity. Qed.

Lemma toy_connection_is_verified :
  dialOpenSSL (toy_proxy "proxy") toy_ctx toy_config "gateway" = Returned (Ok ("gateway", true)) /\
  VerifyResult ("gateway", true) = X509_Ok.
Proof.
  assert (dialOpenSSL (toy_proxy "proxy") toy_ctx toy_config "gateway" = Returned (Ok ("gateway", true))) as Hd
    by (vm_compute; reflexivity).
  split; [exact Hd|]. exact (proj1 (connection_is_verified (toy_proxy "proxy") toy_ctx toy_config "gateway" ("gateway", true) Hd eq_refl)).
Defined.

(** A certificate that no one trusts: there is no connection for the caller. *)
Example not_trusted : dialOpenSSL (fun _ => Ok None) toy_ctx toy_config "other" = Returned (Err (verify_error 18)).
Proof. reflexivity. Qed.

(** A proxy that closes the connection before the request is written. *)
Example write_fails : dialOpenSSL (toy_proxy "gone") toy_ctx toy_config "gateway" = Panicked.
Proof. reflexivity. Qed.

End Toy.
