(* ===== verification/Configuration.v ===== *)
(** * Configuration: the configuration of the agent

    conf/config.go: reading the configuration from two files, one after the other
    into the same structure, the key of a file, the validation of the servers, what
    the other parts get of it, and saving it as an indented text.  The files are the class [ConfFiles]. *)

From S2P Require Import Prelude Json Text Os StateData Decode Auth Tls.
From Stdlib Require Import Ascii.

Open Scope Z_scope.

(** ** The structures *)

Record Security := mkSecurity { AuthPrivateKey : string; Security_SSLEngine : string }.

Record MenderServer := mkServer { server_URL : string }.

Record MenderConfigFromFile := mkFromFile {
  ArtifactVerifyKey : string;
  ArtifactVerifyKeys : list string;
  RequireArtifactVerification : bool;
  HttpsClient_conf : HttpsClient;
  Security_conf : Security;
  Connectivity_conf : Connectivity;
  RootfsPartA : string;
  RootfsPartB : string;
  BootUtilitiesSetActivePart : string;
  BootUtilitiesGetNextActivePart : string;
  DeviceTypeFile : string;
  DBus_Enabled : bool;
  UpdateControlMapExpirationTimeSeconds : Z;
  UpdateControlMapBootExpirationTimeSeconds : Z;
  UpdatePollIntervalSeconds : Z;
  InventoryPollIntervalSeconds : Z;
  SkipVerify : bool;
  RetryPollIntervalSeconds : Z;
  RetryPollCount : Z;
  StateScriptTimeoutSeconds : Z;
  StateScriptRetryTimeoutSeconds : Z;
  StateScriptRetryIntervalSeconds : Z;
  ModuleTimeoutSeconds : Z;
  ServerCertificate : string;
  ServerURL : string;
  UpdateLogPath : string;
  TenantToken : string;
  Servers : option (list MenderServer);
  DaemonLogLevel : string;
  UseSoCMonitoring : bool;
  SoCAPIKey : string;
  SoCDeviceID : string;
  UseFileBasedBootEnv : bool
}.

(** What is not in a file. *)
Record MenderConfig := mkMenderConfig {
  FromFile : MenderConfigFromFile;
  ModulesPath : string;
  ModulesWorkPath : string;
  ArtifactScriptsPath : string;
  RootfsScriptsPath : string;
  BootstrapArtifactFile : string
}.

Definition set_ArtifactVerifyKey v c := mkFromFile v (ArtifactVerifyKeys c) (RequireArtifactVerification c)
  (HttpsClient_conf c) (Security_conf c) (Connectivity_conf c) (RootfsPartA c) (RootfsPartB c)
  (BootUtilitiesSetActivePart c) (BootUtilitiesGetNextActivePart c) (DeviceTypeFile c) (DBus_Enabled c)
  (UpdateControlMapExpirationTimeSeconds c) (UpdateControlMapBootExpirationTimeSeconds c) (UpdatePollIntervalSeconds
  c) (InventoryPollIntervalSeconds c) (SkipVerify c) (RetryPollIntervalSeconds c) (RetryPollCount c)
  (StateScriptTimeoutSeconds c) (StateScriptRetryTimeoutSeconds c) (StateScriptRetryIntervalSeconds c)
  (ModuleTimeoutSeconds c) (ServerCertificate c) (ServerURL c) (UpdateLogPath c) (TenantToken c) (Servers c)
  (DaemonLogLevel c) (UseSoCMonitoring c) (SoCAPIKey c) (SoCDeviceID c) (UseFileBasedBootEnv c).
Definition set_ArtifactVerifyKeys v c := mkFromFile (ArtifactVerifyKey c) v (RequireArtifactVerification c)
  (HttpsClient_conf c) (Security_conf c) (Connectivity_conf c) (RootfsPartA c) (RootfsPartB c)
  (BootUtilitiesSetActivePart c) (BootUtilitiesGetNextActivePart c) (DeviceTypeFile c) (DBus_Enabled c)
  (UpdateControlMapExpirationTimeSeconds c) (UpdateControlMapBootExpirationTimeSeconds c) (UpdatePollIntervalSeconds
  c) (InventoryPollIntervalSeconds c) (SkipVerify c) (RetryPollIntervalSeconds c) (RetryPollCount c)
  (StateScriptTimeoutSeconds c) (StateScriptRetryTimeoutSeconds c) (StateScriptRetryIntervalSeconds c)
  (ModuleTimeoutSeconds c) (ServerCertificate c) (ServerURL c) (UpdateLogPath c) (TenantToken c) (Servers c)
  (DaemonLogLevel c) (UseSoCMonitoring c) (SoCAPIKey c) (SoCDeviceID c) (UseFileBasedBootEnv c).
Definition set_RequireArtifactVerification v c := mkFromFile (ArtifactVerifyKey c) (ArtifactVerifyKeys c) v
  (HttpsClient_conf c) (Security_conf c) (Connectivity_conf c) (RootfsPartA c) (RootfsPartB c)
  (BootUtilitiesSetActivePart c) (BootUtilitiesGetNextActivePart c) (DeviceTypeFile c) (DBus_Enabled c)
  (UpdateControlMapExpirationTimeSeconds c) (UpdateControlMapBootExpirationTimeSeconds c) (UpdatePollIntervalSeconds
  c) (InventoryPollIntervalSeconds c) (SkipVerify c) (RetryPollIntervalSeconds c) (RetryPollCount c)
  (StateScriptTimeoutSeconds c) (StateScriptRetryTimeoutSeconds c) (StateScriptRetryIntervalSeconds c)
  (ModuleTimeoutSeconds c) (ServerCertificate c) (ServerURL c) (UpdateLogPath c) (TenantToken c) (Servers c)
  (DaemonLogLevel c) (UseSoCMonitoring c) (SoCAPIKey c) (SoCDeviceID c) (UseFileBasedBootEnv c).
Definition set_HttpsClient v c := mkFromFile (ArtifactVerifyKey c) (ArtifactVerifyKeys c) (RequireArtifactVerification
  c) v (Security_conf c) (Connectivity_conf c) (RootfsPartA c) (RootfsPartB c) (BootUtilitiesSetActivePart c)
  (BootUtilitiesGetNextActivePart c) (DeviceTypeFile c) (DBus_Enabled c) (UpdateControlMapExpirationTimeSeconds c)
  (UpdateControlMapBootExpirationTimeSeconds c) (UpdatePollIntervalSeconds c) (InventoryPollIntervalSeconds c)
  (SkipVerify c) (RetryPollIntervalSeconds c) (RetryPollCount c) (StateScriptTimeoutSeconds c)
  (StateScriptRetryTimeoutSeconds c) (StateScriptRetryIntervalSeconds c) (ModuleTimeoutSeconds c) (ServerCertificate
  c) (ServerURL c) (UpdateLogPath c) (TenantToken c) (Servers c) (DaemonLogLevel c) (UseSoCMonitoring c) (SoCAPIKey c)
  (SoCDeviceID c) (UseFileBasedBootEnv c).
Definition set_Security v c := mkFromFile (ArtifactVerifyKey c) (ArtifactVerifyKeys c) (RequireArtifactVerification c)
  (HttpsClient_conf c) v (Connectivity_conf c) (RootfsPartA c) (RootfsPartB c) (BootUtilitiesSetActivePart c)
  (BootUtilitiesGetNextActivePart c) (DeviceTypeFile c) (DBus_Enabled c) (UpdateControlMapExpirationTimeSeconds c)
  (UpdateControlMapBootExpirationTimeSeconds c) (UpdatePollIntervalSeconds c) (InventoryPollIntervalSeconds c)
  (SkipVerify c) (RetryPollIntervalSeconds c) (RetryPollCount c) (StateScriptTimeoutSeconds c)
  (StateScriptRetryTimeoutSeconds c) (StateScriptRetryIntervalSeconds c) (ModuleTimeoutSeconds c) (ServerCertificate
  c) (ServerURL c) (UpdateLogPath c) (TenantToken c) (Servers c) (DaemonLogLevel c) (UseSoCMonitoring c) (SoCAPIKey c)
  (SoCDeviceID c) (UseFileBasedBootEnv c).
Definition set_Connectivity v c := mkFromFile (ArtifactVerifyKey c) (ArtifactVerifyKeys c)
  (RequireArtifactVerification c) (HttpsClient_conf c) (Security_conf c) v (RootfsPartA c) (RootfsPartB c)
  (BootUtilitiesSetActivePart c) (BootUtilitiesGetNextActivePart c) (DeviceTypeFile c) (DBus_Enabled c)
  (UpdateControlMapExpirationTimeSeconds c) (UpdateControlMapBootExpirationTimeSeconds c) (UpdatePollIntervalSeconds
  c) (InventoryPollIntervalSeconds c) (SkipVerify c) (RetryPollIntervalSeconds c) (RetryPollCount c)
  (StateScriptTimeoutSeconds c) (StateScriptRetryTimeoutSeconds c) (StateScriptRetryIntervalSeconds c)
  (ModuleTimeoutSeconds c) (ServerCertificate c) (ServerURL c) (UpdateLogPath c) (TenantToken c) (Servers c)
  (DaemonLogLevel c) (UseSoCMonitoring c) (SoCAPIKey c) (SoCDeviceID c) (UseFileBasedBootEnv c).
Definition set_RootfsPartA v c := mkFromFile (ArtifactVerifyKey c) (ArtifactVerifyKeys c) (RequireArtifactVerification
  c) (HttpsClient_conf c) (Security_conf c) (Connectivity_conf c) v (RootfsPartB c) (BootUtilitiesSetActivePart c)
  (BootUtilitiesGetNextActivePart c) (DeviceTypeFile c) (DBus_Enabled c) (UpdateControlMapExpirationTimeSeconds c)
  (UpdateControlMapBootExpirationTimeSeconds c) (UpdatePollIntervalSeconds c) (InventoryPollIntervalSeconds c)
  (SkipVerify c) (RetryPollIntervalSeconds c) (RetryPollCount c) (StateScriptTimeoutSeconds c)
  (StateScriptRetryTimeoutSeconds c) (StateScriptRetryIntervalSeconds c) (ModuleTimeoutSeconds c) (ServerCertificate
  c) (ServerURL c) (UpdateLogPath c) (TenantToken c) (Servers c) (DaemonLogLevel c) (UseSoCMonitoring c) (SoCAPIKey c)
  (SoCDeviceID c) (UseFileBasedBootEnv c).
Definition set_RootfsPartB v c := mkFromFile (ArtifactVerifyKey c) (ArtifactVerifyKeys c) (RequireArtifactVerification
  c) (HttpsClient_conf c) (Security_conf c) (Connectivity_conf c) (RootfsPartA c) v (BootUtilitiesSetActivePart c)
  (BootUtilitiesGetNextActivePart c) (DeviceTypeFile c) (DBus_Enabled c) (UpdateControlMapExpirationTimeSeconds c)
  (UpdateControlMapBootExpirationTimeSeconds c) (UpdatePollIntervalSeconds c) (InventoryPollIntervalSeconds c)
  (SkipVerify c) (RetryPollIntervalSeconds c) (RetryPollCount c) (StateScriptTimeoutSeconds c)
  (StateScriptRetryTimeoutSeconds c) (StateScriptRetryIntervalSeconds c) (ModuleTimeoutSeconds c) (ServerCertificate
  c) (ServerURL c) (UpdateLogPath c) (TenantToken c) (Servers c) (DaemonLogLevel c) (UseSoCMonitoring c) (SoCAPIKey c)
  (SoCDeviceID c) (UseFileBasedBootEnv c).
Definition set_BootUtilitiesSetActivePart v c := mkFromFile (ArtifactVerifyKey c) (ArtifactVerifyKeys c)
  (RequireArtifactVerification c) (HttpsClient_conf c) (Security_conf c) (Connectivity_conf c) (RootfsPartA c)
  (RootfsPartB c) v (BootUtilitiesGetNextActivePart c) (DeviceTypeFile c) (DBus_Enabled c)
  (UpdateControlMapExpirationTimeSeconds c) (UpdateControlMapBootExpirationTimeSeconds c) (UpdatePollIntervalSeconds
  c) (InventoryPollIntervalSeconds c) (SkipVerify c) (RetryPollIntervalSeconds c) (RetryPollCount c)
  (StateScriptTimeoutSeconds c) (StateScriptRetryTimeoutSeconds c) (StateScriptRetryIntervalSeconds c)
  (ModuleTimeoutSeconds c) (ServerCertificate c) (ServerURL c) (UpdateLogPath c) (TenantToken c) (Servers c)
  (DaemonLogLevel c) (UseSoCMonitoring c) (SoCAPIKey c) (SoCDeviceID c) (UseFileBasedBootEnv c).
Definition set_BootUtilitiesGetNextActivePart v c := mkFromFile (ArtifactVerifyKey c) (ArtifactVerifyKeys c)
  (RequireArtifactVerification c) (HttpsClient_conf c) (Security_conf c) (Connectivity_conf c) (RootfsPartA c)
  (RootfsPartB c) (BootUtilitiesSetActivePart c) v (DeviceTypeFile c) (DBus_Enabled c)
  (UpdateControlMapExpirationTimeSeconds c) (UpdateControlMapBootExpirationTimeSeconds c) (UpdatePollIntervalSeconds
  c) (InventoryPollIntervalSeconds c) (SkipVerify c) (RetryPollIntervalSeconds c) (RetryPollCount c)
  (StateScriptTimeoutSeconds c) (StateScriptRetryTimeoutSeconds c) (StateScriptRetryIntervalSeconds c)
  (ModuleTimeoutSeconds c) (ServerCertificate c) (ServerURL c) (UpdateLogPath c) (TenantToken c) (Servers c)
  (DaemonLogLevel c) (UseSoCMonitoring c) (SoCAPIKey c) (SoCDeviceID c) (UseFileBasedBootEnv c).
Definition set_DeviceTypeFile v c := mkFromFile (ArtifactVerifyKey c) (ArtifactVerifyKeys c)
  (RequireArtifactVerification c) (HttpsClient_conf c) (Security_conf c) (Connectivity_conf c) (RootfsPartA c)
  (RootfsPartB c) (BootUtilitiesSetActivePart c) (BootUtilitiesGetNextActivePart c) v (DBus_Enabled c)
  (UpdateControlMapExpirationTimeSeconds c) (UpdateControlMapBootExpirationTimeSeconds c) (UpdatePollIntervalSeconds
  c) (InventoryPollIntervalSeconds c) (SkipVerify c) (RetryPollIntervalSeconds c) (RetryPollCount c)
  (StateScriptTimeoutSeconds c) (StateScriptRetryTimeoutSeconds c) (StateScriptRetryIntervalSeconds c)
  (ModuleTimeoutSeconds c) (ServerCertificate c) (ServerURL c) (UpdateLogPath c) (TenantToken c) (Servers c)
  (DaemonLogLevel c) (UseSoCMonitoring c) (SoCAPIKey c) (SoCDeviceID c) (UseFileBasedBootEnv c).
Definition set_DBus_Enabled v c := mkFromFile (ArtifactVerifyKey c) (ArtifactVerifyKeys c)
  (RequireArtifactVerification c) (HttpsClient_conf c) (Security_conf c) (Connectivity_conf c) (RootfsPartA c)
  (RootfsPartB c) (BootUtilitiesSetActivePart c) (BootUtilitiesGetNextActivePart c) (DeviceTypeFile c) v
  (UpdateControlMapExpirationTimeSeconds c) (UpdateControlMapBootExpirationTimeSeconds c) (UpdatePollIntervalSeconds
  c) (InventoryPollIntervalSeconds c) (SkipVerify c) (RetryPollIntervalSeconds c) (RetryPollCount c)
  (StateScriptTimeoutSeconds c) (StateScriptRetryTimeoutSeconds c) (StateScriptRetryIntervalSeconds c)
  (ModuleTimeoutSeconds c) (ServerCertificate c) (ServerURL c) (UpdateLogPath c) (TenantToken c) (Servers c)
  (DaemonLogLevel c) (UseSoCMonitoring c) (SoCAPIKey c) (SoCDeviceID c) (UseFileBasedBootEnv c).
Definition set_UpdateControlMapExpirationTimeSeconds v c := mkFromFile (ArtifactVerifyKey c) (ArtifactVerifyKeys c)
  (RequireArtifactVerification c) (HttpsClient_conf c) (Security_conf c) (Connectivity_conf c) (RootfsPartA c)
  (RootfsPartB c) (BootUtilitiesSetActivePart c) (BootUtilitiesGetNextActivePart c) (DeviceTypeFile c) (DBus_Enabled
  c) v (UpdateControlMapBootExpirationTimeSeconds c) (UpdatePollIntervalSeconds c) (InventoryPollIntervalSeconds c)
  (SkipVerify c) (RetryPollIntervalSeconds c) (RetryPollCount c) (StateScriptTimeoutSeconds c)
  (StateScriptRetryTimeoutSeconds c) (StateScriptRetryIntervalSeconds c) (ModuleTimeoutSeconds c) (ServerCertificate
  c) (ServerURL c) (UpdateLogPath c) (TenantToken c) (Servers c) (DaemonLogLevel c) (UseSoCMonitoring c) (SoCAPIKey c)
  (SoCDeviceID c) (UseFileBasedBootEnv c).
Definition set_UpdateControlMapBootExpirationTimeSeconds v c := mkFromFile (ArtifactVerifyKey c) (ArtifactVerifyKeys
  c) (RequireArtifactVerification c) (HttpsClient_conf c) (Security_conf c) (Connectivity_conf c) (RootfsPartA c)
  (RootfsPartB c) (BootUtilitiesSetActivePart c) (BootUtilitiesGetNextActivePart c) (DeviceTypeFile c) (DBus_Enabled
  c) (UpdateControlMapExpirationTimeSeconds c) v (UpdatePollIntervalSeconds c) (InventoryPollIntervalSeconds c)
  (SkipVerify c) (RetryPollIntervalSeconds c) (RetryPollCount c) (StateScriptTimeoutSeconds c)
  (StateScriptRetryTimeoutSeconds c) (StateScriptRetryIntervalSeconds c) (ModuleTimeoutSeconds c) (ServerCertificate
  c) (ServerURL c) (UpdateLogPath c) (TenantToken c) (Servers c) (DaemonLogLevel c) (UseSoCMonitoring c) (SoCAPIKey c)
  (SoCDeviceID c) (UseFileBasedBootEnv c).
Definition set_UpdatePollIntervalSeconds v c := mkFromFile (ArtifactVerifyKey c) (ArtifactVerifyKeys c)
  (RequireArtifactVerification c) (HttpsClient_conf c) (Security_conf c) (Connectivity_conf c) (RootfsPartA c)
  (RootfsPartB c) (BootUtilitiesSetActivePart c) (BootUtilitiesGetNextActivePart c) (DeviceTypeFile c) (DBus_Enabled
  c) (UpdateControlMapExpirationTimeSeconds c) (UpdateControlMapBootExpirationTimeSeconds c) v
  (InventoryPollIntervalSeconds c) (SkipVerify c) (RetryPollIntervalSeconds c) (RetryPollCount c)
  (StateScriptTimeoutSeconds c) (StateScriptRetryTimeoutSeconds c) (StateScriptRetryIntervalSeconds c)
  (ModuleTimeoutSeconds c) (ServerCertificate c) (ServerURL c) (UpdateLogPath c) (TenantToken c) (Servers c)
  (DaemonLogLevel c) (UseSoCMonitoring c) (SoCAPIKey c) (SoCDeviceID c) (UseFileBasedBootEnv c).
Definition set_InventoryPollIntervalSeconds v c := mkFromFile (ArtifactVerifyKey c) (ArtifactVerifyKeys c)
  (RequireArtifactVerification c) (HttpsClient_conf c) (Security_conf c) (Connectivity_conf c) (RootfsPartA c)
  (RootfsPartB c) (BootUtilitiesSetActivePart c) (BootUtilitiesGetNextActivePart c) (DeviceTypeFile c) (DBus_Enabled
  c) (UpdateControlMapExpirationTimeSeconds c) (UpdateControlMapBootExpirationTimeSeconds c)
  (UpdatePollIntervalSeconds c) v (SkipVerify c) (RetryPollIntervalSeconds c) (RetryPollCount c)
  (StateScriptTimeoutSeconds c) (StateScriptRetryTimeoutSeconds c) (StateScriptRetryIntervalSeconds c)
  (ModuleTimeoutSeconds c) (ServerCertificate c) (ServerURL c) (UpdateLogPath c) (TenantToken c) (Servers c)
  (DaemonLogLevel c) (UseSoCMonitoring c) (SoCAPIKey c) (SoCDeviceID c) (UseFileBasedBootEnv c).
Definition set_SkipVerify v c := mkFromFile (ArtifactVerifyKey c) (ArtifactVerifyKeys c) (RequireArtifactVerification
  c) (HttpsClient_conf c) (Security_conf c) (Connectivity_conf c) (RootfsPartA c) (RootfsPartB c)
  (BootUtilitiesSetActivePart c) (BootUtilitiesGetNextActivePart c) (DeviceTypeFile c) (DBus_Enabled c)
  (UpdateControlMapExpirationTimeSeconds c) (UpdateControlMapBootExpirationTimeSeconds c) (UpdatePollIntervalSeconds
  c) (InventoryPollIntervalSeconds c) v (RetryPollIntervalSeconds c) (RetryPollCount c) (StateScriptTimeoutSeconds c)
  (StateScriptRetryTimeoutSeconds c) (StateScriptRetryIntervalSeconds c) (ModuleTimeoutSeconds c) (ServerCertificate
  c) (ServerURL c) (UpdateLogPath c) (TenantToken c) (Servers c) (DaemonLogLevel c) (UseSoCMonitoring c) (SoCAPIKey c)
  (SoCDeviceID c) (UseFileBasedBootEnv c).
Definition set_RetryPollIntervalSeconds v c := mkFromFile (ArtifactVerifyKey c) (ArtifactVerifyKeys c)
  (RequireArtifactVerification c) (HttpsClient_conf c) (Security_conf c) (Connectivity_conf c) (RootfsPartA c)
  (RootfsPartB c) (BootUtilitiesSetActivePart c) (BootUtilitiesGetNextActivePart c) (DeviceTypeFile c) (DBus_Enabled
  c) (UpdateControlMapExpirationTimeSeconds c) (UpdateControlMapBootExpirationTimeSeconds c)
  (UpdatePollIntervalSeconds c) (InventoryPollIntervalSeconds c) (SkipVerify c) v (RetryPollCount c)
  (StateScriptTimeoutSeconds c) (StateScriptRetryTimeoutSeconds c) (StateScriptRetryIntervalSeconds c)
  (ModuleTimeoutSeconds c) (ServerCertificate c) (ServerURL c) (UpdateLogPath c) (TenantToken c) (Servers c)
  (DaemonLogLevel c) (UseSoCMonitoring c) (SoCAPIKey c) (SoCDeviceID c) (UseFileBasedBootEnv c).
Definition set_RetryPollCount v c := mkFromFile (ArtifactVerifyKey c) (ArtifactVerifyKeys c)
  (RequireArtifactVerification c) (HttpsClient_conf c) (Security_conf c) (Connectivity_conf c) (RootfsPartA c)
  (RootfsPartB c) (BootUtilitiesSetActivePart c) (BootUtilitiesGetNextActivePart c) (DeviceTypeFile c) (DBus_Enabled
  c) (UpdateControlMapExpirationTimeSeconds c) (UpdateControlMapBootExpirationTimeSeconds c)
  (UpdatePollIntervalSeconds c) (InventoryPollIntervalSeconds c) (SkipVerify c) (RetryPollIntervalSeconds c) v
  (StateScriptTimeoutSeconds c) (StateScriptRetryTimeoutSeconds c) (StateScriptRetryIntervalSeconds c)
  (ModuleTimeoutSeconds c) (ServerCertificate c) (ServerURL c) (UpdateLogPath c) (TenantToken c) (Servers c)
  (DaemonLogLevel c) (UseSoCMonitoring c) (SoCAPIKey c) (SoCDeviceID c) (UseFileBasedBootEnv c).
Definition set_StateScriptTimeoutSeconds v c := mkFromFile (ArtifactVerifyKey c) (ArtifactVerifyKeys c)
  (RequireArtifactVerification c) (HttpsClient_conf c) (Security_conf c) (Connectivity_conf c) (RootfsPartA c)
  (RootfsPartB c) (BootUtilitiesSetActivePart c) (BootUtilitiesGetNextActivePart c) (DeviceTypeFile c) (DBus_Enabled
  c) (UpdateControlMapExpirationTimeSeconds c) (UpdateControlMapBootExpirationTimeSeconds c)
  (UpdatePollIntervalSeconds c) (InventoryPollIntervalSeconds c) (SkipVerify c) (RetryPollIntervalSeconds c)
  (RetryPollCount c) v (StateScriptRetryTimeoutSeconds c) (StateScriptRetryIntervalSeconds c) (ModuleTimeoutSeconds c)
  (ServerCertificate c) (ServerURL c) (UpdateLogPath c) (TenantToken c) (Servers c) (DaemonLogLevel c)
  (UseSoCMonitoring c) (SoCAPIKey c) (SoCDeviceID c) (UseFileBasedBootEnv c).
Definition set_StateScriptRetryTimeoutSeconds v c := mkFromFile (ArtifactVerifyKey c) (ArtifactVerifyKeys c)
  (RequireArtifactVerification c) (HttpsClient_conf c) (Security_conf c) (Connectivity_conf c) (RootfsPartA c)
  (RootfsPartB c) (BootUtilitiesSetActivePart c) (BootUtilitiesGetNextActivePart c) (DeviceTypeFile c) (DBus_Enabled
  c) (UpdateControlMapExpirationTimeSeconds c) (UpdateControlMapBootExpirationTimeSeconds c)
  (UpdatePollIntervalSeconds c) (InventoryPollIntervalSeconds c) (SkipVerify c) (RetryPollIntervalSeconds c)
  (RetryPollCount c) (StateScriptTimeoutSeconds c) v (StateScriptRetryIntervalSeconds c) (ModuleTimeoutSeconds c)
  (ServerCertificate c) (ServerURL c) (UpdateLogPath c) (TenantToken c) (Servers c) (DaemonLogLevel c)
  (UseSoCMonitoring c) (SoCAPIKey c) (SoCDeviceID c) (UseFileBasedBootEnv c).
Definition set_StateScriptRetryIntervalSeconds v c := mkFromFile (ArtifactVerifyKey c) (ArtifactVerifyKeys c)
  (RequireArtifactVerification c) (HttpsClient_conf c) (Security_conf c) (Connectivity_conf c) (RootfsPartA c)
  (RootfsPartB c) (BootUtilitiesSetActivePart c) (BootUtilitiesGetNextActivePart c) (DeviceTypeFile c) (DBus_Enabled
  c) (UpdateControlMapExpirationTimeSeconds c) (UpdateControlMapBootExpirationTimeSeconds c)
  (UpdatePollIntervalSeconds c) (InventoryPollIntervalSeconds c) (SkipVerify c) (RetryPollIntervalSeconds c)
  (RetryPollCount c) (StateScriptTimeoutSeconds c) (StateScriptRetryTimeoutSeconds c) v (ModuleTimeoutSeconds c)
  (ServerCertificate c) (ServerURL c) (UpdateLogPath c) (TenantToken c) (Servers c) (DaemonLogLevel c)
  (UseSoCMonitoring c) (SoCAPIKey c) (SoCDeviceID c) (UseFileBasedBootEnv c).
Definition set_ModuleTimeoutSeconds v c := mkFromFile (ArtifactVerifyKey c) (ArtifactVerifyKeys c)
  (RequireArtifactVerification c) (HttpsClient_conf c) (Security_conf c) (Connectivity_conf c) (RootfsPartA c)
  (RootfsPartB c) (BootUtilitiesSetActivePart c) (BootUtilitiesGetNextActivePart c) (DeviceTypeFile c) (DBus_Enabled
  c) (UpdateControlMapExpirationTimeSeconds c) (UpdateControlMapBootExpirationTimeSeconds c)
  (UpdatePollIntervalSeconds c) (InventoryPollIntervalSeconds c) (SkipVerify c) (RetryPollIntervalSeconds c)
  (RetryPollCount c) (StateScriptTimeoutSeconds c) (StateScriptRetryTimeoutSeconds c) (StateScriptRetryIntervalSeconds
  c) v (ServerCertificate c) (ServerURL c) (UpdateLogPath c) (TenantToken c) (Servers c) (DaemonLogLevel c)
  (UseSoCMonitoring c) (SoCAPIKey c) (SoCDeviceID c) (UseFileBasedBootEnv c).
Definition set_ServerCertificate v c := mkFromFile (ArtifactVerifyKey c) (ArtifactVerifyKeys c)
  (RequireArtifactVerification c) (HttpsClient_conf c) (Security_conf c) (Connectivity_conf c) (RootfsPartA c)
  (RootfsPartB c) (BootUtilitiesSetActivePart c) (BootUtilitiesGetNextActivePart c) (DeviceTypeFile c) (DBus_Enabled
  c) (UpdateControlMapExpirationTimeSeconds c) (UpdateControlMapBootExpirationTimeSeconds c)
  (UpdatePollIntervalSeconds c) (InventoryPollIntervalSeconds c) (SkipVerify c) (RetryPollIntervalSeconds c)
  (RetryPollCount c) (StateScriptTimeoutSeconds c) (StateScriptRetryTimeoutSeconds c) (StateScriptRetryIntervalSeconds
  c) (ModuleTimeoutSeconds c) v (ServerURL c) (UpdateLogPath c) (TenantToken c) (Servers c) (DaemonLogLevel c)
  (UseSoCMonitoring c) (SoCAPIKey c) (SoCDeviceID c) (UseFileBasedBootEnv c).
Definition set_ServerURL v c := mkFromFile (ArtifactVerifyKey c) (ArtifactVerifyKeys c) (RequireArtifactVerification
  c) (HttpsClient_conf c) (Security_conf c) (Connectivity_conf c) (RootfsPartA c) (RootfsPartB c)
  (BootUtilitiesSetActivePart c) (BootUtilitiesGetNextActivePart c) (DeviceTypeFile c) (DBus_Enabled c)
  (UpdateControlMapExpirationTimeSeconds c) (UpdateControlMapBootExpirationTimeSeconds c) (UpdatePollIntervalSeconds
  c) (InventoryPollIntervalSeconds c) (SkipVerify c) (RetryPollIntervalSeconds c) (RetryPollCount c)
  (StateScriptTimeoutSeconds c) (StateScriptRetryTimeoutSeconds c) (StateScriptRetryIntervalSeconds c)
  (ModuleTimeoutSeconds c) (ServerCertificate c) v (UpdateLogPath c) (TenantToken c) (Servers c) (DaemonLogLevel c)
  (UseSoCMonitoring c) (SoCAPIKey c) (SoCDeviceID c) (UseFileBasedBootEnv c).
Definition set_UpdateLogPath v c := mkFromFile (ArtifactVerifyKey c) (ArtifactVerifyKeys c)
  (RequireArtifactVerification c) (HttpsClient_conf c) (Security_conf c) (Connectivity_conf c) (RootfsPartA c)
  (RootfsPartB c) (BootUtilitiesSetActivePart c) (BootUtilitiesGetNextActivePart c) (DeviceTypeFile c) (DBus_Enabled
  c) (UpdateControlMapExpirationTimeSeconds c) (UpdateControlMapBootExpirationTimeSeconds c)
  (UpdatePollIntervalSeconds c) (InventoryPollIntervalSeconds c) (SkipVerify c) (RetryPollIntervalSeconds c)
  (RetryPollCount c) (StateScriptTimeoutSeconds c) (StateScriptRetryTimeoutSeconds c) (StateScriptRetryIntervalSeconds
  c) (ModuleTimeoutSeconds c) (ServerCertificate c) (ServerURL c) v (TenantToken c) (Servers c) (DaemonLogLevel c)
  (UseSoCMonitoring c) (SoCAPIKey c) (SoCDeviceID c) (UseFileBasedBootEnv c).
Definition set_TenantToken v c := mkFromFile (ArtifactVerifyKey c) (ArtifactVerifyKeys c) (RequireArtifactVerification
  c) (HttpsClient_conf c) (Security_conf c) (Connectivity_conf c) (RootfsPartA c) (RootfsPartB c)
  (BootUtilitiesSetActivePart c) (BootUtilitiesGetNextActivePart c) (DeviceTypeFile c) (DBus_Enabled c)
  (UpdateControlMapExpirationTimeSeconds c) (UpdateControlMapBootExpirationTimeSeconds c) (UpdatePollIntervalSeconds
  c) (InventoryPollIntervalSeconds c) (SkipVerify c) (RetryPollIntervalSeconds c) (RetryPollCount c)
  (StateScriptTimeoutSeconds c) (StateScriptRetryTimeoutSeconds c) (StateScriptRetryIntervalSeconds c)
  (ModuleTimeoutSeconds c) (ServerCertificate c) (ServerURL c) (UpdateLogPath c) v (Servers c) (DaemonLogLevel c)
  (UseSoCMonitoring c) (SoCAPIKey c) (SoCDeviceID c) (UseFileBasedBootEnv c).
Definition set_Servers v c := mkFromFile (ArtifactVerifyKey c) (ArtifactVerifyKeys c) (RequireArtifactVerification c)
  (HttpsClient_conf c) (Security_conf c) (Connectivity_conf c) (RootfsPartA c) (RootfsPartB c)
  (BootUtilitiesSetActivePart c) (BootUtilitiesGetNextActivePart c) (DeviceTypeFile c) (DBus_Enabled c)
  (UpdateControlMapExpirationTimeSeconds c) (UpdateControlMapBootExpirationTimeSeconds c) (UpdatePollIntervalSeconds
  c) (InventoryPollIntervalSeconds c) (SkipVerify c) (RetryPollIntervalSeconds c) (RetryPollCount c)
  (StateScriptTimeoutSeconds c) (StateScriptRetryTimeoutSeconds c) (StateScriptRetryIntervalSeconds c)
  (ModuleTimeoutSeconds c) (ServerCertificate c) (ServerURL c) (UpdateLogPath c) (TenantToken c) v (DaemonLogLevel c)
  (UseSoCMonitoring c) (SoCAPIKey c) (SoCDeviceID c) (UseFileBasedBootEnv c).
Definition set_DaemonLogLevel v c := mkFromFile (ArtifactVerifyKey c) (ArtifactVerifyKeys c)
  (RequireArtifactVerification c) (HttpsClient_conf c) (Security_conf c) (Connectivity_conf c) (RootfsPartA c)
  (RootfsPartB c) (BootUtilitiesSetActivePart c) (BootUtilitiesGetNextActivePart c) (DeviceTypeFile c) (DBus_Enabled
  c) (UpdateControlMapExpirationTimeSeconds c) (UpdateControlMapBootExpirationTimeSeconds c)
  (UpdatePollIntervalSeconds c) (InventoryPollIntervalSeconds c) (SkipVerify c) (RetryPollIntervalSeconds c)
  (RetryPollCount c) (StateScriptTimeoutSeconds c) (StateScriptRetryTimeoutSeconds c) (StateScriptRetryIntervalSeconds
  c) (ModuleTimeoutSeconds c) (ServerCertificate c) (ServerURL c) (UpdateLogPath c) (TenantToken c) (Servers c) v
  (UseSoCMonitoring c) (SoCAPIKey c) (SoCDeviceID c) (UseFileBasedBootEnv c).
Definition set_UseSoCMonitoring v c := mkFromFile (ArtifactVerifyKey c) (ArtifactVerifyKeys c)
  (RequireArtifactVerification c) (HttpsClient_conf c) (Security_conf c) (Connectivity_conf c) (RootfsPartA c)
  (RootfsPartB c) (BootUtilitiesSetActivePart c) (BootUtilitiesGetNextActivePart c) (DeviceTypeFile c) (DBus_Enabled
  c) (UpdateControlMapExpirationTimeSeconds c) (UpdateControlMapBootExpirationTimeSeconds c)
  (UpdatePollIntervalSeconds c) (InventoryPollIntervalSeconds c) (SkipVerify c) (RetryPollIntervalSeconds c)
  (RetryPollCount c) (StateScriptTimeoutSeconds c) (StateScriptRetryTimeoutSeconds c) (StateScriptRetryIntervalSeconds
  c) (ModuleTimeoutSeconds c) (ServerCertificate c) (ServerURL c) (UpdateLogPath c) (TenantToken c) (Servers c)
  (DaemonLogLevel c) v (SoCAPIKey c) (SoCDeviceID c) (UseFileBasedBootEnv c).
Definition set_SoCAPIKey v c := mkFromFile (ArtifactVerifyKey c) (ArtifactVerifyKeys c) (RequireArtifactVerification
  c) (HttpsClient_conf c) (Security_conf c) (Connectivity_conf c) (RootfsPartA c) (RootfsPartB c)
  (BootUtilitiesSetActivePart c) (BootUtilitiesGetNextActivePart c) (DeviceTypeFile c) (DBus_Enabled c)
  (UpdateControlMapExpirationTimeSeconds c) (UpdateControlMapBootExpirationTimeSeconds c) (UpdatePollIntervalSeconds
  c) (InventoryPollIntervalSeconds c) (SkipVerify c) (RetryPollIntervalSeconds c) (RetryPollCount c)
  (StateScriptTimeoutSeconds c) (StateScriptRetryTimeoutSeconds c) (StateScriptRetryIntervalSeconds c)
  (ModuleTimeoutSeconds c) (ServerCertificate c) (ServerURL c) (UpdateLogPath c) (TenantToken c) (Servers c)
  (DaemonLogLevel c) (UseSoCMonitoring c) v (SoCDeviceID c) (UseFileBasedBootEnv c).
Definition set_SoCDeviceID v c := mkFromFile (ArtifactVerifyKey c) (ArtifactVerifyKeys c) (RequireArtifactVerification
  c) (HttpsClient_conf c) (Security_conf c) (Connectivity_conf c) (RootfsPartA c) (RootfsPartB c)
  (BootUtilitiesSetActivePart c) (BootUtilitiesGetNextActivePart c) (DeviceTypeFile c) (DBus_Enabled c)
  (UpdateControlMapExpirationTimeSeconds c) (UpdateControlMapBootExpirationTimeSeconds c) (UpdatePollIntervalSeconds
  c) (InventoryPollIntervalSeconds c) (SkipVerify c) (RetryPollIntervalSeconds c) (RetryPollCount c)
  (StateScriptTimeoutSeconds c) (StateScriptRetryTimeoutSeconds c) (StateScriptRetryIntervalSeconds c)
  (ModuleTimeoutSeconds c) (ServerCertificate c) (ServerURL c) (UpdateLogPath c) (TenantToken c) (Servers c)
  (DaemonLogLevel c) (UseSoCMonitoring c) (SoCAPIKey c) v (UseFileBasedBootEnv c).
Definition set_UseFileBasedBootEnv v c := mkFromFile (ArtifactVerifyKey c) (ArtifactVerifyKeys c)
  (RequireArtifactVerification c) (HttpsClient_conf c) (Security_conf c) (Connectivity_conf c) (RootfsPartA c)
  (RootfsPartB c) (BootUtilitiesSetActivePart c) (BootUtilitiesGetNextActivePart c) (DeviceTypeFile c) (DBus_Enabled
  c) (UpdateControlMapExpirationTimeSeconds c) (UpdateControlMapBootExpirationTimeSeconds c)
  (UpdatePollIntervalSeconds c) (InventoryPollIntervalSeconds c) (SkipVerify c) (RetryPollIntervalSeconds c)
  (RetryPollCount c) (StateScriptTimeoutSeconds c) (StateScriptRetryTimeoutSeconds c) (StateScriptRetryIntervalSeconds
  c) (ModuleTimeoutSeconds c) (ServerCertificate c) (ServerURL c) (UpdateLogPath c) (TenantToken c) (Servers c)
  (DaemonLogLevel c) (UseSoCMonitoring c) (SoCAPIKey c) (SoCDeviceID c) v.

Definition no_FromFile : MenderConfigFromFile := mkFromFile EmptyString [] false (mkHttpsClient EmptyString
  EmptyString EmptyString) (mkSecurity EmptyString EmptyString) (mkConnectivity false 0) EmptyString EmptyString
  EmptyString EmptyString EmptyString false 0 0 0 0 false 0 0 0 0 0 0 EmptyString EmptyString EmptyString EmptyString
  None EmptyString false EmptyString EmptyString false.

(** ** Decoding *)

Definition HttpsClient_pfields : list (string * pdecoder HttpsClient) :=
  [("Certificate", on_pfield Certificate (fun v h => mkHttpsClient v (ClientKey h) (SSLEngine h)) (atom dec_string));
   ("Key", on_pfield ClientKey (fun v h => mkHttpsClient (Certificate h) v (SSLEngine h)) (atom dec_string));
   ("SSLEngine", on_pfield SSLEngine (fun v h => mkHttpsClient (Certificate h) (ClientKey h) v) (atom dec_string))].

Definition Security_pfields : list (string * pdecoder Security) :=
  [("AuthPrivateKey", on_pfield AuthPrivateKey (fun v s => mkSecurity v (Security_SSLEngine s)) (atom dec_string));
   ("SSLEngine", on_pfield Security_SSLEngine (fun v s => mkSecurity (AuthPrivateKey s) v) (atom dec_string))].

Definition Connectivity_pfields : list (string * pdecoder Connectivity) :=
  [("DisableKeepAlive", on_pfield DisableKeepAlive (fun v c => mkConnectivity v (IdleConnTimeoutSeconds c)) (atom dec_bool));
   ("IdleConnTimeoutSeconds",
      on_pfield IdleConnTimeoutSeconds (fun v c => mkConnectivity (DisableKeepAlive c) v) (atom dec_int))].

Definition DBus_pfields : list (string * pdecoder bool) := [("Enabled", atom dec_bool)].

Definition MenderServer_pfields : list (string * pdecoder MenderServer) :=
  [("ServerURL", on_pfield server_URL (fun v _ => mkServer v) (atom dec_string))].

(** An array is decoded onto the elements that are there, so that an element keeps
    what the new text does not say. *)
Fixpoint p_elements {R} (zero : R) (d : pdecoder R) (old : list R) (l : list json) : list R * option Failure :=
  match l with
  | [] => ([], None)
  | j :: l =>
      let '(v, f) := d j (match old with v :: _ => v | [] => zero end) in
      let '(vs, g) := p_elements zero d (tail old) l in
      (v :: vs, match f with Some f => Some f | None => g end)
  end.

Definition p_key_list : pdecoder (list string) := fun j old =>
  match j with
  | JArr l => p_elements EmptyString (atom dec_string) old l
  | JNull => ([], None)
  | _ => (old, Some (Saved mismatch))
  end.

Definition p_servers : pdecoder (option (list MenderServer)) := fun j old =>
  match j with
  | JArr l => let '(vs, f) := p_elements (mkServer EmptyString) (p_struct MenderServer_pfields) (default [] old) l in (Some vs, f)
  | JNull => (None, None)
  | _ => (old, Some (Saved mismatch))
  end.

Definition FromFile_pfields : list (string * pdecoder MenderConfigFromFile) :=
  [("ArtifactVerifyKey", on_pfield ArtifactVerifyKey set_ArtifactVerifyKey (atom dec_string));
   ("ArtifactVerifyKeys", on_pfield ArtifactVerifyKeys set_ArtifactVerifyKeys p_key_list);
   ("RequireArtifactVerification", on_pfield RequireArtifactVerification set_RequireArtifactVerification (atom dec_bool));
   ("HttpsClient", on_pfield HttpsClient_conf set_HttpsClient (p_struct HttpsClient_pfields));
   ("Security", on_pfield Security_conf set_Security (p_struct Security_pfields));
   ("Connectivity", on_pfield Connectivity_conf set_Connectivity (p_struct Connectivity_pfields));
   ("RootfsPartA", on_pfield RootfsPartA set_RootfsPartA (atom dec_string));
   ("RootfsPartB", on_pfield RootfsPartB set_RootfsPartB (atom dec_string));
   ("BootUtilitiesSetActivePart", on_pfield BootUtilitiesSetActivePart set_BootUtilitiesSetActivePart (atom dec_string));
   ("BootUtilitiesGetNextActivePart", on_pfield BootUtilitiesGetNextActivePart set_BootUtilitiesGetNextActivePart (atom dec_string));
   ("DeviceTypeFile", on_pfield DeviceTypeFile set_DeviceTypeFile (atom dec_string));
   ("DBus", on_pfield DBus_Enabled set_DBus_Enabled (p_struct DBus_pfields));
   ("UpdateControlMapExpirationTimeSeconds", on_pfield UpdateControlMapExpirationTimeSeconds set_UpdateControlMapExpirationTimeSeconds (atom dec_int));
   ("UpdateControlMapBootExpirationTimeSeconds", on_pfield UpdateControlMapBootExpirationTimeSeconds set_UpdateControlMapBootExpirationTimeSeconds (atom dec_int));
   ("UpdatePollIntervalSeconds", on_pfield UpdatePollIntervalSeconds set_UpdatePollIntervalSeconds (atom dec_int));
   ("InventoryPollIntervalSeconds", on_pfield InventoryPollIntervalSeconds set_InventoryPollIntervalSeconds (atom dec_int));
   ("SkipVerify", on_pfield SkipVerify set_SkipVerify (atom dec_bool));
   ("RetryPollIntervalSeconds", on_pfield RetryPollIntervalSeconds set_RetryPollIntervalSeconds (atom dec_int));
   ("RetryPollCount", on_pfield RetryPollCount set_RetryPollCount (atom dec_int));
   ("StateScriptTimeoutSeconds", on_pfield StateScriptTimeoutSeconds set_StateScriptTimeoutSeconds (atom dec_int));
   ("StateScriptRetryTimeoutSeconds", on_pfield StateScriptRetryTimeoutSeconds set_StateScriptRetryTimeoutSeconds (atom dec_int));
   ("StateScriptRetryIntervalSeconds", on_pfield StateScriptRetryIntervalSeconds set_StateScriptRetryIntervalSeconds (atom dec_int));
   ("ModuleTimeoutSeconds", on_pfield ModuleTimeoutSeconds set_ModuleTimeoutSeconds (atom dec_int));
   ("ServerCertificate", on_pfield ServerCertificate set_ServerCertificate (atom dec_string));
   ("ServerURL", on_pfield ServerURL set_ServerURL (atom dec_string));
   ("UpdateLogPath", on_pfield UpdateLogPath set_UpdateLogPath (atom dec_string));
   ("TenantToken", on_pfield TenantToken set_TenantToken (atom dec_string));
   ("Servers", on_pfield Servers set_Servers p_servers);
   ("DaemonLogLevel", on_pfield DaemonLogLevel set_DaemonLogLevel (atom dec_string));
   ("UseSoCMonitoring", on_pfield UseSoCMonitoring set_UseSoCMonitoring (atom dec_bool));
   ("SoCAPIKey", on_pfield SoCAPIKey set_SoCAPIKey (atom dec_string));
   ("SoCDeviceID", on_pfield SoCDeviceID set_SoCDeviceID (atom dec_string));
   ("UseFileBasedBootEnv", on_pfield UseFileBasedBootEnv set_UseFileBasedBootEnv (atom dec_bool))].

(** ** The paths *)

(** The environment of the process, whether a path is a directory with entries
    (pathExistsAndNotEmpty), os.Stat, ioutil.ReadFile, and whether there is a D-Bus
    library. *)
Class ConfFiles := {
  Getenv : string -> string;
  pathExistsAndNotEmpty : string -> bool;
  ConfStat : string -> option error;
  ConfRead : string -> result string;
  has_DBus : bool
}.

Section loading.
Context `{ConfFiles}.

Definition getenvWithFallback (primaryKey fallbackKey defaultValue : string) : string :=
  if negb (bool_decide (Getenv primaryKey = EmptyString)) then Getenv primaryKey
  else if negb (bool_decide (Getenv fallbackKey = EmptyString)) then Getenv fallbackKey
  else defaultValue.

Definition dir_or_legacy (dir legacy : string) : string :=
  if pathExistsAndNotEmpty dir then dir else if pathExistsAndNotEmpty legacy then legacy else dir.

Definition GetConfDirPath : string :=
  dir_or_legacy (getenvWithFallback "OTAPULSE_CONF_DIR" "MENDER_CONF_DIR" "/etc/otapulse") "/etc/mender".
Definition GetDataDirPath : string :=
  dir_or_legacy (getenvWithFallback "OTAPULSE_DATA_DIR" "MENDER_DATA_DIR" "/usr/share/otapulse") "/usr/share/mender".
Definition GetStateDirPath : string :=
  dir_or_legacy (getenvWithFallback "OTAPULSE_DATASTORE_DIR" "MENDER_DATASTORE_DIR" "/var/lib/otapulse") "/var/lib/mender".

Definition DefaultConfFile : string := join_path GetConfDirPath "otapulse.conf".
Definition DefaultFallbackConfFile : string := join_path GetStateDirPath "otapulse.conf".

(** ** Loading *)

Definition NewMenderConfig : MenderConfig :=
  mkMenderConfig no_FromFile (join_path GetDataDirPath "modules/v3") (join_path GetStateDirPath "modules/v3")
    (join_path GetStateDirPath "scripts") (join_path GetConfDirPath "scripts") (join_path GetStateDirPath "bootstrap.mender").

Definition set_FromFile (f : MenderConfigFromFile) (c : MenderConfig) : MenderConfig :=
  mkMenderConfig f (ModulesPath c) (ModulesWorkPath c) (ArtifactScriptsPath c) (RootfsScriptsPath c) (BootstrapArtifactFile c).

Definition readConfigFile (f : MenderConfigFromFile) (fileName : string) : result MenderConfigFromFile :=
  match ConfRead fileName with
  | Err err => Err err
  | Ok conf =>
      match unmarshal_text conf with
      | None => Err (EText "Error parsing mender configuration file")
      | Some j =>
          match p_struct FromFile_pfields j f with
          | (_, Some _) => Err (EText "Error parsing config file")
          | (f, None) => Ok f
          end
      end
  end.

(** The key of a file becomes a list of one. *)
Definition unify_keys (f : MenderConfigFromFile) : result MenderConfigFromFile :=
  if bool_decide (ArtifactVerifyKey f = EmptyString) then Ok f
  else
    match ArtifactVerifyKeys f with
    | _ :: _ => Err (EText "both ArtifactVerifyKey and ArtifactVerifyKeys are set")
    | [] => Ok (set_ArtifactVerifyKey EmptyString (set_ArtifactVerifyKeys [ArtifactVerifyKey f] f))
    end.

(** The structure so far, and how many files were loaded. *)
Definition loadConfigFile (configFile : string) (config : MenderConfigFromFile * nat) : result (MenderConfigFromFile * nat) :=
  match ConfStat configFile with
  | Some err =>
      if IsNotExist err then Ok config
      else f ← readConfigFile config.1 configFile; f ← unify_keys f; Ok (f, S config.2)
  | None => f ← readConfigFile config.1 configFile; f ← unify_keys f; Ok (f, S config.2)
  end.

Definition LoadConfig (mainConfigFile fallbackConfigFile : string) : result MenderConfig :=
  let config := NewMenderConfig in
  let f := if has_DBus then set_DBus_Enabled true (FromFile config) else FromFile config in
  loaded ← loadConfigFile fallbackConfigFile (f, O);
  loaded ← loadConfigFile mainConfigFile loaded;
  Ok (set_FromFile loaded.1 config).

(** newSoCAPIKeyReloader of app/mender.go: the key alone, from the same two files;
    a file that cannot be read is passed over. *)
Definition SoC_pfields : list (string * pdecoder string) := [("SoCAPIKey", atom dec_string)].

Fixpoint reload_from (fileNames : list string) (key : string) (read : bool) : result string :=
  match fileNames with
  | [] => if read then Ok key else Err (EText "no OTAPulse config file could be read")
  | fileName :: fileNames =>
      match ConfRead fileName with
      | Err _ => reload_from fileNames key read
      | Ok data =>
          match unmarshal_text data with
          | None => Err (EWrap "parsing" (EText "invalid character in JSON"))
          | Some j =>
              match p_struct SoC_pfields j key with
              | (_, Some f) => Err (EWrap "parsing" (failure_error f))
              | (key, None) => reload_from fileNames key true
              end
          end
      end
  end.

Definition SoCAPIKeyReloader : result string := reload_from [DefaultFallbackConfFile; DefaultConfFile] EmptyString false.

End loading.

(** ** Using it *)

Definition TrimSlash (url : string) : string :=
  if HasSuffix url "/" then String.substring 0 (String.length url - 1) url else url.

(** Both ServerURL and Servers are an error; a single URL becomes a list of one. *)
Definition Validate (f : MenderConfigFromFile) : result MenderConfigFromFile :=
  let trim := map (fun s => mkServer (TrimSlash (server_URL s))) in
  match Servers f with
  | None => Ok (set_Servers (Some (trim [mkServer (ServerURL f)])) f)
  | Some servers =>
      if bool_decide (ServerURL f = EmptyString) then Ok (set_Servers (Some (trim servers)) f)
      else Err (EText "Both Servers AND ServerURL given in otapulse.conf")
  end.

Definition maybeHTTPSClient (f : MenderConfigFromFile) : option HttpsClient :=
  let h := HttpsClient_conf f in
  if negb (bool_decide (Certificate h = EmptyString)) && negb (bool_decide (ClientKey h = EmptyString)) then Some h else None.

Definition GetHttpConfig (f : MenderConfigFromFile) : Config :=
  mkConfig (ServerCertificate f) (maybeHTTPSClient f) (Some (Connectivity_conf f)) (SkipVerify f).

Definition GetDeviceConfig (f : MenderConfigFromFile) : string * string := (RootfsPartA f, RootfsPartB f).
Definition GetDeploymentLogLocation (f : MenderConfigFromFile) : string := UpdateLogPath f.
Definition GetTenantToken (f : MenderConfigFromFile) : string := TenantToken f.

(** ** The clients of the agent (NewMender of app/mender.go) *)

Section clients.
Context `{Openssl} `{CertFiles}.

(** The client for requests, the one for downloads, and, with the monitoring server,
    its URL, the key and the device. *)
Record AgentClients := mkClients {
  api_client : HttpClient;
  download_client : HttpClient;
  monitoring : option (string * string * string)
}.

Definition monitoring_URL (f : MenderConfigFromFile) : string :=
  if bool_decide (ServerURL f = EmptyString) then
    match Servers f with Some (s :: _) => server_URL s | _ => EmptyString end
  else ServerURL f.

Definition NewMender (f : MenderConfigFromFile) : result AgentClients :=
  if UseSoCMonitoring f then
    match NewApiClient (GetHttpConfig f) with
    | Err err => Err (EWrap "error creating SoC Monitoring HTTP API client" err)
    | Ok client => Ok (mkClients client client (Some (monitoring_URL f, SoCAPIKey f, SoCDeviceID f)))
    end
  else
    match NewApiClient (GetHttpConfig f) with
    | Err err => Err (EWrap "error creating HTTP API client" err)
    | Ok api =>
        match NewApiClient (GetHttpConfig f) with
        | Err err => Err (EWrap "error creating HTTP download client" err)
        | Ok download => Ok (mkClients api download None)
        end
    end.

End clients.

(** ** The key of the configuration *)

Section loaded.
Context `{ConfFiles}.

Lemma unify_keys_ok f f' : unify_keys f = Ok f' -> ArtifactVerifyKey f' = EmptyString /\
  ArtifactVerifyKeys f' = (if bool_decide (ArtifactVerifyKey f = EmptyString) then ArtifactVerifyKeys f else [ArtifactVerifyKey f]) /\
  RequireArtifactVerification f' = RequireArtifactVerification f.
Proof.
  unfold unify_keys. case_bool_decide as Hk; [by intros [= <-]|].
  destruct (ArtifactVerifyKeys f); [by intros [= <-]|done].
Qed.

Lemma loadConfigFile_ok file config config' : loadConfigFile file config = Ok config' ->
  (config' = config /\ exists err, ConfStat file = Some err /\ IsNotExist err = true) \/
  exists f, readConfigFile config.1 file = Ok f /\ unify_keys f = Ok config'.1 /\ config'.2 = S config.2.
Proof.
  unfold loadConfigFile. intros Hl.
  assert (forall x, (f ← readConfigFile config.1 file; f ← unify_keys f; Ok (f, S config.2)) = Ok x ->
    exists f, readConfigFile config.1 file = Ok f /\ unify_keys f = Ok x.1 /\ x.2 = S config.2) as Hread.
  { intros x. destruct (readConfigFile config.1 file) as [f|]; [|done]. cbn [mbind result_bind].
    destruct (unify_keys f) as [f'|] eqn:Hu; [|done]. intros [= <-]. by exists f. }
  destruct (ConfStat file) as [err|]; [|right; by apply Hread].
  destruct (IsNotExist err) eqn:He; [|right; by apply Hread]. injection Hl as <-. left. split; [done|]. by exists err.
Qed.

(** The keys of a loaded configuration are one list, and a key that the main file
    named alone is that list: no key is lost. *)
Theorem LoadConfig_keys main fallback c : LoadConfig main fallback = Ok c ->
  ArtifactVerifyKey (FromFile c) = EmptyString /\
  forall before f, readConfigFile before main = Ok f -> ConfStat main = None ->
    (exists n, loadConfigFile fallback
       ((if has_DBus then set_DBus_Enabled true no_FromFile else no_FromFile), O) = Ok (before, n)) ->
    ArtifactVerifyKeys (FromFile c) =
      (if bool_decide (ArtifactVerifyKey f = EmptyString) then ArtifactVerifyKeys f else [ArtifactVerifyKey f]).
Proof.
  unfold LoadConfig. set (f0 := if has_DBus then _ else _).
  destruct (loadConfigFile fallback (f0, O)) as [[f1 n1]|] eqn:H1; [|done]. cbn [mbind result_bind].
  destruct (loadConfigFile main (f1, n1)) as [[f2 n2]|] eqn:H2; [|done]. cbn [mbind result_bind]. intros [= <-].
  cbn [FromFile set_FromFile fst]. split.
  - assert (ArtifactVerifyKey f0 = EmptyString) as H0 by (unfold f0; by destruct has_DBus).
    assert (ArtifactVerifyKey f1 = EmptyString) as Hf1.
    { apply loadConfigFile_ok in H1 as [[[= -> _] _]|(f & _ & Hu & _)]; [done|]. by apply unify_keys_ok in Hu as [Hk _]. }
    apply loadConfigFile_ok in H2 as [[[= -> _] _]|(f & _ & Hu & _)]; [done|]. by apply unify_keys_ok in Hu as [Hk _].
  - intros before f Hread Hstat (n & Hb). fold f0 in Hb. assert (before = f1) as -> by congruence.
    apply loadConfigFile_ok in H2 as [[_ (err & Hs & _)]|(f' & Hr & Hu & _)]; [congruence|].
    cbn [fst] in Hr, Hu. assert (f' = f) as -> by congruence. by apply unify_keys_ok in Hu as (_ & Hk & _).
Qed.

(** A file that names one key. *)
Definition one_key (k : string) : string := marshal_text (JObj [("ArtifactVerifyKey", JStr k)]).

Lemma read_one_key f file k : ConfRead file = Ok (one_key k) -> readConfigFile f file = Ok (set_ArtifactVerifyKey k f).
Proof. intros Hr. unfold readConfigFile, one_key in *. rewrite Hr, unmarshal_marshal_text. reflexivity. Qed.

(** Either file alone is a configuration with that key, but both together are
    refused, although the main file is to override the other: the key of the
    fallback file has become a list when the main file is read. *)
Theorem keys_in_both_files main fallback k1 k2 : k1 <> EmptyString -> k2 <> EmptyString ->
  ConfStat fallback = None -> ConfStat main = None ->
  ConfRead fallback = Ok (one_key k1) -> ConfRead main = Ok (one_key k2) ->
  (exists f, loadConfigFile fallback (no_FromFile, O) = Ok (f, 1%nat) /\ ArtifactVerifyKeys f = [k1]) /\
  (exists f, loadConfigFile main (no_FromFile, O) = Ok (f, 1%nat) /\ ArtifactVerifyKeys f = [k2]) /\
  LoadConfig main fallback = Err (EText "both ArtifactVerifyKey and ArtifactVerifyKeys are set").
Proof.
  intros H1 H2 Hs1 Hs2 Hr1 Hr2.
  assert (forall file k f n, k <> EmptyString -> ConfStat file = None -> ConfRead file = Ok (one_key k) ->
    loadConfigFile file (f, n) = f ← unify_keys (set_ArtifactVerifyKey k f); Ok (f, S n)) as Hload.
  { intros file k f n Hk Hs Hr. unfold loadConfigFile. rewrite Hs. cbn [fst snd]. by rewrite (read_one_key f file k Hr). }
  assert (forall k f, k <> EmptyString -> ArtifactVerifyKeys f = [] -> unify_keys (set_ArtifactVerifyKey k f) =
    Ok (set_ArtifactVerifyKey EmptyString (set_ArtifactVerifyKeys [k] (set_ArtifactVerifyKey k f)))) as Hunify.
  { intros k f Hk Hf. unfold unify_keys. cbn [ArtifactVerifyKey ArtifactVerifyKeys set_ArtifactVerifyKey].
    by rewrite bool_decide_false, Hf. }
  split; [|split].
  - eexists. rewrite (Hload _ _ _ _ H1 Hs1 Hr1), Hunify by done. by split.
  - eexists. rewrite (Hload _ _ _ _ H2 Hs2 Hr2), Hunify by done. by split.
  - unfold LoadConfig. cbn [FromFile NewMenderConfig]. set (f0 := if has_DBus then _ else _).
    rewrite (Hload _ _ _ _ H1 Hs1 Hr1), Hunify by (done || unfold f0; by destruct has_DBus). cbn [mbind result_bind].
    rewrite (Hload _ _ _ _ H2 Hs2 Hr2). unfold unify_keys.
    cbn [ArtifactVerifyKey ArtifactVerifyKeys set_ArtifactVerifyKey set_ArtifactVerifyKeys].
    by rewrite bool_decide_false.
Qed.

End loaded.

(** ** The key of the monitoring server *)

(** A field of the structure that is another than the key leaves the key, and the
    key's own field decodes to it. *)
Definition about_key (field : string * pdecoder MenderConfigFromFile) : Prop :=
  forall j f, match field.2 j f with
    | (f', fail) =>
        if String.eqb (fold_name field.1) (fold_name "SoCAPIKey") then atom dec_string j (SoCAPIKey f) = (SoCAPIKey f', fail)
        else SoCAPIKey f' = SoCAPIKey f
    end.

Lemma about_key_other {F} name (get : MenderConfigFromFile -> F) set (d : pdecoder F) :
  String.eqb (fold_name name) (fold_name "SoCAPIKey") = false ->
  (forall v f, SoCAPIKey (set v f) = SoCAPIKey f) -> about_key (name, on_pfield get set d).
Proof. intros Hn Hs j f. unfold on_pfield. cbn [fst snd]. destruct (d j (get f)) as [v fail]. by rewrite Hn. Qed.

Lemma fields_about_key : Forall about_key FromFile_pfields.
Proof.
  unfold FromFile_pfields. repeat constructor; try by apply about_key_other.
  intros j f. unfold on_pfield. cbn [fst snd]. destruct (atom dec_string j (SoCAPIKey f)) as [v fail].
  by rewrite String.eqb_refl.
Qed.

Lemma find_pfield_Some {R} p (fs : list (string * pdecoder R)) d : find_pfield p fs = Some d ->
  exists k, (k, d) ∈ fs /\ p k = true.
Proof.
  induction fs as [|[k d0] fs IH]; cbn [find_pfield]; [done|]. destruct (p k) eqn:Hk.
  - intros [= ->]. exists k. split; [apply list_elem_of_here|done].
  - intros (k' & Hin & Hp)%IH. exists k'. split; [by apply list_elem_of_further|done].
Qed.

Lemma find_pfield_None {R} p (fs : list (string * pdecoder R)) k d : find_pfield p fs = None -> (k, d) ∈ fs -> p k = false.
Proof.
  induction fs as [|[k0 d0] fs IH]; cbn [find_pfield]; [by intros _ ?%elem_of_nil|]. destruct (p k0) eqn:Hk; [done|].
  intros Hf [[= -> ->]|Hin]%elem_of_cons; [done|by apply IH].
Qed.

(** The structure with one field looks up the key exactly when the other does. *)
Lemma lookup_agrees k :
  match lookup_pfield FromFile_pfields k with
  | Some d => exists name, about_key (name, d) /\ fold_name k = fold_name name
  | None => String.eqb (fold_name k) (fold_name "SoCAPIKey") = false
  end /\
  lookup_pfield SoC_pfields k =
    if String.eqb (fold_name k) (fold_name "SoCAPIKey") then Some (atom dec_string) else None.
Proof.
  split.
  - unfold lookup_pfield. destruct (find_pfield (String.eqb k) FromFile_pfields) as [d|] eqn:H1.
    + apply find_pfield_Some in H1 as (name & Hin & ->%String.eqb_eq). exists name. split; [|done].
      by apply (proj1 (Forall_forall _ _) fields_about_key).
    + destruct (find_pfield (fun f => String.eqb (fold_name k) (fold_name f)) FromFile_pfields) as [d|] eqn:H2.
      * apply find_pfield_Some in H2 as (name & Hin & Hf). cbv beta in Hf. rewrite String.eqb_eq in Hf. exists name. split; [|done].
        by apply (proj1 (Forall_forall _ _) fields_about_key).
      * eapply (find_pfield_None _ _ "SoCAPIKey") in H2; [exact H2|]. unfold FromFile_pfields.
        repeat (first [apply list_elem_of_here | apply list_elem_of_further]).
  - unfold lookup_pfield, SoC_pfields. cbn [find_pfield]. destruct (String.eqb_spec k "SoCAPIKey") as [->|Hk]; [done|].
    by destruct (String.eqb _ _).
Qed.

Lemma members_agree l : forall f f', p_members FromFile_pfields l f = (f', None) ->
  p_members SoC_pfields l (SoCAPIKey f) = (SoCAPIKey f', None).
Proof.
  induction l as [|[k j] l IH]; intros f f'; cbn [p_members]; [by intros [= <-]|].
  destruct (lookup_agrees k) as [Hfull ->]. destruct (lookup_pfield FromFile_pfields k) as [d|] eqn:Hd.
  - destruct Hfull as (name & Ha & Hk). specialize (Ha j f). cbn [fst snd] in Ha. rewrite <- Hk in Ha.
    destruct (d j f) as [f1 fail] eqn:Hdj. unfold and_then. destruct fail as [[e|e]|].
    + destruct (p_members FromFile_pfields l f1) as [f2 g]. done.
    + done.
    + intros Hm%IH. destruct (String.eqb (fold_name k) (fold_name "SoCAPIKey")); [by rewrite Ha|by rewrite <- Ha].
  - rewrite Hfull. apply IH.
Qed.

Lemma struct_agrees j f f' : p_struct FromFile_pfields j f = (f', None) ->
  p_struct SoC_pfields j (SoCAPIKey f) = (SoCAPIKey f', None).
Proof. unfold p_struct. destruct j; try done; [by intros [= <-]|apply members_agree]. Qed.

Section reloading.
Context `{ConfFiles}.

Lemma unify_keys_SoC f f' : unify_keys f = Ok f' -> SoCAPIKey f' = SoCAPIKey f.
Proof. unfold unify_keys. case_bool_decide; [by intros [= <-]|]. destruct (ArtifactVerifyKeys f); [by intros [= <-]|done]. Qed.

(** A file that os.Stat does not find cannot be read. *)
Definition missing_is_unreadable : Prop := forall p err, ConfStat p = Some err -> IsNotExist err = true -> is_ok (ConfRead p) = false.

Lemma reload_one file rest c c' : missing_is_unreadable -> loadConfigFile file c = Ok c' ->
  reload_from (file :: rest) (SoCAPIKey c.1) (negb (bool_decide (c.2 = O))) =
  reload_from rest (SoCAPIKey c'.1) (negb (bool_decide (c'.2 = O))).
Proof.
  intros Hmiss Hl. apply loadConfigFile_ok in Hl as [[-> (err & Hs & He)]|(f & Hr & Hu & Hn)]; cbn [reload_from].
  - specialize (Hmiss file err Hs He). by destruct (ConfRead file).
  - revert Hr. unfold readConfigFile. destruct (ConfRead file) as [data|]; [|done].
    destruct (unmarshal_text data) as [j|]; [|done].
    destruct (p_struct FromFile_pfields j c.1) as [f1 [fail|]] eqn:Hd; [done|]. intros [= ->].
    rewrite (struct_agrees _ _ _ Hd), (unify_keys_SoC _ _ Hu), Hn. done.
Qed.

(** C40: The key that the monitoring client reads again from the disk is the one that
    loading the whole configuration from the same files gives, whatever the two
    files say; it is an error when there is no file. *)
Theorem reloaded_key_is_configured c : missing_is_unreadable ->
  LoadConfig DefaultConfFile DefaultFallbackConfFile = Ok c ->
  SoCAPIKeyReloader =
    if is_ok (ConfRead DefaultFallbackConfFile) || is_ok (ConfRead DefaultConfFile) then Ok (SoCAPIKey (FromFile c))
    else Err (EText "no OTAPulse config file could be read").
Proof.
  intros Hmiss. unfold LoadConfig. set (f0 := if has_DBus then _ else _).
  destruct (loadConfigFile DefaultFallbackConfFile (f0, O)) as [c1|] eqn:H1; [|done]. cbn [mbind result_bind].
  destruct (loadConfigFile DefaultConfFile c1) as [c2|] eqn:H2; [|done]. cbn [mbind result_bind]. intros [= <-].
  pose proof (reload_one _ [DefaultConfFile] _ _ Hmiss H1) as R1. pose proof (reload_one _ [] _ _ Hmiss H2) as R2.
  assert (SoCAPIKey f0 = EmptyString) as H0 by (unfold f0; by destruct has_DBus).
  unfold SoCAPIKeyReloader. cbn [fst snd] in R1. rewrite H0 in R1. rewrite bool_decide_true in R1 by done.
  etrans; [exact R1|]. etrans; [exact R2|]. cbn [reload_from FromFile set_FromFile].
  assert (forall file a b, loadConfigFile file a = Ok b -> b.2 = (a.2 + if is_ok (ConfRead file) then 1 else 0)%nat) as Hcount.
  { intros file a b Hl. apply loadConfigFile_ok in Hl as [[-> (err & Hs & He)]|(f & Hr & _ & ->)].
    - rewrite (Hmiss file err Hs He). lia.
    - unfold readConfigFile in Hr. destruct (ConfRead file); [cbn; lia|done]. }
  rewrite (Hcount _ _ _ H2), (Hcount _ _ _ H1). cbn [snd].
  by destruct (is_ok (ConfRead DefaultFallbackConfFile)), (is_ok (ConfRead DefaultConfFile)).
Qed.

End reloading.

(** ** The servers *)

(** There is a list of servers after the validation, one for each entry or for the
    single URL, and it is refused only when both are given. *)
Theorem Validate_spec f :
  match Validate f with
  | Ok f' => exists servers, Servers f' = Some servers /\
      length servers = length (default [mkServer (ServerURL f)] (Servers f)) /\
      (forall i s, servers !! i = Some s -> exists s0, default [mkServer (ServerURL f)] (Servers f) !! i = Some s0 /\
         (server_URL s = server_URL s0 \/ HasSuffix (server_URL s0) "/" = true))
  | Err _ => Servers f <> None /\ ServerURL f <> EmptyString
  end.
Proof.
  assert (forall l i s, map (fun s => mkServer (TrimSlash (server_URL s))) l !! i = Some s ->
    exists s0, l !! i = Some s0 /\ (server_URL s = server_URL s0 \/ HasSuffix (server_URL s0) "/" = true)) as Htrim.
  { intros l i s Hs. apply list_lookup_fmap_Some in Hs as (s0 & -> & H0). exists s0. split; [done|].
    cbn [server_URL]. unfold TrimSlash. destruct (HasSuffix (server_URL s0) "/"); [by right|by left]. }
  unfold Validate. destruct (Servers f) as [servers|].
  - case_bool_decide as Hu; [|by split]. eexists. split; [done|]. cbn [default from_option]. split; [by rewrite length_map|].
    intros i s. apply Htrim.
  - eexists. split; [done|]. cbn [default from_option]. split; [done|]. intros i s. apply Htrim.
Qed.

(** ** The connections of the agent *)

Section agent.
Context `{Openssl} `{CertFiles} `{!Network}.

(** A connection that OpenSSL verified, with this context and no flag that skips a
    check, through a proxy only if the proxy agreed. *)
Definition verified_connection (proxy : string -> result (option ProxyURL)) (ctx : Ctx) (addr : string) (conn : Conn) : Prop :=
  VerifyResult conn = X509_Ok /\
  exists proxyURL, proxy addr = Ok proxyURL /\
    match proxyURL with
    | None => Dial addr ctx 0 = Ok conn
    | Some u => exists raw, NetDial (getHostPort u) = Ok raw /\
        Connect raw (connect_request addr u) = Answered 200 /\ DialUpgrade addr raw ctx 0 = Ok conn
    end.

Lemma client_of_configuration f client : NewApiClient (GetHttpConfig f) = Ok client -> SkipVerify f = false ->
  exists ctx, newOpenSSLCtx (GetHttpConfig f) = Ok ctx /\ DialTLS client = Some (ctx, GetHttpConfig f) /\
  forall proxy addr conn, dialOpenSSL proxy ctx (GetHttpConfig f) addr = Returned (Ok conn) ->
    verified_connection proxy ctx addr conn.
Proof.
  intros Hc Hv. destruct (NewApiClient_dials _ _ Hc) as (ctx & Hctx & Hd); [by unfold is_empty; cbn; destruct (ServerCertificate f), (maybeHTTPSClient f)|].
  exists ctx. split; [done|]. split; [done|]. intros proxy addr conn Hconn.
  by apply (connection_is_verified proxy ctx (GetHttpConfig f) addr conn).
Qed.

(** C8: An agent whose configuration does not skip the verification of certificates
    connects, for each request or download over https, with or without the
    monitoring server, by [dialOpenSSL] with the context of its configuration, and
    gets a connection only if OpenSSL verified the certificate: with no flag that
    skips a check, and through a proxy only when the proxy answered 200 to the
    request for that address.  The library's own TLS is never used.  A connection
    without TLS is made only for a URL with the scheme http, which the program does
    not refuse. *)
Theorem agent_connections_are_verified f clients client : NewMender f = Ok clients -> SkipVerify f = false ->
  client = api_client clients \/ client = download_client clients ->
  exists ctx, newOpenSSLCtx (GetHttpConfig f) = Ok ctx /\
  forall proxy scheme addr,
    match transport_dial proxy client scheme addr with
    | OverTLS o => scheme = "https" /\ o = dialOpenSSL proxy ctx (GetHttpConfig f) addr /\
        forall conn, o = Returned (Ok conn) -> verified_connection proxy ctx addr conn
    | OverTCP _ => scheme = "http"
    | LibraryTLS => False
    | UnsupportedScheme => scheme <> "https" /\ scheme <> "http"
    end.
Proof.
  intros Hm Hv Hin. assert (NewApiClient (GetHttpConfig f) = Ok client) as Hc.
  { revert Hm. unfold NewMender. destruct (NewApiClient (GetHttpConfig f)) as [c|]; [|by destruct (UseSoCMonitoring f)].
    destruct (UseSoCMonitoring f); intros [= <-]; by destruct Hin as [-> | ->]. }
  destruct (client_of_configuration _ _ Hc Hv) as (ctx & Hctx & Hd & Hver). exists ctx. split; [done|].
  intros proxy scheme addr. unfold transport_dial. case_bool_decide; [rewrite Hd; by eauto|by case_bool_decide].
Qed.

End agent.

(** ** A device *)

Import Toy.

Definition device_conf : MenderConfigFromFile :=
  set_ServerCertificate "gateway.crt" (set_HttpsClient (mkHttpsClient "/cert.pem" "pkcs11:key" "pkcs11") no_FromFile).

Definition device_client : HttpClient :=
  mkHttpClient (Some (toy_ctx, GetHttpConfig device_conf)) false false 0 connectionKeepaliveTime defaultClientReadingTimeout.

Definition device_clients : AgentClients := mkClients device_client device_client None.

Lemma agent_connections_are_verified_witness :
  NewMender device_conf = Ok device_clients /\
  transport_dial (toy_proxy "proxy") device_client "https" "gateway" = OverTLS (Returned (Ok ("gateway", true))) /\
  exists ctx, verified_connection (toy_proxy "proxy") ctx "gateway" ("gateway", true).
Proof.
  assert (NewMender device_conf = Ok device_clients) as Hm by (vm_compute; reflexivity).
  assert (transport_dial (toy_proxy "proxy") device_client "https" "gateway" = OverTLS (Returned (Ok ("gateway", true)))) as Ht
    by (vm_compute; reflexivity).
  split; [exact Hm|]. split; [exact Ht|].
  destruct (agent_connections_are_verified device_conf device_clients device_client Hm eq_refl (or_introl eq_refl))
    as (ctx & _ & Hall).
  exists ctx. specialize (Hall (toy_proxy "proxy") "https" "gateway"). rewrite Ht in Hall.
  exact (proj2 (proj2 Hall) ("gateway", true) eq_refl).
Defined.

(** The main file decides, but a server keeps what the main file does not say. *)
Definition two_files (main fallback : string) : ConfFiles := {|
  Getenv _ := EmptyString;
  pathExistsAndNotEmpty _ := false;
  ConfStat _ := None;
  ConfRead p := Ok (if String.eqb p "main" then main else fallback);
  has_DBus := false
|}.

Definition loads (main fallback : string) : result MenderConfig := @LoadConfig (two_files main fallback) "main" "fallback".

Definition poll (n : Z) : string * json := ("UpdatePollIntervalSeconds", JNum n).

Example main_overrides :
  (fun c => (UpdatePollIntervalSeconds (FromFile c), RetryPollCount (FromFile c))) <$>
    loads (marshal_text (JObj [poll 60])) (marshal_text (JObj [poll 1800; ("RetryPollCount", JNum 5)])) = Ok (60, 5).
Proof. vm_compute. reflexivity. Qed.

Example server_is_kept :
  Servers ∘ FromFile <$>
    loads (marshal_text (JObj [("Servers", JArr [JObj []])]))
      (marshal_text (JObj [("Servers", JArr [JObj [("ServerURL", JStr "https://old")]])])) =
  Ok (Some [mkServer "https://old"]).
Proof. vm_compute. reflexivity. Qed.

Example keys_conflict : loads (one_key "new.pem") (one_key "old.pem") =
  Err (EText "both ArtifactVerifyKey and ArtifactVerifyKeys are set").
Proof. vm_compute. reflexivity. Qed.

Definition soc_files : ConfFiles :=
  {| Getenv _ := EmptyString;
     pathExistsAndNotEmpty _ := false;
     ConfStat p := None;
     ConfRead p := Ok (if String.eqb p "/etc/otapulse/otapulse.conf" then marshal_text (JObj [("socapikey", JStr "new")])
                       else marshal_text (JObj [("SoCAPIKey", JStr "old"); poll 60]));
     has_DBus := false |}.

Definition soc_config : MenderConfig :=
  match @LoadConfig soc_files (@DefaultConfFile soc_files) (@DefaultFallbackConfFile soc_files) with
  | Ok c => c
  | Err _ => @NewMenderConfig soc_files
  end.

Lemma reloaded_key_is_configured_witness :
  SoCAPIKey (FromFile soc_config) = "new" /\ @SoCAPIKeyReloader soc_files = Ok (SoCAPIKey (FromFile soc_config)).
Proof.
  split; [vm_compute; reflexivity|].
  assert (@LoadConfig soc_files (@DefaultConfFile soc_files) (@DefaultFallbackConfFile soc_files) = Ok soc_config) as Hl
    by (vm_compute; reflexivity).
  assert (@missing_is_unreadable soc_files) as Hm by (intros p err Hs; discriminate Hs).
  exact (@reloaded_key_is_configured soc_files soc_config Hm Hl).
Defined.

(** ** Saving *)

Definition opt_string (name v : string) : list (string * json) := if bool_decide (v = EmptyString) then [] else [(name, JStr v)].
Definition opt_bool (name : string) (v : bool) : list (string * json) := if v then [(name, JBool true)] else [].
Definition opt_int (name : string) (v : Z) : list (string * json) := if v =? 0 then [] else [(name, JNum v)].
Definition opt_list (name : string) (l : list json) : list (string * json) := match l with [] => [] | _ => [(name, JArr l)] end.

Definition enc_HttpsClient (h : HttpsClient) : json :=
  JObj (opt_string "Certificate" (Certificate h) ++ opt_string "Key" (ClientKey h) ++ opt_string "SSLEngine" (SSLEngine h)).
Definition enc_Security (s : Security) : json :=
  JObj (opt_string "AuthPrivateKey" (AuthPrivateKey s) ++ opt_string "SSLEngine" (Security_SSLEngine s)).
Definition enc_Connectivity (c : Connectivity) : json :=
  JObj (opt_bool "DisableKeepAlive" (DisableKeepAlive c) ++ opt_int "IdleConnTimeoutSeconds" (IdleConnTimeoutSeconds c)).
Definition enc_server (s : MenderServer) : json := JObj [("ServerURL", JStr (server_URL s))].

(** A field with the tag omitempty is left out when it is empty; a structure never is. *)
Definition enc_FromFile (f : MenderConfigFromFile) : json :=
  JObj
    (opt_string "ArtifactVerifyKey" (ArtifactVerifyKey f) ++
     opt_list "ArtifactVerifyKeys" (map JStr (ArtifactVerifyKeys f)) ++
     opt_bool "RequireArtifactVerification" (RequireArtifactVerification f) ++
     [("HttpsClient", enc_HttpsClient (HttpsClient_conf f))] ++
     [("Security", enc_Security (Security_conf f))] ++
     [("Connectivity", enc_Connectivity (Connectivity_conf f))] ++
     opt_string "RootfsPartA" (RootfsPartA f) ++
     opt_string "RootfsPartB" (RootfsPartB f) ++
     opt_string "BootUtilitiesSetActivePart" (BootUtilitiesSetActivePart f) ++
     opt_string "BootUtilitiesGetNextActivePart" (BootUtilitiesGetNextActivePart f) ++
     opt_string "DeviceTypeFile" (DeviceTypeFile f) ++
     [("DBus", JObj [("Enabled", JBool (DBus_Enabled f))])] ++
     opt_int "UpdateControlMapExpirationTimeSeconds" (UpdateControlMapExpirationTimeSeconds f) ++
     opt_int "UpdateControlMapBootExpirationTimeSeconds" (UpdateControlMapBootExpirationTimeSeconds f) ++
     opt_int "UpdatePollIntervalSeconds" (UpdatePollIntervalSeconds f) ++
     opt_int "InventoryPollIntervalSeconds" (InventoryPollIntervalSeconds f) ++
     opt_bool "SkipVerify" (SkipVerify f) ++
     opt_int "RetryPollIntervalSeconds" (RetryPollIntervalSeconds f) ++
     opt_int "RetryPollCount" (RetryPollCount f) ++
     opt_int "StateScriptTimeoutSeconds" (StateScriptTimeoutSeconds f) ++
     opt_int "StateScriptRetryTimeoutSeconds" (StateScriptRetryTimeoutSeconds f) ++
     opt_int "StateScriptRetryIntervalSeconds" (StateScriptRetryIntervalSeconds f) ++
     opt_int "ModuleTimeoutSeconds" (ModuleTimeoutSeconds f) ++
     opt_string "ServerCertificate" (ServerCertificate f) ++
     opt_string "ServerURL" (ServerURL f) ++
     opt_string "UpdateLogPath" (UpdateLogPath f) ++
     opt_string "TenantToken" (TenantToken f) ++
     opt_list "Servers" (map enc_server (default [] (Servers f))) ++
     opt_string "DaemonLogLevel" (DaemonLogLevel f) ++
     opt_bool "UseSoCMonitoring" (UseSoCMonitoring f) ++
     opt_string "SoCAPIKey" (SoCAPIKey f) ++
     opt_string "SoCDeviceID" (SoCDeviceID f) ++
     opt_bool "UseFileBasedBootEnv" (UseFileBasedBootEnv f)).

(** json.MarshalIndent with four spaces: the text of a value [depth] levels down,
    before [rest]. *)
Definition new_line (depth : nat) (rest : string) : string :=
  String newline_char (Nat.iter depth (fun s => "    " +:+ s) rest).

Fixpoint print_indent (depth : nat) (j : json) (rest : string) : string :=
  match j with
  | JArr ((_ :: _) as l) =>
      String "[" (new_line (S depth) ((fix go l :=
        match l with
        | [] => new_line depth (String "]" rest)
        | x :: l' => print_indent (S depth) x (match l' with [] => go l' | _ => String "," (new_line (S depth) (go l')) end)
        end) l))
  | JObj ((_ :: _) as l) =>
      String "{" (new_line (S depth) ((fix go l :=
        match l with
        | [] => new_line depth (String "}" rest)
        | (k, x) :: l' =>
            print_string k (String ":" (String " "
              (print_indent (S depth) x (match l' with [] => go l' | _ => String "," (new_line (S depth) (go l')) end))))
        end) l))
  | j => print j rest
  end.

Definition MarshalIndent (j : json) : string := print_indent 0 j EmptyString.

(** os.OpenFile, which creates or truncates the file, with permissions for a new
    one, and writing. *)
Class SaveFile (D : Type) := {
  OpenTruncate : string -> Z -> IO D unit;
  WriteSaved : string -> string -> IO D unit
}.

Definition SaveConfigFile `{SaveFile D} (f : MenderConfigFromFile) (filename : string) : IO D unit :=
  _ ← wrap "Error opening configuration file" (OpenTruncate filename 384);
  wrap "Error writing to configuration file" (WriteSaved filename (MarshalIndent (enc_FromFile f))).

(** ** An indented text is parsed *)

Lemma skip_new_line d s : skip_ws (new_line d s) = skip_ws s.
Proof. unfold new_line. cbn [skip_ws]. change (is_ws newline_char) with true. cbv iota. induction d as [|d IH]; [done|exact IH]. Qed.

Lemma parse_value_line n d s : parse_value n (new_line d s) = parse_value n s.
Proof. destruct n as [|n]; [done|]. cbn [parse_value]. by rewrite skip_new_line. Qed.

Lemma parse_value_space n s : parse_value n (String " " s) = parse_value n s.
Proof. by destruct n. Qed.

Lemma parse_elems_line n d s : parse_elems n (new_line d s) = parse_elems n s.
Proof. destruct n as [|n]; [done|]. by rewrite !parse_elems_S, parse_value_line. Qed.

Lemma parse_members_line n d s : parse_members n (new_line d s) = parse_members n s.
Proof. destruct n as [|n]; [done|]. rewrite !parse_members_S. unfold parse_key. by rewrite skip_new_line. Qed.

(** The elements of an array and the members of an object after the first line
    feed. *)
Definition indent_elems (depth : nat) (rest : string) : list json -> string :=
  fix go l :=
    match l with
    | [] => new_line depth (String "]" rest)
    | x :: l' => print_indent (S depth) x (match l' with [] => go l' | _ => String "," (new_line (S depth) (go l')) end)
    end.

Definition indent_members (depth : nat) (rest : string) : list (string * json) -> string :=
  fix go l :=
    match l with
    | [] => new_line depth (String "}" rest)
    | (k, x) :: l' =>
        print_string k (String ":" (String " "
          (print_indent (S depth) x (match l' with [] => go l' | _ => String "," (new_line (S depth) (go l')) end))))
    end.

Lemma print_indent_arr d x l rest :
  print_indent d (JArr (x :: l)) rest = String "[" (new_line (S d) (indent_elems d rest (x :: l))).
Proof. reflexivity. Qed.
Lemma print_indent_obj d kv l rest :
  print_indent d (JObj (kv :: l)) rest = String "{" (new_line (S d) (indent_members d rest (kv :: l))).
Proof. destruct kv. reflexivity. Qed.

Lemma print_indent_head d j rest : exists c s, print_indent d j rest = String c s /\ value_head c = true.
Proof.
  destruct j as [|b|z|s|[|x l]|[|kv l]]; try apply (print_head _ rest); [by do 2 eexists|].
  rewrite print_indent_obj. by do 2 eexists.
Qed.

Lemma strip_close_indent p d j rest : p = "]" \/ p = "}" -> strip p (skip_ws (print_indent d j rest)) = None.
Proof.
  destruct (print_indent_head d j rest) as (c & s & -> & Hc). rewrite skip_ws_head by done.
  unfold value_head in Hc. rewrite !andb_true_iff, !negb_true_iff, !bool_decide_eq_false in Hc.
  intros [-> | ->]; cbn [strip]; rewrite bool_decide_false; try done; intros <-; tauto.
Qed.

Definition parse_indents (j : json) : Prop := forall d n rest,
  (need j <= n)%nat -> stops_num rest -> parse_value n (print_indent d j rest) = Some (j, rest).

Lemma parse_indent_elems d l rest n : l <> [] -> Forall parse_indents l ->
  (need_elems l <= n)%nat -> parse_elems n (indent_elems d rest l) = Some (l, rest).
Proof.
  revert n. induction l as [|x l IH]; intros n Hl HP Hn; [done|].
  apply Forall_cons in HP as [Hx HP]. cbn in Hn. destruct n as [|n]; [lia|].
  destruct l as [|y l].
  - rewrite parse_elems_S. cbn [indent_elems]. rewrite Hx by first [lia|done]. by rewrite skip_new_line.
  - eapply parse_elems_more with (r := new_line (S d) (indent_elems d rest (y :: l))).
    + cbn [indent_elems]. apply Hx; [lia|done].
    + rewrite parse_elems_line. apply IH; [done..|]. fold need_elems in Hn. lia.
Qed.

Lemma parse_indent_members d l rest n : l <> [] -> Forall (fun kv => parse_indents kv.2) l ->
  (need_members l <= n)%nat -> parse_members n (indent_members d rest l) = Some (l, rest).
Proof.
  revert n. induction l as [|[k x] l IH]; intros n Hl HP Hn; [done|].
  apply Forall_cons in HP as [Hx HP]. cbn in Hn, Hx. destruct n as [|n]; [lia|].
  destruct l as [|y l].
  - rewrite parse_members_S. cbn [indent_members]. rewrite parse_key_print.
    rewrite (skip_ws_head _ _ (eq_refl : value_head ":" = true)).
    match goal with |- context [strip ":" (String ":" ?s)] => change (strip ":" (String ":" s)) with (Some s) end. cbv iota.
    rewrite parse_value_space, Hx by first [lia|done]. by rewrite skip_new_line.
  - eapply parse_members_more with (r := new_line (S d) (indent_members d rest (y :: l))).
    + cbn [indent_members]. rewrite parse_value_space. apply Hx; [lia|done].
    + rewrite parse_members_line. apply IH; [done..|]. fold need_members in Hn. lia.
Qed.

Lemma parse_indent j : parse_indents j.
Proof.
  induction j as [|b|z|s|l HP|l HP] using json_nested_ind; intros d n rest Hn Hr;
    try exact (parse_print _ n rest Hn Hr); (destruct n as [|n]; [cbn in Hn; lia|]).
  - destruct l as [|x l]; [done|]. rewrite print_indent_arr, parse_value_arr.
    + rewrite parse_elems_line, parse_indent_elems; [done..|]. change (need (JArr (x :: l))) with
        (S (need_elems (x :: l))) in Hn. lia.
    + rewrite skip_new_line. apply strip_close_indent. by left.
  - destruct l as [|[k x] l]; [done|]. rewrite print_indent_obj, parse_value_obj; [|by rewrite skip_new_line].
    rewrite parse_members_line, parse_indent_members; [done..|]. change (need (JObj ((k, x) :: l))) with
      (S (need_members ((k, x) :: l))) in Hn. lia.
Qed.

(** The length of the text bounds the fuel here too. *)
Lemma new_line_length d s : (String.length s < String.length (new_line d s))%nat.
Proof. unfold new_line. cbn [String.length]. induction d as [|d IH]; [cbn; lia|]. cbn [Nat.iter nat_rect]. rewrite string_app_length. cbn [String.length]. unfold Nat.iter in IH. lia. Qed.

#[local] Arguments new_line : simpl never.

Definition indent_needs (j : json) : Prop := forall d rest,
  (need j + String.length rest <= String.length (print_indent d j rest))%nat.

Lemma indent_elems_need d l rest : Forall indent_needs l ->
  (need_elems l + String.length rest <= String.length (indent_elems d rest l))%nat.
Proof.
  induction 1 as [|x l Hx _ IH]; [exact (Nat.lt_le_incl _ _ (Nat.lt_succ_l _ _ (new_line_length d (String "]" rest))))|].
  cbn [need_elems indent_elems]. fold need_elems. fold (indent_elems d rest). destruct l as [|y l].
  - specialize (Hx (S d) (indent_elems d rest [])). pose proof (new_line_length d (String "]" rest)). cbn in *. lia.
  - specialize (Hx (S d) (String "," (new_line (S d) (indent_elems d rest (y :: l))))).
    pose proof (new_line_length (S d) (indent_elems d rest (y :: l))). cbn [String.length] in Hx. lia.
Qed.

Lemma indent_members_need d l rest : Forall (fun kv => indent_needs kv.2) l ->
  (need_members l + String.length rest <= String.length (indent_members d rest l))%nat.
Proof.
  induction 1 as [|[k x] l Hx _ IH]; [exact (Nat.lt_le_incl _ _ (Nat.lt_succ_l _ _ (new_line_length d (String "}" rest))))|].
  cbn [need_members indent_members]. fold need_members. fold (indent_members d rest). cbn [snd] in Hx.
  match goal with |- (_ <= String.length (print_string k ?u))%nat =>
    assert (String.length u <= String.length (print_string k u))%nat as Hl
      by (unfold print_string; cbn [String.length]; pose proof (print_chars_length k (String "034" u)) as Hp; cbn [String.length] in Hp; lia) end.
  cbn [String.length] in Hl. destruct l as [|y l].
  - specialize (Hx (S d) (indent_members d rest [])). pose proof (new_line_length d (String "}" rest)). cbn in *. lia.
  - specialize (Hx (S d) (String "," (new_line (S d) (indent_members d rest (y :: l))))).
    pose proof (new_line_length (S d) (indent_members d rest (y :: l))). cbn [String.length] in Hx. lia.
Qed.

Lemma indent_need j : indent_needs j.
Proof.
  induction j as [|b|z|s|l HP|l HP] using json_nested_ind; intros d rest; try exact (print_need _ rest).
  - destruct l as [|x l]; [exact (print_need _ rest)|]. rewrite print_indent_arr.
    change (need (JArr (x :: l))) with (S (need_elems (x :: l))).
    pose proof (indent_elems_need d (x :: l) rest HP). pose proof (new_line_length (S d) (indent_elems d rest (x :: l))).
    cbn [String.length]. lia.
  - destruct l as [|x l]; [exact (print_need _ rest)|]. rewrite print_indent_obj.
    change (need (JObj (x :: l))) with (S (need_members (x :: l))).
    pose proof (indent_members_need d (x :: l) rest HP). pose proof (new_line_length (S d) (indent_members d rest (x :: l))).
    cbn [String.length]. lia.
Qed.

Lemma unmarshal_MarshalIndent j : unmarshal_text (MarshalIndent j) = Some j.
Proof.
  unfold unmarshal_text, MarshalIndent. pose proof (indent_need j O EmptyString) as H. cbn in H.
  rewrite parse_indent; [done|lia|done].
Qed.

(** ** What was saved is loaded *)

Section fields.
Context {R : Type} (fs : list (string * pdecoder R)).

Lemma p_members_after l1 l2 r r1 : p_members fs l1 r = (r1, None) -> p_members fs (l1 ++ l2) r = p_members fs l2 r1.
Proof.
  revert r. induction l1 as [|[k j] l1 IH]; intros r; cbn [p_members app]; [by intros [= <-]|].
  destruct (match lookup_pfield fs k with Some d => d j r | None => (r, None) end) as [r0 [[e|e]|]]; cbn [and_then].
  - destruct (p_members fs l1 r0). by intros [=].
  - done.
  - apply IH.
Qed.

Context {F : Type} (name : string) (get : R -> F) (set : F -> R -> R) (d : pdecoder F).
Hypothesis found : lookup_pfield fs name = Some (on_pfield get set d).

Lemma p_member j v r : d j (get r) = (v, None) -> p_members fs [(name, j)] r = (set v r, None).
Proof. intros Hd. cbn [p_members]. rewrite found. unfold on_pfield. by rewrite Hd. Qed.

(** A field that may be left out, decoded onto its zero. *)
Lemma p_optional (l : list (string * json)) v r : (l = [] /\ set v r = r) \/ (exists j, l = [(name, j)] /\ d j (get r) = (v, None)) ->
  p_members fs l r = (set v r, None).
Proof. intros [[-> Hs]|(j & -> & Hd)]; [cbn [p_members]; by rewrite Hs|by apply p_member]. Qed.

End fields.

Section saved_fields.
Context {R : Type} (fs : list (string * pdecoder R)) (name : string).

Lemma p_opt_string get (set : string -> R -> R) v r l : lookup_pfield fs name = Some (on_pfield get set (atom dec_string)) ->
  set EmptyString r = r -> p_members fs (opt_string name v ++ l) r = p_members fs l (set v r).
Proof.
  intros Hf Hs. apply p_members_after, (p_optional fs name get set (atom dec_string) Hf). unfold opt_string.
  case_bool_decide as Hv; [left; by rewrite Hv|right]. by eexists.
Qed.

Lemma p_opt_bool get (set : bool -> R -> R) v r l : lookup_pfield fs name = Some (on_pfield get set (atom dec_bool)) ->
  set false r = r -> p_members fs (opt_bool name v ++ l) r = p_members fs l (set v r).
Proof.
  intros Hf Hs. apply p_members_after, (p_optional fs name get set (atom dec_bool) Hf).
  destruct v; [right; by eexists|by left].
Qed.

Lemma p_opt_int get (set : Z -> R -> R) v r l : lookup_pfield fs name = Some (on_pfield get set (atom dec_int)) ->
  int64_min <= v <= int64_max -> set 0 r = r -> p_members fs (opt_int name v ++ l) r = p_members fs l (set v r).
Proof.
  intros Hf Hr Hs. apply p_members_after, (p_optional fs name get set (atom dec_int) Hf). unfold opt_int.
  destruct (Z.eqb_spec v 0) as [->|]; [by left|right]. eexists. split; [done|]. unfold atom, dec_int.
  by rewrite (proj2 (Z.leb_le _ _) (proj1 Hr)), (proj2 (Z.leb_le _ _) (proj2 Hr)).
Qed.

Lemma p_field {F} get (set : F -> R -> R) d j v r l : lookup_pfield fs name = Some (on_pfield get set d) ->
  d j (get r) = (v, None) -> p_members fs ((name, j) :: l) r = p_members fs l (set v r).
Proof. intros Hf Hd. by apply (p_members_after fs [(name, j)]), (p_member fs name get set d Hf). Qed.

End saved_fields.

Lemma p_elements_map {R A} zero (d : pdecoder R) (enc : A -> json) (dec : A -> R) (l : list A) :
  (forall x, d (enc x) zero = (dec x, None)) -> p_elements zero d [] (map enc l) = (map dec l, None).
Proof. intros Hd. induction l as [|x l IH]; [done|]. cbn [map p_elements tail]. by rewrite Hd, IH. Qed.

Definition no_Https : HttpsClient := mkHttpsClient EmptyString EmptyString EmptyString.

Lemma dec_enc_HttpsClient h : p_struct HttpsClient_pfields (enc_HttpsClient h) no_Https = (h, None).
Proof.
  unfold enc_HttpsClient. cbn [p_struct]. rewrite <- (app_nil_r (opt_string "SSLEngine" _)).
  erewrite p_opt_string by reflexivity. erewrite p_opt_string by reflexivity. erewrite p_opt_string by reflexivity. by destruct h.
Qed.

Lemma dec_enc_Security s : p_struct Security_pfields (enc_Security s) (mkSecurity EmptyString EmptyString) = (s, None).
Proof.
  unfold enc_Security. cbn [p_struct]. rewrite <- (app_nil_r (opt_string "SSLEngine" _)).
  erewrite p_opt_string by reflexivity. erewrite p_opt_string by reflexivity. by destruct s.
Qed.

Lemma dec_enc_Connectivity c : int64_min <= IdleConnTimeoutSeconds c <= int64_max ->
  p_struct Connectivity_pfields (enc_Connectivity c) (mkConnectivity false 0) = (c, None).
Proof.
  intros Hi. unfold enc_Connectivity. cbn [p_struct]. rewrite <- (app_nil_r (opt_int "IdleConnTimeoutSeconds" _)).
  erewrite p_opt_bool by reflexivity. erewrite p_opt_int by first [exact Hi|reflexivity]. by destruct c.
Qed.

(** The numbers are those of the program, and a list of servers is not empty. *)
Record savable (f : MenderConfigFromFile) : Prop := mkSavable {
  sv_ints : Forall (fun z => int64_min <= z <= int64_max)
    [UpdateControlMapExpirationTimeSeconds f;
     UpdateControlMapBootExpirationTimeSeconds f;
     UpdatePollIntervalSeconds f;
     InventoryPollIntervalSeconds f;
     RetryPollIntervalSeconds f;
     RetryPollCount f;
     StateScriptTimeoutSeconds f;
     StateScriptRetryTimeoutSeconds f;
     StateScriptRetryIntervalSeconds f;
     ModuleTimeoutSeconds f;
     IdleConnTimeoutSeconds (Connectivity_conf f)];
  sv_servers : Servers f <> Some []
}.

Lemma p_opt_keys v l r : ArtifactVerifyKeys r = [] ->
  p_members FromFile_pfields (opt_list "ArtifactVerifyKeys" (map JStr v) ++ l) r =
  p_members FromFile_pfields l (set_ArtifactVerifyKeys v r).
Proof.
  intros Hr. eapply p_members_after, (p_optional FromFile_pfields "ArtifactVerifyKeys" ArtifactVerifyKeys set_ArtifactVerifyKeys p_key_list); [reflexivity|].
  destruct v as [|k v]; [left; split; [done|]; destruct r; cbn in Hr |- *; by rewrite Hr|right].
  eexists. split; [reflexivity|]. rewrite Hr.
  change (p_elements EmptyString (atom dec_string) [] (map JStr (k :: v)) = (k :: v, None)).
  rewrite (p_elements_map EmptyString (atom dec_string) JStr id); [|done]. by rewrite map_id.
Qed.

Lemma p_opt_servers v l r : Servers r = None -> v <> Some [] ->
  p_members FromFile_pfields (opt_list "Servers" (map enc_server (default [] v)) ++ l) r =
  p_members FromFile_pfields l (set_Servers v r).
Proof.
  intros Hr Hv. eapply p_members_after, (p_optional FromFile_pfields "Servers" Servers set_Servers p_servers); [reflexivity|].
  destruct v as [[|s v]|]; [done| |left; split; [done|]; destruct r; cbn in Hr |- *; by rewrite Hr].
  right. eexists. split; [reflexivity|]. rewrite Hr.
  change ((let '(vs, f) := p_elements (mkServer EmptyString) (p_struct MenderServer_pfields) [] (map enc_server (s :: v)) in
           (Some vs, f)) = (Some (s :: v), None)).
  rewrite (p_elements_map (mkServer EmptyString) (p_struct MenderServer_pfields) enc_server id); [by rewrite map_id|].
  intros [u]. reflexivity.
Qed.

(** One field of the text is read, and the structure it is stored in computed. *)
Ltac take_field l :=
  erewrite l; cycle 1;
  [first [reflexivity|assumption|apply dec_enc_HttpsClient|apply dec_enc_Security|by apply dec_enc_Connectivity]..|];
  match goal with |- p_members _ _ ?r = _ => let r' := eval cbv in r in change r with r' end.

(** A saved configuration, decoded into an empty structure, is the one that was
    saved. *)
Lemma dec_enc_FromFile f : savable f ->
  p_struct FromFile_pfields (enc_FromFile f) no_FromFile = (f, None).
Proof.
  intros [Hi Hs]. destruct f. cbn in Hi, Hs. rewrite !Forall_cons in Hi. destruct Hi as (? & ? & ? & ? & ? & ? & ? & ? & ? & ? & ? & _).
  unfold enc_FromFile. cbn [p_struct app]. rewrite <- (app_nil_r (opt_bool "UseFileBasedBootEnv" _)).
  repeat first
    [take_field (p_opt_string FromFile_pfields) | take_field (p_opt_bool FromFile_pfields)
    | take_field (p_opt_int FromFile_pfields) | take_field p_opt_keys | take_field p_opt_servers
    | take_field (p_field FromFile_pfields)].
  reflexivity.
Qed.

(** When the file that was written is the one that is read, the configuration that
    was saved is loaded again. *)
Theorem saved_configuration_is_loaded `{SaveFile D} (files : D -> ConfFiles) f filename s s' :
  (forall text s0 s1, WriteSaved filename text s0 = (Ok tt, s1) -> @ConfRead (files s1) filename = Ok text) ->
  savable f -> SaveConfigFile f filename s = (Ok tt, s') -> @readConfigFile (files s') no_FromFile filename = Ok f.
Proof.
  intros Hw Hf. unfold SaveConfigFile, wrap, mbind, IO_bind.
  destruct (OpenTruncate filename 384 s) as [[[]|e] s0]; [|done].
  destruct (WriteSaved filename _ s0) as [[[]|e] s1] eqn:Hs; [|done]. intros [= <-].
  unfold readConfigFile. by rewrite (Hw _ _ _ Hs), unmarshal_MarshalIndent, dec_enc_FromFile.
Qed.

Definition saved_example : MenderConfigFromFile :=
  set_Servers (Some [mkServer "https://a"; mkServer "https://b"])
    (set_ArtifactVerifyKeys ["/etc/key.pem"]
      (set_Connectivity (mkConnectivity true (-1)) (set_UpdatePollIntervalSeconds 1800 no_FromFile))).


(** A store of one file. *)
Definition one_file : SaveFile string := {| OpenTruncate _ _ _ := (Ok tt, EmptyString); WriteSaved _ text _ := (Ok tt, text) |}.
Definition one_file_read (text : string) : ConfFiles :=
  {| Getenv _ := EmptyString;
     pathExistsAndNotEmpty _ := false;
     ConfStat _ := None;
     ConfRead _ := Ok text;
     has_DBus := false |}.

Lemma saved_configuration_is_loaded_witness :
  @readConfigFile (one_file_read (@SaveConfigFile _ one_file saved_example "otapulse.conf" EmptyString).2) no_FromFile "otapulse.conf" =
  Ok saved_example.
Proof.
  assert (savable saved_example) as Hs.
  { split; [|done]. repeat constructor; vm_compute; discriminate. }
  apply (@saved_configuration_is_loaded _ one_file one_file_read saved_example "otapulse.conf" EmptyString); [|exact Hs|reflexivity].
  by intros text s0 s1 [= <-].
Defined.
